(* ===== verification/_CoqProject ===== *)
-Q . S2P
Prelude.v
GoStd.v
GoNet.v
Base64.v
GoUrl.v
GoErrors.v
HttpClient.v
Config.v
Registry.v
Destinations.v
EdgePolicy.v
Catalog.v
Reissue.v
Connecterr.v
Authn.v
AuditLog.v
SourceIP.v
Gateway.v
Forward.v
Forwardgen.v
Discovery.v
Verifier.v
KeySet.v
Introspection.v
SingleFlight.v
KeySetFlight.v
IntrospectionFlight.v
Idp.v
Logging.v
Mux.v
Token.v
Telemetry.v
Httpapi.v
FakeIdp.v
EndToEnd.v
EndToEndTokens.v
DevTools.v
FakeIdpMain.v
TestBackend.v
Greet.v
GenForward.v
ForwardFiles.v
Server.v
