(* ===== verification/Prelude.v ===== *)
(** * tolo-service-gateway: verification library

    The gateway is the only entrance to a set of services.  It takes Connect RPCs
    from clients on a public listener and from the services on an internal one,
    decides on the caller's credential whether a call is admitted, exchanges the
    credential for an internal token and forwards the call; every exchange leaves
    an audit line.  This library models the Go code of [src/] (the commands of
    [src/cmd] and the packages of [src/internal]) and proves what each part
    promises to the others and what the whole process promises to its operator.

    ** How the program maps to the library

    Foundations
    - Prelude.v: [result] for a Go [(T, error)], [M W] for code that acts on a
      world [W], their notations, tactics and hint databases.
    - GoStd.v, GoNet.v, Base64.v, Mux.v: what the code uses of [strings],
      [strconv], [slices], [maps], [time], [net], [net/netip], [encoding/base64],
      [math/big] and the [ServeMux] of [net/http], executable.
    - GoUrl.v: escaping, forms and Basic credentials ([net/url], [base64] and
      [SetBasicAuth]), each writer with the theorem that its reader undoes it.
    - GoErrors.v: error values with [errors.Is], [As] and [Join].
    - HttpClient.v: redirects of [http.Client], and the clients the gateway builds.
    - SingleFlight.v: any number of concurrent calls behind a [singleflight.Group],
      as a transition system with its invariants and the end of every call.

    What the gateway is configured with
    - Config.v ([internal/config]): [Load], from environment to configuration.
    - Registry.v, Destinations.v ([internal/registry]): one entry per procedure,
      from the bindings, the services' policies and their descriptors; the origin
      of each service.
    - EdgePolicy.v ([internal/edgepolicy]): which service may call which.
    - Catalog.v ([internal/catalog]): the bindings, overrides and edges in use.

    How a request is handled
    - Gateway.v ([internal/infra/connect]): the pipeline of a service: classify,
      admit, serve, audit.  Its admissions call
    - Authn.v ([.../connect/authn]): the credential of a public or a service call,
      over the verifier and introspector interfaces, and
    - Reissue.v ([internal/reissue]): service tokens along the declared edges.
    - Forward.v ([.../connect/forward]): the call to the service, its deadline,
      its token and the translation of its errors.
    - Connecterr.v, SourceIP.v, AuditLog.v ([.../connecterr], [sourceip.go],
      [internal/audit]): the fixed errors, the source address, the audit record.

    Where external tokens are checked ([internal/externaltoken], [internal/idp])
    - Discovery.v, KeySet.v, Verifier.v, Introspection.v: the metadata of the
      IdP, its keys, its tokens and whether they are still active, each operation
      as one call runs it.
    - KeySetFlight.v, IntrospectionFlight.v: the same operations run by concurrent
      calls, as protocols of SingleFlight.v; a run of one call is an execution.
    - Idp.v: the provider that resolves these and serves the authenticator.

    The process
    - Token.v ([internal/token]), Logging.v ([internal/logging]), Telemetry.v
      ([internal/telemetry]), Httpapi.v ([internal/infra/httpapi]): the internal
      keys, the log entries, tracing, and the handler of a listener.
    - Forwardgen.v, ForwardFiles.v ([.../connect/forwardgen]): the generated
      table of mounts, and the generated files themselves.
    - Server.v ([cmd/server]): [run], which builds all of the above, listens and
      shuts down.

    Tools
    - GenForward.v ([internal/cmd/genforward]): the generator of those files.
    - FakeIdp.v, FakeIdpMain.v, TestBackend.v, DevTools.v ([internal/fakeidp],
      [internal/testbackend], [cmd/fakeidp], [cmd/testbackend]): the servers of a
      local set-up.
    - Greet.v ([gen/greet/v1/greetv1connect]): the generated client, adapters and
      forwarder of the greeting service, with the test backend behind them.

    Together
    - EndToEnd.v, EndToEndTokens.v: the gateway against the fake IdP: its tokens
      and keys, and its revocations.

    Definitions keep the names of the source; where Rocq needs another name, or a
    loop or a stretch of a function is a definition of its own, its comment says
    what it is.  State that the code guards by a mutex is passed explicitly, and
    each operation that holds the mutex is one step: concurrent calls are
    interleavings of these steps, and the invariants are proved for all of them
    (of the key set and the introspector as transitions of SingleFlight.v, of the
    other caches as sequences of their operations).

    ** What the theorems show

    - Requests (Gateway.v, Authn.v, Reissue.v): both listeners refine a short
      specification of who may call what with which token; the admission of a
      public call and of a service call, and the reissue decision, are what a
      declarative specification says, on every branch; a call the policy refuses
      issues nothing; every exchange of a registered procedure is audited exactly
      once, panics included.
    - External tokens (Verifier.v, KeySet.v, Introspection.v, Discovery.v,
      Idp.v): acceptance is characterised exactly; no algorithm confusion: an
      accepted token is signed by the algorithm its own header names, with the key
      resolved for the header's own key ID; only acceptable keys are ever held, whatever the IdP serves; cached answers are
      fresh, bounded in number and never outlive their token; downloads and
      retries are bounded; the key set recovers and resolution ends as soon as the
      IdP answers.
    - Concurrency (SingleFlight.v, KeySetFlight.v, IntrospectionFlight.v): for any
      number of calls in any interleaving, only acceptable keys are held and
      returned, the IdP is not asked about a token with a cached answer, every
      answer is what the IdP said, and every call returns; the requests, timers and
      looks at the context of a key set's call are events, and the sequential
      [Key] is an execution with exactly the events its run records.
    - End to end (EndToEnd.v, EndToEndTokens.v, Greet.v): a token of the fake IdP
      that is read in its lifetime is accepted with what it was requested with; the
      fake IdP reads an introspection request as it was meant; a revocation takes
      effect within the cache's lifetime, for calls one after the other and, at
      moments when no flight for the ID is under way, for concurrent ones; and a
      response a client gets through the gateway's forwarder is the service's own.
    - Configuration (Config.v, Registry.v, EdgePolicy.v, Catalog.v): [Load] and
      the two [Build]s accept exactly the valid inputs and return what they
      denote; whatever policies the services bring, a registry of the catalog that
      prints the golden file is one and the same.
    - Forwarding (Forward.v): only a service's own statements reach a client as
      its error; the [Authorization] header of a forwarded call is the internal
      token, and the call has a deadline.
    - Records (AuditLog.v, SourceIP.v, Logging.v): a record can be read back from
      its line, a client cannot forge the reported address, and no attribute
      displaces a key the logger writes (but for groups without a key and groups
      with a reserved name, two findings).
    - The process (Server.v, Token.v, Httpapi.v): when [run] listens and how it
      ends, what a prepared process consists of, and that on every listener the
      path of a procedure reaches the pipeline that classifies it as that
      procedure.
    - Tools (FakeIdp.v, GenForward.v, ForwardFiles.v): the fake IdP's key and
      claims are read back by the gateway's own key set and verifier, its
      revocations are permanent; the generator's request lists every file behind
      its imports, a run leaves the directory with exactly the generated files, the
      committed table of mounts is the one it makes for the catalog whatever the
      services declare, and the committed greeting forwarder the one it makes of
      the committed [greet.proto].

    ** Bounds and fuel

    A Go [int] is a [Z] with its 64-bit bounds where it is parsed; durations and
    times are nanoseconds as [Z], with the saturation of [Sub] and, in FakeIdp.v,
    the wrap-around of a product.  [Idp.Run] waits for the IdP as long as it takes,
    so it has fuel, one unit per turn of its loop; [Idp.run_terminates] gives the
    number of turns after which it ends for a world in which the IdP answers.  The
    fuel of [Base64.Bytes] is the bit length, which its round trip shows to be
    enough.  [HttpClient.Do] has fuel for its redirects; a client of the gateway
    takes one turn, and [HttpClient.Do_default_ends] bounds the default policy.  All
    other recursion is structural.

    ** Parameters

    Code that is not under [src/] is a parameter: a class over a world for an
    interface with effects (golang-jwt, HTTP clients, clocks and timers, the token
    issuers and verifiers of internal-jwt-handling, the machine [run] starts on),
    a function for a pure one ([url.Parse], JSON decoders, the policies generated
    for other services).  Laws are documented behaviour and are named where they
    are assumed; every theorem with a hypothesis has a witness that meets it with
    concrete functions.

    ** Not modelled

    - Process log lines, spans and their attributes, and the fields of errors that
      only a log shows.
    - How a value is printed as JSON text: log entries and documents are trees.
    - The Connect runtime and the protobuf code of messages: Greet.v states what it
      uses of them.  The generated packages of the other services are not in the
      repository.
    - TLS and connection handling of [net/http], and [http.ServeContent] behind the
      JWKS endpoint.
    - A panic inside a flight, and the memory model below the mutexes; the atomic
      pointer of the provider is the resolution its readers hold. *)

From Stdlib Require Export ZArith Lia Ascii.
From stdpp Require Export base tactics decidable countable option list strings
  fin_maps gmap sets sorting.

#[export] Set Warnings "-clear-no-such-hyp".

(** ** The two shapes of a Go result

    A Go function that returns [(T, error)] is a function into [result E T]; a
    Go method that reads or changes state outside its arguments is a function
    into [M W A], the state monad over the world [W]. *)

Inductive result (E A : Type) : Type :=
| Ok (a : A)
| Err (e : E).

Arguments Ok {E A} a.
Arguments Err {E A} e.

#[export] Instance result_eq_dec {E A} `{!EqDecision E} `{!EqDecision A} :
  EqDecision (result E A).
Proof. solve_decision. Defined.

Definition result_bind {E A B} (r : result E A) (k : A → result E B) : result E B :=
  match r with
  | Ok a => k a
  | Err e => Err e
  end.

Definition is_ok {E A} (r : result E A) : bool :=
  match r with Ok _ => true | Err _ => false end.

Definition M (W A : Type) : Type := W → A * W.

Definition mret_ {W A} (a : A) : M W A := λ w, (a, w).

Definition mbind_ {W A B} (m : M W A) (k : A → M W B) : M W B :=
  λ w, let '(a, w') := m w in k a w'.

Declare Scope go_scope.
Delimit Scope go_scope with go.
#[global] Open Scope go_scope.

Notation "'let?' x ':=' e 'in' k" := (result_bind e (λ x, k))
  (at level 10, x name, e at level 100, k at level 200) : go_scope.
Notation "'let?' ' p ':=' e 'in' k" := (result_bind e (λ p, k))
  (at level 10, p pattern, e at level 100, k at level 200) : go_scope.
Notation "'let!' x ':=' e 'in' k" := (mbind_ e (λ x, k))
  (at level 10, x name, e at level 100, k at level 200) : go_scope.

(** ** Automation

    [go] holds the facts that close the side conditions of the components' proofs,
    [no_errors] the equations that take apart "no error was collected". *)

Create HintDb go discriminated.
Create Rewrite HintDb no_errors.

(** A decidable proposition, by evaluating its decision. *)
Ltac by_computation := apply (bool_decide_unpack _); vm_compute; exact I.

(** An operation over a world, as the function of the world it is. *)
Ltac run_monad := unfold mbind_, mret_.

(** ** Lists against the set of what was seen before them *)

Section seen.
Context `{Countable K}.
Implicit Types (x : K) (X : gset K) (l : list K).

Lemma Forall_not_seen_insert x X l :
  Forall (.∉ {[x]} ∪ X) l ↔ Forall (.∉ X) l ∧ x ∉ l.
Proof.
  induction l as [|y l IH].
  - split; [split; [done|apply not_elem_of_nil]|done].
  - rewrite !Forall_cons, IH, not_elem_of_cons, not_elem_of_union, not_elem_of_singleton.
    naive_solver.
Qed.

Lemma Forall_not_seen_empty l : Forall (.∉ (∅ : gset K)) l.
Proof. apply Forall_forall. intros x _. apply not_elem_of_empty. Qed.
End seen.

(** ** Maps over lists *)

Lemma map_inj_Forall {A B} (P : A → Prop) (f : A → B) l l' :
  (∀ a a', P a → P a' → f a = f a' → a = a') → Forall P l → Forall P l' →
  f <$> l = f <$> l' → l = l'.
Proof.
  intros Hinj Hl. revert l'. induction Hl as [|a l Ha Hl IH]; intros [|a' l'] Hl' Heq; try done.
  apply Forall_cons in Hl' as [Ha' Hl']. injection Heq as Ha'' Hl''. f_equal; eauto.
Qed.

(** ** Empty lists *)

Lemma fmap_nil_iff {A B} (f : A → B) (l : list A) : f <$> l = [] ↔ l = [].
Proof. by destruct l. Qed.

#[export] Hint Resolve not_elem_of_nil list_elem_of_here list_elem_of_further : go.
#[export] Hint Rewrite @app_nil @fmap_nil_iff : no_errors.
