(* ===== verification/GoStd.v ===== *)
(** * The parts of Go's standard library the gateway's own logic uses

    Strings are Go strings: sequences of bytes, here [string] of stdpp/Stdlib
    (lists of 8-bit [ascii]).  Every function below is executable and follows
    the documented behaviour of the package it is named after: [strings],
    [strconv], [slices], [maps], [net/textproto] and [time]. *)

From S2P Require Import Prelude.
From Stdlib Require Import DecimalString DecimalZ DecimalN DecimalFacts.

Open Scope Z_scope.

(** ** Bytes *)

Definition code (a : ascii) : N := N_of_ascii a.

Definition is_upper (a : ascii) : bool := ((65 <=? code a) && (code a <=? 90))%N.
Definition is_lower (a : ascii) : bool := ((97 <=? code a) && (code a <=? 122))%N.
Definition is_digit (a : ascii) : bool := ((48 <=? code a) && (code a <=? 57))%N.

Definition to_lower (a : ascii) : ascii :=
  if is_upper a then ascii_of_N (code a + 32) else a.
Definition to_upper (a : ascii) : ascii :=
  if is_lower a then ascii_of_N (code a - 32) else a.

(** ** White space, [unicode.IsSpace] over UTF-8

    The white-space runes are tab, line feed, vertical tab, form feed, carriage
    return and space (one byte), U+0085 and U+00A0 (two bytes), U+1680,
    U+2000 to U+200A, U+2028, U+2029, U+202F, U+205F and U+3000 (three bytes).
    No encoding of one starts inside another valid encoding, so looking for
    them byte by byte finds the runes Go's decoder finds, also in a string that
    is not valid UTF-8 (each undecodable byte is then a rune of width one that
    is not white space). *)

Definition is_ascii_space (a : ascii) : bool :=
  (((9 <=? code a) && (code a <=? 13)) || (code a =? 32))%N.

Definition is_space2 (a b : ascii) : bool :=
  ((code a =? 194) && ((code b =? 133) || (code b =? 160)))%N.

Definition is_space3 (a b c : ascii) : bool :=
  (((code a =? 225) && (code b =? 154) && (code c =? 128))
   || ((code a =? 226) && (code b =? 128)
       && (((128 <=? code c) && (code c <=? 138))
           || (code c =? 168) || (code c =? 169) || (code c =? 175)))
   || ((code a =? 226) && (code b =? 129) && (code c =? 159))
   || ((code a =? 227) && (code b =? 128) && (code c =? 128)))%N.

(** The number of bytes of the white-space rune [s] starts with, 0 if it starts
    with none. *)
Definition space_width (s : string) : nat :=
  match s with
  | "" => 0
  | String a "" => if is_ascii_space a then 1 else 0
  | String a (String b "") =>
      if is_ascii_space a then 1 else if is_space2 a b then 2 else 0
  | String a (String b (String c _)) =>
      if is_ascii_space a then 1
      else if is_space2 a b then 2
      else if is_space3 a b c then 3 else 0
  end%nat.

(** ** [strings.Fields]

    [fields_go skip s] reads [s] from the left; [skip] counts the bytes of the
    current white-space rune still to be consumed.  It returns the word that is
    open at the left end and the words after it. *)
Fixpoint fields_go (skip : nat) (s : string) : string * list string :=
  match s with
  | "" => ("", [])
  | String a r =>
      match skip with
      | S k =>
          let '(w, ws) := fields_go k r in
          ("", if decide (w = "") then ws else w :: ws)
      | O =>
          match space_width s with
          | O => let '(w, ws) := fields_go 0 r in (String a w, ws)
          | S k =>
              let '(w, ws) := fields_go k r in
              ("", if decide (w = "") then ws else w :: ws)
          end
      end
  end.

Definition Fields (s : string) : list string :=
  let '(w, ws) := fields_go 0 s in if decide (w = "") then ws else w :: ws.

(** ** [strings.TrimSpace] *)

Fixpoint trim_left (skip : nat) (s : string) : string :=
  match s with
  | "" => ""
  | String a r =>
      match skip with
      | S k => trim_left k r
      | O => match space_width s with O => s | S k => trim_left k r end
      end
  end.

(** Whether [s] is a (possibly empty) run of white-space runes. *)
Fixpoint all_space (skip : nat) (s : string) : bool :=
  match s with
  | "" => (skip =? 0)%nat
  | String a r =>
      match skip with
      | S k => all_space k r
      | O => match space_width s with O => false | S k => all_space k r end
      end
  end.

Fixpoint trim_right (s : string) : string :=
  if all_space 0 s then ""
  else match s with "" => "" | String a r => String a (trim_right r) end.

Definition TrimSpace (s : string) : string := trim_right (trim_left 0 s).

(** ** [strings.Split], [strings.Cut] with a one-byte separator, [strings.Join] *)

Fixpoint Split (s : string) (sep : ascii) : list string :=
  match s with
  | "" => [""]
  | String a r =>
      if decide (a = sep) then "" :: Split r sep
      else match Split r sep with
           | [] => [String a ""]
           | w :: ws => String a w :: ws
           end
  end.

Fixpoint Cut (s : string) (sep : ascii) : option (string * string) :=
  match s with
  | "" => None
  | String a r =>
      if decide (a = sep) then Some ("", r)
      else match Cut r sep with
           | Some (before, after) => Some (String a before, after)
           | None => None
           end
  end.

Fixpoint Join (elems : list string) (sep : string) : string :=
  match elems with
  | [] => ""
  | [w] => w
  | w :: ws => w +:+ sep +:+ Join ws sep
  end.

Definition HasPrefix (s prefix : string) : bool := String.prefix prefix s.

Fixpoint drop (n : nat) (s : string) : string :=
  match n, s with
  | O, _ => s
  | S k, String _ r => drop k r
  | S _, "" => ""
  end.

Definition TrimPrefix (s prefix : string) : string :=
  if HasPrefix s prefix then drop (String.length prefix) s else s.

Fixpoint TrimSuffix (s suffix : string) : string :=
  if decide (s = suffix) then ""
  else match s with "" => "" | String a r => String a (TrimSuffix r suffix) end.

(** [strings.TrimRight] with a cutset of one-byte characters. *)
Fixpoint all_in (cutset : list ascii) (s : string) : bool :=
  match s with
  | "" => true
  | String a r => bool_decide (a ∈ cutset) && all_in cutset r
  end.

Fixpoint TrimRight (s : string) (cutset : list ascii) : string :=
  if all_in cutset s then ""
  else match s with "" => "" | String a r => String a (TrimRight r cutset) end.

Fixpoint ToLower (s : string) : string :=
  match s with "" => "" | String a r => String (to_lower a) (ToLower r) end.

(** [strings.EqualFold] against an ASCII string without the letters k and s,
    the only ASCII letters with a non-ASCII simple folding. *)
Definition EqualFold (s t : string) : bool := bool_decide (ToLower s = ToLower t).

(** ** [strconv] *)

Definition max_int : Z := 2 ^ 63 - 1.
Definition min_int : Z := - 2 ^ 63.

Definition Itoa (n : Z) : string := NilZero.string_of_int (Z.to_int n).

(** The digits after the sign; [None] for an empty string or a non-digit. *)
Definition parse_digits (s : string) : option Z :=
  match NilZero.uint_of_string s with
  | Some u => Some (Z.of_N (N.of_uint u))
  | None => None
  end.

(** [strconv.Atoi]: [None] is a syntax or a range error. *)
Definition Atoi (s : string) : option Z :=
  let signed :=
    match s with
    | String "-" r => option_map Z.opp (parse_digits r)
    | String "+" r => parse_digits r
    | _ => parse_digits s
    end in
  match signed with
  | Some n => if (min_int <=? n) && (n <=? max_int) then Some n else None
  | None => None
  end.

(** ** [net/textproto]: the canonical form of a header name *)

(** The bytes of an HTTP token (RFC 7230). *)
Definition is_token_byte (a : ascii) : bool :=
  is_upper a || is_lower a || is_digit a
  || bool_decide (a ∈ ["!"; "#"; "$"; "%"; "&"; "'"; "*"; "+"; "-"; "."; "^"; "_"; "`"; "|"; "~"]%char).

Fixpoint all_bytes (p : ascii → bool) (s : string) : bool :=
  match s with "" => true | String a r => p a && all_bytes p r end.

Fixpoint canonical_go (upper : bool) (s : string) : string :=
  match s with
  | "" => ""
  | String a r =>
      let a' := if upper then to_upper a else to_lower a in
      String a' (canonical_go (bool_decide (a' = "-"%char)) r)
  end.

Definition CanonicalHeaderKey (s : string) : string :=
  if all_bytes is_token_byte s then canonical_go true s else s.

(** [http.Header]: canonical header names to their values, in the order of
    arrival.  [Values] reads by canonical name. *)
Abbreviation Header := (gmap string (list string)).

Definition header_values (h : Header) (name : string) : list string :=
  default [] (h !! CanonicalHeaderKey name).

(** ** [slices] and [maps] *)

Definition Contains (l : list string) (s : string) : bool := bool_decide (s ∈ l).

(** [slices.Sorted(maps.Keys(m))]: Go compares strings byte by byte. *)
Definition sorted_keys {A} (m : gmap string A) : list string :=
  merge_sort String.le (map_to_list m).*1.

(** The keys of a map used as a set, sorted. *)
Definition sorted_set (s : gset string) : list string :=
  merge_sort String.le (elements s).

(** ** [time]

    A [time.Time] is the number of nanoseconds since the zero time (year 1), so
    the zero [time.Time] is 0.  A [time.Duration] is a 64-bit count of
    nanoseconds; [Sub] saturates at its bounds. *)
Abbreviation Time := Z (only parsing).
Abbreviation Duration := Z (only parsing).

Definition Millisecond : Duration := 1000 * 1000.
Definition Second : Duration := 1000 * Millisecond.
Definition Minute : Duration := 60 * Second.

Definition time_add (t : Time) (d : Duration) : Time := t + d.
Definition time_sub (t u : Time) : Duration := Z.max min_int (Z.min max_int (t - u)).
Definition time_before (t u : Time) : bool := t <? u.
Definition time_is_zero (t : Time) : bool := t =? 0.

(** ** Sorted keys *)

Section sorted_keys.
Context {A : Type}.
Implicit Types m : gmap string A.

Lemma elem_of_sorted_keys m k : k ∈ sorted_keys m ↔ is_Some (m !! k).
Proof.
  unfold sorted_keys. rewrite merge_sort_Permutation, list_elem_of_fmap. split.
  - intros ([k' v] & -> & H%elem_of_map_to_list). by exists v.
  - intros [v H]. exists (k, v). split; [done|]. by apply elem_of_map_to_list.
Qed.

Lemma NoDup_sorted_keys m : NoDup (sorted_keys m).
Proof. unfold sorted_keys. rewrite merge_sort_Permutation. apply NoDup_fst_map_to_list. Qed.

Lemma sorted_keys_sorted m : StronglySorted String.le (sorted_keys m).
Proof. apply (StronglySorted_merge_sort _). Qed.

Lemma sorted_keys_nil m : sorted_keys m = [] ↔ m = ∅.
Proof.
  split; [|intros ->; reflexivity].
  intros H. apply map_empty. intros k. apply eq_None_not_Some.
  rewrite <-elem_of_sorted_keys, H. apply not_elem_of_nil.
Qed.
End sorted_keys.

Lemma elem_of_sorted_set s x : x ∈ sorted_set s ↔ x ∈ s.
Proof. unfold sorted_set. rewrite merge_sort_Permutation. apply elem_of_elements. Qed.

Lemma NoDup_sorted_set s : NoDup (sorted_set s).
Proof. unfold sorted_set. rewrite merge_sort_Permutation. apply NoDup_elements. Qed.

Lemma sorted_set_sorted s : StronglySorted String.le (sorted_set s).
Proof. apply (StronglySorted_merge_sort _). Qed.

#[export] Hint Resolve NoDup_sorted_keys NoDup_sorted_set sorted_keys_sorted sorted_set_sorted : go.

Lemma Contains_true l s : Contains l s = true ↔ s ∈ l.
Proof. apply bool_decide_eq_true. Qed.

Lemma Contains_false l s : Contains l s = false ↔ s ∉ l.
Proof. apply bool_decide_eq_false. Qed.

(** ** [Split] and [Join] *)

(** Whether the byte [a] occurs in [s]. *)
Fixpoint has_byte (a : ascii) (s : string) : bool :=
  match s with "" => false | String b r => bool_decide (a = b) || has_byte a r end.

Lemma has_byte_app a s t : has_byte a (s +:+ t) = has_byte a s || has_byte a t.
Proof.
  induction s as [|b s IH]; [done|].
  change (String b s +:+ t) with (String b (s +:+ t)). simpl. by rewrite IH, orb_assoc.
Qed.

Lemma Split_nonempty s sep : Split s sep ≠ [].
Proof. destruct s; simpl; [done|]. case_decide; [done|]. by destruct (Split s sep). Qed.

Lemma Split_no_sep s sep : has_byte sep s = false → Split s sep = [s].
Proof.
  induction s as [|a s IH]; simpl; [done|]. intros [Ha Hs]%orb_false_elim.
  apply bool_decide_eq_false in Ha. rewrite decide_False by done. by rewrite IH.
Qed.

Lemma Split_app s t sep :
  has_byte sep s = false → Split (s +:+ String sep t) sep = s :: Split t sep.
Proof.
  induction s as [|a s IH]; intros Hs.
  - change ("" +:+ String sep t) with (String sep t). simpl. by rewrite decide_True.
  - change (String a s +:+ String sep t) with (String a (s +:+ String sep t)). simpl in *.
    apply orb_false_elim in Hs as [Ha%bool_decide_eq_false Hs].
    rewrite decide_False by done. by rewrite IH.
Qed.

(** [strings.Split] undoes [strings.Join]. *)
Lemma Split_Join l sep :
  l ≠ [] → Forall (λ w, has_byte sep w = false) l → Split (Join l (String sep "")) sep = l.
Proof.
  intros Hl Hsep. induction Hsep as [|w ws Hw Hws IH]; [done|].
  destruct ws as [|w' ws]; [by apply Split_no_sep|].
  change (Join (w :: w' :: ws) (String sep ""))
    with (w +:+ String sep (Join (w' :: ws) (String sep ""))).
  rewrite Split_app by done. by rewrite IH.
Qed.

Lemma Join_inj l l' sep :
  l ≠ [] → l' ≠ [] →
  Forall (λ w, has_byte sep w = false) l → Forall (λ w, has_byte sep w = false) l' →
  Join l (String sep "") = Join l' (String sep "") → l = l'.
Proof.
  intros ?? H H' Heq. rewrite <-(Split_Join l sep), <-(Split_Join l' sep) by done.
  by rewrite Heq.
Qed.

Lemma string_app_inj_r s t t' : t +:+ s = t' +:+ s → t = t'.
Proof.
  assert (∀ a b : string, String.length (a +:+ b) = String.length a + String.length b)%nat as Hlen.
  { intros a b. induction a; [done|]. change (String a a0 +:+ b) with (String a (a0 +:+ b)).
    simpl. lia. }
  revert t'. induction t as [|a t IH]; intros [|a' t'] H; [done|exfalso..|].
  - apply (f_equal String.length) in H. rewrite !Hlen in H. simpl in H. lia.
  - apply (f_equal String.length) in H. rewrite !Hlen in H. simpl in H. lia.
  - change (String a (t +:+ s) = String a' (t' +:+ s)) in H. injection H as -> H. f_equal. auto.
Qed.

(** ** Tables of text: rows of columns, tab-separated, one row per line *)

Definition tab : string := String "009" "".
Definition newline : string := String "010" "".

(** [fmt.Sprintf("%t", b)] *)
Definition format_bool (b : bool) : string := if b then "true" else "false".

Definition render_table (rows : list (list string)) : string :=
  match (λ row, Join row tab) <$> rows with
  | [] => ""
  | lines => Join lines newline +:+ newline
  end.

Lemma has_byte_Join a l sep :
  has_byte a sep = false → Forall (λ w, has_byte a w = false) l →
  has_byte a (Join l sep) = false.
Proof.
  intros Hsep Hl. induction Hl as [|w ws Hw Hws IH]; [done|].
  destruct ws as [|w' ws]; [done|].
  change (Join (w :: w' :: ws) sep) with (w +:+ sep +:+ Join (w' :: ws) sep).
  by rewrite !has_byte_app, Hw, Hsep, IH.
Qed.

Lemma has_byte_format_bool a b :
  a ∈ ["009"; "010"]%char → has_byte a (format_bool b) = false.
Proof.
  intros [->|[->|[]%not_elem_of_nil]%elem_of_cons]%elem_of_cons; by destruct b.
Qed.

Lemma string_app_inj (s t t' : string) : s +:+ t = s +:+ t' → t = t'.
Proof. induction s as [|a s IH]; [done|]. intros [= H]. by apply IH. Qed.

Lemma format_bool_inj b b' : format_bool b = format_bool b' → b = b'.
Proof. by destruct b, b'. Qed.

Lemma render_table_inj rows rows' :
  Forall (λ row, row ≠ [] ∧ Forall (λ w, has_byte "009" w = false) row ∧
                 Forall (λ w, has_byte "010" w = false) row) rows →
  Forall (λ row, row ≠ [] ∧ Forall (λ w, has_byte "009" w = false) row ∧
                 Forall (λ w, has_byte "010" w = false) row) rows' →
  render_table rows = render_table rows' → rows = rows'.
Proof.
  intros Hl Hl' Heq. eapply (map_inj_Forall _ (λ row, Join row tab)); [|exact Hl|exact Hl'|].
  { intros r r' (? & ? & _) (? & ? & _). by apply (Join_inj _ _ "009"). }
  assert (∀ l, Forall (λ row, row ≠ [] ∧ Forall (λ w, has_byte "009" w = false) row ∧
                 Forall (λ w, has_byte "010" w = false) row) l →
    Forall (λ w, has_byte "010" w = false) ((λ row, Join row tab) <$> l)) as Hno.
  { intros l H. rewrite Forall_fmap. eapply Forall_impl; [done|].
    intros row (_ & _ & ?). by apply has_byte_Join. }
  apply Hno in Hl, Hl'. unfold render_table in Heq.
  destruct ((λ row, Join row tab) <$> rows) as [|w l],
    ((λ row, Join row tab) <$> rows') as [|w' l']; [done|exfalso..|].
  - symmetry in Heq. by destruct (Join (w' :: l') newline).
  - by destruct (Join (w :: l) newline).
  - apply string_app_inj_r in Heq. by apply (Join_inj _ _ "010") in Heq.
Qed.

(** ** [net/url]: the fields of a [*url.URL] the gateway reads

    [URL_Opaque] is what follows the scheme of a URL without slashes there;
    [URL_User] is the user information of the authority, [None] when the pointer
    is nil; [URL_Path] is the decoded path and [URL_ForceQuery] says that
    the text ended in a bare question mark. *)
Record URL : Type := {
  URL_Scheme : string;
  URL_Opaque : string;
  URL_User : option string;
  URL_Host : string;
  URL_Path : string;
  URL_ForceQuery : bool;
  URL_RawQuery : string;
  URL_Fragment : string;
}.

#[export] Instance URL_eq_dec : EqDecision URL.
Proof. solve_decision. Defined.

(** ** Words and [Fields] *)

(** [s] has no white-space rune. *)
Fixpoint no_space (s : string) : bool :=
  match s with "" => true | String _ r => (space_width s =? 0)%nat && no_space r end.

Lemma string_app_cons a s t : String a s +:+ t = String a (s +:+ t).
Proof. reflexivity. Qed.

(** A blank after a byte sequence does not turn its tail into white space. *)
Lemma space_width_app_blank s t :
  s ≠ "" → space_width s = 0%nat → space_width (s +:+ String " " t) = 0%nat.
Proof.
  intros Hs H. destruct s as [|a [|b [|c s]]]; [done|..]; rewrite ?string_app_cons.
  - change ("" +:+ String " " t) with (String " " t). simpl in H |- *.
    destruct (is_ascii_space a); [done|].
    assert (is_space2 a " " = false) as -> by (unfold is_space2; by rewrite andb_false_r).
    destruct t as [|c t]; [done|].
    assert (is_space3 a " " c = false) as ->
      by (unfold is_space3; simpl; by rewrite !andb_false_r).
    done.
  - change ("" +:+ String " " t) with (String " " t). simpl in H |- *.
    destruct (is_ascii_space a); [done|]. destruct (is_space2 a b); [done|].
    assert (is_space3 a b " " = false) as ->
      by (unfold is_space3; simpl; by rewrite !andb_false_r).
    done.
  - exact H.
Qed.

Lemma fields_go_word w t :
  no_space w = true →
  fields_go 0 (w +:+ String " " t) =
    (w, let '(v, vs) := fields_go 0 t in if decide (v = "") then vs else v :: vs).
Proof.
  induction w as [|a w IH]; intros Hw.
  - change ("" +:+ String " " t) with (String " " t). cbn [fields_go].
    assert (space_width (String " " t) = 1%nat) as -> by (by destruct t as [|? [|? ?]]).
    by destruct (fields_go 0 t).
  - cbn [no_space] in Hw. apply andb_prop in Hw as [Ha%Nat.eqb_eq Hw].
    rewrite string_app_cons. cbn [fields_go].
    rewrite <-string_app_cons, space_width_app_blank by done. by rewrite (IH Hw).
Qed.

Lemma fields_go_last w : no_space w = true → fields_go 0 w = (w, []).
Proof.
  induction w as [|a w IH]; intros Hw; [done|].
  cbn [no_space] in Hw. apply andb_prop in Hw as [Ha%Nat.eqb_eq Hw].
  cbn [fields_go]. rewrite Ha, IH by done. done.
Qed.

(** The words a blank-separated list of them splits into. *)
Definition is_word (w : string) : Prop := w ≠ "" ∧ no_space w = true.

Lemma Fields_cons w t : is_word w → Fields (w +:+ String " " t) = w :: Fields t.
Proof.
  intros [Hne Hw]. unfold Fields. rewrite fields_go_word by done.
  rewrite decide_False by done. done.
Qed.

Lemma Fields_word w : is_word w → Fields w = [w].
Proof.
  intros [Hne Hw]. unfold Fields. rewrite fields_go_last by done. by rewrite decide_False.
Qed.

(** [strings.Fields] undoes a join with blanks. *)
Lemma Fields_Join ws : Forall is_word ws → Fields (Join ws " ") = ws.
Proof.
  intros Hws. induction Hws as [|w ws Hw Hws IH]; [done|].
  destruct ws as [|w' ws]; [by apply Fields_word|].
  change (Join (w :: w' :: ws) " ") with (w +:+ String " " (Join (w' :: ws) " ")).
  by rewrite Fields_cons, IH.
Qed.

Lemma space_width_prefix s t : space_width s ≠ 0%nat → space_width (s +:+ t) = space_width s.
Proof.
  destruct s as [|a [|b [|c s]]]; rewrite ?string_app_cons; simpl; try done.
  - change ("" +:+ t) with t. destruct (is_ascii_space a) eqn:Ha; [|done].
    by destruct t as [|b [|c t]].
  - change ("" +:+ t) with t. destruct (is_ascii_space a) eqn:Ha; [by destruct t|].
    destruct (is_space2 a b) eqn:Hb; [|done]. by destruct t.
Qed.

Lemma fields_go_words skip s :
  let '(w, ws) := fields_go skip s in
  (no_space w = true ∧ Forall is_word ws) ∧ (skip = 0%nat → ∃ r, s = w +:+ r).
Proof.
  revert skip. induction s as [|a s IH]; intros skip; [split; [done|by exists ""]|].
  assert (∀ k, let '(w, ws) := (let '(w, ws) := fields_go k s in
      ("", if decide (w = "") then ws else w :: ws)) in
    (no_space w = true ∧ Forall is_word ws) ∧ (∃ r, String a s = w +:+ r)) as Hskip.
  { intros k. specialize (IH k). destruct (fields_go k s) as [w ws].
    destruct IH as [[Hw Hws] _]. split; [split; [done|]|by eexists].
    case_decide; [done|by constructor]. }
  destruct skip as [|k].
  - cbn [fields_go]. destruct (space_width (String a s)) eqn:Hsw.
    + specialize (IH 0%nat). destruct (fields_go 0 s) as [w ws].
      destruct IH as [[Hw Hws] [r ->]]; [done|]. split; [|by exists r].
      split; [|done]. cbn [no_space]. rewrite Hw, andb_true_r. apply Nat.eqb_eq.
      destruct (decide (space_width (String a w) = 0%nat)) as [|Hne]; [done|].
      apply (space_width_prefix _ r) in Hne as Heq. rewrite string_app_cons in Heq. congruence.
    + specialize (Hskip n). destruct (fields_go n s) as [w ws].
      destruct Hskip as [? ?]. by split.
  - cbn [fields_go]. specialize (Hskip k). destruct (fields_go k s) as [w ws].
    destruct Hskip as [? _]. by split.
Qed.

Lemma Fields_words s : Forall is_word (Fields s).
Proof.
  unfold Fields. pose proof (fields_go_words 0 s) as H.
  destruct (fields_go 0 s) as [w ws]. destruct H as [[Hw Hws] _].
  case_decide; [done|by constructor].
Qed.

(** Splitting a text with a separator in it. *)
Lemma Split_app_sep s t sep : Split (s +:+ String sep t) sep = Split s sep ++ Split t sep.
Proof.
  induction s as [|a s IH].
  - change ("" +:+ String sep t) with (String sep t). cbn [Split]. by rewrite decide_True.
  - rewrite string_app_cons. cbn [Split]. rewrite IH. destruct (decide (a = sep)); [done|].
    pose proof (Split_nonempty s sep). by destruct (Split s sep).
Qed.

(** ** Decimal integers *)

Lemma Itoa_pos n : 0 < n →
  ∃ a r, Itoa n = String a r ∧ is_digit a = true ∧ parse_digits (Itoa n) = Some n.
Proof.
  intros Hn. destruct n as [|p|p]; try lia. unfold Itoa. simpl Z.to_int.
  cbn [NilZero.string_of_int].
  assert (Pos.to_uint p ≠ Decimal.Nil) as Hnil by apply DecimalPos.Unsigned.to_uint_nonnil.
  assert (parse_digits (NilZero.string_of_uint (Pos.to_uint p)) = Some (Z.pos p)) as Hp.
  { unfold parse_digits. rewrite NilZero.usu by done.
    f_equal. change (N.of_uint (Pos.to_uint p)) with (N.of_uint (N.to_uint (N.pos p))).
    by rewrite DecimalN.Unsigned.of_to. }
  destruct (Pos.to_uint p) eqn:Hd; [done|..]; simpl in *; eauto 10.
Qed.

Lemma Atoi_Itoa n : 0 < n ≤ max_int → Atoi (Itoa n) = Some n.
Proof.
  intros Hn. destruct (Itoa_pos n) as (a & r & Ha & Hd & Hp); [lia|].
  unfold Atoi. rewrite Ha in *.
  assert (match String a r with
          | String "-" r => option_map Z.opp (parse_digits r)
          | String "+" r => parse_digits r
          | _ => parse_digits (String a r)
          end = Some n) as ->.
  { destruct a as [[] [] [] [] [] [] [] []]; done. }
  unfold min_int. by rewrite (proj2 (Z.leb_le _ _)), (proj2 (Z.leb_le _ _)) by (unfold max_int in *; lia).
Qed.

Lemma Itoa_inj n m : 0 < n ≤ max_int → 0 < m ≤ max_int → Itoa n = Itoa m → n = m.
Proof. intros Hn Hm H. apply Atoi_Itoa in Hn, Hm. congruence. Qed.
