(* ===== verification/GoNet.v ===== *)
(** * The parts of [net] and [net/netip] the gateway uses

    [SplitHostPort] of [net] (its host) and the validity check of
    [netip.ParseAddr], as executable functions. *)

From S2P Require Import Prelude GoStd.

(** ** [net.SplitHostPort] *)

(** What comes before the last separator and after it; [None] without one. *)
Fixpoint cut_last (s : string) (sep : ascii) : option (string * string) :=
  match s with
  | "" => None
  | String a r =>
      match cut_last r sep with
      | Some (before, after) => Some (String a before, after)
      | None => if decide (a = sep) then Some ("", r) else None
      end
  end.

(** The host of [host:port] or [[host]:port]; [None] is an error. *)
Definition SplitHostPort (hostport : string) : option string :=
  match cut_last hostport ":" with
  | None => None
  | Some (before, port) =>
      match hostport with
      | String "[" rest =>
          match Cut rest "]" with
          | None => None
          | Some (host, after) =>
              (* the closing bracket stands just before the last colon *)
              if decide (after = String ":" port) then
                if has_byte "[" rest || has_byte "]" after then None else Some host
              else None
          end
      | _ =>
          if has_byte ":" before || has_byte "[" hostport || has_byte "]" hostport then None
          else Some before
      end
  end.

(** ** [netip.ParseAddr] *)

(** One field of a dotted address: one to three digits, no leading zero, at
    most 255. *)
Definition ipv4_field (f : string) : bool :=
  match parse_digits f with
  | Some n =>
      (n <=? 255) && (bool_decide (f = "0") || negb (HasPrefix f "0"))
  | None => false
  end.

Definition parseIPv4 (s : string) : bool :=
  let fields := Split s "." in
  (List.length fields =? 4)%nat && forallb ipv4_field fields.

Definition is_hex (a : ascii) : bool :=
  is_digit a || (((97 <=? code a) && (code a <=? 102)) || ((65 <=? code a) && (code a <=? 70)))%N.

(** The number of leading hexadecimal digits, and the rest. *)
Fixpoint hex_prefix (s : string) : nat * string :=
  match s with
  | "" => (0%nat, "")
  | String a r =>
      if is_hex a then let '(n, rest) := hex_prefix r in (S n, rest) else (0%nat, s)
  end.

(** The loop over the 16-bit groups: [i] bytes are filled, [ellipsis] says
    whether a double colon was read, [groups] bounds the groups still to come
    (the loop of the source runs while [i < 16], so eight groups suffice). *)
Fixpoint ipv6_groups (groups : nat) (i : Z) (ellipsis : bool) (s : string) : bool :=
  let finish i ellipsis s :=
    bool_decide (s = "") && (if i <? 16 then ellipsis else negb ellipsis) in
  match groups with
  | O => finish i ellipsis s
  | S groups =>
      if 16 <=? i then finish i ellipsis s
      else
        let '(off, rest) := hex_prefix s in
        if (off =? 0)%nat || (4 <? off)%nat then false
        else
          match rest with
          | "" => finish (i + 2) ellipsis ""
          | String "." _ =>
              if negb ellipsis && negb (i =? 12) then false
              else if 16 <? i + 4 then false
              else parseIPv4 s && finish (i + 4) ellipsis ""
          | String ":" "" => false
          | String ":" (String ":" rest) =>
              if ellipsis then false
              else if decide (rest = "") then finish (i + 2) true ""
              else ipv6_groups groups (i + 2) true rest
          | String ":" rest => ipv6_groups groups (i + 2) ellipsis rest
          | _ => false
          end
  end.

Definition parseIPv6 (s : string) : bool :=
  let '(s, zone_ok) :=
    match Cut s "%" with
    | Some (addr, zone) => (addr, negb (bool_decide (zone = "")))
    | None => (s, true)
    end in
  zone_ok &&
  match s with
  | String ":" (String ":" "") => true
  | String ":" (String ":" rest) => ipv6_groups 8 0 true rest
  | _ => ipv6_groups 8 0 false s
  end.

(** Which parser the first dot, colon or percent sign selects. *)
Fixpoint parse_by (s whole : string) : bool :=
  match s with
  | "" => false
  | String "." _ => parseIPv4 whole
  | String ":" _ => parseIPv6 whole
  | String "%" _ => false
  | String _ r => parse_by r whole
  end.

(** Whether [netip.ParseAddr] returns no error. *)
Definition ParseAddr (s : string) : bool := parse_by s s.

(** ** Checks on concrete addresses *)

Example ParseAddr_accepts :
  forallb ParseAddr ["192.0.2.1"; "0.0.0.0"; "255.255.255.255"; "::"; "::1"; "2001:db8::1";
    "1:2:3:4:5:6:7:8"; "fe80::1%eth0"; "::ffff:192.0.2.1"; "1:2:3:4:5:6:192.0.2.1";
    "1:2:3:4:5:6:7::"; "2001:DB8::"] = true.
Proof. vm_compute. reflexivity. Qed.

Example ParseAddr_rejects :
  existsb ParseAddr [""; "unknown"; "192.0.2"; "192.0.2.256"; "192.0.2.01"; "192.0.2.1.1";
    "192..2.1"; "192.0.2.1:80"; "[::1]"; "1:2:3:4:5:6:7:8:9"; "1::2::3"; "12345::"; "::1%";
    "1:2:3:4:5:6:7"; "1:2:3:4:5:6:7:8::"; "1:"; ":1"; "g::"; " 192.0.2.1"; "1.2.3.4%eth0";
    "1:2:3:4:5:6:7:192.0.2.1"; "1:2:3:4:5:6:7:8."] = false.
Proof. vm_compute. reflexivity. Qed.

Example SplitHostPort_hosts :
  SplitHostPort "192.0.2.1:443" = Some "192.0.2.1" ∧ SplitHostPort "[2001:db8::1]:443" = Some "2001:db8::1" ∧
  SplitHostPort "@" = None ∧ SplitHostPort "::1" = None ∧ SplitHostPort "[::1]" = None ∧
  SplitHostPort ":80" = Some "".
Proof. vm_compute. done. Qed.
