(* ===== verification/Base64.v ===== *)
(** * [base64.RawURLEncoding] and unsigned big integers

    The decoder of [encoding/base64] for the URL alphabet without padding (line
    feeds and carriage returns are skipped, trailing bits are not checked), an
    encoder to state its round trip with, and [big.Int.SetBytes]. *)

From S2P Require Import Prelude GoStd.

(** The value of a character of the URL alphabet. *)
Definition decode_char (a : ascii) : option Z :=
  if is_upper a then Some (Z.of_N (code a) - 65)
  else if is_lower a then Some (Z.of_N (code a) - 71)
  else if is_digit a then Some (Z.of_N (code a) + 4)
  else if decide (a = "-"%char) then Some 62
  else if decide (a = "_"%char) then Some 63
  else None.

Definition encode_char (n : Z) : ascii :=
  if n <? 26 then ascii_of_N (Z.to_N (n + 65))
  else if n <? 52 then ascii_of_N (Z.to_N (n + 71))
  else if n <? 62 then ascii_of_N (Z.to_N (n - 4))
  else if n =? 62 then "-"%char else "_"%char.

Fixpoint sextets (s : string) : option (list Z) :=
  match s with
  | "" => Some []
  | String a r =>
      if bool_decide (a ∈ ["010"; "013"]%char) then sextets r
      else
        match decode_char a, sextets r with
        | Some n, Some ns => Some (n :: ns)
        | _, _ => None
        end
  end.

Fixpoint octets (ns : list Z) : option (list Z) :=
  match ns with
  | a :: b :: c :: d :: ns =>
      match octets ns with
      | Some bs =>
          Some ((a * 4 + b / 16) :: (b mod 16 * 16 + c / 4) :: (c mod 4 * 64 + d) :: bs)
      | None => None
      end
  | [a; b; c] => Some [a * 4 + b / 16; b mod 16 * 16 + c / 4]
  | [a; b] => Some [a * 4 + b / 16]
  | [_] => None
  | [] => Some []
  end.

(** [DecodeString]: [None] is an error. *)
Definition DecodeString (s : string) : option (list Z) :=
  match sextets s with Some ns => octets ns | None => None end.

Fixpoint to_sextets (bs : list Z) : list Z :=
  match bs with
  | x :: y :: z :: bs =>
      (x / 4) :: (x mod 4 * 16 + y / 16) :: (y mod 16 * 4 + z / 64) :: (z mod 64) :: to_sextets bs
  | [x; y] => [x / 4; x mod 4 * 16 + y / 16; y mod 16 * 4]
  | [x] => [x / 4; x mod 4 * 16]
  | [] => []
  end.

Fixpoint of_sextets (ns : list Z) : string :=
  match ns with [] => "" | n :: ns => String (encode_char n) (of_sextets ns) end.

(** [EncodeToString] *)
Definition EncodeToString (bs : list Z) : string := of_sextets (to_sextets bs).

(** [new(big.Int).SetBytes] *)
Definition SetBytes (bs : list Z) : Z := foldl (λ acc b, acc * 256 + b) 0 bs.

(** [big.Int.BitLen] *)
Definition BitLen (n : Z) : Z := if n =? 0 then 0 else Z.log2 n + 1.

(** ** The round trip *)

(** A property of all small numbers, checked one by one. *)
Lemma all_below (p : Z → bool) (bound : nat) :
  forallb p (Z.of_nat <$> seq 0 bound) = true → ∀ n, 0 ≤ n < Z.of_nat bound → p n = true.
Proof.
  intros H n Hn. rewrite forallb_forall in H. apply H, list_elem_of_In, list_elem_of_fmap.
  exists (Z.to_nat n). split; [lia|]. apply elem_of_seq. lia.
Qed.

Lemma decode_encode_char n : 0 ≤ n < 64 → decode_char (encode_char n) = Some n.
Proof.
  intros Hn.
  assert (match decode_char (encode_char n) with Some m => m =? n | None => false end = true) as H.
  { by apply (all_below (λ n, match decode_char (encode_char n) with
      Some m => m =? n | None => false end) 64). }
  destruct (decode_char (encode_char n)) as [m|]; [|done]. by apply Z.eqb_eq in H as ->.
Qed.

Lemma encode_char_not_newline n : 0 ≤ n < 64 → encode_char n ∉ ["010"; "013"]%char.
Proof.
  intros Hn Hin. apply decode_encode_char in Hn.
  apply elem_of_cons in Hin as [E|[E|[]%not_elem_of_nil]%elem_of_cons]; by rewrite E in Hn.
Qed.

Lemma sextets_of_sextets ns : Forall (λ n, 0 ≤ n < 64) ns → sextets (of_sextets ns) = Some ns.
Proof.
  intros H. induction H as [|n ns Hn Hns IH]; [done|]. cbn [of_sextets sextets].
  rewrite bool_decide_eq_false_2 by (by apply encode_char_not_newline).
  by rewrite decode_encode_char, IH.
Qed.

(** Strong induction in steps of three. *)
Lemma list_ind3 {A} (P : list A → Prop) :
  P [] → (∀ x, P [x]) → (∀ x y, P [x; y]) → (∀ x y z l, P l → P (x :: y :: z :: l)) →
  ∀ l, P l.
Proof.
  intros H0 H1 H2 H3 l. enough (P l ∧ (∀ x, P (x :: l)) ∧ ∀ x y, P (x :: y :: l)) by tauto.
  induction l as [|a l (IH1 & IH2 & IH3)]; [done|]. split_and!; auto.
Qed.

(** Linear arithmetic with division by constants. *)
Ltac div_lia := Z.to_euclidean_division_equations; lia.

Definition is_octet (b : Z) : Prop := 0 ≤ b < 256.

Lemma to_sextets_bound bs : Forall is_octet bs → Forall (λ n, 0 ≤ n < 64) (to_sextets bs).
Proof.
  unfold is_octet. induction bs as [|x|x y|x y z bs IH] using list_ind3; intros H;
    rewrite ?Forall_cons in H; cbn [to_sextets]; rewrite ?Forall_cons;
    destruct_and?; split_and?; try done; try div_lia; auto.
Qed.

Lemma octets_to_sextets bs : Forall is_octet bs → octets (to_sextets bs) = Some bs.
Proof.
  unfold is_octet. induction bs as [|x|x y|x y z bs IH] using list_ind3; intros H;
    rewrite ?Forall_cons in H; destruct_and?; cbn [to_sextets octets].
  - done.
  - do 2 f_equal. div_lia.
  - do 2 f_equal; [|f_equal]; div_lia.
  - rewrite IH by done. do 2 f_equal; [|f_equal; [|f_equal]]; div_lia.
Qed.

(** The decoder undoes the encoder. *)
Lemma Decode_Encode bs : Forall is_octet bs → DecodeString (EncodeToString bs) = Some bs.
Proof.
  intros H. unfold DecodeString, EncodeToString.
  rewrite sextets_of_sextets by (by apply to_sextets_bound). by apply octets_to_sextets.
Qed.

(** Decoded members are octets. *)
Lemma decode_char_bound a n : decode_char a = Some n → 0 ≤ n < 64.
Proof.
  unfold decode_char, is_upper, is_lower, is_digit. intros H.
  repeat match type of H with
  | (if ?b then _ else _) = _ => destruct b eqn:?
  end; try done; injection H as <-; try lia;
    match goal with Hb : (_ && _)%N = true |- _ => apply andb_prop in Hb as [?%N.leb_le ?%N.leb_le] end;
    lia.
Qed.

Lemma sextets_bound s ns : sextets s = Some ns → Forall (λ n, 0 ≤ n < 64) ns.
Proof.
  revert ns. induction s as [|a s IH]; intros ns; cbn [sextets].
  - intros [= <-]. constructor.
  - destruct (bool_decide _); [apply IH|].
    destruct (decode_char a) as [n|] eqn:Ha; [|done].
    destruct (sextets s) as [ms|]; [|done]. intros [= <-].
    constructor; [by eapply decode_char_bound|by apply IH].
Qed.

(** Strong induction in steps of four. *)
Lemma list_ind4 {A} (P : list A → Prop) :
  P [] → (∀ a, P [a]) → (∀ a b, P [a; b]) → (∀ a b c, P [a; b; c]) →
  (∀ a b c d l, P l → P (a :: b :: c :: d :: l)) → ∀ l, P l.
Proof.
  intros H0 H1 H2 H3 H4 l.
  enough (P l ∧ (∀ x, P (x :: l)) ∧ (∀ x y, P (x :: y :: l)) ∧ ∀ x y z, P (x :: y :: z :: l)) by tauto.
  induction l as [|a l (IH1 & IH2 & IH3 & IH4)]; [done|]. split_and!; auto.
Qed.

Lemma octets_bound ns bs :
  Forall (λ n, 0 ≤ n < 64) ns → octets ns = Some bs → Forall is_octet bs.
Proof.
  unfold is_octet. revert bs. induction ns as [|a|a b|a b c|a b c d ns IH] using list_ind4;
    intros bs H; rewrite ?Forall_cons in H; destruct_and?; cbn [octets].
  - intros [= <-]. constructor.
  - done.
  - intros [= <-]. repeat constructor; div_lia.
  - intros [= <-]. repeat constructor; div_lia.
  - destruct (octets ns) as [os|]; [|done]. intros [= <-].
    repeat constructor; try div_lia. by apply IH.
Qed.

Lemma DecodeString_octets s bs : DecodeString s = Some bs → Forall is_octet bs.
Proof.
  unfold DecodeString. destruct (sextets s) as [ns|] eqn:Hs; [|done].
  apply octets_bound. by eapply sextets_bound.
Qed.

Lemma SetBytes_nonneg bs : Forall is_octet bs → 0 ≤ SetBytes bs.
Proof.
  unfold SetBytes. enough (∀ acc, 0 ≤ acc → Forall is_octet bs →
    0 ≤ foldl (λ acc b, acc * 256 + b) acc bs) as H by (intros; apply H; [lia|done]).
  induction bs as [|b bs IH]; intros acc Hacc H; [done|].
  apply Forall_cons in H as [Hb H]. unfold is_octet in Hb. apply IH; [lia|done].
Qed.

(** ** [big.Int.Bytes] *)

(** The octets of a non-negative integer, most significant first and none of
    them leading zeros; [fuel] octets at most. *)
Fixpoint bytes_go (fuel : nat) (n : Z) (acc : list Z) : list Z :=
  match fuel with
  | O => acc
  | S fuel => if n =? 0 then acc else bytes_go fuel (n / 256) (n mod 256 :: acc)
  end.

Definition Bytes (n : Z) : list Z := bytes_go (Z.to_nat (BitLen n)) n [].

Lemma SetBytes_app bs bs' : SetBytes (bs ++ bs') = foldl (λ acc b, acc * 256 + b) (SetBytes bs) bs'.
Proof. unfold SetBytes. by rewrite foldl_app. Qed.

Lemma foldl_bytes_shift a bs :
  foldl (λ acc b, acc * 256 + b) a bs
    = a * 256 ^ Z.of_nat (length bs) + foldl (λ acc b, acc * 256 + b) 0 bs.
Proof.
  revert a. induction bs as [|b bs IH]; intros a; cbn [foldl length]; [lia|].
  rewrite IH, (IH (0 * 256 + b)). rewrite Nat2Z.inj_succ, Z.pow_succ_r by lia. lia.
Qed.

Lemma bytes_go_value fuel n acc :
  0 ≤ n < 2 ^ Z.of_nat fuel →
  SetBytes (bytes_go fuel n acc) = n * 256 ^ Z.of_nat (length acc) + SetBytes acc.
Proof.
  revert n acc. induction fuel as [|fuel IH]; intros n acc Hn; cbn [bytes_go].
  { replace n with 0 by (cbn in Hn; lia). lia. }
  destruct (n =? 0) eqn:Hz; [apply Z.eqb_eq in Hz as ->; lia|]. apply Z.eqb_neq in Hz.
  rewrite IH.
  - unfold SetBytes at 1. cbn [foldl length]. rewrite foldl_bytes_shift. fold (SetBytes acc).
    rewrite Nat2Z.inj_succ, Z.pow_succ_r by lia. pose proof (Z_div_mod_eq_full n 256).
    rewrite Z.mul_assoc. nia.
  - rewrite Nat2Z.inj_succ, Z.pow_succ_r in Hn by lia. split; [apply Z.div_pos; lia|].
    apply Z.div_lt_upper_bound; lia.
Qed.

Lemma bytes_go_octets fuel n acc :
  0 ≤ n → Forall is_octet acc → Forall is_octet (bytes_go fuel n acc).
Proof.
  revert n acc. induction fuel as [|fuel IH]; intros n acc Hn Hacc; cbn [bytes_go]; [done|].
  destruct (n =? 0); [done|]. apply IH; [apply Z.div_pos; lia|]. constructor; [|done].
  apply Z.mod_pos_bound. lia.
Qed.

Lemma Bytes_octets n : 0 ≤ n → Forall is_octet (Bytes n).
Proof. intros Hn. by apply bytes_go_octets. Qed.

(** Setting the bytes of a number gives it back. *)
Lemma SetBytes_Bytes n : 0 ≤ n → SetBytes (Bytes n) = n.
Proof.
  intros Hn. unfold Bytes. rewrite bytes_go_value; [cbn; lia|]. split; [done|].
  unfold BitLen. destruct (n =? 0) eqn:Hz; [apply Z.eqb_eq in Hz as ->; done|].
  apply Z.eqb_neq in Hz. pose proof (Z.log2_nonneg n).
  rewrite Z2Nat.id by lia. replace (Z.log2 n + 1) with (Z.succ (Z.log2 n)) by lia.
  apply Z.log2_spec. lia.
Qed.

Lemma EncodeToString_empty bs : EncodeToString bs = "" → bs = [].
Proof. by destruct bs as [|x [|y [|z bs]]]. Qed.
