(* ===== verification/GoUrl.v ===== *)
(** * Forms and Basic credentials

    What [net/url], [encoding/base64] and [net/http] make of the introspection
    request: [url.QueryEscape] and [url.QueryUnescape], [url.Values.Encode] and
    [url.ParseQuery], [base64.StdEncoding], and [Request.SetBasicAuth] with
    [Request.BasicAuth].  Each writer comes with the theorem that its reader gets
    back what was written. *)

From S2P Require Import Prelude GoStd Base64.

(** ** [url.QueryEscape] and [url.QueryUnescape] *)

(** [shouldEscape] of a query component, negated. *)
Definition unreserved (a : ascii) : bool :=
  is_upper a || is_lower a || is_digit a || bool_decide (a ∈ ["-"; "_"; "."; "~"]%char).

(** ["0123456789ABCDEF"[n]] *)
Definition upperhex (n : N) : ascii :=
  ascii_of_N (if (n <? 10)%N then 48 + n else 55 + n)%N.

Definition unhex (a : ascii) : option N :=
  if is_digit a then Some (code a - 48)%N
  else if (97 <=? code a)%N && (code a <=? 102)%N then Some (code a - 87)%N
  else if (65 <=? code a)%N && (code a <=? 70)%N then Some (code a - 55)%N
  else None.

Definition escape_byte (a : ascii) : string :=
  if unreserved a then String a ""
  else if decide (a = " "%char) then "+"
  else String "%" (String (upperhex (code a / 16)) (String (upperhex (code a mod 16)) "")).

Fixpoint QueryEscape (s : string) : string :=
  match s with "" => "" | String a r => escape_byte a +:+ QueryEscape r end.

(** [None] is an [EscapeError]. *)
Fixpoint QueryUnescape (s : string) : option string :=
  match s with
  | "" => Some ""
  | String a r =>
      if decide (a = "%"%char) then
        match r with
        | String x (String y r) =>
            match unhex x, unhex y with
            | Some h, Some l => String (ascii_of_N (h * 16 + l)) <$> QueryUnescape r
            | _, _ => None
            end
        | _ => None
        end
      else String (if decide (a = "+"%char) then " "%char else a) <$> QueryUnescape r
  end.

(** A statement about every byte, checked byte by byte. *)
Ltac each_byte a := destruct a as [[] [] [] [] [] [] [] []]; try reflexivity.

Lemma QueryUnescape_escape_byte a t :
  QueryUnescape (escape_byte a +:+ t) = String a <$> QueryUnescape t.
Proof. each_byte a. Qed.

Lemma string_app_assoc (a b c : string) : (a +:+ b) +:+ c = a +:+ (b +:+ c).
Proof. induction a as [|x a IH]; [done|]. rewrite !string_app_cons. by f_equal. Qed.

(** The reader undoes the writer. *)
Lemma Unescape_Escape s : QueryUnescape (QueryEscape s) = Some s.
Proof.
  induction s as [|a s IH]; [done|]. cbn [QueryEscape]. by rewrite QueryUnescape_escape_byte, IH.
Qed.

(** An escaped text has none of the bytes that structure a query, a form or the
    credentials. *)
Definition structural : list ascii := ["&"; "="; ";"; ":"]%char.

Lemma escape_byte_structural c a : c ∈ structural → has_byte c (escape_byte a) = false.
Proof.
  unfold structural. intros Hc.
  repeat (apply elem_of_cons in Hc as [->|Hc]; [each_byte a|]). by apply not_elem_of_nil in Hc.
Qed.

Lemma QueryEscape_structural c s : c ∈ structural → has_byte c (QueryEscape s) = false.
Proof.
  intros Hc. induction s as [|a s IH]; [done|]. cbn [QueryEscape].
  by rewrite has_byte_app, escape_byte_structural, IH.
Qed.

(** ** [url.Values.Encode] and [url.ParseQuery] *)

Abbreviation Values := (gmap string (list string)).

Definition encode_pair (p : string * string) : string :=
  QueryEscape p.1 +:+ "=" +:+ QueryEscape p.2.

(** The pairs of a form, by key. *)
Definition pairs_of (v : Values) (names : list string) : list (string * string) :=
  names ≫= λ name, pair name <$> default [] (v !! name).

Definition Encode (v : Values) : string :=
  Join (encode_pair <$> pairs_of v (sorted_keys v)) "&".

Definition add_value (v : Values) (p : string * string) : Values :=
  <[p.1 := default [] (v !! p.1) ++ [p.2]]> v.

(** One [key=value] of a query: [None] is an error, [Some None] nothing. *)
Definition parse_pair (segment : string) : option (option (string * string)) :=
  if has_byte ";" segment then None
  else if decide (segment = "") then Some None
  else
    let '(name, value) := default (segment, "") (Cut segment "=") in
    match QueryUnescape name, QueryUnescape value with
    | Some name, Some value => Some (Some (name, value))
    | _, _ => None
    end.

Fixpoint parse_pairs (segments : list string) (v : Values) : option Values :=
  match segments with
  | [] => Some v
  | segment :: rest =>
      match parse_pair segment with
      | None => None
      | Some None => parse_pairs rest v
      | Some (Some p) => parse_pairs rest (add_value v p)
      end
  end.

(** [ParseQuery]; [None] when it reports an error. *)
Definition ParseQuery (query : string) : option Values := parse_pairs (Split query "&") ∅.

(** [Values.Get] *)
Definition Values_Get (v : Values) (name : string) : string :=
  match v !! name with Some (value :: _) => value | _ => "" end.

Lemma Cut_app s t sep : has_byte sep s = false → Cut (s +:+ String sep t) sep = Some (s, t).
Proof.
  induction s as [|a s IH]; cbn [has_byte].
  - intros _. change ("" +:+ String sep t) with (String sep t). cbn. by destruct (decide (sep = sep)).
  - intros [Ha%bool_decide_eq_false Hs]%orb_false_elim. rewrite string_app_cons. cbn [Cut].
    destruct (decide (a = sep)) as [->|_]; [done|]. by rewrite IH.
Qed.

Lemma parse_encode_pair p : parse_pair (encode_pair p) = Some (Some p).
Proof.
  destruct p as [name value]. unfold parse_pair, encode_pair. cbn [fst snd].
  rewrite !has_byte_app, !(QueryEscape_structural ";") by (by apply (bool_decide_unpack _)).
  cbn [orb has_byte]. case_decide as He.
  { exfalso. by destruct (QueryEscape name). }
  change ("=" +:+ QueryEscape value) with (String "=" (QueryEscape value)).
  rewrite Cut_app by (apply QueryEscape_structural; by apply (bool_decide_unpack _)).
  rewrite bool_decide_eq_false_2 by done. cbn [orb]. cbv beta iota delta [default from_option id].
  by rewrite !Unescape_Escape.
Qed.

Lemma encode_pair_segment p : has_byte "&" (encode_pair p) = false.
Proof.
  unfold encode_pair. rewrite !has_byte_app, !QueryEscape_structural by (by apply (bool_decide_unpack _)).
  reflexivity.
Qed.

Lemma parse_encode_pairs pairs v :
  parse_pairs (encode_pair <$> pairs) v = Some (foldl add_value v pairs).
Proof.
  revert v. induction pairs as [|p pairs IH]; intros v; [done|]. cbn [fmap list_fmap parse_pairs].
  rewrite parse_encode_pair. apply IH.
Qed.

Lemma add_values v name values :
  foldl add_value v (pair name <$> values)
    = if decide (values = []) then v else <[name := default [] (v !! name) ++ values]> v.
Proof.
  revert v. induction values as [|x values IH]; intros v; [done|]. cbn [fmap list_fmap foldl].
  rewrite IH. unfold add_value. cbn [fst snd]. case_decide as Hv; [by subst|].
  rewrite lookup_insert_eq, insert_insert_eq. simpl. by rewrite <-app_assoc.
Qed.

Lemma pairs_of_lookup v names w name :
  NoDup names → (∀ n, n ∈ names → w !! n = None) → map_Forall (λ _ values, values ≠ []) v →
  foldl add_value w (pairs_of v names) !! name
    = if decide (name ∈ names) then v !! name else w !! name.
Proof.
  intros Hnd Hw Hv. revert w Hw. induction Hnd as [|n names Hn Hnd IH]; intros w Hw; [done|].
  cbn [pairs_of mbind list_bind]. fold (pairs_of v names). rewrite foldl_app, add_values.
  assert (w !! n = None) as Hwn by (apply Hw; by left).
  destruct (v !! n) as [values|] eqn:Hvn; simpl.
  - destruct (decide (values = [])) as [->|_]; [by apply (Hv n []) in Hvn|]. rewrite Hwn. simpl. rewrite IH.
    + destruct (decide (name = n)) as [->|Hne].
      * destruct (decide (n ∈ names)); [done|]. destruct (decide (n ∈ n :: names)); [|set_solver].
        by rewrite lookup_insert_eq.
      * rewrite lookup_insert_ne by congruence. repeat case_decide; set_solver.
    + intros n' Hn'. rewrite lookup_insert_ne by congruence. apply Hw. by right.
  - destruct (decide (@nil string = [])) as [_|]; [|done]. rewrite IH by (intros; apply Hw; by right).
    destruct (decide (name = n)) as [->|Hne]; [|repeat case_decide; set_solver].
    destruct (decide (n ∈ names)); [done|]. destruct (decide (n ∈ n :: names)); [|set_solver].
    by rewrite Hwn, Hvn.
Qed.

(** The reader of a form undoes its writer. *)
Lemma Parse_Encode v : map_Forall (λ _ values, values ≠ []) v → ParseQuery (Encode v) = Some v.
Proof.
  intros Hv. unfold ParseQuery, Encode. destruct (decide (v = ∅)) as [->|Hne]; [done|].
  rewrite Split_Join.
  - rewrite parse_encode_pairs. f_equal. apply map_eq. intros name.
    rewrite pairs_of_lookup; [|apply NoDup_sorted_keys|by intros; apply lookup_empty|done].
    case_decide as Hin; [done|]. rewrite elem_of_sorted_keys, <-eq_None_not_Some in Hin.
    by rewrite lookup_empty.
  - intros Hnil. apply map_choose in Hne as (name & values & Hname).
    apply fmap_nil_iff in Hnil. unfold pairs_of in Hnil.
    assert (name ∈ sorted_keys v) as Hin by (apply elem_of_sorted_keys; by eexists).
    destruct values as [|x values]; [by apply (Hv name []) in Hname|].
    assert ((name, x) ∈ pairs_of v (sorted_keys v)) as Hp.
    { unfold pairs_of. apply list_elem_of_bind. exists name. split; [|done]. rewrite Hname. cbn. left. }
    unfold pairs_of in Hp. rewrite Hnil in Hp. by apply not_elem_of_nil in Hp.
  - apply Forall_fmap, Forall_forall. intros p _. apply encode_pair_segment.
Qed.

(** ** [base64.StdEncoding] *)

(** The standard alphabet, from the URL alphabet and back. *)
Definition std_char (a : ascii) : ascii :=
  if decide (a = "-"%char) then "+"%char else if decide (a = "_"%char) then "/"%char else a.

Definition url_char (a : ascii) : option ascii :=
  if decide (a = "+"%char) then Some "-"%char
  else if decide (a = "/"%char) then Some "_"%char
  else if bool_decide (a ∈ ["-"; "_"]%char) then None
  else Some a.

Definition padding (n : nat) : list ascii :=
  match (n mod 3)%nat with 1%nat => ["="; "="]%char | 2%nat => ["="]%char | _ => [] end.

Definition Std_EncodeToString (bs : list Z) : string :=
  String.string_of_list_ascii
    ((std_char <$> String.list_ascii_of_string (EncodeToString bs)) ++ padding (length bs)).

Definition unpad (l : list ascii) : list ascii :=
  match rev l with
  | a :: b :: r =>
      if decide (a = "="%char) then if decide (b = "="%char) then rev r else rev (b :: r)
      else l
  | _ => l
  end.

(** [None] is an error.  Line feeds and carriage returns are skipped, the padding
    is required, and trailing bits are not checked. *)
Definition Std_DecodeString (s : string) : option (list Z) :=
  let l := filter (.∉ ["010"; "013"]%char) (String.list_ascii_of_string s) in
  if decide (length l mod 4 = 0)%nat then
    url ← mapM url_char (unpad l); DecodeString (String.string_of_list_ascii url)
  else None.

Lemma std_char_encode n : 0 ≤ n < 64 →
  url_char (std_char (encode_char n)) = Some (encode_char n) ∧
  std_char (encode_char n) ∉ ["010"; "013"; "="]%char.
Proof.
  set (p := λ n, bool_decide (url_char (std_char (encode_char n)) = Some (encode_char n)) &&
    bool_decide (std_char (encode_char n) ∉ ["010"; "013"; "="]%char)).
  intros Hn. assert (p n = true) as [H1%bool_decide_eq_true H2%bool_decide_eq_true]%andb_prop; [|done].
  by apply (all_below p 64).
Qed.

Lemma list_ascii_of_sextets ns :
  String.list_ascii_of_string (of_sextets ns) = encode_char <$> ns.
Proof. induction ns as [|n ns IH]; [done|]. cbn. by rewrite IH. Qed.

Lemma sextets_padded bs :
  ((length (to_sextets bs) + length (padding (length bs))) mod 4 = 0)%nat.
Proof.
  induction bs as [|x|x y|x y z bs IH] using list_ind3; [done..|].
  cbn [to_sextets length]. unfold padding in *.
  replace (S (S (S (length bs))) mod 3)%nat with (length bs mod 3)%nat.
  - replace (S (S (S (S (length (to_sextets bs))))) +
      length (match (length bs mod 3)%nat with 1%nat => ["="; "="]%char | 2%nat => ["="]%char | _ => [] end))%nat
      with ((length (to_sextets bs) +
      length (match (length bs mod 3)%nat with 1%nat => ["="; "="]%char | 2%nat => ["="]%char | _ => [] end))
        + 1 * 4)%nat by lia.
    by rewrite Nat.Div0.mod_add.
  - replace (S (S (S (length bs)))) with (length bs + 1 * 3)%nat by lia. by rewrite Nat.Div0.mod_add.
Qed.

Lemma unpad_padding l n :
  "="%char ∉ l → (n ≠ 0 → l ≠ [])%nat → unpad (l ++ padding n) = l.
Proof.
  intros Hl Hn. unfold unpad, padding.
  assert (n mod 3 = 1 ∨ n mod 3 = 2 ∨ n mod 3 = 0)%nat as Hcases.
  { pose proof (Nat.mod_upper_bound n 3). lia. }
  assert (∀ a r, rev l = a :: r → a ≠ "="%char) as Hlast.
  { intros a r Hrev ->. apply Hl. apply list_elem_of_In, in_rev. rewrite Hrev. by left. }
  destruct Hcases as [E|[E|E]]; rewrite E; rewrite ?rev_app_distr.
  - cbn. by rewrite rev_involutive.
  - cbn [rev app]. destruct (rev l) as [|b r] eqn:Hrev.
    + exfalso. apply (f_equal (@rev ascii)) in Hrev. rewrite rev_involutive in Hrev. cbn in Hrev.
      destruct n; [done|]. by apply Hn.
    + destruct (decide ("="%char = "="%char)); [|done].
      destruct (decide (b = "="%char)) as [->|_]; [by destruct (Hlast _ _ eq_refl)|].
      transitivity (rev (b :: r)); [done|]. by rewrite <-Hrev, rev_involutive.
  - cbn [rev app]. rewrite app_nil_r. destruct (rev l) as [|a [|b r]] eqn:Hrev; [done..|].
    destruct (decide (a = "="%char)) as [->|_]; [|done]. by destruct (Hlast _ _ eq_refl).
Qed.

Lemma filter_every {A} (P : A → Prop) `{!∀ x, Decision (P x)} (l : list A) :
  Forall P l → filter P l = l.
Proof.
  induction 1 as [|x l Hx _ IH]; [done|]. rewrite filter_cons. by rewrite decide_True, IH.
Qed.

(** The decoder undoes the encoder. *)
Lemma Std_Decode_Encode bs :
  Forall is_octet bs → Std_DecodeString (Std_EncodeToString bs) = Some bs.
Proof.
  intros Hbs. unfold Std_DecodeString, Std_EncodeToString.
  rewrite String.list_ascii_of_string_of_list_ascii.
  assert (String.list_ascii_of_string (EncodeToString bs) = encode_char <$> to_sextets bs) as ->
    by apply list_ascii_of_sextets.
  pose proof (to_sextets_bound bs Hbs) as Hns. set (ns := to_sextets bs) in *.
  assert (∀ a, a ∈ std_char <$> (encode_char <$> ns) → a ∉ ["010"; "013"; "="]%char) as Hchars.
  { intros a (b & -> & (n & -> & Hin)%list_elem_of_fmap)%list_elem_of_fmap.
    rewrite Forall_forall in Hns. by apply std_char_encode, Hns. }
  rewrite filter_every.
  2: { apply Forall_app. split; apply Forall_forall.
       - intros a Ha%Hchars. set_solver.
       - intros a Ha. unfold padding in Ha. repeat case_match; set_solver. }
  rewrite decide_True.
  2: { rewrite length_app, !length_fmap. apply sextets_padded. }
  rewrite unpad_padding.
  - assert (mapM url_char (std_char <$> (encode_char <$> ns)) = Some (encode_char <$> ns)) as ->.
    { clear -Hns. induction Hns as [|n ns Hn _ IH]; [done|]. cbn [fmap list_fmap mapM].
      rewrite (proj1 (std_char_encode n Hn)). cbn. by rewrite IH. }
    cbn [mbind option_bind]. rewrite <-list_ascii_of_sextets, String.string_of_list_ascii_of_string.
    by apply Decode_Encode.
  - intros Ha%Hchars. set_solver.
  - intros Hlen. destruct bs as [|x [|y [|z bs]]]; done.
Qed.

(** ** Bytes of a string *)

Definition bytes_of (s : string) : list Z := (λ a, Z.of_N (code a)) <$> String.list_ascii_of_string s.

Definition string_of (bs : list Z) : string :=
  String.string_of_list_ascii ((λ b, ascii_of_N (Z.to_N b)) <$> bs).

Lemma string_of_bytes_of s : string_of (bytes_of s) = s.
Proof.
  unfold string_of, bytes_of. rewrite <-list_fmap_compose.
  rewrite <-(String.string_of_list_ascii_of_string s) at 2. f_equal.
  rewrite <-(list_fmap_id (String.list_ascii_of_string s)) at 2.
  apply list_fmap_ext. intros _ a _. cbn. rewrite N2Z.id. apply ascii_N_embedding.
Qed.

Lemma bytes_of_octets s : Forall is_octet (bytes_of s).
Proof.
  apply Forall_fmap, Forall_forall. intros a _. cbn. unfold is_octet, code.
  pose proof (N_ascii_bounded a). lia.
Qed.

(** ** [Request.SetBasicAuth] and [Request.BasicAuth] *)

(** The value of the [Authorization] header. *)
Definition basicAuth (username password : string) : string :=
  "Basic " +:+ Std_EncodeToString (bytes_of (username +:+ ":" +:+ password)).

(** [parseBasicAuth] *)
Definition parseBasicAuth (auth : string) : option (string * string) :=
  if EqualFold (String.substring 0 6 auth) "Basic " then
    credentials ← Std_DecodeString (drop 6 auth); Cut (string_of credentials) ":"
  else None.

(** What a client sets, the server reads, when the user name has no colon. *)
Lemma parse_basicAuth username password :
  has_byte ":" username = false →
  parseBasicAuth (basicAuth username password) = Some (username, password).
Proof.
  intros Hname. unfold parseBasicAuth, basicAuth, EqualFold.
  set (e := Std_EncodeToString _).
  assert (String.substring 0 6 ("Basic " +:+ e) = "Basic ") as -> by (by destruct e).
  assert (drop 6 ("Basic " +:+ e) = e) as -> by done. unfold e.
  rewrite (bool_decide_eq_true_2 (ToLower "Basic " = ToLower "Basic ")) by done.
  rewrite Std_Decode_Encode by apply bytes_of_octets. cbn [mbind option_bind].
  rewrite string_of_bytes_of. by apply Cut_app.
Qed.
