(* ===== verification/GoErrors.v ===== *)
(** * Go error values

    Go code builds errors with [errors.New], [fmt.Errorf] and [errors.Join] and
    reads them with [errors.Is] and [errors.As].  An error is modelled as the
    tree those functions build: a sentinel is identified by its text (the texts
    of the gateway's package-level sentinels are pairwise distinct), a call of
    [fmt.Errorf] keeps its format string, the errors its [%w] verbs wrap and its
    other arguments, unrendered. *)

From S2P Require Import Prelude GoStd.

(** The codes of a Connect error, the enumeration of the Connect protocol. *)
Inductive Code : Type :=
| CodeCanceled | CodeUnknown | CodeInvalidArgument | CodeDeadlineExceeded
| CodeNotFound | CodeAlreadyExists | CodePermissionDenied | CodeResourceExhausted
| CodeFailedPrecondition | CodeAborted | CodeOutOfRange | CodeUnimplemented
| CodeInternal | CodeUnavailable | CodeDataLoss | CodeUnauthenticated.

#[export] Instance Code_eq_dec : EqDecision Code.
Proof. solve_decision. Defined.

(** [Code.String()] *)
Definition code_string (c : Code) : string :=
  match c with
  | CodeCanceled => "canceled" | CodeUnknown => "unknown"
  | CodeInvalidArgument => "invalid_argument"
  | CodeDeadlineExceeded => "deadline_exceeded" | CodeNotFound => "not_found"
  | CodeAlreadyExists => "already_exists"
  | CodePermissionDenied => "permission_denied"
  | CodeResourceExhausted => "resource_exhausted"
  | CodeFailedPrecondition => "failed_precondition" | CodeAborted => "aborted"
  | CodeOutOfRange => "out_of_range" | CodeUnimplemented => "unimplemented"
  | CodeInternal => "internal" | CodeUnavailable => "unavailable"
  | CodeDataLoss => "data_loss" | CodeUnauthenticated => "unauthenticated"
  end.

#[warnings="-register-all"]
Inductive error : Type :=
(** [errors.New(text)] *)
| ErrorNew (text : string)
(** [fmt.Errorf(format, ...)]: the wrapped errors and the other arguments *)
| Errorf (format : string) (wrapped : list error) (args : list string)
(** [errors.Join] of at least one non-nil error *)
| Joined (errs : list error)
(** the discovery package's [*unexpectedStatusError] *)
| UnexpectedStatus (documentURL status : string) (status_code : Z)
(** a [*connect.Error]: code, message, details, whether it came from the other
    side of the connection, and the cause given to [WithCause] *)
| ConnectError (c : Code) (message : string) (details : list string)
    (remote : bool) (cause : list error).

(** An induction principle that reaches the wrapped errors. *)
Fixpoint error_tree_ind (P : error → Prop)
    (Hnew : ∀ t, P (ErrorNew t))
    (Herrorf : ∀ f es args, Forall P es → P (Errorf f es args))
    (Hjoined : ∀ es, Forall P es → P (Joined es))
    (Hstatus : ∀ u s c, P (UnexpectedStatus u s c))
    (Hconnect : ∀ c m d r es, Forall P es → P (ConnectError c m d r es))
    (e : error) : P e :=
  let rec := error_tree_ind P Hnew Herrorf Hjoined Hstatus Hconnect in
  let fix all es : Forall P es :=
    match es with
    | [] => Forall_nil_2 P
    | e :: es => Forall_cons_2 P e es (rec e) (all es)
    end in
  match e with
  | ErrorNew t => Hnew t
  | Errorf f es args => Herrorf f es args (all es)
  | Joined es => Hjoined es (all es)
  | UnexpectedStatus u s c => Hstatus u s c
  | ConnectError c m d r es => Hconnect c m d r es (all es)
  end.

(** The sentinel [*unexpectedStatusError] unwraps to. *)
Definition ErrUnexpectedStatus : string := "unexpected response status".

(** [errors.Is(err, target)] for a sentinel [target], named by its text. *)
Fixpoint Is (e : error) (target : string) : bool :=
  match e with
  | ErrorNew t => bool_decide (t = target)
  | Errorf _ es _ | Joined es | ConnectError _ _ _ _ es =>
      existsb (λ e, Is e target) es
  | UnexpectedStatus _ _ _ => bool_decide (ErrUnexpectedStatus = target)
  end.

(** [errors.As(err, &status)] for a [*unexpectedStatusError]: the status code of
    the first one, depth first. *)
Fixpoint AsUnexpectedStatus (e : error) : option Z :=
  match e with
  | ErrorNew _ => None
  | Errorf _ es _ | Joined es | ConnectError _ _ _ _ es =>
      (fix go l := match l with
       | [] => None
       | e :: l => match AsUnexpectedStatus e with Some c => Some c | None => go l end
       end) es
  | UnexpectedStatus _ _ c => Some c
  end.

(** A [*connect.Error], as [errors.As] finds it. *)
Record Connect : Type := {
  connect_code : Code;
  connect_message : string;
  connect_details : list string;
  connect_remote : bool;
}.

Fixpoint AsConnectError (e : error) : option Connect :=
  match e with
  | ErrorNew _ | UnexpectedStatus _ _ _ => None
  | Errorf _ es _ | Joined es =>
      (fix go l := match l with
       | [] => None
       | e :: l => match AsConnectError e with Some c => Some c | None => go l end
       end) es
  | ConnectError c m d r _ =>
      Some {| connect_code := c; connect_message := m;
              connect_details := d; connect_remote := r |}
  end.

(** [errors.Join(errs...)]: nil when no error is left. *)
Definition errors_Join (errs : list error) : option error :=
  match errs with [] => None | _ => Some (Joined errs) end.

(** The tail of a Go function that collected errors:
    [if err := errors.Join(errs...); err != nil { return zero, err }; return a, nil]. *)
Definition join_errors {A} (errs : list error) (a : A) : result error A :=
  match errors_Join errs with Some e => Err e | None => Ok a end.

(** The sentinels of [context]. *)
Definition Canceled : string := "context canceled".
Definition DeadlineExceeded : string := "context deadline exceeded".

(** ** Lemmas *)

Lemma errors_Join_None errs : errors_Join errs = None ↔ errs = [].
Proof. by destruct errs. Qed.

Lemma join_errors_ok {A} (errs : list error) (a b : A) :
  join_errors errs a = Ok b ↔ errs = [] ∧ a = b.
Proof. destruct errs; unfold join_errors; simpl; split; intros; destruct_and?; split_and?; congruence. Qed.

Lemma join_errors_err {A} (errs : list error) (a : A) e :
  join_errors errs a = Err e ↔ errs ≠ [] ∧ e = Joined errs.
Proof. destruct errs; unfold join_errors; simpl; split; intros; destruct_and?; split_and?; congruence. Qed.

Lemma Is_Joined es target : Is (Joined es) target ↔ ∃ e, e ∈ es ∧ Is e target.
Proof.
  simpl. rewrite Is_true_true, existsb_exists.
  setoid_rewrite <-list_elem_of_In. by setoid_rewrite Is_true_true.
Qed.

Lemma Is_Errorf f es args target :
  Is (Errorf f es args) target ↔ ∃ e, e ∈ es ∧ Is e target.
Proof. exact (Is_Joined es target). Qed.

#[export] Hint Rewrite errors_Join_None @join_errors_ok : no_errors.
