(* ===== verification/HttpClient.v ===== *)
(** * The HTTP clients the gateway builds

    [forward.NewHTTPClient], [idp.NewHTTPClient] and the [noRedirectClient] of
    externaltoken, over a model of what [net/http]'s [Client.Do] does with a
    redirect: the client asks [CheckRedirect] before it follows one, and returns
    the response as it is on [ErrUseLastResponse].  A client built here sends one
    request per call, so that the internal tokens, the client secret of the
    introspection and the keys of the IdP never come from or go to an address
    that a response names. *)

From S2P Require Import Prelude GoStd GoErrors.

Definition ErrUseLastResponse : string := "net/http: use last response".

(** [http.Client], and the transport it sends a request with. *)
Record Client (W Req Resp : Type) : Type := {
  RoundTrip : Req → M W (result error Resp);
  (** of the next request and the requests before it; [None] is the default *)
  CheckRedirect : option (Req → list Req → option error);
  (** none when zero *)
  Timeout : Duration;
}.
Arguments RoundTrip {W Req Resp}.
Arguments CheckRedirect {W Req Resp}.
Arguments Timeout {W Req Resp}.

Section client.
Context {W Req Resp : Type}.
(** The request that a response redirects to, [None] when it is not a redirect
    that can be followed. *)
Context (redirected : Req → Resp → option Req).

(** Without a policy a client stops after ten requests. *)
Definition defaultCheckRedirect (next : Req) (via : list Req) : option error :=
  if (10 <=? length via)%nat then Some (ErrorNew "stopped after 10 redirects") else None.

(** [Client.Do], with fuel for a policy that never stops. *)
Fixpoint Do (fuel : nat) (c : Client W Req Resp) (via : list Req) (req : Req) :
    M W (option (result error Resp)) :=
  match fuel with
  | O => mret_ None
  | S fuel =>
      let! r := RoundTrip c req in
      match r with
      | Err err => mret_ (Some (Err err))
      | Ok resp =>
          match redirected req resp with
          | None => mret_ (Some (Ok resp))
          | Some next =>
              match default defaultCheckRedirect (CheckRedirect c) next (via ++ [req]) with
              | None => Do fuel c (via ++ [req]) next
              | Some err => mret_ (Some (if Is err ErrUseLastResponse then Ok resp else Err err))
              end
          end
      end
  end.

(** ** The clients *)

(** [forward.NewHTTPClient] *)
Definition forward_NewHTTPClient (transport : Req → M W (result error Resp)) : Client W Req Resp :=
  {| RoundTrip := transport; CheckRedirect := Some (λ _ _, Some (ErrorNew ErrUseLastResponse));
     Timeout := 0 |}.

Definition defaultHTTPTimeout : Duration := 10 * Second.

(** The transport of [net/http]. *)
Context (DefaultTransport : Req → M W (result error Resp)).

(** [idp.NewHTTPClient] *)
Definition idp_NewHTTPClient : Client W Req Resp :=
  {| RoundTrip := DefaultTransport;
     CheckRedirect := Some (λ _ _, Some (ErrorNew ErrUseLastResponse));
     Timeout := defaultHTTPTimeout |}.

(** [externaltoken]'s client when none is configured. *)
Definition noRedirectClient : Client W Req Resp :=
  {| RoundTrip := DefaultTransport;
     CheckRedirect := Some (λ _ _, Some (ErrorNew ErrUseLastResponse)); Timeout := 0 |}.

(** ** One request per call *)

(** A client with this policy gives its caller the first response. *)
Lemma Do_once fuel c via req w :
  CheckRedirect c = Some (λ _ _, Some (ErrorNew ErrUseLastResponse)) →
  Do (S fuel) c via req w = (let '(r, w') := RoundTrip c req w in (Some r, w')).
Proof.
  intros Hc. cbn [Do]. run_monad. destruct (RoundTrip c req w) as [[resp|err] w']; [|done].
  rewrite Hc. by destruct (redirected req resp).
Qed.

(** No client of the gateway follows a redirect. *)
Lemma clients_send_once transport c fuel req w :
  c ∈ [forward_NewHTTPClient transport; idp_NewHTTPClient; noRedirectClient] →
  Do (S fuel) c [] req w = (let '(r, w') := RoundTrip c req w in (Some r, w')).
Proof.
  intros Hc. apply Do_once. repeat apply elem_of_cons in Hc as [->|Hc]; [done..|].
  by apply elem_of_nil in Hc.
Qed.

(** The default policy would; it ends after at most ten requests. *)
Lemma Do_default_ends fuel c via req w :
  CheckRedirect c = None → (10 - length via < fuel)%nat → (length via < 10)%nat →
  is_Some (Do fuel c via req w).1.
Proof.
  intros Hc. revert via req w. induction fuel as [|fuel IH]; intros via req w Hf Hv; [lia|].
  cbn [Do]. run_monad. destruct (RoundTrip c req w) as [[resp|err] w']; [|by eexists].
  destruct (redirected req resp) as [next|]; [|by eexists]. rewrite Hc. cbn [default].
  unfold defaultCheckRedirect. rewrite length_app. cbn [length].
  destruct (Nat.leb_spec 10 (length via + 1)) as [Hl|Hl]; [by eexists|].
  apply IH; rewrite length_app; cbn; lia.
Qed.
End client.
