(* ===== verification/Config.v ===== *)
(** * The configuration ([internal/config/config.go])

    [Load] reads the environment and reports every problem at once.  Reading
    the secret file and [url.Parse] are parameters. *)

From S2P Require Import Prelude GoStd GoErrors.

Definition maxTrustedProxyHops : Z := 16.

Definition envListenerMode : string := "TOLO_GATEWAY_LISTENER_MODE".
Definition envPublicPort : string := "TOLO_GATEWAY_PUBLIC_PORT".
Definition envInternalPort : string := "TOLO_GATEWAY_INTERNAL_PORT".
Definition envPort : string := "PORT".
Definition envIssuerID : string := "INTERNAL_JWT_ISSUER".
Definition envSigningKeyFile : string := "INTERNAL_JWT_SIGNING_KEY_FILE".
Definition envSigningKeyID : string := "INTERNAL_JWT_SIGNING_KEY_ID".
Definition envPublishedKeyFiles : string := "INTERNAL_JWT_PUBLISHED_KEY_FILES".
Definition envIDPIssuer : string := "IDP_ISSUER".
Definition envIDPAudience : string := "IDP_AUDIENCE".
Definition envIDPAlgorithms : string := "IDP_ALGORITHMS".
Definition envDestinationsFile : string := "TOLO_GATEWAY_DESTINATIONS_FILE".
Definition envTrustedProxyHops : string := "TOLO_GATEWAY_TRUSTED_PROXY_HOPS".
Definition envIDPIntrospection : string := "IDP_INTROSPECTION".
Definition envIDPIntrospectionClientID : string := "IDP_INTROSPECTION_CLIENT_ID".
Definition envIDPIntrospectionSecretFile : string := "IDP_INTROSPECTION_CLIENT_SECRET_FILE".
Definition envIDPLegacyEventsWriteScope : string := "IDP_LEGACY_EVENTS_WRITE_SCOPE".

Definition listenerModeSplit : string := "split".
Definition listenerModePublic : string := "public".
Definition listenerModeInternal : string := "internal".

Definition maxPort : Z := 65535.

Definition retiredListenerEnvs : list string :=
  ["SERVER_ADDR"; "TOLO_WORKLOAD_AUTH_MODE"; "TOLO_GATEWAY_ROLE"; "TOLO_GATEWAY_WORKLOAD_PORT"].

Definition introspectionRequired : string := "required".
Definition introspectionDisabled : string := "disabled".
Definition legacyEventsWriteScopeEnabled : string := "enabled".

Definition supportedIDPAlgorithms : list string := ["RS256"; "ES256"].
Definition defaultIDPAlgorithms : list string := ["RS256"].

(** ** Data *)

Record KeyFile : Type := { KeyFile_ID : string; KeyFile_Path : string }.

#[export] Instance KeyFile_eq_dec : EqDecision KeyFile.
Proof. solve_decision. Defined.

(** The two values of [type Inbound string] *)
Definition InboundPublic : string := "public".
Definition InboundInternal : string := "internal".

Record Listener : Type := { listener_Inbound : string; Addr : string }.

#[export] Instance Listener_eq_dec : EqDecision Listener.
Proof. solve_decision. Defined.

Record Config : Type := {
  ListenerMode : string;
  Listeners : list Listener;
  IssuerID : string;
  SigningKey : KeyFile;
  PublishedKeys : list KeyFile;
  IDPIssuer : string;
  IDPAudience : string;
  IDPAlgorithms : list string;
  IDPIntrospectionClientID : string;
  IDPIntrospectionSecretFile : string;
  IDPIntrospectionSecret : string;
  IDPIntrospectionDisabled : bool;
  IDPLegacyEventsWriteScope : bool;
  DestinationsFile : string;
  TrustedProxyHops : Z;
}.

#[export] Instance Config_eq_dec : EqDecision Config.
Proof. solve_decision. Defined.

(** ** Parsing *)

(** A message of [fmt.Errorf] that wraps nothing. *)
Definition message (format : string) (args : list string) : error := Errorf format [] args.

Definition missingEnvError (key : string) : error := message "%s is required but not set" [key].

(** [if cond { errs = append(errs, err) }] *)
Definition when (cond : bool) (err : error) : list error := if cond then [err] else [].

Definition err_of {A} (r : result error A) : list error :=
  match r with Err err => [err] | Ok _ => [] end.

Definition value_of {A} (zero : A) (r : result error A) : A :=
  match r with Ok a => a | Err _ => zero end.

Definition is_empty (s : string) : bool := bool_decide (s = "").

(** [net.JoinHostPort] with an empty host *)
Definition JoinHostPort (port : string) : string := ":" +:+ port.

Definition parsePort (key raw : string) : result error string :=
  if is_empty raw then Err (missingEnvError key)
  else
    let bad := Err (message "%s must be an integer between 1 and %d, got %q"
                      [key; Itoa maxPort; raw]) in
    match Atoi raw with
    | None => bad
    | Some port =>
        if (port <? 1) || (maxPort <? port) || negb (bool_decide (Itoa port = raw)) then bad
        else Ok raw
    end.

Definition parseListeners (getenv : string → string) (mode : string) :
    result error (list Listener) :=
  let retired := concat ((λ key, when (negb (is_empty (getenv key)))
    (message "%s is no longer supported; configure the listeners with %s"
       [key; envListenerMode])) <$> retiredListenerEnvs) in
  if decide (mode = listenerModeSplit) then
    let public := parsePort envPublicPort (getenv envPublicPort) in
    let internal := parsePort envInternalPort (getenv envInternalPort) in
    let same := when (is_ok public && is_ok internal
                      && bool_decide (value_of "" public = value_of "" internal))
      (message "%s and %s must differ, both are %s"
         [envPublicPort; envInternalPort; value_of "" public]) in
    join_errors (retired ++ err_of public ++ err_of internal ++ same)
      [{| listener_Inbound := InboundPublic; Addr := JoinHostPort (value_of "" public) |};
       {| listener_Inbound := InboundInternal; Addr := JoinHostPort (value_of "" internal) |}]
  else if bool_decide (mode ∈ [listenerModePublic; listenerModeInternal]) then
    let set := concat ((λ key, when (negb (is_empty (getenv key)))
      (message "%s must not be set when %s is %q" [key; envListenerMode; mode]))
      <$> [envPublicPort; envInternalPort]) in
    let port := parsePort envPort (getenv envPort) in
    join_errors (retired ++ set ++ err_of port)
      [{| listener_Inbound := mode; Addr := JoinHostPort (value_of "" port) |}]
  else if is_empty mode then join_errors (retired ++ [missingEnvError envListenerMode]) []
  else
    join_errors (retired ++ [message "%s must be %q, %q or %q, got %q"
      [envListenerMode; listenerModeSplit; listenerModePublic; listenerModeInternal; mode]]) [].

Definition publishedKeyError (index : nat) (reason : string) (args : list string) : error :=
  message ("%s entry %d: " +:+ reason)
    ([envPublishedKeyFiles; Itoa (Z.of_nat index + 1)] ++ args).

Definition parsePublishedKey (entry : string) (index : nat) : result error KeyFile :=
  match Cut entry "=" with
  | None => Err (publishedKeyError index "%q is not in the kid=path form" [entry])
  | Some (keyID, path) =>
      if is_empty keyID then Err (publishedKeyError index "the key ID is empty" [])
      else if is_empty path then Err (publishedKeyError index "the key file path is empty" [])
      else Ok {| KeyFile_ID := keyID; KeyFile_Path := path |}
  end.

(** The loop of [parsePublishedKeys]. *)
Fixpoint publishedKeysLoop (index : nat) (entries : list string) (keyFiles : list KeyFile)
    (seen : gset string) (errs : list error) : list KeyFile * list error :=
  match entries with
  | [] => (keyFiles, errs)
  | entry :: rest =>
      match parsePublishedKey entry index with
      | Err err => publishedKeysLoop (S index) rest keyFiles seen (errs ++ [err])
      | Ok keyFile =>
          if decide (KeyFile_ID keyFile ∈ seen) then
            publishedKeysLoop (S index) rest keyFiles seen
              (errs ++ [publishedKeyError index "key ID %q is already used by another key"
                          [KeyFile_ID keyFile]])
          else
            publishedKeysLoop (S index) rest (keyFiles ++ [keyFile])
              ({[KeyFile_ID keyFile]} ∪ seen) errs
      end
  end.

Definition parsePublishedKeys (raw signingKeyID : string) : result error (list KeyFile) :=
  if is_empty raw then Ok []
  else
    let seen : gset string := if is_empty signingKeyID then ∅ else {[signingKeyID]} in
    let '(keyFiles, errs) := publishedKeysLoop 0 (Split raw ",") [] seen [] in
    join_errors errs keyFiles.

Definition parseTrustedProxyHops (raw : string) : result error Z :=
  if is_empty raw then Ok 0
  else
    match Atoi raw with
    | None =>
        Err (message "%s must be an integer between 0 and %d, got %q"
               [envTrustedProxyHops; Itoa maxTrustedProxyHops; raw])
    | Some hops =>
        if (hops <? 0) || (maxTrustedProxyHops <? hops) then
          Err (message "%s must be between 0 and %d, got %d"
                 [envTrustedProxyHops; Itoa maxTrustedProxyHops; Itoa hops])
        else Ok hops
    end.

Fixpoint algorithmsLoop (entries algorithms : list string) (errs : list error) :
    list string * list error :=
  match entries with
  | [] => (algorithms, errs)
  | entry :: rest =>
      if negb (Contains supportedIDPAlgorithms entry) then
        algorithmsLoop rest algorithms
          (errs ++ [message "%s: %q is not one of %s"
                      [envIDPAlgorithms; entry; Join supportedIDPAlgorithms ", "]])
      else if Contains algorithms entry then
        algorithmsLoop rest algorithms
          (errs ++ [message "%s: %q appears more than once" [envIDPAlgorithms; entry]])
      else algorithmsLoop rest (algorithms ++ [entry]) errs
  end.

Definition parseIDPAlgorithms (raw : string) : result error (list string) :=
  if is_empty raw then Ok defaultIDPAlgorithms
  else
    let '(algorithms, errs) := algorithmsLoop (Split raw ",") [] [] in
    join_errors errs algorithms.

Definition parseIntrospection (issuer raw clientID secretFile : string) : result error bool :=
  if negb (is_empty raw) && negb (bool_decide (raw = introspectionRequired))
     && negb (bool_decide (raw = introspectionDisabled)) then
    Err (message "%s must be %q or %q when it is set, got %q"
           [envIDPIntrospection; introspectionRequired; introspectionDisabled; raw])
  else if is_empty issuer then
    if negb (is_empty raw) then
      Err (message "%s is set but %s is not" [envIDPIntrospection; envIDPIssuer])
    else Ok false
  else if bool_decide (raw = introspectionDisabled) then
    if negb (is_empty clientID) || negb (is_empty secretFile) then
      Err (message "%s is %q but %s or %s is set; unset both or set %s=%s"
             [envIDPIntrospection; introspectionDisabled; envIDPIntrospectionClientID;
              envIDPIntrospectionSecretFile; envIDPIntrospection; introspectionRequired])
    else Ok true
  else if is_empty clientID && is_empty secretFile then
    Err (message "%s and %s are required when %s is set; set both or set %s=%s to run without revocation checks"
           [envIDPIntrospectionClientID; envIDPIntrospectionSecretFile; envIDPIssuer;
            envIDPIntrospection; introspectionDisabled])
  else Ok false.

Definition parseLegacyEventsWriteScope (issuer raw : string) : result error bool :=
  if is_empty raw then Ok false
  else if negb (bool_decide (raw = legacyEventsWriteScopeEnabled)) then
    Err (message "%s must be %q when it is set, got %q"
           [envIDPLegacyEventsWriteScope; legacyEventsWriteScopeEnabled; raw])
  else if is_empty issuer then
    Err (message "%s is set but %s is not" [envIDPLegacyEventsWriteScope; envIDPIssuer])
  else Ok true.

Section load.
Context (ReadFile : string → result error string).
Context (url_Parse : string → result error URL).

Definition readSecretFile (path : string) : result error string :=
  match ReadFile path with
  | Err err => Err (Errorf "%s: read %s: %w" [err] [envIDPIntrospectionSecretFile; path])
  | Ok raw =>
      let secret := TrimRight raw ["013"; "010"]%char in
      if is_empty secret then
        Err (message "%s: %s holds no secret" [envIDPIntrospectionSecretFile; path])
      else Ok secret
  end.

Definition loadIntrospectionSecret (issuer clientID secretFile : string) : result error string :=
  if is_empty clientID && is_empty secretFile then Ok ""
  else
    let errs :=
      when (is_empty clientID) (message "%s is set but %s is not"
        [envIDPIntrospectionSecretFile; envIDPIntrospectionClientID])
      ++ when (is_empty secretFile) (message "%s is set but %s is not"
        [envIDPIntrospectionClientID; envIDPIntrospectionSecretFile])
      ++ when (is_empty issuer) (message "introspection is configured but %s is not set"
        [envIDPIssuer]) in
    let? _ := join_errors errs tt in
    readSecretFile secretFile.

Definition checkIDPIssuer (issuer : string) : option error :=
  match url_Parse issuer with
  | Err err =>
      Some (Errorf "%s must be an absolute HTTP URL, got %q: %w" [err] [envIDPIssuer; issuer])
  | Ok parsed =>
      let usable :=
        (bool_decide (URL_Scheme parsed = "http") || bool_decide (URL_Scheme parsed = "https"))
        && negb (is_empty (URL_Host parsed)) && is_empty (URL_Opaque parsed)
        && is_empty (URL_RawQuery parsed) && is_empty (URL_Fragment parsed)
        && bool_decide (URL_User parsed = None) in
      if negb usable then
        Some (message
          "%s must be an absolute HTTP URL without userinfo, query or fragment, got %q"
          [envIDPIssuer; issuer])
      else None
  end.

Definition parseIDP (issuer audience algorithms : string) : result error (list string) :=
  if is_empty issuer then
    join_errors
      (when (negb (is_empty audience)) (message "%s is set but %s is not"
         [envIDPAudience; envIDPIssuer])
       ++ when (negb (is_empty algorithms)) (message "%s is set but %s is not"
            [envIDPAlgorithms; envIDPIssuer])) []
  else
    let parsed := parseIDPAlgorithms algorithms in
    join_errors
      (option_list (checkIDPIssuer issuer)
       ++ when (is_empty audience) (message "%s is required when %s is set"
            [envIDPAudience; envIDPIssuer])
       ++ err_of parsed) (value_of [] parsed).

Definition Load (getenv : string → string) : result error Config :=
  let issuerID := getenv envIssuerID in
  let signingKeyFile := getenv envSigningKeyFile in
  let signingKeyID := getenv envSigningKeyID in
  let idpIssuer := getenv envIDPIssuer in
  let destinationsFile := getenv envDestinationsFile in
  let listenerMode := getenv envListenerMode in
  let listeners := parseListeners getenv listenerMode in
  let publishedKeys := parsePublishedKeys (getenv envPublishedKeyFiles) signingKeyID in
  let trustedProxyHops := parseTrustedProxyHops (getenv envTrustedProxyHops) in
  let idpAudience := getenv envIDPAudience in
  let idpAlgorithms := parseIDP idpIssuer idpAudience (getenv envIDPAlgorithms) in
  let introspectionClientID := getenv envIDPIntrospectionClientID in
  let introspectionSecretFile := getenv envIDPIntrospectionSecretFile in
  let introspectionSecret :=
    loadIntrospectionSecret idpIssuer introspectionClientID introspectionSecretFile in
  let introspectionDisabled :=
    parseIntrospection idpIssuer (getenv envIDPIntrospection) introspectionClientID
      introspectionSecretFile in
  let legacyEventsWriteScope :=
    parseLegacyEventsWriteScope idpIssuer (getenv envIDPLegacyEventsWriteScope) in
  let errs :=
    err_of listeners
    ++ when (is_empty issuerID) (missingEnvError envIssuerID)
    ++ when (is_empty signingKeyFile) (missingEnvError envSigningKeyFile)
    ++ when (is_empty signingKeyID) (missingEnvError envSigningKeyID)
    ++ when (is_empty destinationsFile) (missingEnvError envDestinationsFile)
    ++ err_of publishedKeys ++ err_of trustedProxyHops
    ++ when (negb (is_empty idpIssuer) && bool_decide (idpIssuer = issuerID))
         (message "%s must not be the same value as %s" [envIDPIssuer; envIssuerID])
    ++ err_of idpAlgorithms ++ err_of introspectionSecret ++ err_of introspectionDisabled
    ++ err_of legacyEventsWriteScope in
  join_errors errs
    {| ListenerMode := listenerMode; Listeners := value_of [] listeners;
       IssuerID := issuerID;
       SigningKey := {| KeyFile_ID := signingKeyID; KeyFile_Path := signingKeyFile |};
       PublishedKeys := value_of [] publishedKeys; IDPIssuer := idpIssuer;
       IDPAudience := idpAudience; IDPAlgorithms := value_of [] idpAlgorithms;
       IDPIntrospectionClientID := introspectionClientID;
       IDPIntrospectionSecretFile := introspectionSecretFile;
       IDPIntrospectionSecret := value_of "" introspectionSecret;
       IDPIntrospectionDisabled := value_of false introspectionDisabled;
       IDPLegacyEventsWriteScope := value_of false legacyEventsWriteScope;
       DestinationsFile := destinationsFile;
       TrustedProxyHops := value_of 0 trustedProxyHops |}.
End load.

(** ** Correctness *)

Lemma is_empty_true s : is_empty s = true ↔ s = "".
Proof. apply bool_decide_eq_true. Qed.

Lemma is_empty_false s : is_empty s = false ↔ s ≠ "".
Proof. apply bool_decide_eq_false. Qed.

Lemma when_nil b err : when b err = [] ↔ b = false.
Proof. by destruct b. Qed.

Lemma err_of_nil {A} (r : result error A) : err_of r = [] ↔ ∃ a, r = Ok a.
Proof. destruct r; simpl; split; try done; [by eexists|by intros [? ?]]. Qed.

(** A result that was used with its error: no error and this value. *)
Lemma err_value {A} (zero : A) (r : result error A) a :
  err_of r = [] ∧ value_of zero r = a ↔ r = Ok a.
Proof. destruct r; simpl; split; [by intros [_ ->]|by intros [= ->]|by intros [? _]|done]. Qed.

(** A port is the decimal form of a number from 1 to 65535: no sign, no leading
    zero, no blank. *)
Definition is_port (raw : string) : Prop := ∃ n, 1 ≤ n ≤ maxPort ∧ raw = Itoa n.

Lemma parsePort_ok key raw p : parsePort key raw = Ok p ↔ p = raw ∧ is_port raw.
Proof.
  unfold parsePort, is_port, maxPort. destruct (is_empty raw) eqn:He.
  { apply is_empty_true in He as ->. split; [done|]. intros (_ & n & Hn & Hr).
    destruct (Itoa_pos n) as (a & r & E & _); [lia|]. congruence. }
  destruct (Atoi raw) as [n|] eqn:Ha.
  2: { split; [done|]. intros (_ & n & Hn & ->).
       rewrite Atoi_Itoa in Ha by (unfold max_int; lia). done. }
  destruct (_ || _ || _) eqn:Hb.
  - split; [done|]. intros (_ & m & Hm & ->). rewrite Atoi_Itoa in Ha by (unfold max_int; lia).
    injection Ha as <-. apply orb_prop in Hb as [Hb|Hb].
    + apply orb_prop in Hb as [?%Z.ltb_lt|?%Z.ltb_lt]; lia.
    + apply negb_true_iff, bool_decide_eq_false in Hb. done.
  - apply orb_false_elim in Hb as [[?%Z.ltb_ge ?%Z.ltb_ge]%orb_false_elim Hi].
    apply negb_false_iff, bool_decide_eq_true in Hi. split.
    + intros [= <-]. split; [done|]. exists n. by split; [lia|].
    + by intros [-> _].
Qed.

(** The listeners an environment declares. *)
Inductive listens (getenv : string → string) : string → list Listener → Prop :=
| listens_split public internal :
    getenv envPublicPort = public → getenv envInternalPort = internal →
    is_port public → is_port internal → public ≠ internal →
    listens getenv listenerModeSplit
      [{| listener_Inbound := InboundPublic; Addr := JoinHostPort public |};
       {| listener_Inbound := InboundInternal; Addr := JoinHostPort internal |}]
| listens_single mode port :
    mode ∈ [listenerModePublic; listenerModeInternal] →
    getenv envPublicPort = "" → getenv envInternalPort = "" →
    getenv envPort = port → is_port port →
    listens getenv mode [{| listener_Inbound := mode; Addr := JoinHostPort port |}].

Lemma when_set_nil (getenv : string → string) (f : string → error) keys :
  concat ((λ key, when (negb (is_empty (getenv key))) (f key)) <$> keys) = [] ↔
  Forall (λ key, getenv key = "") keys.
Proof.
  induction keys as [|key keys IH]; [split; [by constructor|done]|].
  rewrite fmap_cons. cbn [concat]. rewrite app_nil, when_nil, IH, negb_false_iff, is_empty_true.
  by rewrite Forall_cons.
Qed.

Lemma parseListeners_ok getenv mode ls :
  parseListeners getenv mode = Ok ls ↔
  Forall (λ key, getenv key = "") retiredListenerEnvs ∧ listens getenv mode ls.
Proof.
  unfold parseListeners. destruct (decide (mode = listenerModeSplit)) as [->|Hsplit].
  { autorewrite with no_errors. rewrite when_set_nil, when_nil.
    split.
    - intros ((Hret & [p Hp]%err_of_nil & [q Hq]%err_of_nil & Hsame) & <-).
      rewrite Hp, Hq in Hsame |- *. simpl in *. apply bool_decide_eq_false in Hsame.
      apply parsePort_ok in Hp as [-> ?], Hq as [-> ?]. split; [done|].
      by apply (listens_split getenv (getenv envPublicPort) (getenv envInternalPort)).
    - intros [Hret Hl]. inversion Hl as [p q Hp Hq Hpp Hpq Hne|mode1 port Hin]; subst.
      + rewrite (proj2 (parsePort_ok envPublicPort _ _) (conj eq_refl Hpp)).
        rewrite (proj2 (parsePort_ok envInternalPort _ _) (conj eq_refl Hpq)). simpl.
        rewrite bool_decide_eq_false_2 by done. by split_and!.
      + exfalso. set_solver. }
  destruct (bool_decide (mode ∈ _)) eqn:Hm.
  { apply bool_decide_eq_true in Hm. autorewrite with no_errors. rewrite !when_set_nil. split.
    - intros ((Hret & Hset & [p Hp]%err_of_nil) & <-). rewrite Hp. simpl.
      apply parsePort_ok in Hp as [-> ?]. rewrite !Forall_cons in Hset. destruct Hset as (? & ? & _).
      split; [done|]. by apply (listens_single getenv mode (getenv envPort)).
    - intros [Hret Hl]. inversion Hl as [|mode' port Hin Hp Hi Hport Hip]; subst; [done|].
      rewrite (proj2 (parsePort_ok envPort _ _) (conj eq_refl Hip)). simpl.
      split; [|done]. split_and!; try done. by repeat constructor. }
  apply bool_decide_eq_false in Hm.
  assert (¬ listens getenv mode ls) as Hno by (intros Hl; inversion Hl; subst; done).
  destruct (is_empty mode); autorewrite with no_errors; (split; [by intros [[_ ?] _]|tauto]).
Qed.

Lemma parseTrustedProxyHops_ok raw hops :
  parseTrustedProxyHops raw = Ok hops ↔
  (raw = "" ∧ hops = 0) ∨ (raw ≠ "" ∧ Atoi raw = Some hops ∧ 0 ≤ hops ≤ maxTrustedProxyHops).
Proof.
  unfold parseTrustedProxyHops. destruct (is_empty raw) eqn:He;
    [apply is_empty_true in He|apply is_empty_false in He].
  { split; [intros [= <-]; by left|]. by intros [[_ ->]|[? _]]. }
  destruct (Atoi raw) as [n|]; [|split; [done|by intros [[? _]|(_ & ? & _)]]].
  destruct (_ || _) eqn:Hb.
  - split; [done|]. intros [[? _]|(_ & [= <-] & ?)]; [done|].
    apply orb_prop in Hb as [?%Z.ltb_lt|?%Z.ltb_lt]; lia.
  - apply orb_false_elim in Hb as [?%Z.ltb_ge ?%Z.ltb_ge].
    split; [intros [= <-]; by right|]. by intros [[? _]|(_ & [= <-] & _)].
Qed.

(** ** Published keys *)

(** An entry [kid=path]. *)
Definition key_entry (entry : string) (k : KeyFile) : Prop :=
  Cut entry "=" = Some (KeyFile_ID k, KeyFile_Path k) ∧ KeyFile_ID k ≠ "" ∧ KeyFile_Path k ≠ "".

Lemma parsePublishedKey_ok entry index k :
  parsePublishedKey entry index = Ok k ↔ key_entry entry k.
Proof.
  unfold parsePublishedKey, key_entry. destruct (Cut entry "=") as [[id path]|].
  2: { split; [done|by intros [? _]]. }
  destruct (is_empty id) eqn:Hi; [apply is_empty_true in Hi|apply is_empty_false in Hi].
  { split; [done|]. intros ([= -> _] & ? & _). done. }
  destruct (is_empty path) eqn:Hp; [apply is_empty_true in Hp|apply is_empty_false in Hp].
  { split; [done|]. intros ([= _ ->] & _ & ?). done. }
  split; [intros [= <-]; done|]. intros ([= -> ->] & _ & _). by destruct k.
Qed.

Lemma publishedKeysLoop_errs_mono index entries ks seen errs :
  (publishedKeysLoop index entries ks seen errs).2 = [] → errs = [].
Proof.
  revert index ks seen errs. induction entries as [|e es IH]; intros index ks seen errs; [done|].
  cbn [publishedKeysLoop]. destruct (parsePublishedKey e index); [|intros [? _]%IH%app_nil; done].
  case_decide; [intros [? _]%IH%app_nil; done|apply IH].
Qed.

Lemma publishedKeysLoop_ok index entries ks seen res :
  publishedKeysLoop index entries ks seen [] = (res, []) ↔
  ∃ ks', res = ks ++ ks' ∧ Forall2 key_entry entries ks' ∧ NoDup (KeyFile_ID <$> ks') ∧
    Forall (.∉ seen) (KeyFile_ID <$> ks').
Proof.
  revert index ks seen. induction entries as [|e es IH]; intros index ks seen.
  { cbn [publishedKeysLoop]. split.
    - intros [= <-]. exists []. rewrite app_nil_r. by repeat constructor.
    - intros (ks' & -> & Hf & _). inversion Hf; subst. by rewrite app_nil_r. }
  cbn [publishedKeysLoop].
  assert (∀ ks0 seen0 err r, publishedKeysLoop (S index) es ks0 seen0 [err] ≠ (r, [])) as Hno.
  { intros ks0 seen0 err r H. apply (f_equal snd) in H. by apply publishedKeysLoop_errs_mono in H. }
  destruct (parsePublishedKey e index) as [k|err] eqn:Hk.
  - apply parsePublishedKey_ok in Hk as Hke.
    assert (∀ k', key_entry e k' → k' = k) as Huniq.
    { intros k' H. apply (parsePublishedKey_ok e index) in H. congruence. }
    destruct (decide (KeyFile_ID k ∈ seen)) as [Hin|Hnin].
    + split; [by intros []%Hno|]. intros (ks' & _ & Hf & _ & Hs). exfalso.
      inversion Hf as [|? k' ? ? Hk' ?]; subst. apply Huniq in Hk' as ->.
      rewrite fmap_cons, Forall_cons in Hs. tauto.
    + rewrite IH. split.
      * intros (ks' & -> & Hf & Hnd & Hs). exists (k :: ks'). rewrite fmap_cons, NoDup_cons, Forall_cons.
        rewrite Forall_not_seen_insert in Hs. rewrite <-app_assoc. destruct Hs.
        split_and!; try done. by constructor.
      * intros (ks' & -> & Hf & Hnd & Hs). inversion Hf as [|? k' ? ks'' Hk' Hf']; subst.
        apply Huniq in Hk' as ->. rewrite fmap_cons, NoDup_cons in Hnd.
        rewrite fmap_cons, Forall_cons in Hs. exists ks''. rewrite <-app_assoc.
        rewrite Forall_not_seen_insert. tauto.
  - split; [by intros []%Hno|]. intros (ks' & _ & Hf & _). exfalso.
    inversion Hf as [|? k' ? ? Hk' ?]; subst.
    apply (parsePublishedKey_ok e index) in Hk'. congruence.
Qed.

(** The published keys: one per entry, in order, with pairwise distinct IDs, and
    none with the ID of the signing key. *)
Definition publishes (raw signingKeyID : string) (ks : list KeyFile) : Prop :=
  (raw = "" ∧ ks = []) ∨
  (raw ≠ "" ∧ Forall2 key_entry (Split raw ",") ks ∧ NoDup (KeyFile_ID <$> ks) ∧
   signingKeyID ∉ KeyFile_ID <$> ks).

Lemma parsePublishedKeys_ok raw signingKeyID ks :
  parsePublishedKeys raw signingKeyID = Ok ks ↔ publishes raw signingKeyID ks.
Proof.
  unfold parsePublishedKeys, publishes. destruct (is_empty raw) eqn:He;
    [apply is_empty_true in He|apply is_empty_false in He].
  { split; [intros [= <-]; by left|]. by intros [[_ ->]|[? _]]. }
  set (seen := if is_empty signingKeyID then ∅ else {[signingKeyID]}).
  assert (∀ l, Forall2 key_entry (Split raw ",") l →
    (Forall (.∉ seen) (KeyFile_ID <$> l) ↔ signingKeyID ∉ KeyFile_ID <$> l)) as Hseen.
  { intros l Hl. unfold seen. destruct (is_empty signingKeyID) eqn:Hs;
      [apply is_empty_true in Hs as ->|].
    - split; [intros _|intros _; apply Forall_not_seen_empty].
      intros (k & Hk & Hin)%list_elem_of_fmap. apply list_elem_of_lookup in Hin as [i Hi].
      destruct (Forall2_lookup_r _ _ _ _ _ Hl Hi) as (e & _ & _ & Hne & _). congruence.
    - pose proof (Forall_not_seen_insert signingKeyID ∅ (KeyFile_ID <$> l)) as H.
      rewrite union_empty_r_L in H. rewrite H.
      split; [by intros [_ ?]|]. intros ?. split; [apply Forall_not_seen_empty|done]. }
  destruct (publishedKeysLoop 0 (Split raw ",") [] seen []) as [res errs] eqn:Hloop.
  rewrite join_errors_ok. split.
  - intros [-> <-]. apply publishedKeysLoop_ok in Hloop as (ks' & -> & Hf & Hnd & Hs). right.
    simpl. split_and!; try done. by apply Hseen.
  - intros [[? _]|(_ & Hf & Hnd & Hs)]; [done|].
    assert (publishedKeysLoop 0 (Split raw ",") [] seen [] = (ks, [])) as Hok.
    { apply publishedKeysLoop_ok. exists ks. split_and!; try done. by apply Hseen. }
    rewrite Hloop in Hok. by injection Hok as -> ->.
Qed.

(** ** The identity provider *)

Definition algorithms_of (raw : string) (algorithms : list string) : Prop :=
  (raw = "" ∧ algorithms = defaultIDPAlgorithms) ∨
  (raw ≠ "" ∧ algorithms = Split raw "," ∧ Forall (.∈ supportedIDPAlgorithms) algorithms ∧
   NoDup algorithms).

Lemma algorithmsLoop_errs_mono entries algorithms errs :
  (algorithmsLoop entries algorithms errs).2 = [] → errs = [].
Proof.
  revert algorithms errs. induction entries as [|e es IH]; intros algorithms errs; [done|].
  cbn [algorithmsLoop]. destruct (negb _); [intros [? _]%IH%app_nil; done|].
  destruct (Contains algorithms e); [intros [? _]%IH%app_nil; done|apply IH].
Qed.

Lemma algorithmsLoop_ok entries algorithms res :
  NoDup algorithms →
  algorithmsLoop entries algorithms [] = (res, []) ↔
  res = algorithms ++ entries ∧ Forall (.∈ supportedIDPAlgorithms) entries ∧
  NoDup (algorithms ++ entries).
Proof.
  revert algorithms. induction entries as [|e es IH]; intros algorithms Hnd; cbn [algorithmsLoop].
  { rewrite app_nil_r. split; [intros [= <-]; by repeat split|by intros (-> & _)]. }
  assert (∀ a err r, algorithmsLoop es a [err] ≠ (r, [])) as Hno.
  { intros a err r H. apply (f_equal snd) in H. by apply algorithmsLoop_errs_mono in H. }
  rewrite Forall_cons. destruct (Contains supportedIDPAlgorithms e) eqn:Hs; simpl.
  2: { apply Contains_false in Hs. split; [by intros []%Hno|tauto]. }
  apply Contains_true in Hs. destruct (Contains algorithms e) eqn:Hc.
  - apply Contains_true in Hc. split; [by intros []%Hno|]. intros (_ & _ & Hnd').
    apply NoDup_app in Hnd' as (_ & Hd & _). exfalso. apply (Hd e); [done|by left].
  - apply Contains_false in Hc. rewrite IH.
    + rewrite <-app_assoc. simpl. tauto.
    + apply NoDup_app. split_and!; [done| |apply NoDup_singleton].
      intros x Hx ->%list_elem_of_singleton. done.
Qed.

Lemma parseIDPAlgorithms_ok raw algorithms :
  parseIDPAlgorithms raw = Ok algorithms ↔ algorithms_of raw algorithms.
Proof.
  unfold parseIDPAlgorithms, algorithms_of. destruct (is_empty raw) eqn:He;
    [apply is_empty_true in He|apply is_empty_false in He].
  { split; [intros [= <-]; by left|]. by intros [[_ ->]|[? _]]. }
  pose proof (λ res, algorithmsLoop_ok (Split raw ",") [] res (NoDup_nil_2)) as Hloop.
  destruct (algorithmsLoop (Split raw ",") [] []) as [res errs]. rewrite join_errors_ok. split.
  - intros [-> <-]. destruct (proj1 (Hloop res) eq_refl) as (-> & ? & ?). by right.
  - intros [[? _]|(_ & -> & Hs & Hnd)]; [done|].
    specialize (proj2 (Hloop (Split raw ",")) (conj eq_refl (conj Hs Hnd))) as Heq.
    by injection Heq as -> ->.
Qed.

Lemma parseIntrospection_ok issuer raw clientID secretFile b :
  parseIntrospection issuer raw clientID secretFile = Ok b ↔
  (issuer = "" ∧ raw = "" ∧ b = false) ∨
  (issuer ≠ "" ∧ raw = introspectionDisabled ∧ clientID = "" ∧ secretFile = "" ∧ b = true) ∨
  (issuer ≠ "" ∧ raw ∈ [""; introspectionRequired] ∧ (clientID ≠ "" ∨ secretFile ≠ "") ∧ b = false).
Proof.
  unfold parseIntrospection, is_empty.
  assert (introspectionDisabled ∉ [""; introspectionRequired]) as Hdis by (by_computation).
  repeat match goal with
  | |- context [bool_decide ?P] => destruct (decide P) as [?H|?H];
      [rewrite (bool_decide_eq_true_2 P) by done|rewrite (bool_decide_eq_false_2 P) by done];
      cbn [negb andb orb]
  end; subst; try done.
  all: split; [intros [= <-]; set_solver|].
  all: intros [(? & ? & ?)|[(? & ? & ? & ? & ?)|(? & Hr & Ho & ?)]]; subst; try done; try congruence.
  all: try (destruct Ho; done).
  all: exfalso; set_solver.
Qed.

Lemma parseLegacyEventsWriteScope_ok issuer raw b :
  parseLegacyEventsWriteScope issuer raw = Ok b ↔
  (raw = "" ∧ b = false) ∨ (raw = legacyEventsWriteScopeEnabled ∧ issuer ≠ "" ∧ b = true).
Proof.
  unfold parseLegacyEventsWriteScope, is_empty.
  repeat match goal with
  | |- context [bool_decide ?P] => destruct (decide P) as [?H|?H];
      [rewrite (bool_decide_eq_true_2 P) by done|rewrite (bool_decide_eq_false_2 P) by done];
      cbn [negb andb orb]
  end; subst; (split; [intros [= <-]|intros [[? ?]|(? & ? & ?)]]); subst; try done; try tauto; try congruence.
Qed.

Section load_correct.
Context (ReadFile : string → result error string).
Context (url_Parse : string → result error URL).

(** The secret of the introspection client: the content of its file without
    the line end. *)
Definition secret_of (issuer clientID secretFile secret : string) : Prop :=
  (clientID = "" ∧ secretFile = "" ∧ secret = "") ∨
  (clientID ≠ "" ∧ secretFile ≠ "" ∧ issuer ≠ "" ∧
   ∃ raw, ReadFile secretFile = Ok raw ∧ secret = TrimRight raw ["013"; "010"]%char ∧ secret ≠ "").

Lemma loadIntrospectionSecret_ok issuer clientID secretFile secret :
  loadIntrospectionSecret ReadFile issuer clientID secretFile = Ok secret ↔
  secret_of issuer clientID secretFile secret.
Proof.
  unfold loadIntrospectionSecret, secret_of.
  destruct (is_empty clientID) eqn:Hc, (is_empty secretFile) eqn:Hs, (is_empty issuer) eqn:Hi;
    rewrite ?is_empty_true, ?is_empty_false in *; subst; simpl;
    try (split; [by intros [= <-]; left|by intros [(_ & _ & ->)|(? & _)]]);
    try (split; [done|naive_solver]).
  unfold readSecretFile. destruct (ReadFile secretFile) as [raw|] eqn:Hr.
  2: { split; [done|]. intros [(? & _)|(_ & _ & _ & ? & ? & _)]; congruence. }
  destruct (is_empty (TrimRight raw _)) eqn:He; rewrite ?is_empty_true, ?is_empty_false in He.
  - split; [done|].
    intros [(? & _)|(_ & _ & _ & raw' & Hr' & -> & Hne)]; [done|]. congruence.
  - split; [intros [= <-]; right; eauto 10|].
    intros [(? & _)|(_ & _ & _ & raw' & Hr' & -> & _)]; [done|]. congruence.
Qed.

(** A usable issuer URL. *)
Definition idp_url (issuer : string) : Prop :=
  ∃ u, url_Parse issuer = Ok u ∧ URL_Scheme u ∈ ["http"; "https"] ∧ URL_Host u ≠ "" ∧
    URL_Opaque u = "" ∧ URL_RawQuery u = "" ∧ URL_Fragment u = "" ∧ URL_User u = None.

Lemma checkIDPIssuer_None issuer : checkIDPIssuer url_Parse issuer = None ↔ idp_url issuer.
Proof.
  unfold checkIDPIssuer, idp_url. destruct (url_Parse issuer) as [u|].
  2: { split; [done|by intros (? & ? & _)]. }
  destruct (_ && _) eqn:Hu; simpl.
  - split; [|done]. intros _. exists u. rewrite !andb_true_iff, orb_true_iff in Hu.
    unfold is_empty in Hu. rewrite negb_true_iff, !bool_decide_eq_true, bool_decide_eq_false in Hu.
    split; [done|]. set_solver.
  - split; [done|]. intros (? & [= <-] & Hs & Hrest).
    rewrite <-not_true_iff_false, !andb_true_iff, orb_true_iff in Hu.
    unfold is_empty in Hu. rewrite negb_true_iff, !bool_decide_eq_true, bool_decide_eq_false in Hu.
    exfalso. apply Hu. set_solver.
Qed.

Definition idp_of (issuer audience raw : string) (algorithms : list string) : Prop :=
  (issuer = "" ∧ audience = "" ∧ raw = "" ∧ algorithms = []) ∨
  (issuer ≠ "" ∧ idp_url issuer ∧ audience ≠ "" ∧ algorithms_of raw algorithms).

Lemma option_list_nil {A} (o : option A) : option_list o = [] ↔ o = None.
Proof. by destruct o. Qed.

Lemma parseIDP_ok issuer audience raw algorithms :
  parseIDP url_Parse issuer audience raw = Ok algorithms ↔ idp_of issuer audience raw algorithms.
Proof.
  unfold parseIDP, idp_of. destruct (is_empty issuer) eqn:Hi;
    [apply is_empty_true in Hi|apply is_empty_false in Hi]; autorewrite with no_errors; rewrite !when_nil.
  - rewrite !negb_false_iff, !is_empty_true. split; [intros [[? ?] <-]; by left|].
    by intros [(_ & ? & ? & ->)|[? _]].
  - rewrite option_list_nil, checkIDPIssuer_None, is_empty_false, <-parseIDPAlgorithms_ok.
    rewrite <-(err_value []). split; [intros ((? & ? & ?) & ?); by right|].
    intros [[? _]|(_ & ? & ? & ? & ?)]; done.
Qed.

(** The configuration an environment describes. *)
Record describes (getenv : string → string) (c : Config) : Prop := {
  describes_mode : ListenerMode c = getenv envListenerMode;
  describes_retired : Forall (λ key, getenv key = "") retiredListenerEnvs;
  describes_listeners : listens getenv (ListenerMode c) (Listeners c);
  describes_issuer : IssuerID c = getenv envIssuerID ∧ IssuerID c ≠ "";
  describes_signing : SigningKey c = {| KeyFile_ID := getenv envSigningKeyID;
                                        KeyFile_Path := getenv envSigningKeyFile |} ∧
    getenv envSigningKeyID ≠ "" ∧ getenv envSigningKeyFile ≠ "";
  describes_destinations : DestinationsFile c = getenv envDestinationsFile ∧
    DestinationsFile c ≠ "";
  describes_published :
    publishes (getenv envPublishedKeyFiles) (getenv envSigningKeyID) (PublishedKeys c);
  describes_hops : let raw := getenv envTrustedProxyHops in
    (raw = "" ∧ TrustedProxyHops c = 0) ∨
    (raw ≠ "" ∧ Atoi raw = Some (TrustedProxyHops c) ∧ 0 ≤ TrustedProxyHops c ≤ maxTrustedProxyHops);
  describes_idp : IDPIssuer c = getenv envIDPIssuer ∧ IDPAudience c = getenv envIDPAudience ∧
    idp_of (IDPIssuer c) (IDPAudience c) (getenv envIDPAlgorithms) (IDPAlgorithms c);
  describes_other_issuer : IDPIssuer c ≠ "" → IDPIssuer c ≠ IssuerID c;
  describes_client : IDPIntrospectionClientID c = getenv envIDPIntrospectionClientID ∧
    IDPIntrospectionSecretFile c = getenv envIDPIntrospectionSecretFile ∧
    secret_of (IDPIssuer c) (IDPIntrospectionClientID c) (IDPIntrospectionSecretFile c)
      (IDPIntrospectionSecret c);
  describes_introspection :
    parseIntrospection (IDPIssuer c) (getenv envIDPIntrospection) (IDPIntrospectionClientID c)
      (IDPIntrospectionSecretFile c) = Ok (IDPIntrospectionDisabled c);
  describes_legacy :
    parseLegacyEventsWriteScope (IDPIssuer c) (getenv envIDPLegacyEventsWriteScope)
      = Ok (IDPLegacyEventsWriteScope c);
}.

Lemma Load_ok getenv c : Load ReadFile url_Parse getenv = Ok c ↔ describes getenv c.
Proof.
  unfold Load. autorewrite with no_errors. rewrite !when_nil, !is_empty_false.
  split.
  - intros ((Hl & ? & ? & ? & ? & Hp & Hh & Hsame & Hi & Hs & Hd & Hleg) & <-).
    apply err_of_nil in Hl as [ls Hl], Hp as [ks Hp], Hh as [h Hh], Hi as [algs Hi],
      Hs as [s Hs], Hd as [d Hd], Hleg as [leg Hleg].
    rewrite Hl, Hp, Hh, Hi, Hs, Hd, Hleg.
    apply parseListeners_ok in Hl as [? ?]. apply parsePublishedKeys_ok in Hp.
    apply parseTrustedProxyHops_ok in Hh. apply parseIDP_ok in Hi.
    apply loadIntrospectionSecret_ok in Hs. split; simpl; try done.
    intros Hne Heq. apply andb_false_iff in Hsame as [E|E].
    + apply negb_false_iff, is_empty_true in E. done.
    + by apply bool_decide_eq_false in E.
  - destruct c as [mode ls iss sk ks idp aud algs cid sf sec dis leg df hops].
    intros [Hm Hret Hl [Hiss ?] [Hsk [? ?]] [Hdf ?] Hp Hh (Hidp & Haud & Hi) Hother (Hcid & Hsf & Hs)
      Hd Hleg]; simpl in *; subst mode iss sk idp aud cid sf df.
    rewrite (proj2 (parseListeners_ok _ _ _) (conj Hret Hl)).
    rewrite (proj2 (parsePublishedKeys_ok _ _ _) Hp).
    rewrite (proj2 (parseTrustedProxyHops_ok _ _) Hh).
    rewrite (proj2 (parseIDP_ok _ _ _ _) Hi), (proj2 (loadIntrospectionSecret_ok _ _ _ _) Hs).
    rewrite Hd, Hleg. simpl. split_and!; try done.
    destruct (is_empty (getenv envIDPIssuer)) eqn:E; [done|]. simpl.
    apply is_empty_false in E. apply bool_decide_eq_false. auto.
Qed.
End load_correct.

(** ** Properties *)

(** C28. [Load] accepts an environment exactly when it describes a configuration
    ([describes]: a listener mode with its ports and nothing retired, issuer and
    keys, a list of further published keys with distinct IDs, a hop count in range, a usable IdP issuer other than the gateway's own
    with its audience and algorithms, and a complete introspection client or
    none), and returns that configuration. *)
Theorem config_load_spec ReadFile url_Parse getenv c :
  Load ReadFile url_Parse getenv = Ok c ↔ describes ReadFile url_Parse getenv c.
Proof. apply Load_ok. Qed.

(** An environment of a split deployment. *)
Definition example_env : gmap string string :=
  list_to_map
    [(envListenerMode, "split"); (envPublicPort, "8080"); (envInternalPort, "8081");
     (envIssuerID, "gateway"); (envSigningKeyFile, "/keys/a.pem"); (envSigningKeyID, "a");
     (envPublishedKeyFiles, "b=/keys/b.pem"); (envDestinationsFile, "/etc/destinations.json");
     (envTrustedProxyHops, "1"); (envIDPIssuer, "https://idp"); (envIDPAudience, "gateway");
     (envIDPIntrospection, "disabled")].

Definition example_getenv (key : string) : string := default "" (example_env !! key).

Definition example_parse (raw : string) : result error URL :=
  Ok {| URL_Scheme := "https"; URL_Opaque := ""; URL_User := None; URL_Host := "idp"; URL_Path := "";
        URL_ForceQuery := false; URL_RawQuery := ""; URL_Fragment := "" |}.

Example example_loaded :
  (λ c, (Listeners c, PublishedKeys c, IDPAlgorithms c, TrustedProxyHops c,
         IDPIntrospectionDisabled c))
    <$> (match Load (λ _, Err (ErrorNew "no file")) example_parse example_getenv with
         | Ok c => Some c | Err _ => None end) =
  Some ([{| listener_Inbound := "public"; Addr := ":8080" |};
         {| listener_Inbound := "internal"; Addr := ":8081" |}],
        [{| KeyFile_ID := "b"; KeyFile_Path := "/keys/b.pem" |}], ["RS256"], 1, true).
Proof. vm_compute. reflexivity. Qed.

(** The same environment without its internal port is refused. *)
Example example_refused :
  is_ok (Load (λ _, Err (ErrorNew "no file")) example_parse
           (λ key, if decide (key = envInternalPort) then "" else example_getenv key)) = false.
Proof. vm_compute. reflexivity. Qed.
