(* ===== verification/Registry.v ===== *)
(** * The RPC registry ([internal/registry/registry.go])

    [Build] derives one [Entry] per RPC procedure from the authorization
    policies of the bound services, checks the policies against the protobuf
    descriptors and applies the introspection overrides; [Lookup], [Entries],
    [Destinations] and [Snapshot] read the result. *)

From S2P Require Import Prelude GoStd GoErrors.

(** ** The values the package imports

    [authz.Policy] of protoc-gen-authz-go and the token-use names of
    internal-jwt-handling (listed in docs/internal_jwt.md). *)

Inductive Level : Type :=
| LevelUnspecified | LevelPublic | LevelAuthenticated | LevelInternal
| LevelOther (n : Z).

#[export] Instance Level_eq_dec : EqDecision Level.
Proof. solve_decision. Defined.

Record Policy : Type := {
  policy_Level : Level;
  policy_RequiredScopes : list string;
  policy_TokenUses : list string;
}.

Definition TokenUseTenantAccess : string := "tenant_access".
Definition TokenUseEventAccess : string := "event_access".
Definition TokenUseService : string := "service".
Definition TokenUseRegistration : string := "registration".

(** What [protoregistry] answers for a name. *)
Record MethodDescriptor : Type := {
  method_Name : string;
  method_IsStreamingClient : bool;
  method_IsStreamingServer : bool;
}.

Inductive Descriptor : Type :=
| ServiceDescriptor (methods : list MethodDescriptor)
| OtherDescriptor.

Definition DescriptorResolver : Type := string → result error Descriptor.

(** ** Data *)

Definition ErrInvalidBinding : string := "registry: invalid binding".
Definition ErrDuplicateProcedure : string := "registry: duplicate procedure".
Definition ErrServiceDescriptor : string := "registry: service descriptor".
Definition ErrProcedureMismatch : string := "registry: procedure mismatch".
Definition ErrStreamingProcedure : string := "registry: streaming procedure".
Definition ErrInvalidPolicy : string := "registry: invalid policy".
Definition ErrInvalidOverride : string := "registry: invalid override".

Record Binding : Type := {
  Service : string;
  Destination : string;
  Policies : gmap string Policy;
}.

Record Overrides : Type := { Introspection : list string }.

Record Entry : Type := {
  entry_Procedure : string;
  entry_Destination : string;
  entry_Anonymous : bool;
  entry_ExternalTokenUses : list string;
  entry_Service : bool;
  entry_RequiredScopes : list string;
  entry_Introspection : bool;
}.

#[export] Instance Entry_eq_dec : EqDecision Entry.
Proof. solve_decision. Defined.

Record Registry : Type := {
  entries : gmap string Entry;
  order : list string;
}.

(** ** Deriving the subjects a policy accepts *)

Record subjects : Type := {
  anonymous : bool;
  externalTokenUses : list string;
  service : bool;
}.

Definition isKnownTokenUse (tokenUse : string) : bool :=
  Contains [TokenUseTenantAccess; TokenUseEventAccess; TokenUseService; TokenUseRegistration]
    tokenUse.

Definition isServiceOnly (tokenUses : list string) : bool :=
  match tokenUses with
  | [] => true
  | [u] => bool_decide (u = TokenUseService)
  | _ => false
  end.

Definition invalidPolicy (format : string) (args : list string) : error :=
  Errorf format [ErrorNew ErrInvalidPolicy] args.

(** The loop of [authenticatedSubjects] over the declared token uses. *)
Fixpoint authenticatedLoop (procedure : string) (tokenUses : list string)
    (external : list string) (seen : gset string) (acceptsService : bool) :
    result error (list string * bool) :=
  match tokenUses with
  | [] => Ok (external, acceptsService)
  | tokenUse :: rest =>
      if negb (isKnownTokenUse tokenUse) then
        Err (invalidPolicy "%w: %s declares the unknown token use %q" [procedure; tokenUse])
      else if decide (tokenUse ∈ seen) then
        Err (invalidPolicy "%w: %s declares the token use %q more than once"
               [procedure; tokenUse])
      else
        let seen := {[tokenUse]} ∪ seen in
        if decide (tokenUse = TokenUseService) then
          authenticatedLoop procedure rest external seen true
        else
          authenticatedLoop procedure rest (external ++ [tokenUse]) seen acceptsService
  end.

Definition authenticatedSubjects (procedure : string) (tokenUses : list string) :
    result error subjects :=
  if decide (tokenUses = []) then
    Err (invalidPolicy "%w: %s is authenticated but declares no token use" [procedure])
  else
    let? ' (external, acceptsService) :=
      authenticatedLoop procedure tokenUses [] ∅ false in
    if decide (external = []) then
      Err (invalidPolicy "%w: %s accepts only %q and must be declared internal instead"
             [procedure; TokenUseService])
    else
      Ok {| anonymous := false; externalTokenUses := external; service := acceptsService |}.

Definition deriveSubjects (procedure : string) (policy : Policy) : result error subjects :=
  match policy_Level policy with
  | LevelPublic =>
      if decide (policy_TokenUses policy ≠ []) then
        Err (invalidPolicy "%w: %s is public but declares token uses" [procedure])
      else if decide (policy_RequiredScopes policy ≠ []) then
        Err (invalidPolicy "%w: %s is public but declares required scopes" [procedure])
      else Ok {| anonymous := true; externalTokenUses := []; service := false |}
  | LevelInternal =>
      if negb (isServiceOnly (policy_TokenUses policy)) then
        Err (invalidPolicy "%w: %s is internal but declares token uses other than %q"
               [procedure; TokenUseService])
      else Ok {| anonymous := false; externalTokenUses := []; service := true |}
  | LevelAuthenticated => authenticatedSubjects procedure (policy_TokenUses policy)
  | LevelUnspecified =>
      Err (invalidPolicy "%w: %s declares no access level" [procedure])
  | LevelOther n =>
      Err (invalidPolicy "%w: %s declares the unknown access level %d" [procedure; Itoa n])
  end.

Definition deriveEntry (procedure destination : string) (policy : Policy) :
    result error Entry :=
  let? accepted := deriveSubjects procedure policy in
  Ok {| entry_Procedure := procedure;
        entry_Destination := destination;
        entry_Anonymous := anonymous accepted;
        entry_ExternalTokenUses := externalTokenUses accepted;
        entry_Service := service accepted;
        entry_RequiredScopes := policy_RequiredScopes policy;
        entry_Introspection := false |}.

(** ** Building the registry *)

Definition procedureOf (service method : string) : string :=
  "/" +:+ service +:+ "/" +:+ method.

Definition checkBinding (index : nat) (binding : Binding) (boundServices : gset string) :
    option error :=
  let invalid format args := Some (Errorf format [ErrorNew ErrInvalidBinding] args) in
  if decide (Service binding = "") then
    invalid "%w: binding %d declares no service" [Itoa (Z.of_nat index + 1)]
  else if decide (Destination binding = "") then
    invalid "%w: %s declares no destination" [Service binding]
  else if decide (Policies binding = ∅) then
    invalid "%w: %s declares no policy" [Service binding]
  else if decide (Service binding ∈ boundServices) then
    invalid "%w: %s is bound more than once" [Service binding]
  else None.

(** The loop of [addBinding] over the sorted procedures of the binding. *)
Fixpoint addProcedures (binding : Binding) (procedures : list string)
    (entries : gmap string Entry) : gmap string Entry * list error :=
  match procedures with
  | [] => (entries, [])
  | procedure :: rest =>
      match entries !! procedure, Policies binding !! procedure with
      | Some _, _ =>
          let '(entries, errs) := addProcedures binding rest entries in
          (entries, Errorf "%w: %s is bound more than once"
                      [ErrorNew ErrDuplicateProcedure] [procedure] :: errs)
      | None, None => addProcedures binding rest entries (* not a key of the policies *)
      | None, Some policy =>
          match deriveEntry procedure (Destination binding) policy with
          | Err err =>
              let '(entries, errs) := addProcedures binding rest entries in
              (entries, err :: errs)
          | Ok entry => addProcedures binding rest (<[procedure := entry]> entries)
          end
      end
  end.

Definition addBinding (entries : gmap string Entry) (binding : Binding) :
    gmap string Entry * list error :=
  addProcedures binding (sorted_keys (Policies binding)) entries.

Definition methodErrors (binding : Binding) (method : MethodDescriptor) : list error :=
  let procedure := procedureOf (Service binding) (method_Name method) in
  (if method_IsStreamingClient method || method_IsStreamingServer method then
     [Errorf "%w: %s is a streaming procedure" [ErrorNew ErrStreamingProcedure] [procedure]]
   else [])
  ++ (if decide (is_Some (Policies binding !! procedure)) then []
      else [Errorf "%w: %s is declared by the descriptor but has no policy"
              [ErrorNew ErrProcedureMismatch] [procedure]]).

Definition checkDescriptor (binding : Binding) (resolver : DescriptorResolver) :
    list error :=
  match resolver (Service binding) with
  | Err err =>
      [Errorf "%w: %s cannot be resolved: %w" [ErrorNew ErrServiceDescriptor; err]
         [Service binding]]
  | Ok OtherDescriptor =>
      [Errorf "%w: %s is not a service" [ErrorNew ErrServiceDescriptor] [Service binding]]
  | Ok (ServiceDescriptor methods) =>
      let declared : gset string :=
        list_to_set ((λ m, procedureOf (Service binding) (method_Name m)) <$> methods) in
      concat (methodErrors binding <$> methods)
      ++ concat ((λ procedure,
           if decide (procedure ∈ declared) then []
           else [Errorf "%w: %s has a policy but is not declared by the descriptor"
                   [ErrorNew ErrProcedureMismatch] [procedure]])
           <$> sorted_keys (Policies binding))
  end.

(** [entry.Introspection = true] *)
Definition withIntrospection (entry : Entry) : Entry :=
  {| entry_Procedure := entry_Procedure entry;
     entry_Destination := entry_Destination entry;
     entry_Anonymous := entry_Anonymous entry;
     entry_ExternalTokenUses := entry_ExternalTokenUses entry;
     entry_Service := entry_Service entry;
     entry_RequiredScopes := entry_RequiredScopes entry;
     entry_Introspection := true |}.

(** The loop of [applyOverrides]. *)
Fixpoint applyLoop (procedures : list string) (seen : gset string)
    (entries : gmap string Entry) : gmap string Entry * list error :=
  match procedures with
  | [] => (entries, [])
  | procedure :: rest =>
      let failed format seen :=
        let '(entries, errs) := applyLoop rest seen entries in
        (entries, Errorf format [ErrorNew ErrInvalidOverride] [procedure] :: errs) in
      if decide (procedure ∈ seen) then
        failed "%w: %s is listed for introspection more than once" seen
      else
        let seen := {[procedure]} ∪ seen in
        match entries !! procedure with
        | None => failed "%w: %s is listed for introspection but is not registered" seen
        | Some entry =>
            if decide (entry_ExternalTokenUses entry = []) then
              failed "%w: %s is listed for introspection but accepts no external token" seen
            else
              applyLoop rest seen
                (<[procedure := withIntrospection entry]> entries)
        end
  end.

Definition applyOverrides (entries : gmap string Entry) (overrides : Overrides) :
    gmap string Entry * list error :=
  applyLoop (Introspection overrides) ∅ entries.

(** The loop of [Build]: the entries, the services bound so far and the errors. *)
Fixpoint buildLoop (resolver : DescriptorResolver) (index : nat) (bindings : list Binding)
    (entries : gmap string Entry) (boundServices : gset string) (errs : list error) :
    gmap string Entry * list error :=
  match bindings with
  | [] => (entries, errs)
  | binding :: rest =>
      match checkBinding index binding boundServices with
      | Some err => buildLoop resolver (S index) rest entries boundServices (errs ++ [err])
      | None =>
          let boundServices := {[Service binding]} ∪ boundServices in
          let errs := errs ++ checkDescriptor binding resolver in
          let '(entries, added) := addBinding entries binding in
          buildLoop resolver (S index) rest entries boundServices (errs ++ added)
      end
  end.

Definition Build (bindings : list Binding) (overrides : Overrides)
    (resolver : DescriptorResolver) : result error Registry :=
  let '(entries, errs) := buildLoop resolver 0 bindings ∅ ∅ [] in
  let '(entries, overridden) := applyOverrides entries overrides in
  join_errors (errs ++ overridden) {| entries := entries; order := sorted_keys entries |}.

(** ** Reading the registry *)

(** The copy the readers hand out, so that a caller cannot reach the registry's
    own slices. *)
Definition cloneEntry (entry : Entry) : Entry :=
  {| entry_Procedure := entry_Procedure entry;
     entry_Destination := entry_Destination entry;
     entry_Anonymous := entry_Anonymous entry;
     entry_ExternalTokenUses := entry_ExternalTokenUses entry;
     entry_Service := entry_Service entry;
     entry_RequiredScopes := entry_RequiredScopes entry;
     entry_Introspection := entry_Introspection entry |}.

Definition Lookup (r : Registry) (procedure : string) : option Entry :=
  match entries r !! procedure with
  | Some entry => Some (cloneEntry entry)
  | None => None
  end.

(** A Go map read without the comma-ok form: the zero value for a missing key. *)
Definition zeroEntry : Entry :=
  {| entry_Procedure := ""; entry_Destination := ""; entry_Anonymous := false;
     entry_ExternalTokenUses := []; entry_Service := false;
     entry_RequiredScopes := []; entry_Introspection := false |}.

Definition entryAt (r : Registry) (procedure : string) : Entry :=
  default zeroEntry (entries r !! procedure).

Definition Entries (r : Registry) : list Entry :=
  (λ procedure, cloneEntry (entryAt r procedure)) <$> order r.

Definition Destinations (r : Registry) : list string :=
  let seen : gset string :=
    list_to_set ((λ procedure, entry_Destination (entryAt r procedure)) <$> order r) in
  sorted_set seen.

Definition emptyListMark : string := "-".

Definition formatList (values : list string) : string :=
  match values with [] => emptyListMark | _ => Join values "," end.

Definition snapshotLine (entry : Entry) : string :=
  Join [entry_Procedure entry;
        "destination=" +:+ entry_Destination entry;
        "anonymous=" +:+ format_bool (entry_Anonymous entry);
        "external=" +:+ formatList (entry_ExternalTokenUses entry);
        "service=" +:+ format_bool (entry_Service entry);
        "scopes=" +:+ formatList (entry_RequiredScopes entry);
        "introspection=" +:+ format_bool (entry_Introspection entry)] tab.

Definition Snapshot (r : Registry) : string :=
  match (λ procedure, snapshotLine (entryAt r procedure)) <$> order r with
  | [] => ""
  | lines => Join lines newline +:+ newline
  end.

(** ** What a policy means

    The declarative reading of a policy: which subjects it accepts. *)
Inductive policy_subjects (policy : Policy) : subjects → Prop :=
| subjects_public :
    policy_Level policy = LevelPublic →
    policy_TokenUses policy = [] → policy_RequiredScopes policy = [] →
    policy_subjects policy
      {| anonymous := true; externalTokenUses := []; service := false |}
| subjects_internal :
    policy_Level policy = LevelInternal →
    policy_TokenUses policy ∈ [[]; [TokenUseService]] →
    policy_subjects policy
      {| anonymous := false; externalTokenUses := []; service := true |}
| subjects_authenticated :
    policy_Level policy = LevelAuthenticated →
    Forall isKnownTokenUse (policy_TokenUses policy) →
    NoDup (policy_TokenUses policy) →
    filter (.≠ TokenUseService) (policy_TokenUses policy) ≠ [] →
    policy_subjects policy
      {| anonymous := false;
         externalTokenUses := filter (.≠ TokenUseService) (policy_TokenUses policy);
         service := bool_decide (TokenUseService ∈ policy_TokenUses policy) |}.

Lemma authenticatedLoop_ok procedure us ext seen acc ext' acc' :
  authenticatedLoop procedure us ext seen acc = Ok (ext', acc') ↔
  Forall isKnownTokenUse us ∧ NoDup us ∧ Forall (.∉ seen) us ∧
  ext' = ext ++ filter (.≠ TokenUseService) us ∧
  acc' = acc || bool_decide (TokenUseService ∈ us).
Proof.
  revert ext seen acc. induction us as [|u us IH]; intros ext seen acc;
    cbn [authenticatedLoop].
  { rewrite filter_nil, app_nil_r, bool_decide_eq_false_2, orb_false_r
      by apply not_elem_of_nil.
    split; [intros [= -> ->]|intros (_ & _ & _ & -> & ->)];
      split_and?; eauto using NoDup_nil_2. }
  destruct (isKnownTokenUse u) eqn:Hu; simpl.
  2: { split; [done|]. intros (H & _). apply Forall_cons_1 in H as [H _]. by rewrite Hu in H. }
  rewrite NoDup_cons, !Forall_cons, Hu.
  destruct (decide (u ∈ seen)) as [Hseen|Hseen]; [split; [done|tauto]|].
  destruct (decide (u = TokenUseService)) as [Hs|Hs]; rewrite IH, Forall_not_seen_insert; subst.
  - rewrite filter_cons_False by naive_solver.
    rewrite (bool_decide_eq_true_2 (TokenUseService ∈ TokenUseService :: us))
      by set_solver. rewrite orb_true_r. simpl. tauto.
  - rewrite filter_cons_True by done. rewrite <-app_assoc. simpl.
    rewrite (bool_decide_ext (TokenUseService ∈ u :: us) (TokenUseService ∈ us))
      by set_solver. tauto.
Qed.

(** [deriveSubjects] succeeds exactly on the policies with a meaning, with that
    meaning. *)
Lemma deriveSubjects_ok procedure policy s :
  deriveSubjects procedure policy = Ok s ↔ policy_subjects policy s.
Proof.
  destruct policy as [level scopes us]. unfold deriveSubjects; simpl. split.
  - destruct level; try done.
    + repeat case_decide; try done. intros [= <-].
      constructor; simpl; destruct us, scopes; naive_solver.
    + unfold authenticatedSubjects. case_decide; [done|].
      destruct (authenticatedLoop _ _ _ _ _) as [[ext acc]|] eqn:Hloop; simpl; [|done].
      apply authenticatedLoop_ok in Hloop as (? & ? & _ & -> & ->). simpl.
      case_decide; [done|]. intros [= <-]. by constructor.
    + destruct us as [|u [|? ?]]; simpl; try done.
      * intros [= <-]. constructor; simpl; set_solver.
      * case_bool_decide; [|done]. intros [= <-]. subst. constructor; simpl; set_solver.
  - intros [? Hu Hs|? Hu|? Hk Hn Hf]; simpl in *; simplify_eq.
    + done.
    + set_unfold in Hu. destruct Hu as [->|[->|[]]]; done.
    + unfold authenticatedSubjects. rewrite decide_False by (intros ->; done).
      destruct (authenticatedLoop procedure us [] ∅ false) as [[ext acc]|err] eqn:Hloop.
      * apply authenticatedLoop_ok in Hloop as (_ & _ & _ & -> & ->). simpl.
        by rewrite decide_False.
      * exfalso. assert (authenticatedLoop procedure us [] ∅ false
          = Ok (filter (.≠ TokenUseService) us, bool_decide (TokenUseService ∈ us)))
          as H; [|by rewrite Hloop in H].
        apply authenticatedLoop_ok. split_and?; try done. apply Forall_forall. set_solver.
Qed.

(** ** Building: the entries one binding contributes *)

Definition derived (b : Binding) : gmap string Entry :=
  map_imap (λ p policy,
    match deriveEntry p (Destination b) policy with Ok e => Some e | Err _ => None end)
    (Policies b).

Lemma lookup_derived b p :
  derived b !! p = Policies b !! p ≫= λ policy,
    match deriveEntry p (Destination b) policy with Ok e => Some e | Err _ => None end.
Proof. apply map_lookup_imap. Qed.

Lemma lookup_derived_Some b p e :
  derived b !! p = Some e ↔ ∃ policy s,
    Policies b !! p = Some policy ∧ policy_subjects policy s ∧
    e = {| entry_Procedure := p; entry_Destination := Destination b;
           entry_Anonymous := anonymous s; entry_ExternalTokenUses := externalTokenUses s;
           entry_Service := service s; entry_RequiredScopes := policy_RequiredScopes policy;
           entry_Introspection := false |}.
Proof.
  rewrite lookup_derived. unfold deriveEntry. setoid_rewrite <-(deriveSubjects_ok p).
  destruct (Policies b !! p) as [policy|] eqn:Hp; simpl; [|naive_solver].
  destruct (deriveSubjects p policy) as [s|] eqn:Hs; simpl; split.
  - intros [= <-]. eauto.
  - intros (? & ? & [= <-] & ? & ->). congruence.
  - done.
  - intros (? & ? & [= <-] & ? & _). congruence.
Qed.

Lemma addProcedures_ok b ps es :
  NoDup ps → Forall (λ p, is_Some (Policies b !! p)) ps →
  ((addProcedures b ps es).2 = [] ↔ ∀ p, p ∈ ps → es !! p = None ∧ is_Some (derived b !! p)) ∧
  ((addProcedures b ps es).2 = [] → ∀ p,
     (addProcedures b ps es).1 !! p = if decide (p ∈ ps) then derived b !! p else es !! p).
Proof.
  revert es. induction ps as [|p ps IH]; intros es Hnd Hpol; cbn [addProcedures].
  { split; [split; [intros _ p Hp; by apply not_elem_of_nil in Hp|done]|].
    intros _ p. by rewrite decide_False by apply not_elem_of_nil. }
  apply NoDup_cons in Hnd as [Hp Hnd]. apply Forall_cons_1 in Hpol as [[policy Hpolicy] Hpol].
  destruct (es !! p) as [e|] eqn:Hes.
  { destruct (addProcedures b ps es) as [es' errs]; simpl.
    split; [|done]. split; [done|]. intros H. destruct (H p); [by left|congruence]. }
  rewrite Hpolicy. pose proof (lookup_derived b p) as Hd. rewrite Hpolicy in Hd. simpl in Hd.
  destruct (deriveEntry p (Destination b) policy) as [e|err].
  2: { destruct (addProcedures b ps es) as [es' errs]; simpl.
       split; [|done]. split; [done|]. intros H. destruct (H p) as [_ []]; [by left|congruence]. }
  destruct (IH (<[p:=e]> es) Hnd Hpol) as [IH1 IH2]. split.
  - rewrite IH1. setoid_rewrite elem_of_cons. split.
    + intros H q [->|Hq]; [split; [done|by rewrite Hd]|].
      destruct (H q Hq) as [H1 H2]. rewrite lookup_insert_ne in H1 by set_solver. done.
    + intros H q Hq. rewrite lookup_insert_ne by set_solver. auto.
  - intros Herrs q. rewrite IH2 by done. destruct (decide (q ∈ ps)).
    + by rewrite decide_True by (by right).
    + destruct (decide (p = q)) as [<-|].
      * rewrite lookup_insert_eq, decide_True by (by left). done.
      * rewrite lookup_insert_ne, decide_False by set_solver. done.
Qed.

Lemma addBinding_ok b es :
  ((addBinding es b).2 = [] ↔
     ∀ p, is_Some (Policies b !! p) → es !! p = None ∧ is_Some (derived b !! p)) ∧
  ((addBinding es b).2 = [] → (addBinding es b).1 = derived b ∪ es).
Proof.
  unfold addBinding.
  destruct (addProcedures_ok b (sorted_keys (Policies b)) es) as [H1 H2].
  { auto with go. }
  { apply Forall_forall. intros p. by rewrite elem_of_sorted_keys. }
  setoid_rewrite elem_of_sorted_keys in H1. split; [done|].
  intros Herrs. apply map_eq. intros p. rewrite H2 by done.
  case_decide as Hk; rewrite elem_of_sorted_keys in Hk.
  - destruct (proj1 H1 Herrs p Hk) as [_ [e He]]. by rewrite He, lookup_union_Some_l with (x := e).
  - rewrite lookup_union_r; [done|]. rewrite lookup_derived.
    apply eq_None_not_Some in Hk. by rewrite Hk.
Qed.

(** ** Building: one binding *)

Definition unary (m : MethodDescriptor) : Prop :=
  method_IsStreamingClient m = false ∧ method_IsStreamingServer m = false.

Definition declared_procedures (b : Binding) (methods : list MethodDescriptor) : gset string :=
  list_to_set ((λ m, procedureOf (Service b) (method_Name m)) <$> methods).

Lemma methodErrors_ok b m :
  methodErrors b m = [] ↔
  unary m ∧ is_Some (Policies b !! procedureOf (Service b) (method_Name m)).
Proof.
  unfold methodErrors, unary. rewrite app_nil.
  destruct (method_IsStreamingClient m), (method_IsStreamingServer m); simpl;
    case_decide; naive_solver.
Qed.

Lemma concat_nil_iff {A} (ls : list (list A)) : concat ls = [] ↔ Forall (.= []) ls.
Proof.
  induction ls as [|l ls IH]; simpl; [by rewrite Forall_nil|].
  by rewrite app_nil, Forall_cons, IH.
Qed.

Lemma checkDescriptor_ok resolver b :
  checkDescriptor b resolver = [] ↔ ∃ methods,
    resolver (Service b) = Ok (ServiceDescriptor methods) ∧
    Forall unary methods ∧ dom (Policies b) = declared_procedures b methods.
Proof.
  unfold checkDescriptor. destruct (resolver (Service b)) as [[methods|]|err]; [|naive_solver..].
  rewrite app_nil, !concat_nil_iff, !Forall_fmap.
  assert (Forall ((.= []) ∘ methodErrors b) methods ↔ Forall unary methods ∧
    declared_procedures b methods ⊆ dom (Policies b)) as ->.
  { unfold compose. rewrite !Forall_forall. setoid_rewrite methodErrors_ok.
    unfold declared_procedures. set_unfold. setoid_rewrite elem_of_dom. naive_solver. }
  rewrite (Forall_forall _ (sorted_keys _)). fold (declared_procedures b methods).
  setoid_rewrite elem_of_sorted_keys. setoid_rewrite <-elem_of_dom. unfold compose.
  split.
  - intros [[Hu Hsub] Hk]. exists methods. split_and!; [done..|].
    apply set_eq. intros p. split; [|set_solver].
    intros Hp. specialize (Hk p Hp). by case_decide.
  - intros (? & [= <-] & Hu & ->). split_and!; [done..|].
    intros p Hp. by rewrite decide_True.
Qed.

(** ** Building: all bindings *)

(** A binding that passes every check on its own. *)
Record valid_binding (resolver : DescriptorResolver) (b : Binding) : Prop := {
  valid_Service : Service b ≠ "";
  valid_Destination : Destination b ≠ "";
  valid_Policies_nonempty : Policies b ≠ ∅;
  valid_Descriptor : ∃ methods,
    resolver (Service b) = Ok (ServiceDescriptor methods) ∧
    Forall unary methods ∧ dom (Policies b) = declared_procedures b methods;
  valid_Policies : ∀ p policy, Policies b !! p = Some policy → ∃ s, policy_subjects policy s;
}.

(** No procedure has a policy in two bindings. *)
Definition disjoint_procedures (bs : list Binding) : Prop :=
  ∀ b b' p, b ∈ bs → b' ∈ bs →
    is_Some (Policies b !! p) → is_Some (Policies b' !! p) → b = b'.

Definition valid_bindings (resolver : DescriptorResolver) (bs : list Binding) : Prop :=
  Forall (valid_binding resolver) bs ∧ NoDup (Service <$> bs) ∧ disjoint_procedures bs.

Lemma checkBinding_ok index b bound :
  checkBinding index b bound = None ↔
  Service b ≠ "" ∧ Destination b ≠ "" ∧ Policies b ≠ ∅ ∧ Service b ∉ bound.
Proof. unfold checkBinding. repeat case_decide; split; intros; destruct_and?; done. Qed.

Lemma derived_is_Some b p :
  is_Some (derived b !! p) ↔
  ∃ policy s, Policies b !! p = Some policy ∧ policy_subjects policy s.
Proof.
  unfold is_Some. setoid_rewrite lookup_derived_Some. naive_solver.
Qed.

Lemma buildLoop_errs_mono resolver index bs es bound errs :
  (buildLoop resolver index bs es bound errs).2 = [] → errs = [].
Proof.
  revert index es bound errs. induction bs as [|b bs IH]; intros index es bound errs; [done|].
  cbn [buildLoop]. destruct (checkBinding index b bound).
  - intros H%IH. by apply app_nil in H as [_ ?].
  - destruct (addBinding es b). intros H%IH.
    apply app_nil in H as [H _]. by apply app_nil in H as [? _].
Qed.

(** What the loop checks of the remaining bindings, relative to what it has
    collected. *)
Fixpoint loop_valid (resolver : DescriptorResolver) (bs : list Binding)
    (es : gmap string Entry) (bound : gset string) : Prop :=
  match bs with
  | [] => True
  | b :: bs =>
      Service b ≠ "" ∧ Destination b ≠ "" ∧ Policies b ≠ ∅ ∧ (Service b ∉ bound) ∧
      checkDescriptor b resolver = [] ∧
      (∀ p, is_Some (Policies b !! p) → es !! p = None ∧ is_Some (derived b !! p)) ∧
      loop_valid resolver bs (derived b ∪ es) ({[Service b]} ∪ bound)
  end.

Definition collect (bs : list Binding) (es : gmap string Entry) : gmap string Entry :=
  foldl (λ es b, derived b ∪ es) es bs.

Lemma buildLoop_ok resolver index bs es bound errs :
  ((buildLoop resolver index bs es bound errs).2 = [] ↔
     (errs = [] ∧ loop_valid resolver bs es bound)) ∧
  ((buildLoop resolver index bs es bound errs).2 = [] →
     (buildLoop resolver index bs es bound errs).1 = collect bs es).
Proof.
  revert index es bound errs. induction bs as [|b bs IH]; intros index es bound errs.
  { simpl. split; [tauto|done]. }
  cbn [buildLoop loop_valid].
  destruct (checkBinding index b bound) as [err|] eqn:Hcheck.
  { assert (∀ r : Prop, (buildLoop resolver (S index) bs es bound (errs ++ [err])).2 = [] → r) as Hno.
    { intros r H%buildLoop_errs_mono. by apply app_nil in H as [_ ?]. }
    split; [split; [apply Hno|]|apply Hno]. intros (_ & ? & ? & ? & ? & _).
    rewrite (proj2 (checkBinding_ok index b bound)) in Hcheck by done. done. }
  apply checkBinding_ok in Hcheck as (? & ? & ? & ?).
  destruct (addBinding_ok b es) as [Hadd1 Hadd2].
  destruct (addBinding es b) as [es' added]; simpl in Hadd1, Hadd2.
  destruct (IH (S index) es' ({[Service b]} ∪ bound)
              ((errs ++ checkDescriptor b resolver) ++ added)) as [IH1 IH2].
  rewrite !app_nil in IH1. rewrite <-Hadd1. split.
  - rewrite IH1. split.
    + intros (((-> & ?) & ->) & Hv). rewrite Hadd2 in Hv by done. done.
    + intros (-> & _ & _ & _ & _ & ? & -> & Hv). rewrite Hadd2 by done. done.
  - intros Herrs. rewrite IH2 by done. apply IH1 in Herrs as ((_ & ->) & _).
    rewrite Hadd2 by done. done.
Qed.

Lemma loop_valid_iff resolver bs es bound :
  loop_valid resolver bs es bound ↔
  valid_bindings resolver bs ∧
  (∀ b, b ∈ bs → (Service b ∉ bound) ∧ (∀ p, is_Some (Policies b !! p) → es !! p = None)).
Proof.
  revert es bound. induction bs as [|b bs IH]; intros es bound; cbn [loop_valid].
  { split; [|done]. intros _. split; [|intros ? []%not_elem_of_nil].
    split_and!; [by constructor|by constructor|intros ??? []%not_elem_of_nil]. }
  rewrite IH, checkDescriptor_ok. unfold valid_bindings, disjoint_procedures.
  rewrite fmap_cons, NoDup_cons, Forall_cons. setoid_rewrite elem_of_cons.
  setoid_rewrite derived_is_Some. setoid_rewrite not_elem_of_union.
  setoid_rewrite lookup_union_None. split.
  - intros (? & ? & ? & Hb & ? & Hpol & (Hvs & Hnd & Hdis) & Hrest).
    assert (∀ b' p, b' ∈ bs → is_Some (Policies b' !! p) → ¬ is_Some (Policies b !! p)) as Hsep.
    { intros b' p Hb' Hp' Hp. destruct (Hrest b' Hb') as [_ Hnone].
      destruct (Hnone p Hp') as [Hd%eq_None_not_Some _]. apply Hd, derived_is_Some, Hpol, Hp. }
    split_and!; [| done | | done | | ].
    + split; try done. intros p policy Hp. destruct (Hpol p) as (_ & ? & ? & ? & ?); [eauto|].
      simplify_eq. eauto.
    + intros Hin. apply list_elem_of_fmap in Hin as (b' & Heq & Hb').
      destruct (Hrest b' Hb') as [[Hne _] _]. set_solver.
    + intros b1 b2 p [->|Hin1] [->|Hin2] Hp1 Hp2; eauto; exfalso; eapply Hsep; eauto.
    + intros b' [->|Hb']; [split; [done|]; intros p Hp; by apply Hpol|].
      destruct (Hrest b' Hb') as [[_ ?] Hnone]. split; [done|].
      intros p Hp. by apply Hnone.
  - intros (([Hv Hvs] & [Hnin Hnd] & Hdis) & Hrest). destruct Hv as [? ? ? ? Hpol].
    destruct (Hrest b) as [? Hfree]; [by left|]. split_and!; try done.
    + intros p [policy Hp]. split; [eauto|]. destruct (Hpol p policy Hp) as [s Hs]. eauto.
    + intros b1 b2 p ??. apply Hdis; by right.
    + intros b' Hb'. destruct (Hrest b') as [? Hfree']; [by right|]. split.
      * split; [|done]. intros Heq%elem_of_singleton. apply Hnin, list_elem_of_fmap.
        by exists b'.
      * intros p Hp. split; [|by apply Hfree'].
        apply eq_None_not_Some. intros (policy & s & Hp2 & _)%derived_is_Some.
        apply Hnin, list_elem_of_fmap. exists b'. split; [|done].
        f_equal. eapply (Hdis b b' p); eauto.
Qed.

Lemma lookup_collect resolver bs es bound p e :
  loop_valid resolver bs es bound →
  collect bs es !! p = Some e ↔ (∃ b, b ∈ bs ∧ derived b !! p = Some e) ∨ es !! p = Some e.
Proof.
  revert es bound. induction bs as [|b bs IH]; intros es bound; cbn [loop_valid].
  { intros _. split; [by right|]. intros [(b & []%not_elem_of_nil & _)|?]; done. }
  intros (_ & _ & _ & _ & _ & Hpol & Hv). change (collect (b :: bs) es)
    with (collect bs (derived b ∪ es)). rewrite (IH _ _ Hv).
  setoid_rewrite elem_of_cons. rewrite lookup_union_Some_raw.
  assert (es !! p = Some e → derived b !! p = None) as Hdis.
  { intros Hes. apply eq_None_not_Some. intros (policy & s & Hp & _)%derived_is_Some.
    destruct (Hpol p) as [? _]; [by eauto|congruence]. }
  naive_solver.
Qed.

(** ** Overrides *)

Lemma applyLoop_ok ps seen es :
  ((applyLoop ps seen es).2 = [] ↔
     NoDup ps ∧ Forall (.∉ seen) ps ∧
     Forall (λ p, ∃ e, es !! p = Some e ∧ entry_ExternalTokenUses e ≠ []) ps) ∧
  ((applyLoop ps seen es).2 = [] → ∀ p,
     (applyLoop ps seen es).1 !! p
     = (λ e, if decide (p ∈ ps) then withIntrospection e else e) <$> es !! p).
Proof.
  revert seen es. induction ps as [|p ps IH]; intros seen es; cbn [applyLoop].
  { split; [split; [by intros _; split_and!; constructor|done]|]. intros _ p.
    simpl. by destruct (es !! p). }
  rewrite NoDup_cons, !Forall_cons.
  destruct (decide (p ∈ seen)).
  { destruct (applyLoop ps seen es); simpl. split; [|done]. split; [done|]. naive_solver. }
  destruct (es !! p) as [e|] eqn:Hp.
  2: { destruct (applyLoop ps _ es); simpl. split; [|done]. split; [done|]. naive_solver. }
  destruct (decide (entry_ExternalTokenUses e = [])).
  { destruct (applyLoop ps _ es); simpl. split; [|done]. split; [done|]. naive_solver. }
  destruct (IH ({[p]} ∪ seen) (<[p:=withIntrospection e]> es)) as [IH1 IH2].
  rewrite Forall_not_seen_insert in IH1.
  split.
  - rewrite IH1, !Forall_forall. split.
    + intros (Hnd & (Hseen & Hnin) & Hext). split_and!; try done; [eauto|].
      intros q Hq. specialize (Hext q Hq). rewrite lookup_insert_ne in Hext by (intros ->; done). done.
    + intros ((Hnin & ?) & (? & ?) & _ & Hext). split_and!; try done. intros q Hq.
      rewrite lookup_insert_ne by (intros ->; done). auto.
  - intros Herrs q. rewrite (IH2 Herrs). apply IH1 in Herrs as (_ & [_ Hnin] & _).
    destruct (decide (p = q)) as [<-|].
    + rewrite lookup_insert_eq, Hp. simpl.
      rewrite decide_False by done. by rewrite decide_True by (by left).
    + rewrite lookup_insert_ne by done. destruct (es !! q); simpl; [|done]. f_equal.
      destruct (decide (q ∈ ps)).
      * by rewrite decide_True by (by right).
      * rewrite decide_False; [done|]. intros [->|?]%elem_of_cons; done.
Qed.

(** ** The registry a valid configuration denotes *)

(** The entry of procedure [p] that bindings and overrides declare. *)
Definition declares (bs : list Binding) (ov : Overrides) (p : string) (e : Entry) : Prop :=
  ∃ b policy s, b ∈ bs ∧ Policies b !! p = Some policy ∧ policy_subjects policy s ∧
    e = {| entry_Procedure := p; entry_Destination := Destination b;
           entry_Anonymous := anonymous s; entry_ExternalTokenUses := externalTokenUses s;
           entry_Service := service s; entry_RequiredScopes := policy_RequiredScopes policy;
           entry_Introspection := bool_decide (p ∈ Introspection ov) |}.

Definition valid_overrides (bs : list Binding) (ov : Overrides) : Prop :=
  NoDup (Introspection ov) ∧
  ∀ p, p ∈ Introspection ov → ∃ e, declares bs ov p e ∧ entry_ExternalTokenUses e ≠ [].

Definition denotes (bs : list Binding) (ov : Overrides) (r : Registry) : Prop :=
  (∀ p e, entries r !! p = Some e ↔ declares bs ov p e) ∧ order r = sorted_keys (entries r).

Lemma declares_derived bs ov p e :
  declares bs ov p e ↔ ∃ b e', b ∈ bs ∧ derived b !! p = Some e' ∧
    e = if decide (p ∈ Introspection ov) then withIntrospection e' else e'.
Proof.
  unfold declares. setoid_rewrite lookup_derived_Some. split.
  - intros (b & policy & s & ? & ? & ? & ->). eexists b, _. split_and!; [done|eauto|].
    destruct (decide _);
      [rewrite bool_decide_eq_true_2|rewrite bool_decide_eq_false_2]; done.
  - intros (b & ? & ? & (policy & s & ? & ? & ->) & ->). exists b, policy, s.
    split_and!; [done..|]. destruct (decide _);
      [rewrite bool_decide_eq_true_2|rewrite bool_decide_eq_false_2]; done.
Qed.

(** The registry of the errors-free run of the loops. *)
Lemma Build_ok_loops bs ov resolver r :
  Build bs ov resolver = Ok r ↔
  loop_valid resolver bs ∅ ∅ ∧ (applyOverrides (collect bs ∅) ov).2 = [] ∧
  r = {| entries := (applyOverrides (collect bs ∅) ov).1;
         order := sorted_keys (applyOverrides (collect bs ∅) ov).1 |}.
Proof.
  unfold Build. destruct (buildLoop_ok resolver 0 bs ∅ ∅ []) as [H1 H2].
  destruct (buildLoop resolver 0 bs ∅ ∅ []) as [es errs]; simpl in H1, H2.
  destruct (applyOverrides es ov) as [es' overridden] eqn:Ho.
  rewrite join_errors_ok, app_nil. split.
  - intros [[-> ->] <-]. specialize (H2 eq_refl). subst es.
    rewrite Ho. simpl. split_and!; [|done..]. by apply H1.
  - intros (Hv & Hno & ->). assert (errs = []) as -> by (apply H1; done).
    specialize (H2 eq_refl). subst es. rewrite Ho in Hno |- *. done.
Qed.

Lemma valid_overrides_iff bs ov es :
  (∀ p e, es !! p = Some e ↔ ∃ b, b ∈ bs ∧ derived b !! p = Some e) →
  (applyOverrides es ov).2 = [] ↔ valid_overrides bs ov.
Proof.
  intros Hes. unfold applyOverrides.
  destruct (applyLoop_ok (Introspection ov) ∅ es) as [-> _]. unfold valid_overrides.
  rewrite !Forall_forall. setoid_rewrite Hes. setoid_rewrite declares_derived. split.
  - intros (? & _ & H). split; [done|]. intros p Hp. destruct (H p Hp) as (e & (b & ? & ?) & ?).
    eexists. split; [exists b, e; eauto|]. rewrite decide_True by done. done.
  - intros (? & H). split_and!; [done|set_solver|]. intros p Hp.
    destruct (H p Hp) as (e & (b & e' & ? & ? & ->) & ?). rewrite decide_True in * by done.
    exists e'. eauto.
Qed.

(** [Build] succeeds exactly on the valid configurations, and then returns the
    registry they denote. *)
Lemma Build_ok bs ov resolver r :
  Build bs ov resolver = Ok r ↔
  valid_bindings resolver bs ∧ valid_overrides bs ov ∧ denotes bs ov r.
Proof.
  rewrite Build_ok_loops.
  assert (loop_valid resolver bs ∅ ∅ ↔ valid_bindings resolver bs) as Hloop.
  { rewrite loop_valid_iff. split; [tauto|]. intros H. split; [done|]. set_solver. }
  assert (loop_valid resolver bs ∅ ∅ → ∀ p e,
    collect bs ∅ !! p = Some e ↔ ∃ b, b ∈ bs ∧ derived b !! p = Some e) as Hes.
  { intros Hv p e. rewrite (lookup_collect _ _ _ _ _ _ Hv). rewrite lookup_empty. naive_solver. }
  assert (valid_bindings resolver bs → (applyOverrides (collect bs ∅) ov).2 = [] →
    denotes bs ov {| entries := (applyOverrides (collect bs ∅) ov).1;
                     order := sorted_keys (applyOverrides (collect bs ∅) ov).1 |}) as Hden.
  { intros Hv%Hloop Hno. split; [|done]. intros p e. simpl. rewrite declares_derived.
    unfold applyOverrides in *. rewrite (proj2 (applyLoop_ok _ _ _) Hno).
    rewrite fmap_Some. setoid_rewrite (Hes Hv). naive_solver. }
  split.
  - intros (Hv & Hno & ->). split_and!.
    + by apply Hloop.
    + eapply valid_overrides_iff, Hno. by apply Hes.
    + apply Hden; [by apply Hloop|done].
  - intros (Hv & Ho & [Hd Hord]). apply Hloop in Hv as Hv'.
    apply (valid_overrides_iff bs ov (collect bs ∅)) in Ho; [|by apply Hes].
    split_and!; [done..|]. destruct (Hden Hv Ho) as [Hd' _]. simpl in Hd'.
    assert (entries r = (applyOverrides (collect bs ∅) ov).1) as He.
    { apply map_eq. intros p. apply option_eq. intros e. by rewrite Hd, Hd'. }
    rewrite <-He, <-Hord. by destruct r.
Qed.

(** ** Well-formed entries *)

(** What every entry of a registry satisfies. *)
Record entry_wf (e : Entry) : Prop := {
  wf_subjects : entry_Anonymous e = true ↔
    entry_ExternalTokenUses e = [] ∧ entry_Service e = false;
  wf_anonymous_scopes : entry_Anonymous e = true → entry_RequiredScopes e = [];
  wf_external : Forall (.∈ [TokenUseTenantAccess; TokenUseEventAccess; TokenUseRegistration])
    (entry_ExternalTokenUses e);
  wf_external_nodup : NoDup (entry_ExternalTokenUses e);
  wf_introspection : entry_Introspection e = true → entry_ExternalTokenUses e ≠ [];
}.

Lemma isKnownTokenUse_true u :
  isKnownTokenUse u ↔
  u ∈ [TokenUseTenantAccess; TokenUseEventAccess; TokenUseService; TokenUseRegistration].
Proof. unfold isKnownTokenUse. by rewrite Is_true_true, Contains_true. Qed.

Lemma policy_subjects_wf policy s :
  policy_subjects policy s →
  (anonymous s = true ↔ externalTokenUses s = [] ∧ service s = false) ∧
  (anonymous s = true → policy_RequiredScopes policy = []) ∧
  Forall (.∈ [TokenUseTenantAccess; TokenUseEventAccess; TokenUseRegistration])
    (externalTokenUses s) ∧ NoDup (externalTokenUses s).
Proof.
  intros [? ? ?|? ?|? Hk Hnd Hne]; simpl.
  - repeat split; eauto using NoDup_nil_2.
  - repeat split; eauto using NoDup_nil_2; try done; by intros [_ ?].
  - split; [split; [done|by intros [? _]]|]. split; [done|]. split.
    + apply Forall_forall. intros u [Hu Hin]%list_elem_of_filter.
      rewrite Forall_forall in Hk. specialize (Hk u Hin).
      apply isKnownTokenUse_true in Hk. set_solver.
    + by apply NoDup_filter.
Qed.

Lemma declares_wf bs ov p e :
  valid_overrides bs ov → disjoint_procedures bs → declares bs ov p e →
  entry_Procedure e = p ∧ entry_wf e.
Proof.
  intros [_ Hov] Hdis Hd. pose proof Hd as (b & policy & s & Hb & Hp & Hs & ->). simpl.
  split; [done|]. apply policy_subjects_wf in Hs as Hwf. destruct Hwf as (? & ? & ? & ?).
  split; simpl; try done. intros Hin%bool_decide_eq_true.
  destruct (Hov p Hin) as (e' & (b' & policy' & s' & Hb' & Hp' & Hs' & ->) & Hne). simpl in Hne.
  assert (b = b') as <- by (eapply Hdis; eauto). simplify_eq.
  apply (deriveSubjects_ok p) in Hs, Hs'. congruence.
Qed.

Lemma Build_wf bs ov resolver r :
  Build bs ov resolver = Ok r →
  order r = sorted_keys (entries r) ∧
  ∀ p e, entries r !! p = Some e → entry_Procedure e = p ∧ entry_wf e.
Proof.
  intros ((_ & _ & Hdis) & Hov & [Hd Hord])%Build_ok. split; [done|].
  intros p e Hp%Hd. by eapply declares_wf.
Qed.

Lemma cloneEntry_eq e : cloneEntry e = e.
Proof. by destruct e. Qed.

Lemma Lookup_entries r p : Lookup r p = entries r !! p.
Proof. unfold Lookup. destruct (entries r !! p); [|done]. by rewrite cloneEntry_eq. Qed.

Lemma entryAt_Some r p e : entries r !! p = Some e → entryAt r p = e.
Proof. unfold entryAt. by intros ->. Qed.

Lemma Build_procedures bs ov resolver r :
  Build bs ov resolver = Ok r → entry_Procedure <$> Entries r = order r.
Proof.
  intros (Hord & Hwf)%Build_wf. unfold Entries. rewrite <-list_fmap_compose.
  rewrite <-(list_fmap_id (order r)) at 2. apply list_fmap_ext. intros i p Hp%list_elem_of_lookup_2.
  simpl. rewrite Hord, elem_of_sorted_keys in Hp. destruct Hp as [e He].
  rewrite (entryAt_Some _ _ _ He). by apply Hwf in He as [? _].
Qed.

Lemma elem_of_Entries bs ov resolver r e :
  Build bs ov resolver = Ok r →
  e ∈ Entries r ↔ Lookup r (entry_Procedure e) = Some e.
Proof.
  intros (Hord & Hwf)%Build_wf. rewrite Lookup_entries. unfold Entries.
  rewrite list_elem_of_fmap, Hord. setoid_rewrite elem_of_sorted_keys.
  split.
  - intros (p & -> & [e' He]). rewrite cloneEntry_eq, (entryAt_Some _ _ _ He).
    by apply Hwf in He as Heq; destruct Heq as [-> _].
  - intros He. exists (entry_Procedure e). split; [|by eexists].
    by rewrite cloneEntry_eq, (entryAt_Some _ _ _ He).
Qed.

Lemma elem_of_Destinations bs ov resolver r d :
  Build bs ov resolver = Ok r →
  d ∈ Destinations r ↔ ∃ p e, Lookup r p = Some e ∧ entry_Destination e = d.
Proof.
  intros (Hord & _)%Build_wf. unfold Destinations.
  rewrite elem_of_sorted_set, elem_of_list_to_set, list_elem_of_fmap, Hord.
  setoid_rewrite elem_of_sorted_keys. setoid_rewrite Lookup_entries. split.
  - intros (p & -> & [e He]). exists p, e. by rewrite (entryAt_Some _ _ _ He).
  - intros (p & e & He & <-). exists p. rewrite (entryAt_Some _ _ _ He). split; [done|]. by eexists.
Qed.

(** ** The snapshot determines the registry *)

(** A list the snapshot prints without ambiguity. *)
Definition printable_list (l : list string) : Prop :=
  l ≠ [emptyListMark] ∧
  Forall (λ w, has_byte "," w = false ∧ has_byte "009" w = false ∧ has_byte "010" w = false) l.

Record printable (e : Entry) : Prop := {
  printable_Procedure :
    has_byte "009" (entry_Procedure e) = false ∧ has_byte "010" (entry_Procedure e) = false;
  printable_Destination :
    has_byte "009" (entry_Destination e) = false ∧ has_byte "010" (entry_Destination e) = false;
  printable_External : printable_list (entry_ExternalTokenUses e);
  printable_Scopes : printable_list (entry_RequiredScopes e);
}.

Lemma formatList_inj l l' :
  printable_list l → printable_list l' → formatList l = formatList l' → l = l'.
Proof.
  intros [Hne Hl] [Hne' Hl'].
  apply Forall_and in Hl as [Hl _], Hl' as [Hl' _].
  assert (∀ k, k ≠ [] → k ≠ [emptyListMark] → Forall (λ w, has_byte "," w = false) k →
    emptyListMark ≠ Join k ",") as Hmark.
  { intros k Hk Hk' Hc Heq. apply Hk'. symmetry.
    apply (Join_inj [emptyListMark] k ","); [done|done|by repeat constructor|done|exact Heq]. }
  destruct l as [|w l], l' as [|w' l']; unfold formatList; intros Heq; [done|exfalso..|].
  - by apply (Hmark (w' :: l')).
  - by apply (Hmark (w :: l)).
  - by apply (Join_inj _ _ ",").
Qed.

Lemma has_byte_formatList a l :
  a ∉ [","; "-"]%char → Forall (λ w, has_byte a w = false) l → has_byte a (formatList l) = false.
Proof.
  intros Ha Hl. assert (a ≠ ","%char ∧ a ≠ "-"%char) as [??] by set_solver.
  destruct l as [|w l]; unfold formatList.
  - simpl. by rewrite bool_decide_eq_false_2.
  - apply has_byte_Join; [|done]. simpl. by rewrite bool_decide_eq_false_2.
Qed.

(** The columns of a snapshot line. *)
Definition snapshotColumns (entry : Entry) : list string :=
  [entry_Procedure entry;
   "destination=" +:+ entry_Destination entry;
   "anonymous=" +:+ format_bool (entry_Anonymous entry);
   "external=" +:+ formatList (entry_ExternalTokenUses entry);
   "service=" +:+ format_bool (entry_Service entry);
   "scopes=" +:+ formatList (entry_RequiredScopes entry);
   "introspection=" +:+ format_bool (entry_Introspection entry)].

Lemma snapshotColumns_no_byte a e :
  a ∈ ["009"; "010"]%char → printable e →
  Forall (λ w, has_byte a w = false) (snapshotColumns e).
Proof.
  intros Ha [Hp Hd [_ He] [_ Hs]].
  pose proof (λ b, has_byte_format_bool a b Ha) as Hb.
  assert (has_byte a (formatList (entry_ExternalTokenUses e)) = false ∧
          has_byte a (formatList (entry_RequiredScopes e)) = false ∧
          has_byte a (entry_Procedure e) = false ∧ has_byte a (entry_Destination e) = false)
    as (H1 & H2 & H3 & H4).
  { apply elem_of_cons in Ha as [->|[->|[]%not_elem_of_nil]%elem_of_cons];
      (split_and!; [apply has_byte_formatList..| |]; [set_solver| |set_solver| | |]);
      (eapply Forall_impl; [done|naive_solver]) || naive_solver. }
  assert (∀ p s, has_byte a p = false → has_byte a s = false → has_byte a (p +:+ s) = false) as Happ.
  { intros p s Hp' Hs'. by rewrite has_byte_app, Hp', Hs'. }
  repeat constructor; try done; apply Happ; try done;
    apply elem_of_cons in Ha as [->|[->|[]%not_elem_of_nil]%elem_of_cons]; done.
Qed.

Lemma snapshotColumns_inj e e' :
  printable e → printable e' → snapshotColumns e = snapshotColumns e' → e = e'.
Proof.
  intros [] [] Hcols. unfold snapshotColumns in Hcols.
  injection Hcols as Hp Hd Ha Hx Hs Hsc Hi. destruct e, e'; simpl in *. f_equal.
  all: first [done | by apply format_bool_inj | by apply formatList_inj].
Qed.

(** A registry [Build] returns, as its readers see it. *)
Definition registry_wf (r : Registry) : Prop :=
  order r = sorted_keys (entries r) ∧ ∀ p e, entries r !! p = Some e → entry_Procedure e = p.

Lemma registry_ext r r' :
  registry_wf r → registry_wf r' → Entries r = Entries r' → r = r'.
Proof.
  intros [Hord Hp] [Hord' Hp'] Heq.
  assert (∀ s : Registry, order s = sorted_keys (entries s) →
    (∀ p e, entries s !! p = Some e → entry_Procedure e = p) →
    ∀ p e, entries s !! p = Some e ↔ e ∈ Entries s ∧ entry_Procedure e = p) as Hin.
  { intros s Ho Hs p e. unfold Entries. rewrite list_elem_of_fmap, Ho. split.
    - intros He. split; [|eauto]. exists p. rewrite cloneEntry_eq, (entryAt_Some _ _ _ He).
      split; [done|]. apply elem_of_sorted_keys. by eexists.
    - intros [(q & -> & [e' He]%elem_of_sorted_keys) <-].
      rewrite cloneEntry_eq, (entryAt_Some _ _ _ He). by rewrite (Hs _ _ He). }
  assert (entries r = entries r') as Hent.
  { apply map_eq. intros p. apply option_eq. intros e.
    rewrite (Hin r), (Hin r'), Heq by done. done. }
  destruct r, r'; simpl in *; by subst.
Qed.

Lemma Snapshot_table r : Snapshot r = render_table (snapshotColumns <$> Entries r).
Proof.
  unfold Snapshot, render_table, Entries. rewrite <-!list_fmap_compose.
  erewrite (list_fmap_ext _ ((λ row, Join row tab) ∘ snapshotColumns ∘ _)); [done|].
  intros i p _. done.
Qed.

Lemma Snapshot_inj r r' :
  registry_wf r → registry_wf r' → Forall printable (Entries r) → Forall printable (Entries r') →
  Snapshot r = Snapshot r' → r = r'.
Proof.
  rewrite !Snapshot_table. intros Hr Hr' Hl Hl' Heq. apply registry_ext; [done..|].
  apply (map_inj_Forall printable snapshotColumns); [by apply snapshotColumns_inj|done..|].
  apply render_table_inj; [..|done]; rewrite Forall_fmap; (eapply Forall_impl; [done|]);
    intros e He; (split; [done|split; apply snapshotColumns_no_byte]); first [done|set_solver].
Qed.

(** [Build] fails only for a reason: on a valid configuration it returns a
    registry, and otherwise the joined errors. *)
Lemma Build_total bs ov resolver :
  (∃ r, Build bs ov resolver = Ok r) ∨
  (∃ errs, errs ≠ [] ∧ Build bs ov resolver = Err (Joined errs)).
Proof.
  destruct (Build bs ov resolver) as [r|err] eqn:Hb; [by left; exists r|right].
  unfold Build in Hb. destruct (buildLoop resolver 0 bs ∅ ∅ []) as [es errs].
  destruct (applyOverrides es ov) as [es' overridden].
  apply join_errors_err in Hb as [? ->]. eauto.
Qed.

Lemma Build_complete bs ov resolver :
  valid_bindings resolver bs → valid_overrides bs ov → is_ok (Build bs ov resolver) = true.
Proof.
  intros Hb Ho. assert (loop_valid resolver bs ∅ ∅) as Hv.
  { apply loop_valid_iff. split; [done|]. set_solver. }
  assert ((applyOverrides (collect bs ∅) ov).2 = []) as Hno.
  { apply (valid_overrides_iff bs); [|done]. intros p e.
    rewrite (lookup_collect _ _ _ _ _ _ Hv), lookup_empty. naive_solver. }
  assert (∃ r, Build bs ov resolver = Ok r) as [r ->]; [|done].
  eexists. by apply Build_ok_loops.
Qed.

(** ** Properties *)

(** C6. [Build] returns a registry exactly for the valid configurations
    (bindings that are complete, unary, consistent with their descriptors and
    disjoint, with meaningful policies, and overrides of procedures that take
    external tokens), it is the registry they denote, and there is no third
    outcome: every other configuration is refused with at least one error. *)
Theorem registry_build_spec bs ov resolver :
  (∀ r, Build bs ov resolver = Ok r ↔
     valid_bindings resolver bs ∧ valid_overrides bs ov ∧ denotes bs ov r) ∧
  (valid_bindings resolver bs ∧ valid_overrides bs ov ↔ ∃ r, Build bs ov resolver = Ok r) ∧
  ((∃ r, Build bs ov resolver = Ok r) ∨
   ∃ errs, errs ≠ [] ∧ Build bs ov resolver = Err (Joined errs)).
Proof.
  split_and!; [apply Build_ok| |apply Build_total]. split.
  - intros [Hb Ho]. pose proof (Build_complete _ _ _ Hb Ho) as H.
    destruct (Build bs ov resolver) as [r|]; [by exists r|done].
  - intros [r (? & ? & _)%Build_ok]. done.
Qed.

(** C37. Every entry of a registry is well formed: it is filed under its own
    procedure, it takes anonymous requests exactly when it takes neither
    external tokens nor services (and then asks for no scope), its external
    token uses are distinct and external, and introspection is only asked for
    where external tokens are taken. *)
Theorem registry_entries_wf bs ov resolver r p e :
  Build bs ov resolver = Ok r → Lookup r p = Some e → entry_Procedure e = p ∧ entry_wf e.
Proof. intros [_ Hwf]%Build_wf. rewrite Lookup_entries. apply Hwf. Qed.

(** A configuration of one service with one procedure of each kind. *)
Definition example_policies : gmap string Policy :=
  list_to_map
    [("/a.S/Open", {| policy_Level := LevelPublic; policy_RequiredScopes := [];
                      policy_TokenUses := [] |});
     ("/a.S/Read", {| policy_Level := LevelAuthenticated; policy_RequiredScopes := ["a.read"];
                      policy_TokenUses := [TokenUseTenantAccess; TokenUseService] |});
     ("/a.S/Sync", {| policy_Level := LevelInternal; policy_RequiredScopes := [];
                      policy_TokenUses := [TokenUseService] |})].

Definition example_bindings : list Binding :=
  [{| Service := "a.S"; Destination := "svc-a"; Policies := example_policies |}].

Definition example_overrides : Overrides := {| Introspection := ["/a.S/Read"] |}.

Definition example_resolver : DescriptorResolver := λ _,
  Ok (ServiceDescriptor
    ((λ name, {| method_Name := name; method_IsStreamingClient := false;
                 method_IsStreamingServer := false |}) <$> ["Open"; "Read"; "Sync"])).

Definition example_registry : Registry :=
  match Build example_bindings example_overrides example_resolver with
  | Ok r => r
  | Err _ => {| entries := ∅; order := [] |}
  end.

Definition example_entry : Entry :=
  {| entry_Procedure := "/a.S/Read"; entry_Destination := "svc-a"; entry_Anonymous := false;
     entry_ExternalTokenUses := [TokenUseTenantAccess]; entry_Service := true;
     entry_RequiredScopes := ["a.read"]; entry_Introspection := true |}.

Lemma registry_entries_wf_witness :
  entry_Procedure example_entry = "/a.S/Read" ∧ entry_wf example_entry.
Proof.
  apply (registry_entries_wf example_bindings example_overrides example_resolver
           example_registry); vm_compute; reflexivity.
Defined.
