(* ===== verification/Destinations.v ===== *)
(** * The destinations file ([internal/registry/destinations.go])

    [LoadDestinations] reads the JSON document that maps service IDs to origins
    and [CheckDestinations] compares it with the destinations a registry
    references.  Reading the file, decoding its JSON and [url.Parse] are
    parameters: the model starts from what they return. *)

From S2P Require Import Prelude GoStd GoErrors Registry.

Definition ErrDestinationsFile : string := "registry: destinations file".
Definition ErrInvalidDestinations : string := "registry: invalid destinations".
Definition ErrMissingDestination : string := "registry: missing destination".
Definition ErrUnusedDestination : string := "registry: unused destination".

(** [type Destinations map[string]Destination]; a [Destination] has the URL as
    its one field. *)
Record DestinationT : Type := { destination_URL : URL }.

Abbreviation DestinationsT := (gmap string DestinationT).

(** [destinationsDocument]: the URL text of each service ID. *)
Record destinationDocument : Type := { document_URL : string }.

Record destinationsDocument : Type := {
  document_Destinations : gmap string destinationDocument;
}.

Definition emptyURL : error := ErrorNew "the URL is empty".

Section load.
(** [os.ReadFile]: the content of the file at a path. *)
Context (ReadFile : string → result error string).
(** [decoder.Decode(&document)] on the content, unknown fields disallowed,
    and what [decoder.More()] answers afterwards. *)
Context (Decode : string → result error (destinationsDocument * bool)).
Context (url_Parse : string → result error URL).

Definition readDestinations (path : string) : result error destinationsDocument :=
  match ReadFile path with
  | Err err => Err (Errorf "%w: %w" [ErrorNew ErrDestinationsFile; err] [])
  | Ok raw =>
      match Decode raw with
      | Err err => Err (Errorf "%w: %s: %w" [ErrorNew ErrInvalidDestinations; err] [path])
      | Ok (document, more) =>
          if (more : bool) then
            Err (Errorf "%w: %s carries data after the top-level object"
                   [ErrorNew ErrInvalidDestinations] [path])
          else Ok document
      end
  end.

Definition parseDestinationURL (raw : string) : result error URL :=
  if decide (raw = "") then Err emptyURL
  else
    match url_Parse raw with
    | Err err => Err (Errorf "%q is not a URL: %w" [err] [raw])
    | Ok parsed =>
        let reject format := Err (Errorf format [] [raw]) in
        if negb (bool_decide (URL_Scheme parsed = "http"))
           && negb (bool_decide (URL_Scheme parsed = "https")) then
          reject "the scheme of %q must be http or https"
        else if decide (URL_Host parsed = "") then reject "%q carries no host"
        else if decide (URL_User parsed ≠ None) then
          reject "%q must not carry user information"
        else if negb (bool_decide (URL_RawQuery parsed = "")) || URL_ForceQuery parsed then
          reject "%q must not carry a query"
        else if decide (URL_Fragment parsed ≠ "") then
          reject "%q must not carry a fragment"
        else if negb (bool_decide (URL_Path parsed = ""))
                && negb (bool_decide (URL_Path parsed = "/")) then
          reject "%q must not carry a path"
        else Ok parsed
    end.

(** The loop of [LoadDestinations] over the sorted service IDs. *)
Fixpoint loadLoop (path : string) (document : destinationsDocument) (ids : list string)
    (destinations : DestinationsT) (errs : list error) : DestinationsT * list error :=
  match ids with
  | [] => (destinations, errs)
  | id :: rest =>
      if decide (id = "") then
        loadLoop path document rest destinations
          (errs ++ [Errorf "%w: %s declares a destination with an empty service ID"
                      [ErrorNew ErrInvalidDestinations] [path]])
      else
        let raw := from_option document_URL "" (document_Destinations document !! id) in
        match parseDestinationURL raw with
        | Err err =>
            loadLoop path document rest destinations
              (errs ++ [Errorf "%w: %s: destination %q: %w"
                          [ErrorNew ErrInvalidDestinations; err] [path; id]])
        | Ok parsed =>
            loadLoop path document rest
              (<[id := {| destination_URL := parsed |}]> destinations) errs
        end
  end.

Definition LoadDestinations (path : string) : result error DestinationsT :=
  let? document := readDestinations path in
  if decide (document_Destinations document = ∅) then
    Err (Errorf "%w: %s declares no destination" [ErrorNew ErrInvalidDestinations] [path])
  else
    let '(destinations, errs) :=
      loadLoop path document (sorted_keys (document_Destinations document)) ∅ [] in
    join_errors errs destinations.
End load.

Definition CheckDestinations (r : Registry) (destinations : DestinationsT) : option error :=
  let referenced := Destinations r in
  let missing id :=
    if decide (is_Some (destinations !! id)) then []
    else [Errorf "%w: %q is referenced by the registry but not configured"
            [ErrorNew ErrMissingDestination] [id]] in
  let unused id :=
    if Contains referenced id then []
    else [Errorf "%w: %q is configured but not referenced by the registry"
            [ErrorNew ErrUnusedDestination] [id]] in
  errors_Join (concat (missing <$> referenced) ++ concat (unused <$> sorted_keys destinations)).

(** ** Correctness *)

(** The URL of a destination is an origin: scheme and host, nothing more than a
    slash after them. *)
Definition is_origin (u : URL) : Prop :=
  URL_Scheme u ∈ ["http"; "https"] ∧ URL_Host u ≠ "" ∧ URL_User u = None ∧
  URL_RawQuery u = "" ∧ URL_ForceQuery u = false ∧ URL_Fragment u = "" ∧
  URL_Path u ∈ [""; "/"].

Section load_correct.
Context (ReadFile : string → result error string).
Context (Decode : string → result error (destinationsDocument * bool)).
Context (url_Parse : string → result error URL).

Lemma readDestinations_ok path document :
  readDestinations ReadFile Decode path = Ok document ↔
  ∃ raw, ReadFile path = Ok raw ∧ Decode raw = Ok (document, false).
Proof.
  unfold readDestinations. destruct (ReadFile path) as [raw|]; [|naive_solver].
  destruct (Decode raw) as [[d more]|] eqn:Hd; [destruct more|]; split;
    try done; try (intros (? & [= <-] & H); congruence); intros [= <-]; eauto.
Qed.

Lemma parseDestinationURL_ok raw u :
  parseDestinationURL url_Parse raw = Ok u ↔
  raw ≠ "" ∧ url_Parse raw = Ok u ∧ is_origin u.
Proof.
  unfold parseDestinationURL, is_origin.
  destruct (decide (raw = "")); [split; [done|tauto]|].
  destruct (url_Parse raw) as [p|]; [|split; [done|intros (_ & ? & _); done]].
  assert (∀ x y z : string, negb (bool_decide (x = y)) && negb (bool_decide (x = z)) = false
    ↔ x ∈ [y; z]) as Hin.
  { intros x y z. rewrite andb_false_iff, !negb_false_iff, !bool_decide_eq_true. set_solver. }
  destruct (negb _ && negb _) eqn:Hs.
  { split; [done|]. intros (_ & [= <-] & H%Hin & _). congruence. }
  apply Hin in Hs.
  destruct (decide (URL_Host p = "")); [split; [done|naive_solver]|].
  destruct (decide (URL_User p ≠ None)) as [|Huser]; [split; [done|naive_solver]|].
  destruct (negb _ || _) eqn:Hq.
  { split; [done|]. intros (_ & [= <-] & _ & _ & _ & Hraw & Hforce & _).
    by rewrite Hraw, Hforce in Hq. }
  apply orb_false_elim in Hq as [Hraw%negb_false_iff%bool_decide_eq_true Hforce].
  destruct (decide (URL_Fragment p ≠ "")) as [|Hfrag]; [split; [done|naive_solver]|].
  destruct (negb _ && negb _) eqn:Hp.
  { split; [done|]. intros (_ & [= <-] & _ & _ & _ & _ & _ & _ & H%Hin). congruence. }
  apply Hin in Hp. apply dec_stable in Huser, Hfrag.
  split; [intros [= <-]; done|by intros (_ & ? & _)].
Qed.

(** The destination a document declares for a service ID. *)
Definition declared_destination (document : destinationsDocument) (id : string)
    (d : DestinationT) : Prop :=
  id ≠ "" ∧ ∃ raw, document_Destinations document !! id = Some {| document_URL := raw |} ∧
    parseDestinationURL url_Parse raw = Ok (destination_URL d).

Lemma loadLoop_errs_mono path document ids ds errs :
  (loadLoop url_Parse path document ids ds errs).2 = [] → errs = [].
Proof.
  revert ds errs. induction ids as [|id ids IH]; intros ds errs; [done|]. cbn [loadLoop].
  destruct (decide (id = "")); [intros [? _]%IH%app_nil; done|].
  destruct (parseDestinationURL _ _); [apply IH|intros [? _]%IH%app_nil; done].
Qed.

Lemma loadLoop_ok path document ids ds errs :
  NoDup ids → (∀ id, id ∈ ids → is_Some (document_Destinations document !! id)) →
  ((loadLoop url_Parse path document ids ds errs).2 = [] ↔
     errs = [] ∧ ∀ id, id ∈ ids → ∃ d, declared_destination document id d) ∧
  ((loadLoop url_Parse path document ids ds errs).2 = [] →
     ∀ id d, (loadLoop url_Parse path document ids ds errs).1 !! id = Some d ↔
       (id ∈ ids ∧ declared_destination document id d) ∨ ((id ∉ ids) ∧ ds !! id = Some d)).
Proof.
  intros Hnd. revert ds errs. induction Hnd as [|id ids Hnin Hnd IH];
    intros ds errs Hids; cbn [loadLoop].
  { simpl. split; [split; [intros ->; split; [done|set_solver]|by intros [-> _]]|set_solver]. }
  destruct (Hids id) as [[raw] Hraw]; [by left|].
  assert (∀ err, (loadLoop url_Parse path document ids ds (errs ++ [err])).2 = [] → False)
    as Hno.
  { intros err H%loadLoop_errs_mono. by apply app_nil in H as [_ ?]. }
  destruct (decide (id = "")) as [->|Hne].
  { split; [split; [intros []%Hno|]|intros []%Hno].
    intros [_ H]. destruct (H "") as (d & [] & _); [by left|done]. }
  rewrite Hraw. simpl. destruct (parseDestinationURL url_Parse raw) as [u|err] eqn:Hu.
  2: { split; [split; [intros []%Hno|]|intros []%Hno]. intros [_ H].
       destruct (H id) as (d & _ & raw' & ? & ?); [by left|]. simplify_eq. congruence. }
  destruct (IH (<[id:={| destination_URL := u |}]> ds) errs) as [IH1 IH2]; [set_solver|].
  assert (∀ d, declared_destination document id d ↔ d = {| destination_URL := u |}) as Hd.
  { intros [u']. split.
    - intros (_ & raw' & ? & ?). simplify_eq/=. congruence.
    - intros [= ->]. split; [done|]. by exists raw. }
  split.
  - rewrite IH1. setoid_rewrite elem_of_cons. split; [|naive_solver].
    intros [-> H]. split; [done|]. intros id' [->|?]; [|auto]. eexists. by apply Hd.
  - intros Herrs id' d. rewrite (IH2 Herrs), !elem_of_cons.
    destruct (decide (id' = id)) as [->|].
    + rewrite lookup_insert_eq, Hd. naive_solver.
    + rewrite lookup_insert_ne by done. naive_solver.
Qed.

Lemma LoadDestinations_ok path ds :
  LoadDestinations ReadFile Decode url_Parse path = Ok ds ↔
  ∃ raw document, ReadFile path = Ok raw ∧ Decode raw = Ok (document, false) ∧
    document_Destinations document ≠ ∅ ∧
    (∀ id, is_Some (document_Destinations document !! id) →
       ∃ d, declared_destination document id d) ∧
    ∀ id d, ds !! id = Some d ↔ declared_destination document id d.
Proof.
  unfold LoadDestinations.
  destruct (readDestinations ReadFile Decode path) as [document|err] eqn:Hread; simpl.
  2: { split; [done|]. intros (raw & document & ? & ? & _).
       enough (readDestinations ReadFile Decode path = Ok document) by congruence.
       apply readDestinations_ok. eauto. }
  pose proof (proj1 (readDestinations_ok _ _) Hread) as (raw0 & Hraw0 & Hdec0).
  assert (∀ raw document', ReadFile path = Ok raw → Decode raw = Ok (document', false) →
    document' = document) as Huniq by (intros; congruence).
  destruct (decide (document_Destinations document = ∅)) as [Hemp|Hemp].
  { split; [done|]. intros (raw & d' & H1 & H2 & ? & _). by rewrite (Huniq _ _ H1 H2) in *. }
  destruct (loadLoop_ok path document (sorted_keys (document_Destinations document)) ∅ [])
    as [H1 H2]; [auto with go|by intros id ?%elem_of_sorted_keys|].
  destruct (loadLoop _ _ _ _ _ _) as [ds' errs]; simpl in H1, H2.
  setoid_rewrite elem_of_sorted_keys in H1.
  setoid_rewrite elem_of_sorted_keys in H2.
  setoid_rewrite lookup_empty in H2.
  assert (∀ id d, declared_destination document id d →
    is_Some (document_Destinations document !! id)) as Hsome.
  { intros id d (_ & ? & -> & _). by eexists. }
  rewrite join_errors_ok. split.
  - intros [Herrs <-]. exists raw0, document. pose proof (proj1 H1 Herrs) as [_ Hall].
    split_and!; try done. intros id d. rewrite (H2 Herrs). naive_solver.
  - intros (raw & d' & Hr & Hd & _ & Hall & Heq). rewrite (Huniq _ _ Hr Hd) in *.
    assert (errs = []) as Herrs by tauto. split; [done|].
    apply map_eq. intros id. apply option_eq. intros d. rewrite (H2 Herrs), Heq. naive_solver.
Qed.

Lemma LoadDestinations_origins path ds id d :
  LoadDestinations ReadFile Decode url_Parse path = Ok ds → ds !! id = Some d →
  id ≠ "" ∧ is_origin (destination_URL d).
Proof.
  intros (raw & document & _ & _ & _ & _ & Hds)%LoadDestinations_ok.
  intros (? & raw' & _ & (_ & _ & ?)%parseDestinationURL_ok)%Hds. done.
Qed.
End load_correct.

Lemma concat_fmap_nil {A B} (f : A → list B) l :
  concat (f <$> l) = [] ↔ ∀ x, x ∈ l → f x = [].
Proof. rewrite concat_nil_iff, Forall_fmap, Forall_forall. done. Qed.

Lemma CheckDestinations_None r ds :
  CheckDestinations r ds = None ↔ ∀ id, id ∈ Destinations r ↔ is_Some (ds !! id).
Proof.
  unfold CheckDestinations. autorewrite with no_errors. rewrite !concat_fmap_nil.
  setoid_rewrite elem_of_sorted_keys. split.
  - intros [Hm Hu] id. split.
    + intros Hin. specialize (Hm id Hin). destruct (decide (is_Some (ds !! id))); done.
    + intros Hin. specialize (Hu id Hin). destruct (Contains (Destinations r) id) eqn:Hc; [|done].
      by apply Contains_true in Hc.
  - intros H. split; intros id Hid.
    + rewrite decide_True; [done|]. by apply H.
    + apply H, Contains_true in Hid. by rewrite Hid.
Qed.

(** A configuration that passed the start-up check routes every procedure. *)
Lemma CheckDestinations_routes bs ov resolver r ds p e :
  Build bs ov resolver = Ok r → CheckDestinations r ds = None → Lookup r p = Some e →
  is_Some (ds !! entry_Destination e).
Proof.
  intros Hb Hc Hl. apply (CheckDestinations_None r ds), (elem_of_Destinations _ _ _ _ _ Hb); eauto.
Qed.

(** ** Properties *)

(** [LoadDestinations] returns destinations exactly when the file can be
    read, holds one document and nothing after it, declares at least one
    destination, and every declared one has a service ID and an origin URL; the
    result then holds every declared destination and no other. *)
Theorem destinations_load_spec ReadFile Decode url_Parse path ds :
  LoadDestinations ReadFile Decode url_Parse path = Ok ds ↔
  ∃ raw document, ReadFile path = Ok raw ∧ Decode raw = Ok (document, false) ∧
    document_Destinations document ≠ ∅ ∧
    (∀ id, is_Some (document_Destinations document !! id) →
       ∃ d, declared_destination url_Parse document id d) ∧
    ∀ id d, ds !! id = Some d ↔ declared_destination url_Parse document id d.
Proof. apply LoadDestinations_ok. Qed.

(** A configuration that passed the start-up checks routes every procedure:
    the destination of each registered procedure is configured, with an origin
    URL, and nothing else is configured. *)
Theorem destinations_route_everything ReadFile Decode url_Parse bs ov resolver r path ds :
  Build bs ov resolver = Ok r → LoadDestinations ReadFile Decode url_Parse path = Ok ds →
  CheckDestinations r ds = None →
  (∀ p e, Lookup r p = Some e →
     ∃ d, ds !! entry_Destination e = Some d ∧ is_origin (destination_URL d)) ∧
  (∀ id, is_Some (ds !! id) → ∃ p e, Lookup r p = Some e ∧ entry_Destination e = id).
Proof.
  intros Hb Hl Hc. split.
  - intros p e Hp. destruct (CheckDestinations_routes _ _ _ _ _ _ _ Hb Hc Hp) as [d Hd].
    exists d. split; [done|]. by eapply LoadDestinations_origins in Hd as [_ ?].
  - intros id Hid. rewrite CheckDestinations_None in Hc. apply Hc in Hid.
    by eapply elem_of_Destinations.
Qed.

Definition example_url : URL :=
  {| URL_Scheme := "http"; URL_Opaque := ""; URL_User := None; URL_Host := "svc-a:8080";
     URL_Path := ""; URL_ForceQuery := false; URL_RawQuery := ""; URL_Fragment := "" |}.

Definition example_Decode (raw : string) : result error (destinationsDocument * bool) :=
  Ok ({| document_Destinations := {["svc-a" := {| document_URL := "http://svc-a:8080" |}]} |}, false).

Definition example_destinations : DestinationsT :=
  {["svc-a" := {| destination_URL := example_url |}]}.

Lemma destinations_route_everything_witness :
  ∃ d, example_destinations !! "svc-a" = Some d ∧ is_origin (destination_URL d).
Proof.
  apply (proj1 (destinations_route_everything (λ _, Ok "") example_Decode (λ _, Ok example_url)
           example_bindings example_overrides example_resolver example_registry "destinations.json"
           example_destinations ltac:(vm_compute; reflexivity) ltac:(vm_compute; reflexivity)
           ltac:(vm_compute; reflexivity)) "/a.S/Read" example_entry).
  vm_compute; reflexivity.
Defined.
