(* ===== verification/EdgePolicy.v ===== *)
(** * The service-to-service edges ([internal/edgepolicy/edgepolicy.go])

    A policy says, per calling service and procedure, which origins the caller
    may present.  [Build] checks a list of edges against a registry; [Lookup],
    [Edges] and [Snapshot] read the result. *)

From S2P Require Import Prelude GoStd GoErrors.
From S2P Require Registry.

Definition ErrMissingRegistry : string := "edgepolicy: registry is required".
Definition ErrInvalidEdge : string := "edgepolicy: invalid edge".
Definition ErrDuplicateEdge : string := "edgepolicy: duplicate edge".
Definition ErrUnknownProcedure : string := "edgepolicy: unknown procedure".
Definition ErrProcedureNotService : string :=
  "edgepolicy: procedure accepts no service subject".
Definition ErrSelfEdge : string := "edgepolicy: self edge".
Definition ErrNoAcceptedOrigin : string := "edgepolicy: no accepted origin".
Definition ErrInvalidTokenUse : string := "edgepolicy: invalid token use".

Definition emptyListMark : string := "-".

(** ** Data *)

Record Edge : Type := {
  Caller : string;
  Procedure : string;
  UserOriginTokenUses : list string;
  MachineChain : bool;
  NewMachineOrigin : bool;
}.

#[export] Instance Edge_eq_dec : EqDecision Edge.
Proof. solve_decision. Defined.

Record edgeKey : Type := { key_caller : string; key_procedure : string }.

#[export] Instance edgeKey_eq_dec : EqDecision edgeKey.
Proof. solve_decision. Defined.

#[export] Program Instance edgeKey_countable : Countable edgeKey :=
  inj_countable' (λ k, (key_caller k, key_procedure k))
    (λ p, {| key_caller := p.1; key_procedure := p.2 |}) _.
Next Obligation. by intros []. Qed.

Record Policy : Type := {
  edges : gmap edgeKey Edge;
  order : list edgeKey;
}.

Definition keyOf (edge : Edge) : edgeKey :=
  {| key_caller := Caller edge; key_procedure := Procedure edge |}.

(** [cmp.Or(cmp.Compare(a.caller, b.caller), cmp.Compare(a.procedure, b.procedure))] *)
Definition compareKeys (a b : edgeKey) : comparison :=
  match String.compare (key_caller a) (key_caller b) with
  | Eq => String.compare (key_procedure a) (key_procedure b)
  | c => c
  end.

Definition key_le (a b : edgeKey) : Prop := compareKeys a b ≠ Gt.

#[export] Instance key_le_dec : RelDecision key_le.
Proof. intros a b. unfold key_le. destruct (compareKeys a b); [left|left|right]; congruence. Defined.

Definition cloneEdge (edge : Edge) : Edge :=
  {| Caller := Caller edge;
     Procedure := Procedure edge;
     UserOriginTokenUses := UserOriginTokenUses edge;
     MachineChain := MachineChain edge;
     NewMachineOrigin := NewMachineOrigin edge |}.

(** ** Building *)

Definition isKnownTokenUse (tokenUse : string) : bool :=
  Contains [Registry.TokenUseTenantAccess; Registry.TokenUseEventAccess;
            Registry.TokenUseService; Registry.TokenUseRegistration] tokenUse.

Fixpoint checkTokenUsesLoop (edge : Edge) (tokenUses : list string) (seen : gset string) :
    option error :=
  match tokenUses with
  | [] => None
  | tokenUse :: rest =>
      if negb (isKnownTokenUse tokenUse) then
        Some (Errorf "%w: %s to %s declares the unknown token use %q"
                [ErrorNew ErrInvalidTokenUse] [Caller edge; Procedure edge; tokenUse])
      else if decide (tokenUse ∈ seen) then
        Some (Errorf "%w: %s to %s declares the token use %q more than once"
                [ErrorNew ErrInvalidTokenUse] [Caller edge; Procedure edge; tokenUse])
      else checkTokenUsesLoop edge rest ({[tokenUse]} ∪ seen)
  end.

Definition checkTokenUses (edge : Edge) : option error :=
  checkTokenUsesLoop edge (UserOriginTokenUses edge) ∅.

Definition checkEdge (index : nat) (edge : Edge) (reg : Registry.Registry)
    (seen : gset edgeKey) : option error :=
  if decide (Caller edge = "") then
    Some (Errorf "%w: edge %d declares no caller" [ErrorNew ErrInvalidEdge]
            [Itoa (Z.of_nat index + 1)])
  else if decide (Procedure edge = "") then
    Some (Errorf "%w: edge %d declares no procedure" [ErrorNew ErrInvalidEdge]
            [Itoa (Z.of_nat index + 1)])
  else if decide (keyOf edge ∈ seen) then
    Some (Errorf "%w: %s to %s is declared more than once" [ErrorNew ErrDuplicateEdge]
            [Caller edge; Procedure edge])
  else
    match Registry.Lookup reg (Procedure edge) with
    | None =>
        Some (Errorf "%w: %s is not registered" [ErrorNew ErrUnknownProcedure]
                [Procedure edge])
    | Some entry =>
        if negb (Registry.entry_Service entry) then
          Some (Errorf "%w: %s accepts no service subject" [ErrorNew ErrProcedureNotService]
                  [Procedure edge])
        else if decide (Caller edge = Registry.entry_Destination entry) then
          Some (Errorf "%w: %s calls itself at %s" [ErrorNew ErrSelfEdge]
                  [Caller edge; Procedure edge])
        else
          match checkTokenUses edge with
          | Some err => Some err
          | None =>
              if bool_decide (UserOriginTokenUses edge = [])
                 && negb (MachineChain edge) && negb (NewMachineOrigin edge) then
                Some (Errorf "%w: %s to %s accepts no origin" [ErrorNew ErrNoAcceptedOrigin]
                        [Caller edge; Procedure edge])
              else None
          end
    end.

(** The loop of [Build]. *)
Fixpoint buildLoop (reg : Registry.Registry) (index : nat) (es : list Edge)
    (built : gmap edgeKey Edge) (seen : gset edgeKey) (errs : list error) :
    gmap edgeKey Edge * list error :=
  match es with
  | [] => (built, errs)
  | edge :: rest =>
      match checkEdge index edge reg seen with
      | Some err => buildLoop reg (S index) rest built seen (errs ++ [err])
      | None =>
          let key := keyOf edge in
          buildLoop reg (S index) rest (<[key := cloneEdge edge]> built)
            ({[key]} ∪ seen) errs
      end
  end.

(** [reg] is [None] for a nil pointer. *)
Definition Build (es : list Edge) (reg : option Registry.Registry) : result error Policy :=
  match reg with
  | None => Err (ErrorNew ErrMissingRegistry)
  | Some reg =>
      let '(built, errs) := buildLoop reg 0 es ∅ ∅ [] in
      join_errors errs
        {| edges := built; order := merge_sort key_le (map_to_list built).*1 |}
  end.

(** ** Reading *)

Definition Lookup (p : Policy) (caller procedure : string) : option Edge :=
  match edges p !! {| key_caller := caller; key_procedure := procedure |} with
  | Some edge => Some (cloneEdge edge)
  | None => None
  end.

(** The zero value a Go map answers for a missing key. *)
Definition zeroEdge : Edge :=
  {| Caller := ""; Procedure := ""; UserOriginTokenUses := [];
     MachineChain := false; NewMachineOrigin := false |}.

Definition edgeAt (p : Policy) (key : edgeKey) : Edge := default zeroEdge (edges p !! key).

Definition Edges (p : Policy) : list Edge := (λ key, cloneEdge (edgeAt p key)) <$> order p.

Definition formatList (values : list string) : string :=
  match values with [] => emptyListMark | _ => Join values "," end.

Definition snapshotLine (edge : Edge) : string :=
  Join [Caller edge;
        Procedure edge;
        "user_origin=" +:+ formatList (UserOriginTokenUses edge);
        "machine_chain=" +:+ format_bool (MachineChain edge);
        "new_machine_origin=" +:+ format_bool (NewMachineOrigin edge)]
    tab.

Definition Snapshot (p : Policy) : string :=
  match (λ key, snapshotLine (edgeAt p key)) <$> order p with
  | [] => ""
  | lines => Join lines newline +:+ newline
  end.

(** ** The order of the keys *)

Lemma compareKeys_refl a : compareKeys a a = Eq.
Proof.
  assert (∀ s, String.compare s s = Eq) as H.
  { intros s. pose proof (String.compare_antisym s s). by destruct (String.compare s s). }
  unfold compareKeys. by rewrite !H.
Qed.

Lemma compareKeys_antisym a b : compareKeys a b = CompOpp (compareKeys b a).
Proof.
  unfold compareKeys. rewrite (String.compare_antisym (key_caller a)).
  destruct (String.compare (key_caller b) (key_caller a)); simpl; try done.
  apply String.compare_antisym.
Qed.

Lemma compareKeys_eq a b : compareKeys a b = Eq → a = b.
Proof.
  unfold compareKeys. destruct (String.compare (key_caller a) (key_caller b)) eqn:H; try done.
  intros H'. apply String.compare_eq_iff in H, H'. destruct a, b; simpl in *; by subst.
Qed.

Lemma string_le_compare s t : String.le s t ↔ String.compare s t ≠ Gt.
Proof. unfold String.le, String.leb. by destruct (String.compare s t). Qed.

Lemma string_compare_trans s t u :
  String.compare s t ≠ Gt → String.compare t u ≠ Gt →
  String.compare s u ≠ Gt ∧
  (String.compare s u = Eq → String.compare s t = Eq ∧ String.compare t u = Eq).
Proof.
  rewrite <-!string_le_compare. intros Hst Htu. split; [by transitivity t|].
  intros Heq%String.compare_eq_iff. subst u.
  assert (s = t) as -> by (by apply (anti_symm String.le)).
  pose proof (String.compare_antisym t t). by destruct (String.compare t t).
Qed.

#[export] Instance key_le_trans : Transitive key_le.
Proof.
  intros a b c. unfold key_le, compareKeys. intros Hab Hbc.
  destruct (String.compare (key_caller a) (key_caller b)) eqn:H1; try done;
    destruct (String.compare (key_caller b) (key_caller c)) eqn:H2; try done;
    destruct (string_compare_trans (key_caller a) (key_caller b) (key_caller c))
      as [Hne Heq]; try congruence;
    destruct (String.compare (key_caller a) (key_caller c)) eqn:H3; try done;
    try (destruct Heq as [??]; [done|congruence]).
  by destruct (string_compare_trans (key_procedure a) (key_procedure b) (key_procedure c)).
Qed.

#[export] Instance key_le_total : Total key_le.
Proof.
  intros a b. unfold key_le. rewrite (compareKeys_antisym b a).
  destruct (compareKeys a b); [left|left|right]; done.
Qed.

#[export] Instance key_le_antisym : AntiSymm (=) key_le.
Proof.
  intros a b. unfold key_le. rewrite (compareKeys_antisym b a). intros Hab Hba.
  apply compareKeys_eq. by destruct (compareKeys a b).
Qed.

(** ** Correctness of [Build] *)

(** An edge that a registry admits: it names a registered procedure that takes
    service subjects, is not a self call, lists known token uses once each and
    accepts some origin. *)
Record valid_edge (reg : Registry.Registry) (edge : Edge) : Prop := {
  valid_Caller : Caller edge ≠ "";
  valid_Procedure : Procedure edge ≠ "";
  valid_entry : ∃ entry, Registry.Lookup reg (Procedure edge) = Some entry ∧
    Registry.entry_Service entry = true ∧ Caller edge ≠ Registry.entry_Destination entry;
  valid_uses : Forall isKnownTokenUse (UserOriginTokenUses edge);
  valid_uses_once : NoDup (UserOriginTokenUses edge);
  valid_origin : UserOriginTokenUses edge ≠ [] ∨ MachineChain edge = true ∨
    NewMachineOrigin edge = true;
}.

Lemma checkTokenUsesLoop_None edge us seen :
  checkTokenUsesLoop edge us seen = None ↔
  Forall isKnownTokenUse us ∧ NoDup us ∧ Forall (.∉ seen) us.
Proof.
  revert seen. induction us as [|u us IH]; intros seen; cbn [checkTokenUsesLoop].
  { split; [|done]. intros _. split_and!; by constructor. }
  rewrite !Forall_cons, NoDup_cons. destruct (isKnownTokenUse u); simpl.
  2: { split; [done|]. by intros [[[] _] _]. }
  destruct (decide (u ∈ seen)); [split; [done|tauto]|].
  rewrite IH, Forall_not_seen_insert.
  split; [|tauto]. intros (? & ? & ? & ?). by split_and!.
Qed.

Lemma checkEdge_None index edge reg seen :
  checkEdge index edge reg seen = None ↔ valid_edge reg edge ∧ keyOf edge ∉ seen.
Proof.
  unfold checkEdge.
  destruct (decide (Caller edge = "")); [split; [done|by intros [[] _]]|].
  destruct (decide (Procedure edge = "")); [split; [done|by intros [[] _]]|].
  destruct (decide (keyOf edge ∈ seen)); [split; [done|tauto]|].
  destruct (Registry.Lookup reg (Procedure edge)) as [entry|] eqn:Hl.
  2: { split; [done|]. intros [[? ? (? & ? & _)] _]. congruence. }
  destruct (Registry.entry_Service entry) eqn:Hs; simpl.
  2: { split; [done|]. intros [[? ? (? & ? & ? & _)] _]. congruence. }
  destruct (decide (Caller edge = Registry.entry_Destination entry)).
  { split; [done|]. intros [[? ? (? & ? & _ & ?)] _]. congruence. }
  pose proof (checkTokenUsesLoop_None edge (UserOriginTokenUses edge) ∅) as Hu.
  fold (checkTokenUses edge) in Hu. destruct (checkTokenUses edge) as [err|].
  { split; [done|]. intros [[? ? _ ? ?] _].
    enough (Some err = None) by done. apply Hu.
    split_and!; try done. apply Forall_not_seen_empty. }
  destruct Hu as [(? & ? & _) _]; [done|].
  destruct (_ && _ && _) eqn:Ho.
  - split; [done|]. intros [[? ? _ _ _ Hor] _].
    apply andb_prop in Ho as [[?%bool_decide_eq_true ?%negb_true_iff]%andb_prop ?%negb_true_iff].
    destruct Hor as [?|[?|?]]; congruence.
  - split; [|done]. intros _. split; [|done]. split; try done; [by exists entry|].
    rewrite !andb_false_iff, bool_decide_eq_false, !negb_false_iff in Ho. tauto.
Qed.

Lemma cloneEdge_eq edge : cloneEdge edge = edge.
Proof. by destruct edge. Qed.

Lemma edgeLoop_errs_mono reg index es built seen errs :
  (buildLoop reg index es built seen errs).2 = [] → errs = [].
Proof.
  revert index built seen errs. induction es as [|edge es IH]; intros index built seen errs; [done|].
  cbn [buildLoop]. destruct (checkEdge _ _ _ _); [intros [? _]%IH%app_nil; done|apply IH].
Qed.

Lemma edgeLoop_ok reg index es built seen errs :
  ((buildLoop reg index es built seen errs).2 = [] ↔
     errs = [] ∧ Forall (valid_edge reg) es ∧ NoDup (keyOf <$> es) ∧
     Forall (.∉ seen) (keyOf <$> es)) ∧
  ((buildLoop reg index es built seen errs).2 = [] → ∀ k edge,
     (buildLoop reg index es built seen errs).1 !! k = Some edge ↔
     (edge ∈ es ∧ keyOf edge = k) ∨ ((k ∉ keyOf <$> es) ∧ built !! k = Some edge)).
Proof.
  revert index built seen errs. induction es as [|e es IH]; intros index built seen errs.
  { simpl. split; [|set_solver]. split; [intros ->|by intros [? _]].
    split_and!; by constructor. }
  cbn [buildLoop]. rewrite fmap_cons, NoDup_cons, !Forall_cons.
  destruct (checkEdge index e reg seen) as [err|] eqn:Hc.
  { assert ((buildLoop reg (S index) es built seen (errs ++ [err])).2 = [] → False) as Hno.
    { intros [_ ?]%edgeLoop_errs_mono%app_nil. done. }
    split; [split; [by intros []%Hno|]|by intros []%Hno].
    intros (_ & [? _] & _ & ? & _). enough (Some err = None) by done.
    rewrite <-Hc. by apply checkEdge_None. }
  apply checkEdge_None in Hc as [Hv Hs].
  destruct (IH (S index) (<[keyOf e := cloneEdge e]> built) ({[keyOf e]} ∪ seen) errs) as [IH1 IH2].
  rewrite Forall_not_seen_insert in IH1. split; [rewrite IH1; tauto|].
  intros Herrs k edge. rewrite (IH2 Herrs). apply IH1 in Herrs as (_ & _ & _ & _ & Hn).
  rewrite !elem_of_cons, cloneEdge_eq. destruct (decide (k = keyOf e)) as [->|].
  - rewrite lookup_insert_eq. split.
    + intros [[Hin Hk]|[_ [= <-]]]; [|by left; split; [left|]].
      exfalso. apply Hn. rewrite <-Hk. by apply list_elem_of_fmap_2.
    + intros [[[->|Hin] Hk]|[? _]]; [by right| |tauto].
      by left.
  - rewrite lookup_insert_ne by done. split; [|naive_solver]. intros [[? ?]|[? ?]].
    + left. tauto.
    + right. split; [|done]. intros [?|?]; done.
Qed.

(** The policy a list of edges denotes. *)
Definition denotes (es : list Edge) (p : Policy) : Prop :=
  (∀ k edge, edges p !! k = Some edge ↔ edge ∈ es ∧ keyOf edge = k) ∧
  order p = merge_sort key_le (map_to_list (edges p)).*1.

Lemma policy_Build_ok es reg p :
  Build es reg = Ok p ↔
  ∃ r, reg = Some r ∧ Forall (valid_edge r) es ∧ NoDup (keyOf <$> es) ∧ denotes es p.
Proof.
  unfold Build. destruct reg as [r|]; [|split; [done|by intros (? & ? & _)]].
  destruct (edgeLoop_ok r 0 es ∅ ∅ []) as [H1 H2].
  destruct (buildLoop r 0 es ∅ ∅ []) as [built errs]; simpl in H1, H2.
  setoid_rewrite lookup_empty in H2. rewrite join_errors_ok. split.
  - intros [Herrs <-]. pose proof (proj1 H1 Herrs) as (_ & ? & ? & _). exists r. split_and!; try done.
    split; [|done]. intros k edge. simpl. rewrite (H2 Herrs). naive_solver.
  - intros (r' & [= <-] & Hv & Hnd & [Hd Ho]).
    assert (errs = []) as Herrs by (apply H1; split_and!; auto using Forall_not_seen_empty). split; [done|].
    assert (edges p = built) as <-.
    { apply map_eq. intros k. apply option_eq. intros edge. rewrite Hd, (H2 Herrs). naive_solver. }
    rewrite <-Ho. by destruct p.
Qed.

(** ** Reading a policy *)

Lemma Lookup_Some es reg p caller procedure edge :
  Build es reg = Ok p →
  Lookup p caller procedure = Some edge ↔
  edge ∈ es ∧ Caller edge = caller ∧ Procedure edge = procedure.
Proof.
  intros (r & _ & _ & _ & Hd & _)%policy_Build_ok. unfold Lookup.
  assert (edges p !! {| key_caller := caller; key_procedure := procedure |} = Some edge ↔
    edge ∈ es ∧ Caller edge = caller ∧ Procedure edge = procedure) as <-.
  { rewrite Hd. unfold keyOf. split; [intros [? [= <- <-]]|intros (? & <- & <-)]; done. }
  destruct (edges p !! _); [|done]. by rewrite cloneEdge_eq.
Qed.

Lemma elem_of_order p k :
  order p = merge_sort key_le (map_to_list (edges p)).*1 →
  k ∈ order p ↔ is_Some (edges p !! k).
Proof.
  intros ->. rewrite merge_sort_Permutation, list_elem_of_fmap. split.
  - intros ([k' v] & -> & H%elem_of_map_to_list). by exists v.
  - intros [v H]. exists (k, v). split; [done|]. by apply elem_of_map_to_list.
Qed.

Lemma edgeAt_Some p k edge : edges p !! k = Some edge → edgeAt p k = edge.
Proof. unfold edgeAt. by intros ->. Qed.

(** [Edges] lists the declared edges, sorted by caller and procedure. *)
Lemma Edges_sorted es reg p :
  Build es reg = Ok p →
  keyOf <$> Edges p = order p ∧ Edges p ≡ₚ es ∧ StronglySorted key_le (keyOf <$> Edges p).
Proof.
  intros (r & _ & _ & Hnd & Hd & Ho)%policy_Build_ok.
  assert (∀ k, k ∈ order p → keyOf (edgeAt p k) = k ∧ edges p !! k = Some (edgeAt p k)) as Hat.
  { intros k [edge Hk]%(elem_of_order _ _ Ho). rewrite (edgeAt_Some _ _ _ Hk).
    by apply Hd in Hk as Hk'; destruct Hk' as [_ ?]. }
  assert (keyOf <$> Edges p = order p) as Hkeys.
  { unfold Edges. rewrite <-list_fmap_compose. rewrite <-(list_fmap_id (order p)) at 2.
    apply list_fmap_ext. intros i k Hk%list_elem_of_lookup_2. simpl.
    rewrite cloneEdge_eq. by apply Hat. }
  split_and!; [done| |].
  - apply NoDup_Permutation.
    + apply (NoDup_fmap_1 keyOf). rewrite Hkeys, Ho, merge_sort_Permutation.
      apply NoDup_fst_map_to_list.
    + by apply (NoDup_fmap_1 keyOf).
    + intros edge. unfold Edges. rewrite list_elem_of_fmap. split.
      * intros (k & -> & [_ Hk]%Hat). rewrite cloneEdge_eq. by apply Hd in Hk as [??].
      * intros Hin. exists (keyOf edge). rewrite cloneEdge_eq.
        assert (edges p !! keyOf edge = Some edge) as Hk by by apply Hd.
        rewrite (edgeAt_Some _ _ _ Hk). split; [done|].
        rewrite (elem_of_order _ _ Ho). by eexists.
  - rewrite Hkeys, Ho. apply (StronglySorted_merge_sort _).
Qed.

(** ** The snapshot determines the policy *)

Record printable (edge : Edge) : Prop := {
  printable_Caller :
    has_byte "009" (Caller edge) = false ∧ has_byte "010" (Caller edge) = false;
  printable_Procedure :
    has_byte "009" (Procedure edge) = false ∧ has_byte "010" (Procedure edge) = false;
  printable_uses : Registry.printable_list (UserOriginTokenUses edge);
}.

(** The columns of a snapshot line. *)
Definition snapshotColumns (edge : Edge) : list string :=
  [Caller edge;
   Procedure edge;
   "user_origin=" +:+ formatList (UserOriginTokenUses edge);
   "machine_chain=" +:+ format_bool (MachineChain edge);
   "new_machine_origin=" +:+ format_bool (NewMachineOrigin edge)].

Lemma formatList_eq : formatList = Registry.formatList.
Proof. reflexivity. Qed.

Lemma edgeColumns_no_byte a edge :
  a ∈ ["009"; "010"]%char → printable edge →
  Forall (λ w, has_byte a w = false) (snapshotColumns edge).
Proof.
  intros Ha [Hc Hp [_ Hu]].
  assert (has_byte a (formatList (UserOriginTokenUses edge)) = false) as Hl.
  { rewrite formatList_eq. apply Registry.has_byte_formatList.
    - apply elem_of_cons in Ha as [->|[->|[]%not_elem_of_nil]%elem_of_cons]; set_solver.
    - eapply Forall_impl; [done|].
      apply elem_of_cons in Ha as [->|[->|[]%not_elem_of_nil]%elem_of_cons]; naive_solver. }
  pose proof (λ b, has_byte_format_bool a b Ha) as Hb.
  unfold snapshotColumns. repeat constructor; rewrite ?has_byte_app, ?Hl, ?Hb, ?orb_false_r;
    apply elem_of_cons in Ha as [->|[->|[]%not_elem_of_nil]%elem_of_cons]; naive_solver.
Qed.

Lemma edgeColumns_inj e e' :
  printable e → printable e' → snapshotColumns e = snapshotColumns e' → e = e'.
Proof.
  intros [] [] Hcols. unfold snapshotColumns in Hcols.
  injection Hcols as Hc Hp Hu Hm Hn. destruct e, e'; simpl in *. f_equal.
  all: first [done | by apply format_bool_inj | by apply Registry.formatList_inj].
Qed.

Lemma policy_Snapshot_table p : Snapshot p = render_table (snapshotColumns <$> Edges p).
Proof.
  unfold Snapshot, render_table, Edges. rewrite <-!list_fmap_compose.
  erewrite (list_fmap_ext _ ((λ row, Join row tab) ∘ snapshotColumns ∘ _)); done.
Qed.

Lemma policy_Snapshot_inj p p' :
  Forall printable (Edges p) → Forall printable (Edges p') →
  Snapshot p = Snapshot p' → Edges p = Edges p'.
Proof.
  rewrite !policy_Snapshot_table. intros Hl Hl' Heq.
  apply (map_inj_Forall printable snapshotColumns); [by apply edgeColumns_inj|done..|].
  apply render_table_inj; [..|done]; rewrite Forall_fmap; (eapply Forall_impl; [done|]);
    intros e He; (split; [done|split; apply edgeColumns_no_byte]); first [done|set_solver].
Qed.

(** ** Properties *)

Lemma policy_Build_complete es reg :
  Forall (valid_edge reg) es → NoDup (keyOf <$> es) → is_ok (Build es (Some reg)) = true.
Proof.
  intros Hv Hnd. unfold Build. destruct (edgeLoop_ok reg 0 es ∅ ∅ []) as [H _].
  destruct (buildLoop reg 0 es ∅ ∅ []) as [built errs]; simpl in H.
  assert (errs = []) as ->; [|done]. apply H. split_and!; try done. apply Forall_not_seen_empty.
Qed.

(** C32. [Build] returns a policy exactly for edges that are each valid against
    the registry (known caller and procedure, a procedure that takes services,
    no self call, known token uses once each, some accepted origin) and pairwise
    distinct, and the policy holds exactly these edges; a missing registry and
    every other list are refused. *)
Theorem policy_build_spec es reg :
  (∀ p, Build es reg = Ok p ↔
     ∃ r, reg = Some r ∧ Forall (valid_edge r) es ∧ NoDup (keyOf <$> es) ∧ denotes es p) ∧
  ((∃ r, reg = Some r ∧ Forall (valid_edge r) es ∧ NoDup (keyOf <$> es)) ↔
     ∃ p, Build es reg = Ok p).
Proof.
  split; [apply policy_Build_ok|]. split.
  - intros (r & -> & Hv & Hnd). pose proof (policy_Build_complete _ _ Hv Hnd) as H.
    destruct (Build es (Some r)) as [p|]; [by exists p|done].
  - intros [p (r & ? & ? & ? & _)%policy_Build_ok]. eauto.
Qed.

(** What a built policy answers: [Lookup] finds exactly the declared edge of
    a caller and a procedure, and [Edges] lists the declared edges once each,
    sorted by caller and then procedure. *)
Theorem policy_reads_edges es reg p :
  Build es reg = Ok p →
  (∀ caller procedure edge, Lookup p caller procedure = Some edge ↔
     edge ∈ es ∧ Caller edge = caller ∧ Procedure edge = procedure) ∧
  Edges p ≡ₚ es ∧ StronglySorted key_le (keyOf <$> Edges p).
Proof.
  intros Hb. split; [intros; by eapply Lookup_Some|].
  by apply Edges_sorted in Hb as (_ & ? & ?).
Qed.

Definition example_edges : list Edge :=
  [{| Caller := "svc-c"; Procedure := "/a.S/Read";
      UserOriginTokenUses := [Registry.TokenUseTenantAccess]; MachineChain := true;
      NewMachineOrigin := false |};
   {| Caller := "svc-b"; Procedure := "/a.S/Sync"; UserOriginTokenUses := [];
      MachineChain := false; NewMachineOrigin := true |}].

Definition example_policy : Policy :=
  match Build example_edges (Some Registry.example_registry) with
  | Ok p => p
  | Err _ => {| edges := ∅; order := [] |}
  end.

Lemma policy_reads_edges_witness :
  Caller <$> Edges example_policy = ["svc-b"; "svc-c"] ∧ Edges example_policy ≡ₚ example_edges.
Proof.
  split; [vm_compute; reflexivity|].
  apply (policy_reads_edges example_edges (Some Registry.example_registry) example_policy).
  vm_compute; reflexivity.
Defined.
