(* ===== verification/Catalog.v ===== *)
(** * The service catalog ([internal/catalog/catalog.go])

    The bindings, introspection overrides and service-to-service edges the
    gateway is built with, and the two golden snapshots committed next to them
    ([testdata/registry.golden], [testdata/edges.golden]).  The policies come
    from the generated code of the bound services: those of the greet service
    are under [gen/], the others are a parameter.  The imported service and
    procedure names have the values the golden snapshots print. *)

From S2P Require Import Prelude GoStd GoErrors Registry.
From S2P Require EdgePolicy.

(** ** Imported names *)

Definition GreetServiceName : string := "greet.v1.GreetService".
Definition TenantServiceName : string := "tolo.tenant.v1.TenantService".
Definition RelationAdminServiceName : string := "tolo.relation.v1.RelationAdminService".
Definition GraphAuthoringServiceName : string := "tolo.graph.v1.GraphAuthoringService".
Definition GraphSupplyServiceName : string := "tolo.graph.v1.GraphSupplyService".
Definition MeasurementIngestServiceName : string := "tolo.observation.v1.MeasurementIngestService".
Definition EdgeDeviceServiceName : string := "tolo.observation.v1.EdgeDeviceService".
Definition ObservationSettingsServiceName : string := "tolo.observation.v1.ObservationSettingsService".
Definition StatusQueryServiceName : string := "tolo.observation.v1.StatusQueryService".
Definition StaffCommunicationServiceName : string := "tolo.operation.v1.StaffCommunicationService".
Definition OperationControlServiceName : string := "tolo.operation.v1.OperationControlService".
Definition DeliveryCoordinationServiceName : string := "tolo.operation.v1.DeliveryCoordinationService".
Definition DigestServiceName : string := "tolo.operation.v1.DigestService".
Definition GuestPageServiceName : string := "tolo.guest.v1.GuestPageService".
Definition GuestSettingsServiceName : string := "tolo.guest.v1.GuestSettingsService".
Definition RealtimeFetchServiceName : string := "tolo.realtime.v1.RealtimeFetchService".

Definition TenantServiceArchiveTenantProcedure : string :=
  procedureOf TenantServiceName "ArchiveTenant".
Definition TenantServiceChangeTenantContractProcedure : string :=
  procedureOf TenantServiceName "ChangeTenantContract".
Definition RelationAdminServiceCreateTenantInvitationProcedure : string :=
  procedureOf RelationAdminServiceName "CreateTenantInvitation".
Definition RelationAdminServiceChangeTenantRoleProcedure : string :=
  procedureOf RelationAdminServiceName "ChangeTenantRole".
Definition RelationAdminServiceGrantEventRoleProcedure : string :=
  procedureOf RelationAdminServiceName "GrantEventRole".
Definition RelationAdminServiceRevokeRoleProcedure : string :=
  procedureOf RelationAdminServiceName "RevokeRole".
Definition TenantServiceGetEventProcedure : string :=
  procedureOf TenantServiceName "GetEvent".
Definition GraphSupplyServiceGetCurrentRevisionProcedure : string :=
  procedureOf GraphSupplyServiceName "GetCurrentRevision".
Definition GraphSupplyServiceGetObservationPointMappingsProcedure : string :=
  procedureOf GraphSupplyServiceName "GetObservationPointMappings".
Definition GraphSupplyServiceGetQrLocationsProcedure : string :=
  procedureOf GraphSupplyServiceName "GetQrLocations".
Definition DeliveryCoordinationServiceRequestProposalDeliveryProcedure : string :=
  procedureOf DeliveryCoordinationServiceName "RequestProposalDelivery".
Definition DeliveryCoordinationServiceRecordFeedbackValuesProcedure : string :=
  procedureOf DeliveryCoordinationServiceName "RecordFeedbackValues".
Definition StaffCommunicationServiceListStaffMessagesProcedure : string :=
  procedureOf StaffCommunicationServiceName "ListStaffMessages".
Definition GraphSupplyServiceGetDisplayNamesProcedure : string :=
  procedureOf GraphSupplyServiceName "GetDisplayNames".
Definition GraphSupplyServiceGetGuideMapLayoutProcedure : string :=
  procedureOf GraphSupplyServiceName "GetGuideMapLayout".
Definition StatusQueryServiceGetGuestSnapshotProcedure : string :=
  procedureOf StatusQueryServiceName "GetGuestSnapshot".
Definition MeasurementIngestServiceReportMeasurementsProcedure : string :=
  procedureOf MeasurementIngestServiceName "ReportMeasurements".

Definition GreetServiceGreetProcedure : string := "/greet.v1.GreetService/Greet".
Definition GreetServicePingProcedure : string := "/greet.v1.GreetService/Ping".

(** [gen/greet/v1/greetv1connect/greet.authz.connect.go] *)
Definition GreetServicePolicies : gmap string Policy :=
  {[ GreetServiceGreetProcedure :=
       {| policy_Level := LevelAuthenticated; policy_RequiredScopes := ["greeting.read"];
          policy_TokenUses := ["tenant_access"] |};
     GreetServicePingProcedure :=
       {| policy_Level := LevelPublic; policy_RequiredScopes := []; policy_TokenUses := [] |} ]}.

(** ** The catalog *)

Definition testBackendDestination : string := "tolo-testbackend".
Definition tenantManagementDestination : string := "tolo-tenant-management".
Definition graphAuthoringDestination : string := "tolo-graph-authoring".
Definition observationDestination : string := "tolo-observation".
Definition operationDestination : string := "tolo-operation".
Definition guestDestination : string := "tolo-guest".
Definition realtimeDestination : string := "tolo-realtime".

Definition graphAuthoringCaller : string := graphAuthoringDestination.
Definition observationCaller : string := observationDestination.
Definition guestCaller : string := guestDestination.

(** [policiesOf service] is the [<service>Policies] variable of the generated
    code of an external service. *)
Definition Bindings (policiesOf : string → gmap string Policy) : list Binding :=
  [ {| Service := GreetServiceName; Destination := testBackendDestination;
      Policies := GreetServicePolicies |}
  ; {| Service := TenantServiceName; Destination := tenantManagementDestination;
      Policies := policiesOf TenantServiceName |}
  ; {| Service := RelationAdminServiceName; Destination := tenantManagementDestination;
      Policies := policiesOf RelationAdminServiceName |}
  ; {| Service := GraphAuthoringServiceName; Destination := graphAuthoringDestination;
      Policies := policiesOf GraphAuthoringServiceName |}
  ; {| Service := GraphSupplyServiceName; Destination := graphAuthoringDestination;
      Policies := policiesOf GraphSupplyServiceName |}
  ; {| Service := MeasurementIngestServiceName; Destination := observationDestination;
      Policies := policiesOf MeasurementIngestServiceName |}
  ; {| Service := EdgeDeviceServiceName; Destination := observationDestination;
      Policies := policiesOf EdgeDeviceServiceName |}
  ; {| Service := ObservationSettingsServiceName; Destination := observationDestination;
      Policies := policiesOf ObservationSettingsServiceName |}
  ; {| Service := StatusQueryServiceName; Destination := observationDestination;
      Policies := policiesOf StatusQueryServiceName |}
  ; {| Service := StaffCommunicationServiceName; Destination := operationDestination;
      Policies := policiesOf StaffCommunicationServiceName |}
  ; {| Service := OperationControlServiceName; Destination := operationDestination;
      Policies := policiesOf OperationControlServiceName |}
  ; {| Service := DeliveryCoordinationServiceName; Destination := operationDestination;
      Policies := policiesOf DeliveryCoordinationServiceName |}
  ; {| Service := DigestServiceName; Destination := operationDestination;
      Policies := policiesOf DigestServiceName |}
  ; {| Service := GuestPageServiceName; Destination := guestDestination;
      Policies := policiesOf GuestPageServiceName |}
  ; {| Service := GuestSettingsServiceName; Destination := guestDestination;
      Policies := policiesOf GuestSettingsServiceName |}
  ; {| Service := RealtimeFetchServiceName; Destination := realtimeDestination;
      Policies := policiesOf RealtimeFetchServiceName |} ].

Definition Overrides : Registry.Overrides :=
  {| Introspection :=
  [ TenantServiceArchiveTenantProcedure
  ; TenantServiceChangeTenantContractProcedure
  ; RelationAdminServiceCreateTenantInvitationProcedure
  ; RelationAdminServiceChangeTenantRoleProcedure
  ; RelationAdminServiceGrantEventRoleProcedure
  ; RelationAdminServiceRevokeRoleProcedure ] |}.

Definition edge (caller procedure : string) (userOriginTokenUses : list string)
    (machineChain newMachineOrigin : bool) : EdgePolicy.Edge :=
  {| EdgePolicy.Caller := caller; EdgePolicy.Procedure := procedure;
     EdgePolicy.UserOriginTokenUses := userOriginTokenUses;
     EdgePolicy.MachineChain := machineChain;
     EdgePolicy.NewMachineOrigin := newMachineOrigin |}.

Definition Edges : list EdgePolicy.Edge :=
  [ edge graphAuthoringCaller TenantServiceGetEventProcedure
     [TokenUseEventAccess] false false
  ; edge observationCaller GraphSupplyServiceGetCurrentRevisionProcedure
     [TokenUseEventAccess] true false
  ; edge observationCaller GraphSupplyServiceGetObservationPointMappingsProcedure
     [TokenUseEventAccess] true false
  ; edge observationCaller GraphSupplyServiceGetQrLocationsProcedure
     [TokenUseEventAccess] true false
  ; edge observationCaller DeliveryCoordinationServiceRequestProposalDeliveryProcedure
     [TokenUseEventAccess] true false
  ; edge observationCaller DeliveryCoordinationServiceRecordFeedbackValuesProcedure
     [TokenUseEventAccess] true false
  ; edge guestCaller StaffCommunicationServiceListStaffMessagesProcedure
     [] false true
  ; edge guestCaller GraphSupplyServiceGetDisplayNamesProcedure
     [] false true
  ; edge guestCaller GraphSupplyServiceGetQrLocationsProcedure
     [] false true
  ; edge guestCaller GraphSupplyServiceGetGuideMapLayoutProcedure
     [] false true
  ; edge guestCaller StatusQueryServiceGetGuestSnapshotProcedure
     [] false true
  ; edge guestCaller MeasurementIngestServiceReportMeasurementsProcedure
     [] false true ].

(** ** The golden snapshots *)

Definition registry_golden : string := "/greet.v1.GreetService/Greet	destination=tolo-testbackend	anonymous=false	external=tenant_access	service=false	scopes=greeting.read	introspection=false
/greet.v1.GreetService/Ping	destination=tolo-testbackend	anonymous=true	external=-	service=false	scopes=-	introspection=false
/tolo.graph.v1.GraphAuthoringService/AddQrLocation	destination=tolo-graph-authoring	anonymous=false	external=event_access	service=false	scopes=events.manage	introspection=false
/tolo.graph.v1.GraphAuthoringService/GetGraph	destination=tolo-graph-authoring	anonymous=false	external=event_access	service=false	scopes=events.read	introspection=false
/tolo.graph.v1.GraphAuthoringService/MapObservationPoint	destination=tolo-graph-authoring	anonymous=false	external=event_access	service=false	scopes=events.manage	introspection=false
/tolo.graph.v1.GraphAuthoringService/PublishRevision	destination=tolo-graph-authoring	anonymous=false	external=event_access	service=false	scopes=events.manage	introspection=false
/tolo.graph.v1.GraphAuthoringService/RemoveQrLocation	destination=tolo-graph-authoring	anonymous=false	external=event_access	service=false	scopes=events.manage	introspection=false
/tolo.graph.v1.GraphAuthoringService/SaveGraph	destination=tolo-graph-authoring	anonymous=false	external=event_access	service=false	scopes=events.manage	introspection=false
/tolo.graph.v1.GraphAuthoringService/SaveGuideMapLayout	destination=tolo-graph-authoring	anonymous=false	external=event_access	service=false	scopes=events.manage	introspection=false
/tolo.graph.v1.GraphAuthoringService/UpdateQrLocation	destination=tolo-graph-authoring	anonymous=false	external=event_access	service=false	scopes=events.manage	introspection=false
/tolo.graph.v1.GraphSupplyService/GetCurrentRevision	destination=tolo-graph-authoring	anonymous=false	external=-	service=true	scopes=-	introspection=false
/tolo.graph.v1.GraphSupplyService/GetDisplayNames	destination=tolo-graph-authoring	anonymous=false	external=-	service=true	scopes=-	introspection=false
/tolo.graph.v1.GraphSupplyService/GetGatePoints	destination=tolo-graph-authoring	anonymous=false	external=-	service=true	scopes=-	introspection=false
/tolo.graph.v1.GraphSupplyService/GetGuideMapLayout	destination=tolo-graph-authoring	anonymous=false	external=-	service=true	scopes=-	introspection=false
/tolo.graph.v1.GraphSupplyService/GetObservationPointMappings	destination=tolo-graph-authoring	anonymous=false	external=-	service=true	scopes=-	introspection=false
/tolo.graph.v1.GraphSupplyService/GetQrLocations	destination=tolo-graph-authoring	anonymous=false	external=-	service=true	scopes=-	introspection=false
/tolo.guest.v1.GuestPageService/GetCrowd	destination=tolo-guest	anonymous=true	external=-	service=false	scopes=-	introspection=false
/tolo.guest.v1.GuestPageService/GetGuideMap	destination=tolo-guest	anonymous=true	external=-	service=false	scopes=-	introspection=false
/tolo.guest.v1.GuestPageService/GetQueues	destination=tolo-guest	anonymous=true	external=-	service=false	scopes=-	introspection=false
/tolo.guest.v1.GuestPageService/ListGuestMessages	destination=tolo-guest	anonymous=true	external=-	service=false	scopes=-	introspection=false
/tolo.guest.v1.GuestPageService/OpenGuestPage	destination=tolo-guest	anonymous=true	external=-	service=false	scopes=-	introspection=false
/tolo.guest.v1.GuestSettingsService/GetGuestSettings	destination=tolo-guest	anonymous=false	external=event_access	service=false	scopes=events.read	introspection=false
/tolo.guest.v1.GuestSettingsService/ListIssuedUrls	destination=tolo-guest	anonymous=false	external=event_access	service=false	scopes=events.read	introspection=false
/tolo.guest.v1.GuestSettingsService/UpdateGuestSettings	destination=tolo-guest	anonymous=false	external=event_access	service=false	scopes=events.manage	introspection=false
/tolo.observation.v1.EdgeDeviceService/Heartbeat	destination=tolo-observation	anonymous=false	external=event_access	service=false	scopes=events.report	introspection=false
/tolo.observation.v1.EdgeDeviceService/ListEdgeDeviceObservationPoints	destination=tolo-observation	anonymous=false	external=event_access	service=false	scopes=events.report	introspection=false
/tolo.observation.v1.EdgeDeviceService/ListEdgeDevices	destination=tolo-observation	anonymous=false	external=event_access	service=false	scopes=events.read	introspection=false
/tolo.observation.v1.EdgeDeviceService/RegisterEdgeDevice	destination=tolo-observation	anonymous=false	external=event_access	service=false	scopes=events.manage	introspection=false
/tolo.observation.v1.EdgeDeviceService/UnregisterEdgeDevice	destination=tolo-observation	anonymous=false	external=event_access	service=false	scopes=events.manage	introspection=false
/tolo.observation.v1.EdgeDeviceService/UpdateObservationPointConfig	destination=tolo-observation	anonymous=false	external=event_access	service=false	scopes=events.operate	introspection=false
/tolo.observation.v1.MeasurementIngestService/ReportMeasurements	destination=tolo-observation	anonymous=false	external=event_access	service=true	scopes=events.report	introspection=false
/tolo.observation.v1.ObservationSettingsService/GetObservationSettings	destination=tolo-observation	anonymous=false	external=event_access	service=false	scopes=events.read	introspection=false
/tolo.observation.v1.ObservationSettingsService/UpdateObservationSettings	destination=tolo-observation	anonymous=false	external=event_access	service=false	scopes=events.manage	introspection=false
/tolo.observation.v1.StatusQueryService/GetEventOverview	destination=tolo-observation	anonymous=false	external=event_access	service=false	scopes=events.read	introspection=false
/tolo.observation.v1.StatusQueryService/GetGuestSnapshot	destination=tolo-observation	anonymous=false	external=-	service=true	scopes=-	introspection=false
/tolo.operation.v1.DeliveryCoordinationService/RecordFeedbackValues	destination=tolo-operation	anonymous=false	external=-	service=true	scopes=-	introspection=false
/tolo.operation.v1.DeliveryCoordinationService/RequestProposalDelivery	destination=tolo-operation	anonymous=false	external=-	service=true	scopes=-	introspection=false
/tolo.operation.v1.DeliveryCoordinationService/UpdateConnectionState	destination=tolo-operation	anonymous=false	external=event_access	service=false	scopes=events.read	introspection=false
/tolo.operation.v1.DigestService/GetHistoryDigest	destination=tolo-operation	anonymous=false	external=event_access	service=false	scopes=events.read	introspection=false
/tolo.operation.v1.OperationControlService/ApplyReassignment	destination=tolo-operation	anonymous=false	external=event_access	service=false	scopes=events.operate	introspection=false
/tolo.operation.v1.OperationControlService/DirectReassignment	destination=tolo-operation	anonymous=false	external=event_access	service=false	scopes=events.operate	introspection=false
/tolo.operation.v1.OperationControlService/ListReassignments	destination=tolo-operation	anonymous=false	external=event_access	service=false	scopes=events.read	introspection=false
/tolo.operation.v1.StaffCommunicationService/ListStaffMessages	destination=tolo-operation	anonymous=false	external=event_access	service=true	scopes=events.read	introspection=false
/tolo.operation.v1.StaffCommunicationService/RevokeStaffMessage	destination=tolo-operation	anonymous=false	external=event_access	service=false	scopes=events.operate	introspection=false
/tolo.operation.v1.StaffCommunicationService/SendStaffMessage	destination=tolo-operation	anonymous=false	external=event_access	service=false	scopes=events.operate	introspection=false
/tolo.operation.v1.StaffCommunicationService/ShareGuidanceInfo	destination=tolo-operation	anonymous=false	external=event_access	service=false	scopes=events.operate	introspection=false
/tolo.realtime.v1.RealtimeFetchService/FetchDeliveries	destination=tolo-realtime	anonymous=false	external=event_access	service=false	scopes=events.read	introspection=false
/tolo.realtime.v1.RealtimeFetchService/IssueFirestoreToken	destination=tolo-realtime	anonymous=false	external=event_access	service=false	scopes=events.read	introspection=false
/tolo.relation.v1.RelationAdminService/AcceptTenantInvitation	destination=tolo-tenant-management	anonymous=false	external=registration	service=false	scopes=tenant.join	introspection=false
/tolo.relation.v1.RelationAdminService/AddTenantMember	destination=tolo-tenant-management	anonymous=false	external=-	service=true	scopes=-	introspection=false
/tolo.relation.v1.RelationAdminService/ChangeTenantRole	destination=tolo-tenant-management	anonymous=false	external=tenant_access	service=false	scopes=tenant.write	introspection=true
/tolo.relation.v1.RelationAdminService/CreateTenantInvitation	destination=tolo-tenant-management	anonymous=false	external=tenant_access	service=false	scopes=tenant.write	introspection=true
/tolo.relation.v1.RelationAdminService/GrantEventRole	destination=tolo-tenant-management	anonymous=false	external=tenant_access	service=false	scopes=tenant.write	introspection=true
/tolo.relation.v1.RelationAdminService/ListMemberships	destination=tolo-tenant-management	anonymous=false	external=tenant_access	service=false	scopes=tenant.read	introspection=false
/tolo.relation.v1.RelationAdminService/ListTenantInvitations	destination=tolo-tenant-management	anonymous=false	external=tenant_access	service=false	scopes=tenant.write	introspection=false
/tolo.relation.v1.RelationAdminService/RevokeRole	destination=tolo-tenant-management	anonymous=false	external=tenant_access	service=false	scopes=tenant.write	introspection=true
/tolo.relation.v1.RelationAdminService/RevokeTenantInvitation	destination=tolo-tenant-management	anonymous=false	external=tenant_access	service=false	scopes=tenant.write	introspection=false
/tolo.tenant.v1.TenantService/ArchiveTenant	destination=tolo-tenant-management	anonymous=false	external=tenant_access	service=false	scopes=tenant.write	introspection=true
/tolo.tenant.v1.TenantService/ChangeTenantContract	destination=tolo-tenant-management	anonymous=false	external=tenant_access	service=false	scopes=tenant.write	introspection=true
/tolo.tenant.v1.TenantService/ClaimTenantOwnership	destination=tolo-tenant-management	anonymous=false	external=registration	service=false	scopes=tenant.join	introspection=false
/tolo.tenant.v1.TenantService/CreateEvent	destination=tolo-tenant-management	anonymous=false	external=tenant_access	service=false	scopes=events.manage	introspection=false
/tolo.tenant.v1.TenantService/GetEvent	destination=tolo-tenant-management	anonymous=false	external=-	service=true	scopes=-	introspection=false
/tolo.tenant.v1.TenantService/ListEvents	destination=tolo-tenant-management	anonymous=false	external=tenant_access	service=false	scopes=events.read	introspection=false
/tolo.tenant.v1.TenantService/ResolveTenantSubdomain	destination=tolo-tenant-management	anonymous=true	external=-	service=false	scopes=-	introspection=false
/tolo.tenant.v1.TenantService/StartTenantRegistration	destination=tolo-tenant-management	anonymous=true	external=-	service=false	scopes=-	introspection=false
/tolo.tenant.v1.TenantService/TransitionEventStatus	destination=tolo-tenant-management	anonymous=false	external=tenant_access	service=false	scopes=events.manage	introspection=false
".

Definition edges_golden : string := "tolo-graph-authoring	/tolo.tenant.v1.TenantService/GetEvent	user_origin=event_access	machine_chain=false	new_machine_origin=false
tolo-guest	/tolo.graph.v1.GraphSupplyService/GetDisplayNames	user_origin=-	machine_chain=false	new_machine_origin=true
tolo-guest	/tolo.graph.v1.GraphSupplyService/GetGuideMapLayout	user_origin=-	machine_chain=false	new_machine_origin=true
tolo-guest	/tolo.graph.v1.GraphSupplyService/GetQrLocations	user_origin=-	machine_chain=false	new_machine_origin=true
tolo-guest	/tolo.observation.v1.MeasurementIngestService/ReportMeasurements	user_origin=-	machine_chain=false	new_machine_origin=true
tolo-guest	/tolo.observation.v1.StatusQueryService/GetGuestSnapshot	user_origin=-	machine_chain=false	new_machine_origin=true
tolo-guest	/tolo.operation.v1.StaffCommunicationService/ListStaffMessages	user_origin=-	machine_chain=false	new_machine_origin=true
tolo-observation	/tolo.graph.v1.GraphSupplyService/GetCurrentRevision	user_origin=event_access	machine_chain=true	new_machine_origin=false
tolo-observation	/tolo.graph.v1.GraphSupplyService/GetObservationPointMappings	user_origin=event_access	machine_chain=true	new_machine_origin=false
tolo-observation	/tolo.graph.v1.GraphSupplyService/GetQrLocations	user_origin=event_access	machine_chain=true	new_machine_origin=false
tolo-observation	/tolo.operation.v1.DeliveryCoordinationService/RecordFeedbackValues	user_origin=event_access	machine_chain=true	new_machine_origin=false
tolo-observation	/tolo.operation.v1.DeliveryCoordinationService/RequestProposalDelivery	user_origin=event_access	machine_chain=true	new_machine_origin=false
".

Definition golden (procedure destination : string) (anonymous : bool)
    (external : list string) (service : bool) (scopes : list string)
    (introspection : bool) : Entry :=
  {| entry_Procedure := procedure; entry_Destination := destination;
     entry_Anonymous := anonymous; entry_ExternalTokenUses := external;
     entry_Service := service; entry_RequiredScopes := scopes;
     entry_Introspection := introspection |}.

(** The entries the golden snapshot prints. *)
Definition golden_entries : list Entry :=
  [ golden "/greet.v1.GreetService/Greet" "tolo-testbackend" false
     ["tenant_access"] false ["greeting.read"] false
  ; golden "/greet.v1.GreetService/Ping" "tolo-testbackend" true
     [] false [] false
  ; golden "/tolo.graph.v1.GraphAuthoringService/AddQrLocation" "tolo-graph-authoring" false
     ["event_access"] false ["events.manage"] false
  ; golden "/tolo.graph.v1.GraphAuthoringService/GetGraph" "tolo-graph-authoring" false
     ["event_access"] false ["events.read"] false
  ; golden "/tolo.graph.v1.GraphAuthoringService/MapObservationPoint" "tolo-graph-authoring" false
     ["event_access"] false ["events.manage"] false
  ; golden "/tolo.graph.v1.GraphAuthoringService/PublishRevision" "tolo-graph-authoring" false
     ["event_access"] false ["events.manage"] false
  ; golden "/tolo.graph.v1.GraphAuthoringService/RemoveQrLocation" "tolo-graph-authoring" false
     ["event_access"] false ["events.manage"] false
  ; golden "/tolo.graph.v1.GraphAuthoringService/SaveGraph" "tolo-graph-authoring" false
     ["event_access"] false ["events.manage"] false
  ; golden "/tolo.graph.v1.GraphAuthoringService/SaveGuideMapLayout" "tolo-graph-authoring" false
     ["event_access"] false ["events.manage"] false
  ; golden "/tolo.graph.v1.GraphAuthoringService/UpdateQrLocation" "tolo-graph-authoring" false
     ["event_access"] false ["events.manage"] false
  ; golden "/tolo.graph.v1.GraphSupplyService/GetCurrentRevision" "tolo-graph-authoring" false
     [] true [] false
  ; golden "/tolo.graph.v1.GraphSupplyService/GetDisplayNames" "tolo-graph-authoring" false
     [] true [] false
  ; golden "/tolo.graph.v1.GraphSupplyService/GetGatePoints" "tolo-graph-authoring" false
     [] true [] false
  ; golden "/tolo.graph.v1.GraphSupplyService/GetGuideMapLayout" "tolo-graph-authoring" false
     [] true [] false
  ; golden "/tolo.graph.v1.GraphSupplyService/GetObservationPointMappings" "tolo-graph-authoring" false
     [] true [] false
  ; golden "/tolo.graph.v1.GraphSupplyService/GetQrLocations" "tolo-graph-authoring" false
     [] true [] false
  ; golden "/tolo.guest.v1.GuestPageService/GetCrowd" "tolo-guest" true
     [] false [] false
  ; golden "/tolo.guest.v1.GuestPageService/GetGuideMap" "tolo-guest" true
     [] false [] false
  ; golden "/tolo.guest.v1.GuestPageService/GetQueues" "tolo-guest" true
     [] false [] false
  ; golden "/tolo.guest.v1.GuestPageService/ListGuestMessages" "tolo-guest" true
     [] false [] false
  ; golden "/tolo.guest.v1.GuestPageService/OpenGuestPage" "tolo-guest" true
     [] false [] false
  ; golden "/tolo.guest.v1.GuestSettingsService/GetGuestSettings" "tolo-guest" false
     ["event_access"] false ["events.read"] false
  ; golden "/tolo.guest.v1.GuestSettingsService/ListIssuedUrls" "tolo-guest" false
     ["event_access"] false ["events.read"] false
  ; golden "/tolo.guest.v1.GuestSettingsService/UpdateGuestSettings" "tolo-guest" false
     ["event_access"] false ["events.manage"] false
  ; golden "/tolo.observation.v1.EdgeDeviceService/Heartbeat" "tolo-observation" false
     ["event_access"] false ["events.report"] false
  ; golden "/tolo.observation.v1.EdgeDeviceService/ListEdgeDeviceObservationPoints" "tolo-observation" false
     ["event_access"] false ["events.report"] false
  ; golden "/tolo.observation.v1.EdgeDeviceService/ListEdgeDevices" "tolo-observation" false
     ["event_access"] false ["events.read"] false
  ; golden "/tolo.observation.v1.EdgeDeviceService/RegisterEdgeDevice" "tolo-observation" false
     ["event_access"] false ["events.manage"] false
  ; golden "/tolo.observation.v1.EdgeDeviceService/UnregisterEdgeDevice" "tolo-observation" false
     ["event_access"] false ["events.manage"] false
  ; golden "/tolo.observation.v1.EdgeDeviceService/UpdateObservationPointConfig" "tolo-observation" false
     ["event_access"] false ["events.operate"] false
  ; golden "/tolo.observation.v1.MeasurementIngestService/ReportMeasurements" "tolo-observation" false
     ["event_access"] true ["events.report"] false
  ; golden "/tolo.observation.v1.ObservationSettingsService/GetObservationSettings" "tolo-observation" false
     ["event_access"] false ["events.read"] false
  ; golden "/tolo.observation.v1.ObservationSettingsService/UpdateObservationSettings" "tolo-observation" false
     ["event_access"] false ["events.manage"] false
  ; golden "/tolo.observation.v1.StatusQueryService/GetEventOverview" "tolo-observation" false
     ["event_access"] false ["events.read"] false
  ; golden "/tolo.observation.v1.StatusQueryService/GetGuestSnapshot" "tolo-observation" false
     [] true [] false
  ; golden "/tolo.operation.v1.DeliveryCoordinationService/RecordFeedbackValues" "tolo-operation" false
     [] true [] false
  ; golden "/tolo.operation.v1.DeliveryCoordinationService/RequestProposalDelivery" "tolo-operation" false
     [] true [] false
  ; golden "/tolo.operation.v1.DeliveryCoordinationService/UpdateConnectionState" "tolo-operation" false
     ["event_access"] false ["events.read"] false
  ; golden "/tolo.operation.v1.DigestService/GetHistoryDigest" "tolo-operation" false
     ["event_access"] false ["events.read"] false
  ; golden "/tolo.operation.v1.OperationControlService/ApplyReassignment" "tolo-operation" false
     ["event_access"] false ["events.operate"] false
  ; golden "/tolo.operation.v1.OperationControlService/DirectReassignment" "tolo-operation" false
     ["event_access"] false ["events.operate"] false
  ; golden "/tolo.operation.v1.OperationControlService/ListReassignments" "tolo-operation" false
     ["event_access"] false ["events.read"] false
  ; golden "/tolo.operation.v1.StaffCommunicationService/ListStaffMessages" "tolo-operation" false
     ["event_access"] true ["events.read"] false
  ; golden "/tolo.operation.v1.StaffCommunicationService/RevokeStaffMessage" "tolo-operation" false
     ["event_access"] false ["events.operate"] false
  ; golden "/tolo.operation.v1.StaffCommunicationService/SendStaffMessage" "tolo-operation" false
     ["event_access"] false ["events.operate"] false
  ; golden "/tolo.operation.v1.StaffCommunicationService/ShareGuidanceInfo" "tolo-operation" false
     ["event_access"] false ["events.operate"] false
  ; golden "/tolo.realtime.v1.RealtimeFetchService/FetchDeliveries" "tolo-realtime" false
     ["event_access"] false ["events.read"] false
  ; golden "/tolo.realtime.v1.RealtimeFetchService/IssueFirestoreToken" "tolo-realtime" false
     ["event_access"] false ["events.read"] false
  ; golden "/tolo.relation.v1.RelationAdminService/AcceptTenantInvitation" "tolo-tenant-management" false
     ["registration"] false ["tenant.join"] false
  ; golden "/tolo.relation.v1.RelationAdminService/AddTenantMember" "tolo-tenant-management" false
     [] true [] false
  ; golden "/tolo.relation.v1.RelationAdminService/ChangeTenantRole" "tolo-tenant-management" false
     ["tenant_access"] false ["tenant.write"] true
  ; golden "/tolo.relation.v1.RelationAdminService/CreateTenantInvitation" "tolo-tenant-management" false
     ["tenant_access"] false ["tenant.write"] true
  ; golden "/tolo.relation.v1.RelationAdminService/GrantEventRole" "tolo-tenant-management" false
     ["tenant_access"] false ["tenant.write"] true
  ; golden "/tolo.relation.v1.RelationAdminService/ListMemberships" "tolo-tenant-management" false
     ["tenant_access"] false ["tenant.read"] false
  ; golden "/tolo.relation.v1.RelationAdminService/ListTenantInvitations" "tolo-tenant-management" false
     ["tenant_access"] false ["tenant.write"] false
  ; golden "/tolo.relation.v1.RelationAdminService/RevokeRole" "tolo-tenant-management" false
     ["tenant_access"] false ["tenant.write"] true
  ; golden "/tolo.relation.v1.RelationAdminService/RevokeTenantInvitation" "tolo-tenant-management" false
     ["tenant_access"] false ["tenant.write"] false
  ; golden "/tolo.tenant.v1.TenantService/ArchiveTenant" "tolo-tenant-management" false
     ["tenant_access"] false ["tenant.write"] true
  ; golden "/tolo.tenant.v1.TenantService/ChangeTenantContract" "tolo-tenant-management" false
     ["tenant_access"] false ["tenant.write"] true
  ; golden "/tolo.tenant.v1.TenantService/ClaimTenantOwnership" "tolo-tenant-management" false
     ["registration"] false ["tenant.join"] false
  ; golden "/tolo.tenant.v1.TenantService/CreateEvent" "tolo-tenant-management" false
     ["tenant_access"] false ["events.manage"] false
  ; golden "/tolo.tenant.v1.TenantService/GetEvent" "tolo-tenant-management" false
     [] true [] false
  ; golden "/tolo.tenant.v1.TenantService/ListEvents" "tolo-tenant-management" false
     ["tenant_access"] false ["events.read"] false
  ; golden "/tolo.tenant.v1.TenantService/ResolveTenantSubdomain" "tolo-tenant-management" true
     [] false [] false
  ; golden "/tolo.tenant.v1.TenantService/StartTenantRegistration" "tolo-tenant-management" true
     [] false [] false
  ; golden "/tolo.tenant.v1.TenantService/TransitionEventStatus" "tolo-tenant-management" false
     ["tenant_access"] false ["events.manage"] false ].

Definition golden_registry : Registry :=
  let es := list_to_map ((λ e, (entry_Procedure e, e)) <$> golden_entries) in
  {| entries := es; order := sorted_keys es |}.

(** ** Correctness *)

(** A boolean form of [printable], to check the golden entries by computation. *)
Definition printable_listb (l : list string) : bool :=
  negb (bool_decide (l = [emptyListMark])) &&
  forallb (λ w, negb (has_byte "," w) && negb (has_byte "009" w) && negb (has_byte "010" w)) l.

Definition printableb (e : Entry) : bool :=
  negb (has_byte "009" (entry_Procedure e)) && negb (has_byte "010" (entry_Procedure e)) &&
  negb (has_byte "009" (entry_Destination e)) && negb (has_byte "010" (entry_Destination e)) &&
  printable_listb (entry_ExternalTokenUses e) && printable_listb (entry_RequiredScopes e).

Lemma printable_listb_true l : printable_listb l = true → printable_list l.
Proof.
  unfold printable_listb. intros [Hne%negb_true_iff Hl]%andb_prop. split.
  - by apply bool_decide_eq_false in Hne.
  - apply Forall_forall. intros w Hw. rewrite forallb_forall in Hl.
    specialize (Hl w (proj1 (list_elem_of_In _ _) Hw)).
    rewrite !andb_true_iff, !negb_true_iff in Hl. tauto.
Qed.

Lemma printableb_true e : printableb e = true → printable e.
Proof.
  unfold printableb. rewrite !andb_true_iff, !negb_true_iff.
  intros (((((? & ?) & ?) & ?) & ?) & ?). split; auto using printable_listb_true.
Qed.

Lemma golden_registry_wf : registry_wf golden_registry.
Proof.
  split; [done|]. intros p e He. apply elem_of_list_to_map_2, list_elem_of_fmap in He.
  by destruct He as (e' & [= -> ->] & _).
Qed.

Lemma golden_registry_printable : Forall printable (Registry.Entries golden_registry).
Proof.
  assert (forallb printableb (Registry.Entries golden_registry) = true) as H by (vm_compute; reflexivity).
  apply Forall_forall. intros e He. apply printableb_true.
  rewrite forallb_forall in H. by apply H, list_elem_of_In.
Qed.

Lemma golden_registry_snapshot : Registry.Snapshot golden_registry = registry_golden.
Proof. vm_compute. reflexivity. Qed.

(** The committed snapshot is the snapshot of one registry only. *)
Lemma golden_registry_unique r :
  registry_wf r → Forall printable (Registry.Entries r) →
  Registry.Snapshot r = registry_golden → r = golden_registry.
Proof.
  rewrite <-golden_registry_snapshot. intros ???.
  apply Snapshot_inj; auto using golden_registry_wf, golden_registry_printable.
Qed.

(** The edges build against the golden registry. *)
Lemma golden_edges_build :
  ∃ p, EdgePolicy.Build Edges (Some golden_registry) = Ok p ∧
       EdgePolicy.Snapshot p = edges_golden.
Proof.
  destruct (EdgePolicy.Build Edges (Some golden_registry)) as [p|] eqn:Hb.
  - exists p. split; [done|].
    transitivity (match EdgePolicy.Build Edges (Some golden_registry) with
                  | Ok p => EdgePolicy.Snapshot p | Err _ => "" end).
    + by rewrite Hb.
    + vm_compute. reflexivity.
  - exfalso. assert (is_ok (EdgePolicy.Build Edges (Some golden_registry)) = true) as H
      by (vm_compute; reflexivity). by rewrite Hb in H.
Qed.

(** ** The registry of the catalog *)

(** Whatever the imported policies say, a registry built from the catalog sends
    a procedure of a bound service to the destination of its binding, and asks
    for introspection exactly at the overrides. *)
Lemma catalog_lookup policiesOf resolver r p e :
  Build (Bindings policiesOf) Overrides resolver = Ok r → Lookup r p = Some e →
  entry_Introspection e = bool_decide (p ∈ Introspection Overrides) ∧
  ∃ b, b ∈ Bindings policiesOf ∧ is_Some (Policies b !! p) ∧
       entry_Destination e = Destination b.
Proof.
  intros (_ & _ & [Hd _])%Build_ok. rewrite Lookup_entries. intros He%Hd.
  destruct He as (b & policy & s & ? & ? & ? & ->). simpl. split; [done|].
  exists b. eauto.
Qed.

(** Policies under which the catalog builds: those the golden entries come
    from. *)
Definition golden_policy_of (e : Entry) : Policy :=
  if entry_Anonymous e then
    {| policy_Level := LevelPublic; policy_RequiredScopes := []; policy_TokenUses := [] |}
  else if decide (entry_ExternalTokenUses e = []) then
    {| policy_Level := LevelInternal; policy_RequiredScopes := entry_RequiredScopes e;
       policy_TokenUses := [TokenUseService] |}
  else
    {| policy_Level := LevelAuthenticated; policy_RequiredScopes := entry_RequiredScopes e;
       policy_TokenUses := entry_ExternalTokenUses e ++
         (if entry_Service e then [TokenUseService] else []) |}.

Definition golden_policies (service : string) : gmap string Policy :=
  list_to_map ((λ e, (entry_Procedure e, golden_policy_of e)) <$>
    filter (λ e, HasPrefix (entry_Procedure e) ("/" +:+ service +:+ "/") = true) golden_entries).

(** Descriptors that declare the golden procedures. *)
Definition golden_resolver : DescriptorResolver := λ service,
  Ok (ServiceDescriptor
    ((λ e, {| method_Name := drop (String.length service + 2) (entry_Procedure e);
              method_IsStreamingClient := false; method_IsStreamingServer := false |}) <$>
     filter (λ e, HasPrefix (entry_Procedure e) ("/" +:+ service +:+ "/") = true) golden_entries)).

Lemma golden_build :
  Build (Bindings golden_policies) Overrides golden_resolver = Ok golden_registry.
Proof.
  destruct (Build (Bindings golden_policies) Overrides golden_resolver) as [r|err] eqn:Hb.
  - f_equal. apply golden_registry_unique.
    + by apply Build_wf in Hb as [? Hwf]; split; [|naive_solver].
    + assert (match Build (Bindings golden_policies) Overrides golden_resolver with
              | Ok r => forallb printableb (Registry.Entries r) | Err _ => false end = true) as H
        by (vm_compute; reflexivity).
      rewrite Hb in H. apply Forall_forall. intros e He. apply printableb_true.
      rewrite forallb_forall in H. by apply H, list_elem_of_In.
    + assert (match Build (Bindings golden_policies) Overrides golden_resolver with
              | Ok r => Registry.Snapshot r | Err _ => "" end = registry_golden) as H
        by (vm_compute; reflexivity). by rewrite Hb in H.
  - exfalso. assert (is_ok (Build (Bindings golden_policies) Overrides golden_resolver) = true)
      as H by (vm_compute; reflexivity). by rewrite Hb in H.
Qed.

(** ** Properties *)


(** Whatever the services' own policies say, a registry built from the
    catalog sends a procedure to the destination its service is bound to, and
    asks for introspection exactly at the six overrides. *)
Theorem catalog_routes policiesOf resolver r p e :
  Build (Bindings policiesOf) Overrides resolver = Ok r → Lookup r p = Some e →
  entry_Introspection e = bool_decide (p ∈ Introspection Overrides) ∧
  ∃ b, b ∈ Bindings policiesOf ∧ is_Some (Policies b !! p) ∧
       entry_Destination e = Destination b.
Proof. apply catalog_lookup. Qed.


Lemma catalog_routes_witness :
  ∃ b, b ∈ Bindings golden_policies ∧
    is_Some (Policies b !! "/tolo.tenant.v1.TenantService/ArchiveTenant") ∧
    "tolo-tenant-management" = Destination b.
Proof.
  apply (catalog_routes golden_policies golden_resolver golden_registry
           "/tolo.tenant.v1.TenantService/ArchiveTenant"
           (golden "/tolo.tenant.v1.TenantService/ArchiveTenant" "tolo-tenant-management" false
              ["tenant_access"] false ["tenant.write"] true) golden_build).
  vm_compute; reflexivity.
Defined.
