(* ===== verification/Reissue.v ===== *)
(** * Service token reissue ([internal/reissue/reissue.go])

    [Reissue] turns a service's credential (its name and, unless it starts a new
    machine-origin chain, the context token it was called with) into a service
    token for the callee, when the edge policy admits the call.  The context
    token verifier and the token issuer are those of internal-jwt-handling:
    classes whose operations read and change a world [W], so that the theorems
    hold for every implementation. *)

From S2P Require Import Prelude GoStd GoErrors.
From S2P Require Registry EdgePolicy.

(** ** The interfaces the reissuer is built on *)

(** What the gateway reads of [internaljwt.Claims]. *)
Class ContextClaims (Claims : Type) : Type := {
  TokenUse : Claims → string;
  OriginSub : Claims → string;
}.

(** [ContextVerifier]: [Verify token presenter]. *)
Class ContextVerifier (W Claims : Type) : Type := {
  Verify : string → string → M W (result error Claims);
}.

(** [issuer.UserOriginServiceInput] and [issuer.MachineOriginServiceInput]. *)
Record UserOriginServiceInput {Claims : Type} : Type := {
  user_Audience : string;
  user_CallerService : string;
  user_Context : Claims;
}.
Arguments UserOriginServiceInput : clear implicits.

Record MachineOriginServiceInput {Claims : Type} : Type := {
  machine_Audience : string;
  machine_CallerService : string;
  machine_Context : option Claims;
}.
Arguments MachineOriginServiceInput : clear implicits.

(** [ServiceIssuer]; [ErrContextExpired] is the sentinel the issuer reports an
    expired context with. *)
Class ServiceIssuer (W Claims Issued : Type) : Type := {
  ErrContextExpired : string;
  IssueUserOriginService : UserOriginServiceInput Claims → M W (result error Issued);
  IssueMachineOriginService : MachineOriginServiceInput Claims → M W (result error Issued);
}.

(** ** Errors and data *)

Definition ErrMissingDependency : string := "reissue: missing dependency".
Definition ErrInvalidRequest : string := "reissue: invalid request".
Definition ErrEdgeNotAllowed : string := "reissue: edge is not allowed".
Definition ErrUnknownProcedure : string := "reissue: unknown procedure".
Definition ErrContextRequired : string := "reissue: context token is required".
Definition ErrInvalidContext : string := "reissue: invalid context token".
Definition ErrIssue : string := "reissue: issue the service token".

Inductive Origin : Type := OriginUser | OriginMachineChain | OriginNewMachine.

#[export] Instance Origin_eq_dec : EqDecision Origin.
Proof. solve_decision. Defined.

(** [string(origin)] *)
Definition origin_string (o : Origin) : string :=
  match o with
  | OriginUser => "user"
  | OriginMachineChain => "machine_chain"
  | OriginNewMachine => "new_machine"
  end.

Record Request : Type := {
  req_Caller : string;
  req_Procedure : string;
  req_ContextToken : string;
}.

Record Result {Issued : Type} : Type := {
  res_Issued : Issued;
  res_Edge : EdgePolicy.Edge;
  res_Origin : Origin;
}.
Arguments Result : clear implicits.

Record Reissuer : Type := {
  registry : Registry.Registry;
  policy : EdgePolicy.Policy;
}.

Definition sentinel (sentinel format : string) (args : list string) : error :=
  Errorf format [ErrorNew sentinel] args.

Definition missing (what : string) : error := sentinel ErrMissingDependency ("%w: " +:+ what) [].

(** [New]: each dependency is [None] for a nil pointer or interface. *)
Definition New {V I : Type} (reg : option Registry.Registry) (pol : option EdgePolicy.Policy)
    (contexts : option V) (tokens : option I) : result error (Reissuer * V * I) :=
  match reg with
  | None => Err (missing "the registry is required")
  | Some reg =>
      match pol with
      | None => Err (missing "the edge policy is required")
      | Some pol =>
          match contexts with
          | None => Err (missing "the context token verifier is required")
          | Some contexts =>
              match tokens with
              | None => Err (missing "the service token issuer is required")
              | Some tokens => Ok ({| registry := reg; policy := pol |}, contexts, tokens)
              end
          end
      end
  end.

(** ** The decision *)

Section reissue.
Context {W Claims Issued : Type} `{!ContextClaims Claims}
  `{!ContextVerifier W Claims} `{!ServiceIssuer W Claims Issued}.

Definition isUserOrigin (claims : Claims) : bool :=
  if bool_decide (TokenUse claims ∈ [Registry.TokenUseTenantAccess;
       Registry.TokenUseEventAccess; Registry.TokenUseRegistration]) then true
  else if decide (TokenUse claims = Registry.TokenUseService) then
    negb (bool_decide (OriginSub claims = ""))
  else false.

Definition wrapIssue (err : error) : error :=
  if Is err ErrContextExpired then Errorf "%w: %w" [ErrorNew ErrInvalidContext; err] []
  else Errorf "%w: %w" [ErrorNew ErrIssue; err] [].

(** The common tail of the three origins. *)
Definition issued (m : M W (result error Issued)) (edge : EdgePolicy.Edge) (origin : Origin) :
    M W (result error (Result Issued)) :=
  let! r := m in
  mret_ (match r with
         | Err err => Err (wrapIssue err)
         | Ok token => Ok {| res_Issued := token; res_Edge := edge; res_Origin := origin |}
         end).

Definition newMachineOrigin (caller audience : string) (edge : EdgePolicy.Edge) :
    M W (result error (Result Issued)) :=
  if negb (EdgePolicy.NewMachineOrigin edge) then
    mret_ (Err (sentinel ErrContextRequired "%w: %s to %s accepts no new machine origin"
                  [caller; EdgePolicy.Procedure edge]))
  else
    issued (IssueMachineOriginService
              {| machine_Audience := audience; machine_CallerService := caller;
                 machine_Context := None |}) edge OriginNewMachine.

Definition userOrigin (caller audience : string) (edge : EdgePolicy.Edge) (claims : Claims) :
    M W (result error (Result Issued)) :=
  if negb (Contains (EdgePolicy.UserOriginTokenUses edge) (TokenUse claims)) then
    mret_ (Err (sentinel ErrEdgeNotAllowed "%w: %s to %s accepts no %s context"
                  [caller; EdgePolicy.Procedure edge; TokenUse claims]))
  else
    issued (IssueUserOriginService
              {| user_Audience := audience; user_CallerService := caller;
                 user_Context := claims |}) edge OriginUser.

Definition machineChain (caller audience : string) (edge : EdgePolicy.Edge) (claims : Claims) :
    M W (result error (Result Issued)) :=
  if negb (EdgePolicy.MachineChain edge) then
    mret_ (Err (sentinel ErrEdgeNotAllowed "%w: %s to %s accepts no machine-origin chain"
                  [caller; EdgePolicy.Procedure edge]))
  else
    issued (IssueMachineOriginService
              {| machine_Audience := audience; machine_CallerService := caller;
                 machine_Context := Some claims |}) edge OriginMachineChain.

(** The verified context of a request: none when it carries no token. *)
Definition verifyContext (req : Request) : M W (result error (option Claims)) :=
  if decide (req_ContextToken req = "") then mret_ (Ok None)
  else
    let! r := Verify (req_ContextToken req) (req_Caller req) in
    mret_ (match r with
           | Err err => Err (Errorf "%w: %w" [ErrorNew ErrInvalidContext; err] [])
           | Ok verified => Ok (Some verified)
           end).

(** The part of [Reissue] after the context is verified. *)
Definition reissueVerified (r : Reissuer) (req : Request) (claims : option Claims) :
    M W (result error (Result Issued)) :=
  match EdgePolicy.Lookup (policy r) (req_Caller req) (req_Procedure req) with
  | None =>
      mret_ (Err (sentinel ErrEdgeNotAllowed "%w: %s may not call %s"
                    [req_Caller req; req_Procedure req]))
  | Some edge =>
      match Registry.Lookup (registry r) (req_Procedure req) with
      | None =>
          mret_ (Err (sentinel ErrUnknownProcedure "%w: %s is not registered"
                        [req_Procedure req]))
      | Some entry =>
          let audience := Registry.entry_Destination entry in
          match claims with
          | None => newMachineOrigin (req_Caller req) audience edge
          | Some claims =>
              if isUserOrigin claims then userOrigin (req_Caller req) audience edge claims
              else if decide (TokenUse claims = Registry.TokenUseService) then
                machineChain (req_Caller req) audience edge claims
              else
                mret_ (Err (sentinel ErrInvalidContext
                              "%w: the token use %q starts no service call"
                              [TokenUse claims]))
          end
      end
  end.

Definition Reissue (r : Reissuer) (req : Request) : M W (result error (Result Issued)) :=
  if decide (req_Caller req = "") then
    mret_ (Err (sentinel ErrInvalidRequest "%w: the caller is required" []))
  else if decide (req_Procedure req = "") then
    mret_ (Err (sentinel ErrInvalidRequest "%w: the procedure is required" []))
  else
    let! verified := verifyContext req in
    match verified with
    | Err err => mret_ (Err err)
    | Ok claims => reissueVerified r req claims
    end.

(** ** The specification *)

(** A request presents a context: none, or the claims the verifier accepts. *)
Inductive presents (req : Request) (w : W) : option Claims → W → Prop :=
| presents_none :
    req_ContextToken req = "" → presents req w None w
| presents_token claims w' :
    req_ContextToken req ≠ "" →
    Verify (req_ContextToken req) (req_Caller req) w = (Ok claims, w') →
    presents req w (Some claims) w'.

(** An edge grants an origin to a context. *)
Inductive grants (edge : EdgePolicy.Edge) : option Claims → Origin → Prop :=
| grants_new :
    EdgePolicy.NewMachineOrigin edge = true → grants edge None OriginNewMachine
| grants_user claims :
    TokenUse claims ∈ EdgePolicy.UserOriginTokenUses edge →
    (TokenUse claims ∈ [Registry.TokenUseTenantAccess; Registry.TokenUseEventAccess;
       Registry.TokenUseRegistration] ∨
     (TokenUse claims = Registry.TokenUseService ∧ OriginSub claims ≠ "")) →
    grants edge (Some claims) OriginUser
| grants_chain claims :
    EdgePolicy.MachineChain edge = true → TokenUse claims = Registry.TokenUseService →
    OriginSub claims = "" → grants edge (Some claims) OriginMachineChain.

(** The issuer call an origin leads to. *)
Definition issue (caller audience : string) (ctx : option Claims) (o : Origin) :
    M W (result error Issued) :=
  match o, ctx with
  | OriginUser, Some claims =>
      IssueUserOriginService {| user_Audience := audience; user_CallerService := caller;
                                user_Context := claims |}
  | _, _ =>
      IssueMachineOriginService {| machine_Audience := audience;
                                   machine_CallerService := caller; machine_Context := ctx |}
  end.

Definition reissues (r : Reissuer) (req : Request) (w : W) (res : Result Issued) (w' : W) : Prop :=
  req_Caller req ≠ "" ∧ req_Procedure req ≠ "" ∧
  ∃ ctx w1 entry,
    presents req w ctx w1 ∧
    EdgePolicy.Lookup (policy r) (req_Caller req) (req_Procedure req) = Some (res_Edge res) ∧
    Registry.Lookup (registry r) (req_Procedure req) = Some entry ∧
    grants (res_Edge res) ctx (res_Origin res) ∧
    issue (req_Caller req) (Registry.entry_Destination entry) ctx (res_Origin res) w1
      = (Ok (res_Issued res), w').
End reissue.

(** ** Correctness *)

Section reissue_correct.
Context {W Claims Issued : Type} `{!ContextClaims Claims}
  `{!ContextVerifier W Claims} `{!ServiceIssuer W Claims Issued}.
Implicit Types (r : Reissuer) (req : Request) (w : W) (res : Result Issued).

Lemma isUserOrigin_true (claims : Claims) :
  isUserOrigin claims = true ↔
  TokenUse claims ∈ [Registry.TokenUseTenantAccess; Registry.TokenUseEventAccess;
    Registry.TokenUseRegistration] ∨
  (TokenUse claims = Registry.TokenUseService ∧ OriginSub claims ≠ "").
Proof.
  unfold isUserOrigin. destruct (bool_decide _) eqn:Hu.
  - apply bool_decide_eq_true in Hu. tauto.
  - apply bool_decide_eq_false in Hu. destruct (decide _) as [Hs|Hs].
    + rewrite negb_true_iff, bool_decide_eq_false. tauto.
    + split; [done|tauto].
Qed.

Lemma verifyContext_ok req w ctx w' :
  verifyContext req w = (Ok ctx, w') ↔ presents req w ctx w'.
Proof.
  unfold verifyContext, mbind_, mret_. destruct (decide _) as [He|He].
  - split; [intros [= <- <-]; by constructor|]. by inversion 1.
  - destruct (Verify _ _ w) as [[claims|err] w1] eqn:Hv.
    + split; [intros [= <- <-]; by constructor|]. inversion 1; congruence.
    + split; [done|]. inversion 1; congruence.
Qed.

Lemma issued_ok (m : M W (result error Issued)) edge o w res w' :
  issued m edge o w = (Ok res, w') ↔
  m w = (Ok (res_Issued res), w') ∧ res_Edge res = edge ∧ res_Origin res = o.
Proof.
  unfold issued, mbind_, mret_. destruct (m w) as [[token|err] w1].
  - split; [intros [= <- <-]; done|]. intros ([= -> ->] & <- & <-). by destruct res.
  - split; [done|]. by intros ([=] & _).
Qed.

Lemma newMachineOrigin_ok caller audience edge w res w' :
  newMachineOrigin (Claims := Claims) caller audience edge w = (Ok res, w') ↔
  EdgePolicy.NewMachineOrigin edge = true ∧ res_Edge res = edge ∧
  res_Origin res = OriginNewMachine ∧
  issue caller audience (None : option Claims) OriginNewMachine w = (Ok (res_Issued res), w').
Proof.
  unfold newMachineOrigin. destruct (EdgePolicy.NewMachineOrigin edge); simpl.
  - rewrite issued_ok. tauto.
  - split; [done|]. by intros [? _].
Qed.

Lemma userOrigin_ok caller audience edge (claims : Claims) w res w' :
  userOrigin caller audience edge claims w = (Ok res, w') ↔
  TokenUse claims ∈ EdgePolicy.UserOriginTokenUses edge ∧ res_Edge res = edge ∧
  res_Origin res = OriginUser ∧
  issue caller audience (Some claims) OriginUser w = (Ok (res_Issued res), w').
Proof.
  unfold userOrigin. destruct (Contains _ _) eqn:Hc; simpl.
  - apply Contains_true in Hc. rewrite issued_ok. tauto.
  - apply Contains_false in Hc. split; [done|]. by intros [? _].
Qed.

Lemma machineChain_ok caller audience edge (claims : Claims) w res w' :
  machineChain caller audience edge claims w = (Ok res, w') ↔
  EdgePolicy.MachineChain edge = true ∧ res_Edge res = edge ∧
  res_Origin res = OriginMachineChain ∧
  issue caller audience (Some claims) OriginMachineChain w = (Ok (res_Issued res), w').
Proof.
  unfold machineChain. destruct (EdgePolicy.MachineChain edge); simpl.
  - rewrite issued_ok. tauto.
  - split; [done|]. by intros [? _].
Qed.

Lemma reissueVerified_ok r req ctx w res w' :
  reissueVerified r req ctx w = (Ok res, w') ↔
  ∃ entry,
    EdgePolicy.Lookup (policy r) (req_Caller req) (req_Procedure req) = Some (res_Edge res) ∧
    Registry.Lookup (registry r) (req_Procedure req) = Some entry ∧
    grants (res_Edge res) ctx (res_Origin res) ∧
    issue (req_Caller req) (Registry.entry_Destination entry) ctx (res_Origin res) w
      = (Ok (res_Issued res), w').
Proof.
  destruct res as [token edge' o]. unfold reissueVerified, mret_. simpl.
  destruct (EdgePolicy.Lookup _ _ _) as [edge|]; [|split; [done|by intros (? & ? & _)]].
  destruct (Registry.Lookup _ _) as [entry|]; [|split; [done|by intros (? & _ & ? & _)]].
  destruct ctx as [claims|].
  2: { rewrite newMachineOrigin_ok. simpl. split.
       - intros (? & <- & -> & ?). exists entry. split_and!; try done. by constructor.
       - intros (? & [= ->] & [= <-] & Hg & Hi). by inversion Hg; subst. }
  destruct (isUserOrigin claims) eqn:Hu.
  { rewrite userOrigin_ok. simpl. apply isUserOrigin_true in Hu as Hu'. split.
    - intros (? & <- & -> & ?). exists entry. split_and!; try done. by constructor.
    - intros (? & [= ->] & [= <-] & Hg & Hi). inversion Hg as [|? ? Hor|? ? Hs Ho]; subst; [done|].
      exfalso. destruct Hu' as [Hin|[_ ?]]; [|done]. rewrite Hs in Hin. set_solver. }
  destruct (decide (TokenUse claims = Registry.TokenUseService)) as [Hs|Hs].
  { assert (OriginSub claims = "") as Ho.
    { apply dec_stable. intros Hne. enough (isUserOrigin claims = true) by congruence.
      apply isUserOrigin_true. tauto. }
    rewrite machineChain_ok. simpl. split.
    - intros (? & <- & -> & ?). exists entry. split_and!; try done. by constructor.
    - intros (? & [= ->] & [= <-] & Hg & Hi). inversion Hg as [|? ? Hor|]; subst; [|done].
      apply isUserOrigin_true in Hor. congruence. }
  split; [done|]. intros (? & _ & _ & Hg & _). inversion Hg as [|? ? Hor|]; subst; [|done].
  apply isUserOrigin_true in Hor. congruence.
Qed.

Lemma Reissue_ok r req w res w' :
  Reissue r req w = (Ok res, w') ↔ reissues r req w res w'.
Proof.
  unfold Reissue, reissues, mret_.
  destruct (decide (req_Caller req = "")); [split; [done|by intros [? _]]|].
  destruct (decide (req_Procedure req = "")); [split; [done|by intros (_ & ? & _)]|].
  unfold mbind_. destruct (verifyContext req w) as [[ctx|err] w1] eqn:Hv.
  - apply verifyContext_ok in Hv as Hp. rewrite reissueVerified_ok. split.
    + intros (entry & H). split; [done|]. split; [done|]. by exists ctx, w1, entry.
    + intros (_ & _ & ctx' & w1' & entry & Hp' & H). exists entry.
      apply verifyContext_ok in Hp'. rewrite Hv in Hp'. by injection Hp' as <- <-.
  - split; [done|]. intros (_ & _ & ctx' & w1' & entry & Hp%verifyContext_ok & _). congruence.
Qed.

(** A token that does not verify ends the request: no origin is tried
    instead, and nothing is issued. *)
Lemma Reissue_invalid_context r req w err w1 :
  req_Caller req ≠ "" → req_Procedure req ≠ "" → req_ContextToken req ≠ "" →
  Verify (req_ContextToken req) (req_Caller req) w = (Err err, w1) →
  Reissue r req w = (Err (Errorf "%w: %w" [ErrorNew ErrInvalidContext; err] []), w1).
Proof.
  intros ? ? ? Hv. unfold Reissue, verifyContext, mbind_, mret_.
  by rewrite !decide_False, Hv by done.
Qed.
End reissue_correct.

(** What a request the policy does not admit comes to: an error and the world
    after the verification of its context, whatever the issuer would do. *)
Lemma reissue_refused {W Claims Issued} `{!ContextClaims Claims} `{!ContextVerifier W Claims}
    r req w ctx w1 :
  req_Caller req ≠ "" → req_Procedure req ≠ "" → presents req w ctx w1 →
  (∀ edge o, EdgePolicy.Lookup (policy r) (req_Caller req) (req_Procedure req) = Some edge →
     is_Some (Registry.Lookup (registry r) (req_Procedure req)) → ¬ grants edge ctx o) →
  ∃ err, ∀ issuer : ServiceIssuer W Claims Issued, Reissue r req w = (Err err, w1).
Proof.
  intros Hc Hp Hctx%verifyContext_ok Hno. unfold Reissue, mbind_, mret_.
  destruct (decide (req_Caller req = "")); [done|].
  destruct (decide (req_Procedure req = "")); [done|].
  rewrite Hctx. unfold reissueVerified, mret_.
  destruct (EdgePolicy.Lookup _ _ _) as [edge|]; [|by eexists].
  destruct (Registry.Lookup _ _) as [entry|]; [|by eexists].
  specialize (λ o, Hno edge o eq_refl ltac:(by eexists)).
  destruct ctx as [claims|].
  2: { unfold newMachineOrigin. destruct (EdgePolicy.NewMachineOrigin edge) eqn:Hn; [|by eexists].
       exfalso. eapply Hno. by constructor. }
  destruct (isUserOrigin claims) eqn:Hu.
  { apply isUserOrigin_true in Hu. unfold userOrigin.
    destruct (Contains _ _) eqn:Hcont; [|by eexists]. apply Contains_true in Hcont.
    exfalso. eapply Hno. by constructor. }
  destruct (decide (TokenUse claims = Registry.TokenUseService)); [|by eexists].
  unfold machineChain. destruct (EdgePolicy.MachineChain edge) eqn:Hm; [|by eexists].
  exfalso. eapply Hno. apply grants_chain; [done|done|]. apply dec_stable. intros Hne.
  enough (isUserOrigin claims = true) by congruence. apply isUserOrigin_true. tauto.
Qed.

(** With a policy built against the same registry, a token is only ever issued
    along a declared edge, for a procedure that takes service subjects, and
    never to the caller's own service. *)
Lemma Reissue_edge {W Claims Issued} `{!ContextClaims Claims} `{!ContextVerifier W Claims}
    `{!ServiceIssuer W Claims Issued} es r req w (res : Result Issued) w' :
  EdgePolicy.Build es (Some (registry r)) = Ok (policy r) →
  Reissue r req w = (Ok res, w') →
  res_Edge res ∈ es ∧ EdgePolicy.Caller (res_Edge res) = req_Caller req ∧
  EdgePolicy.Procedure (res_Edge res) = req_Procedure req ∧
  ∃ entry, Registry.Lookup (registry r) (req_Procedure req) = Some entry ∧
    Registry.entry_Service entry = true ∧ Registry.entry_Destination entry ≠ req_Caller req.
Proof.
  intros Hb (_ & _ & ctx & w1 & entry & _ & Hl & Hr & _)%Reissue_ok.
  apply (EdgePolicy.Lookup_Some _ _ _ _ _ _ Hb) in Hl as (Hin & Hc & Hp).
  apply EdgePolicy.policy_Build_ok in Hb as (reg & [= <-] & Hv & _).
  rewrite Forall_forall in Hv. apply Hv in Hin as Hve.
  split_and!; [done..|]. exists entry. split; [done|].
  destruct Hve as [_ _ (entry' & Hr' & Hs & Hne) _ _ _]. rewrite Hp in Hr'.
  rewrite Hr in Hr'. injection Hr' as <-. split; [done|]. congruence.
Qed.

(** ** Properties *)

(** C4. [Reissue] succeeds exactly as the specification [reissues] says: the
    caller and the procedure are given, the context token (if any) verifies for
    the caller, the policy has an edge for the call that grants the origin the
    context has, the procedure is registered, and the issuer issues a token of
    that origin for the destination of the procedure. *)
Theorem reissue_spec {W Claims Issued} `{!ContextClaims Claims} `{!ContextVerifier W Claims}
    `{!ServiceIssuer W Claims Issued} r req (w : W) (res : Result Issued) w' :
  Reissue r req w = (Ok res, w') ↔ reissues r req w res w'.
Proof. apply Reissue_ok. Qed.

(** C5. A call the policy does not grant is refused before anything is issued:
    with every issuer [Reissue] ends with the same error in the world the
    verification of the context left, so the issuer is not consulted. *)
Theorem refused_call_issues_nothing {W Claims Issued} `{!ContextClaims Claims}
    `{!ContextVerifier W Claims} r req (w : W) ctx w1 :
  req_Caller req ≠ "" → req_Procedure req ≠ "" → presents req w ctx w1 →
  (∀ edge o, EdgePolicy.Lookup (policy r) (req_Caller req) (req_Procedure req) = Some edge →
     is_Some (Registry.Lookup (registry r) (req_Procedure req)) → ¬ grants edge ctx o) →
  ∃ err, ∀ issuer : ServiceIssuer W Claims Issued, Reissue r req w = (Err err, w1).
Proof. apply reissue_refused. Qed.

(** With a policy built against the registry in use, a service token is only
    issued along a declared edge of the caller, for a procedure that takes
    service subjects, and never for the caller's own service. *)
Theorem tokens_follow_edges {W Claims Issued} `{!ContextClaims Claims}
    `{!ContextVerifier W Claims} `{!ServiceIssuer W Claims Issued} es r req (w : W)
    (res : Result Issued) w' :
  EdgePolicy.Build es (Some (registry r)) = Ok (policy r) →
  Reissue r req w = (Ok res, w') →
  res_Edge res ∈ es ∧ EdgePolicy.Caller (res_Edge res) = req_Caller req ∧
  EdgePolicy.Procedure (res_Edge res) = req_Procedure req ∧
  ∃ entry, Registry.Lookup (registry r) (req_Procedure req) = Some entry ∧
    Registry.entry_Service entry = true ∧ Registry.entry_Destination entry ≠ req_Caller req.
Proof. apply Reissue_edge. Qed.

(** Claims that are a token use and an originating subject, a verifier that
    takes the token for the token use, and an issuer that logs its audience. *)
#[local] Instance example_claims : ContextClaims (string * string) :=
  {| TokenUse := fst; OriginSub := snd |}.

#[local] Instance example_verifier : ContextVerifier (list string) (string * string) :=
  {| Verify := λ token presenter w, (Ok (token, ""), w) |}.

#[local] Instance example_issuer : ServiceIssuer (list string) (string * string) string :=
  {| ErrContextExpired := "context expired";
     IssueUserOriginService := λ i w, (Ok (user_Audience i), w ++ [user_Audience i]);
     IssueMachineOriginService := λ i w, (Ok (machine_Audience i), w ++ [machine_Audience i]) |}.

Definition example_reissuer : Reissuer :=
  {| registry := Registry.example_registry; policy := EdgePolicy.example_policy |}.

Definition example_request (caller procedure token : string) : Request :=
  {| req_Caller := caller; req_Procedure := procedure; req_ContextToken := token |}.

Lemma refused_call_issues_nothing_witness :
  ∃ err, ∀ issuer : ServiceIssuer (list string) (string * string) string,
    Reissue example_reissuer (example_request "svc-b" "/a.S/Read" "") [] = (Err err, []).
Proof.
  apply (refused_call_issues_nothing (Claims := string * string) (Issued := string)
           example_reissuer (example_request "svc-b" "/a.S/Read" "") [] None []);
    [done..|by constructor|].
  intros edge o H. exfalso. revert H. vm_compute. discriminate.
Defined.

Lemma tokens_follow_edges_witness :
  (∃ res, Reissue example_reissuer (example_request "svc-c" "/a.S/Read" "tenant_access") []
     = (Ok res, ["svc-a"])) ∧
  ∃ entry, Registry.Lookup Registry.example_registry "/a.S/Read" = Some entry ∧
    Registry.entry_Service entry = true ∧ Registry.entry_Destination entry ≠ "svc-c".
Proof.
  split; [eexists; vm_compute; reflexivity|].
  apply (tokens_follow_edges (W := list string) (Claims := string * string) (Issued := string)
           EdgePolicy.example_edges example_reissuer
           (example_request "svc-c" "/a.S/Read" "tenant_access") []
           {| res_Issued := "svc-a";
              res_Edge := {| EdgePolicy.Caller := "svc-c"; EdgePolicy.Procedure := "/a.S/Read";
                EdgePolicy.UserOriginTokenUses := [Registry.TokenUseTenantAccess];
                EdgePolicy.MachineChain := true; EdgePolicy.NewMachineOrigin := false |};
              res_Origin := OriginUser |} ["svc-a"]); vm_compute; reflexivity.
Defined.
