(* ===== verification/Connecterr.v ===== *)
(** * Errors the gateway itself answers with
    ([internal/infra/connect/connecterr/connecterr.go])

    Every error has a fixed code and a fixed message, so that no internal detail
    reaches a client.  [InternalError] keeps cancellation and deadlines apart.
    What it writes to the process log is not modelled. *)

From S2P Require Import Prelude GoStd GoErrors.

Definition messageInternal : string := "internal error".
Definition messageUnauthenticated : string := "unauthenticated".
Definition messagePermissionDenied : string := "permission denied".
Definition messageUnimplemented : string := "unimplemented".
Definition messageUpstreamUnavailable : string := "upstream unavailable".
Definition messageAuthenticationUnavailable : string := "authentication unavailable".
Definition messageCanceled : string := "canceled".
Definition messageDeadlineExceeded : string := "deadline exceeded".

(** [connectrpc.NewError]: an error of this side, without details or cause. *)
Definition NewError (c : Code) (message : string) : error := ConnectError c message [] false [].

(** [connectrpc.Error.WithCause] *)
Definition WithCause (e : error) (cause : error) : error :=
  match e with
  | ConnectError c m d r _ => ConnectError c m d r [cause]
  | e => e
  end.

(** [connectrpc.Error.WithDetail] *)
Definition WithDetail (e : error) (detail : string) : error :=
  match e with
  | ConnectError c m d r cause => ConnectError c m (d ++ [detail]) r cause
  | e => e
  end.

(** [connectrpc.CodeOf]: the code of the first Connect error in the tree, the
    unknown code when there is none. *)
Definition CodeOf (e : error) : Code :=
  match AsConnectError e with Some c => connect_code c | None => CodeUnknown end.

Definition Unauthenticated : error := NewError CodeUnauthenticated messageUnauthenticated.
Definition PermissionDenied : error := NewError CodePermissionDenied messagePermissionDenied.
Definition Unimplemented : error := NewError CodeUnimplemented messageUnimplemented.
Definition Unavailable : error := NewError CodeUnavailable messageUpstreamUnavailable.
Definition AuthenticationUnavailable : error :=
  NewError CodeUnavailable messageAuthenticationUnavailable.
Definition Canceled_ : error := NewError CodeCanceled messageCanceled.
Definition DeadlineExceeded_ : error := NewError CodeDeadlineExceeded messageDeadlineExceeded.

Definition InternalError (err : error) : error :=
  if Is err Canceled then WithCause Canceled_ err
  else if Is err DeadlineExceeded then WithCause DeadlineExceeded_ err
  else NewError CodeInternal messageInternal.

(** What a client reads of an error: code, message and details. *)
Definition visible (e : error) : Code * string * list string :=
  match AsConnectError e with
  | Some c => (connect_code c, connect_message c, connect_details c)
  | None => (CodeUnknown, "", [])
  end.

(** ** Correctness *)

(** The three answers to an internal failure. *)
Lemma InternalError_visible err :
  visible (InternalError err) =
    if Is err Canceled then (CodeCanceled, messageCanceled, [])
    else if Is err DeadlineExceeded then (CodeDeadlineExceeded, messageDeadlineExceeded, [])
    else (CodeInternal, messageInternal, []).
Proof. unfold InternalError. by destruct (Is err Canceled), (Is err DeadlineExceeded). Qed.
