(* ===== verification/Authn.v ===== *)
(** * Authentication of a request ([internal/infra/connect/authn])

    [Authenticate] (authn.go) admits a request of the public listener on its
    headers, an external token verifier and an introspector; [ServiceCall]
    (service.go) reads the credential of a request of the internal listener.
    The verifier and the introspector are the interfaces of the package: records
    of an operation on a world [W], [None] for a nil interface. *)

From S2P Require Import Prelude GoStd GoErrors.
From S2P Require Registry.

Definition workloadAuthorizationHeader : string := "Workload-Authorization".
Definition serverlessAuthorizationHeader : string := "X-Serverless-Authorization".
Definition authorizationHeader : string := "Authorization".
Definition dpopHeader : string := "DPoP".
Definition callerServiceHeader : string := "Tolo-Caller-Service".

Definition bearerScheme : string := "bearer".

Definition ReasonWorkloadAuthorization : string := "workload_authorization".
Definition ReasonCallerServiceOnPublic : string := "caller_service_on_public".
Definition ReasonExternalAuthorization : string := "external_authorization".
Definition ReasonAnonymousRejected : string := "anonymous_rejected".
Definition ReasonDPoPUnsupported : string := "dpop_unsupported".
Definition ReasonMalformedAuthorization : string := "malformed_authorization".
Definition ReasonVerifierUnavailable : string := "verifier_unavailable".
Definition ReasonInvalidToken : string := "invalid_token".
Definition ReasonSenderConstrainedUnsupported : string := "sender_constrained_unsupported".
Definition ReasonInternalOnly : string := "internal_only".
Definition ReasonTokenUseMismatch : string := "token_use_mismatch".
Definition ReasonMissingScope : string := "missing_scope".
Definition ReasonIntrospectionUnavailable : string := "introspection_unavailable".
Definition ReasonTokenRevoked : string := "token_revoked".
Definition ReasonAmbiguousServiceCredential : string := "ambiguous_service_credential".
Definition ReasonMissingServiceCredential : string := "missing_service_credential".
Definition ReasonMalformedCallerService : string := "malformed_caller_service".
Definition ReasonInvalidContext : string := "invalid_context".

Definition ErrVerifierUnavailable : string :=
  "authn: the external token verifier is unavailable".

(** ** Data *)

Record ExternalToken : Type := {
  Subject : string;
  ClientID : string;
  TokenUse : string;
  Scope : string;
  JTI : string;
  TenantID : string;
  EventID : string;
  ExpiresAt : Time;
  SenderConstrained : bool;
}.

#[export] Instance ExternalToken_eq_dec : EqDecision ExternalToken.
Proof. solve_decision. Defined.

(** The interface [ExternalVerifier]. *)
Record ExternalVerifier (W : Type) : Type := {
  Verify : string → M W (result error ExternalToken);
}.
Arguments Verify {W}.

(** The interface [Introspector]. *)
Record Introspector (W : Type) : Type := {
  Active : string → ExternalToken → M W (result error bool);
}.
Arguments Active {W}.

Record Rejection : Type := { rejection_Code : Code; rejection_Reason : string }.

#[export] Instance Rejection_eq_dec : EqDecision Rejection.
Proof. solve_decision. Defined.

(** [Result]: the external token, [None] for an anonymous request. *)
Record Result : Type := { External : option ExternalToken }.

Record Authenticator (W : Type) : Type := {
  verifier : option (ExternalVerifier W);
  introspector : option (Introspector W);
}.
Arguments verifier {W}.
Arguments introspector {W}.

Definition NewAuthenticator {W} (v : option (ExternalVerifier W)) (i : option (Introspector W)) :
    Authenticator W :=
  {| verifier := v; introspector := i |}.

Definition anonymousResult : Result := {| External := None |}.

Definition unauthenticated (reason : string) : Rejection :=
  {| rejection_Code := CodeUnauthenticated; rejection_Reason := reason |}.

Definition present (header : Header) (name : string) : bool :=
  bool_decide (is_Some (header !! CanonicalHeaderKey name)).

Definition bearerToken (values : list string) : option string :=
  match values with
  | [value] =>
      match Fields value with
      | [scheme; token] => if EqualFold scheme bearerScheme then Some token else None
      | _ => None
      end
  | _ => None
  end.

(** ** The public listener *)

Definition verificationRejection (err : error) : Rejection :=
  if Is err ErrVerifierUnavailable then
    {| rejection_Code := CodeUnavailable; rejection_Reason := ReasonVerifierUnavailable |}
  else unauthenticated ReasonInvalidToken.

Definition withoutCredentials (entry : Registry.Entry) : Result * option Rejection :=
  if negb (Registry.entry_Anonymous entry) then
    (anonymousResult, Some (unauthenticated ReasonAnonymousRejected))
  else (anonymousResult, None).

Section authenticate.
Context {W : Type}.
Implicit Types (a : Authenticator W).

Definition introspect a (raw : string) (token : ExternalToken) : M W (option Rejection) :=
  match introspector a with
  | None => mret_ (Some (unauthenticated ReasonIntrospectionUnavailable))
  | Some i =>
      let! active := Active i raw token in
      mret_ (match active with
             | Err _ => Some (unauthenticated ReasonIntrospectionUnavailable)
             | Ok false => Some (unauthenticated ReasonTokenRevoked)
             | Ok true => None
             end)
  end.

Definition authorize a (raw : string) (token : ExternalToken) (entry : Registry.Entry) :
    M W (option Rejection) :=
  if decide (Registry.entry_ExternalTokenUses entry = []) then
    mret_ (Some (if Registry.entry_Service entry then
                   {| rejection_Code := CodePermissionDenied;
                      rejection_Reason := ReasonInternalOnly |}
                 else unauthenticated ReasonTokenUseMismatch))
  else if negb (Contains (Registry.entry_ExternalTokenUses entry) (TokenUse token)) then
    mret_ (Some (unauthenticated ReasonTokenUseMismatch))
  else
    let granted := Fields (Scope token) in
    if negb (forallb (Contains granted) (Registry.entry_RequiredScopes entry)) then
      mret_ (Some {| rejection_Code := CodePermissionDenied;
                     rejection_Reason := ReasonMissingScope |})
    else if Registry.entry_Introspection entry then introspect a raw token
    else mret_ None.

Definition external a (values : list string) (entry : Registry.Entry) :
    M W (Result * option Rejection) :=
  match bearerToken values with
  | None => mret_ (anonymousResult, Some (unauthenticated ReasonMalformedAuthorization))
  | Some token =>
      match verifier a with
      | None => mret_ (anonymousResult, Some (unauthenticated ReasonExternalAuthorization))
      | Some v =>
          let! verified := Verify v token in
          match verified with
          | Err err => mret_ (anonymousResult, Some (verificationRejection err))
          | Ok verified =>
              if SenderConstrained verified then
                mret_ (anonymousResult,
                       Some (unauthenticated ReasonSenderConstrainedUnsupported))
              else
                let! rejection := authorize a token verified entry in
                mret_ ({| External := Some verified |}, rejection)
          end
      end
  end.

Definition Authenticate a (header : Header) (entry : Registry.Entry) :
    M W (Result * option Rejection) :=
  if present header callerServiceHeader then
    mret_ (anonymousResult, Some (unauthenticated ReasonCallerServiceOnPublic))
  else if present header workloadAuthorizationHeader
          || present header serverlessAuthorizationHeader then
    mret_ (anonymousResult, Some (unauthenticated ReasonWorkloadAuthorization))
  else if present header dpopHeader then
    mret_ (anonymousResult, Some (unauthenticated ReasonDPoPUnsupported))
  else
    match header !! CanonicalHeaderKey authorizationHeader with
    | None => mret_ (withoutCredentials entry)
    | Some values => external a values entry
    end.
End authenticate.

(** ** The internal listener *)

Record ServiceCredential : Type := { Caller : string; ContextToken : string }.

Definition zeroCredential : ServiceCredential := {| Caller := ""; ContextToken := "" |}.

Section service_call.
(** [jwt.NewParser().ParseUnverified]: the audience of the registered claims of
    a token, [None] for a token that does not parse. *)
Context (ParseUnverified : string → option (list string)).

Definition singleAudience (token : string) : option string :=
  match ParseUnverified token with
  | Some [audience] => if decide (audience = "") then None else Some audience
  | _ => None
  end.

Definition ServiceCall (header : Header) : ServiceCredential * option Rejection :=
  if present header dpopHeader then
    (zeroCredential, Some (unauthenticated ReasonDPoPUnsupported))
  else
    match header !! CanonicalHeaderKey authorizationHeader,
          header !! CanonicalHeaderKey callerServiceHeader with
    | Some _, Some _ =>
        (zeroCredential, Some (unauthenticated ReasonAmbiguousServiceCredential))
    | None, Some [caller] =>
        if decide (caller = "") then
          (zeroCredential, Some (unauthenticated ReasonMalformedCallerService))
        else ({| Caller := caller; ContextToken := "" |}, None)
    | None, Some _ =>
        (zeroCredential, Some (unauthenticated ReasonMalformedCallerService))
    | Some authorization, None =>
        match bearerToken authorization with
        | None => (zeroCredential, Some (unauthenticated ReasonMalformedAuthorization))
        | Some token =>
            match singleAudience token with
            | None => (zeroCredential, Some (unauthenticated ReasonInvalidContext))
            | Some audience => ({| Caller := audience; ContextToken := token |}, None)
            end
        end
    | None, None =>
        (zeroCredential, Some (unauthenticated ReasonMissingServiceCredential))
    end.
End service_call.

(** ** What the public listener admits *)

Section authenticate_correct.
Context {W : Type}.
Implicit Types (a : Authenticator W) (entry : Registry.Entry).

(** A request carries none of the headers the public listener refuses. *)
Definition clean (header : Header) : Prop :=
  Forall (λ name, header !! CanonicalHeaderKey name = None)
    [callerServiceHeader; workloadAuthorizationHeader; serverlessAuthorizationHeader; dpopHeader].

(** A verified token satisfies an entry. *)
Definition satisfies (token : ExternalToken) entry : Prop :=
  TokenUse token ∈ Registry.entry_ExternalTokenUses entry ∧
  Forall (.∈ Fields (Scope token)) (Registry.entry_RequiredScopes entry).

(** The introspection an entry asks for answers that the token is active. *)
Definition introspected a entry (raw : string) (token : ExternalToken) (w w' : W) : Prop :=
  if Registry.entry_Introspection entry then
    ∃ i, introspector a = Some i ∧ Active i raw token w = (Ok true, w')
  else w' = w.

(** The admitted requests, and what they are admitted as. *)
Inductive admitted a (header : Header) entry (w : W) : Result → W → Prop :=
| admitted_anonymous :
    clean header → header !! CanonicalHeaderKey authorizationHeader = None →
    Registry.entry_Anonymous entry = true →
    admitted a header entry w {| External := None |} w
| admitted_external values raw v token w1 w2 :
    clean header → header !! CanonicalHeaderKey authorizationHeader = Some values →
    bearerToken values = Some raw → verifier a = Some v →
    Verify v raw w = (Ok token, w1) → SenderConstrained token = false →
    satisfies token entry → introspected a entry raw token w1 w2 →
    admitted a header entry w {| External := Some token |} w2.

Lemma present_true header name :
  present header name = true ↔ is_Some (header !! CanonicalHeaderKey name).
Proof. apply bool_decide_eq_true. Qed.

Lemma present_false header name :
  present header name = false ↔ header !! CanonicalHeaderKey name = None.
Proof. unfold present. by rewrite bool_decide_eq_false, eq_None_not_Some. Qed.

Lemma clean_present header :
  clean header ↔
  present header callerServiceHeader = false ∧
  present header workloadAuthorizationHeader = false ∧
  present header serverlessAuthorizationHeader = false ∧ present header dpopHeader = false.
Proof.
  unfold clean. rewrite !Forall_cons, !present_false.
  split; [tauto|]. intros (? & ? & ? & ?). by split_and!.
Qed.

Lemma forallb_Contains l l' : forallb (Contains l) l' = true ↔ Forall (.∈ l) l'.
Proof.
  rewrite forallb_forall, Forall_forall. setoid_rewrite list_elem_of_In.
  setoid_rewrite Contains_true. by setoid_rewrite list_elem_of_In.
Qed.

Lemma introspect_None a raw token w w' :
  introspect a raw token w = (None, w') ↔
  ∃ i, introspector a = Some i ∧ Active i raw token w = (Ok true, w').
Proof.
  unfold introspect, mbind_, mret_. destruct (introspector a) as [i|].
  2: { split; [done|by intros (? & ? & _)]. }
  destruct (Active i raw token w) as [[[]|] w1] eqn:Ha;
    (split; [try done; intros [= <-]; by exists i|intros (i' & [= <-] & Hi); congruence]).
Qed.

Lemma authorize_None a raw token entry w w' :
  authorize a raw token entry w = (None, w') ↔
  satisfies token entry ∧ introspected a entry raw token w w'.
Proof.
  unfold authorize, satisfies, introspected, mret_.
  destruct (decide (Registry.entry_ExternalTokenUses entry = [])) as [He|He].
  { split; [done|]. rewrite He. by intros [[[]%not_elem_of_nil _] _]. }
  destruct (Contains (Registry.entry_ExternalTokenUses entry) (TokenUse token)) eqn:Hu;
    [apply Contains_true in Hu|apply Contains_false in Hu]; simpl.
  2: { split; [done|]. by intros [[? _] _]. }
  destruct (forallb (Contains (Fields (Scope token))) (Registry.entry_RequiredScopes entry)) eqn:Hs;
    [|apply not_true_iff_false in Hs]; rewrite forallb_Contains in Hs; simpl.
  2: { split; [done|]. by intros [[_ ?] _]. }
  destruct (Registry.entry_Introspection entry).
  - rewrite introspect_None. tauto.
  - split; [intros [= <-]; done|by intros [_ ->]].
Qed.

(** [Authenticate] admits exactly the [admitted] requests. *)
Lemma Authenticate_admitted a header entry w result w' :
  Authenticate a header entry w = ((result, None), w') ↔
  admitted a header entry w result w'.
Proof.
  split.
  - unfold Authenticate, mret_. destruct (present header callerServiceHeader) eqn:H1; [done|].
    destruct (present header workloadAuthorizationHeader) eqn:H2; [done|].
    destruct (present header serverlessAuthorizationHeader) eqn:H3; [done|].
    destruct (present header dpopHeader) eqn:H4; [done|]. simpl.
    assert (clean header) as Hc by (by apply clean_present).
    destruct (header !! CanonicalHeaderKey authorizationHeader) as [values|] eqn:Hv.
    2: { unfold withoutCredentials. destruct (Registry.entry_Anonymous entry) eqn:Ha; [|done].
         intros [= <- <-]. by constructor. }
    unfold external, mbind_, mret_. destruct (bearerToken values) as [raw|] eqn:Hb; [|done].
    destruct (verifier a) as [v|] eqn:Hver; [|done].
    destruct (Verify v raw w) as [[token|] w1] eqn:Hver'; [|done].
    destruct (SenderConstrained token) eqn:Hsc; [done|].
    destruct (authorize a raw token entry w1) as [[|] w2] eqn:Hauth; [done|].
    intros [= <- <-]. apply authorize_None in Hauth as [??]. by eapply admitted_external.
  - intros [Hc Hv Ha|values raw v token w1 w2 Hc Hv Hb Hver Hver' Hsc Hsat Hi];
      apply clean_present in Hc as (H1 & H2 & H3 & H4);
      unfold Authenticate; rewrite H1, H2, H3, H4, Hv; simpl.
    + unfold mret_, withoutCredentials. by rewrite Ha.
    + unfold external, mbind_, mret_. rewrite Hb, Hver, Hver', Hsc.
      by rewrite (proj2 (authorize_None a raw token entry w1 w2)).
Qed.

(** The codes of a rejection. *)
Lemma Authenticate_codes a header entry w result rejection w' :
  Authenticate a header entry w = ((result, Some rejection), w') →
  rejection_Code rejection ∈ [CodeUnauthenticated; CodePermissionDenied; CodeUnavailable] ∧
  (rejection_Code rejection = CodeUnavailable →
     rejection_Reason rejection = ReasonVerifierUnavailable) ∧
  (rejection_Code rejection = CodePermissionDenied →
     ∃ token, External result = Some token ∧ SenderConstrained token = false).
Proof.
  unfold Authenticate, external, authorize, introspect, withoutCredentials,
    verificationRejection, mbind_, mret_.
  repeat case_match; intros; simplify_eq/=; (split; [set_solver|]); split; try done; eauto.
Qed.
End authenticate_correct.

(** A request that carries credentials is never admitted as anonymous. *)
Lemma admitted_no_fallback {W} (a : Authenticator W) header entry w w' :
  is_Some (header !! CanonicalHeaderKey authorizationHeader) →
  ¬ admitted a header entry w {| External := None |} w'.
Proof. intros [values Hv] H. inversion H; congruence. Qed.

(** ** Bearer credentials *)

Lemma bearerToken_Some values token :
  bearerToken values = Some token ↔
  ∃ value scheme, values = [value] ∧ Fields value = [scheme; token] ∧
    EqualFold scheme bearerScheme = true.
Proof.
  unfold bearerToken. split.
  - destruct values as [|value [|]]; [done| |done].
    destruct (Fields value) as [|scheme [|token' [|]]] eqn:Hf; try done.
    destruct (EqualFold scheme bearerScheme) eqn:He; [|done].
    intros [= <-]. by exists value, scheme.
  - intros (value & scheme & -> & -> & ->). done.
Qed.

(** The token a bearer credential carries is a word. *)
Lemma bearerToken_word values token : bearerToken values = Some token → is_word token.
Proof.
  intros (value & scheme & _ & Hf & _)%bearerToken_Some.
  pose proof (Fields_words value) as Hw. rewrite Hf, !Forall_cons in Hw. tauto.
Qed.

(** The header value the gateway writes is the one it reads. *)
Lemma bearerToken_Bearer token : is_word token → bearerToken ["Bearer " +:+ token] = Some token.
Proof.
  intros Hw. unfold bearerToken. change ("Bearer " +:+ token) with ("Bearer" +:+ String " " token).
  by rewrite Fields_cons, Fields_word.
Qed.

(** ** What the internal listener takes for a credential *)

Section service_call_correct.
Context (ParseUnverified : string → option (list string)).

(** The credentials of the internal listener: a caller declares itself to
    start a chain, or presents the context token it was called with and is
    identified by its audience. *)
Inductive service_credential (header : Header) : ServiceCredential → Prop :=
| credential_caller caller :
    header !! CanonicalHeaderKey authorizationHeader = None →
    header !! CanonicalHeaderKey callerServiceHeader = Some [caller] → caller ≠ "" →
    service_credential header {| Caller := caller; ContextToken := "" |}
| credential_context values token audience :
    header !! CanonicalHeaderKey callerServiceHeader = None →
    header !! CanonicalHeaderKey authorizationHeader = Some values →
    bearerToken values = Some token →
    ParseUnverified token = Some [audience] → audience ≠ "" →
    service_credential header {| Caller := audience; ContextToken := token |}.

Lemma singleAudience_Some token audience :
  singleAudience ParseUnverified token = Some audience ↔
  ParseUnverified token = Some [audience] ∧ audience ≠ "".
Proof.
  unfold singleAudience. destruct (ParseUnverified token) as [[|x [|]]|];
    [split; [done|by intros [[=] _]]| |split; [done|by intros [[=] _]]..].
  destruct (decide (x = "")) as [->|Hx]; (split; [try done|]).
  - by intros [[= <-] ?].
  - by intros [= <-].
  - by intros [[= <-] ?].
Qed.

Lemma ServiceCall_ok header credential :
  ServiceCall ParseUnverified header = (credential, None) ↔
  header !! CanonicalHeaderKey dpopHeader = None ∧ service_credential header credential.
Proof.
  unfold ServiceCall. destruct (present header dpopHeader) eqn:Hd.
  { apply present_true in Hd. split; [done|]. intros [H _]. by rewrite H in Hd; destruct Hd. }
  apply present_false in Hd. split.
  - intros H. split; [done|]. revert H.
    destruct (header !! CanonicalHeaderKey authorizationHeader) as [values|] eqn:Ha,
      (header !! CanonicalHeaderKey callerServiceHeader) as [callers|] eqn:Hc; try done.
    + destruct (bearerToken values) as [token|] eqn:Hb; [|done].
      destruct (singleAudience ParseUnverified token) as [audience|] eqn:Hs; [|done].
      apply singleAudience_Some in Hs as [??]. intros [= <-]. by eapply credential_context.
    + destruct callers as [|caller [|]]; [done| |done].
      destruct (decide (caller = "")); [done|]. intros [= <-]. by constructor.
  - intros [_ [caller Ha Hc Hne|values token audience Hc Ha Hb Hp Hne]]; rewrite Ha, Hc.
    + by rewrite decide_False.
    + rewrite Hb. by rewrite (proj2 (singleAudience_Some token audience)).
Qed.

(** Every credential names a caller. *)
Lemma service_credential_caller header credential :
  service_credential header credential → Caller credential ≠ "".
Proof. by intros []. Qed.
End service_call_correct.

(** ** Rejections carry a reason *)

Lemma Authenticate_reason {W} (a : Authenticator W) header entry w result rejection w' :
  Authenticate a header entry w = ((result, Some rejection), w') →
  rejection_Reason rejection ≠ "".
Proof.
  unfold Authenticate, external, authorize, introspect, withoutCredentials,
    verificationRejection, mbind_, mret_.
  repeat case_match; intros; simplify_eq/=; done.
Qed.

Lemma ServiceCall_rejection ParseUnverified header credential rejection :
  ServiceCall ParseUnverified header = (credential, Some rejection) →
  rejection_Code rejection = CodeUnauthenticated ∧ rejection_Reason rejection ≠ "".
Proof. unfold ServiceCall. repeat case_match; intros; simplify_eq/=; done. Qed.

(** ** Properties *)

(** C3. The public listener admits a request exactly when the specification
    [admitted] does: it carries none of the refused headers, and either it has
    no credentials and the procedure is open to anonymous callers, or it has one
    bearer token that verifies, is not sender-constrained, has a token use and
    the scopes the entry asks for, and is active where introspection is asked
    for. *)
Theorem authenticate_spec {W} (a : Authenticator W) header entry w result w' :
  Authenticate a header entry w = ((result, None), w') ↔ admitted a header entry w result w'.
Proof. apply Authenticate_admitted. Qed.

(** No fall back: a request that carries an [Authorization] header is
    admitted with an external token or rejected, never admitted as anonymous;
    and a rejection is unauthenticated, unavailable (the verifier is down) or
    denied, the last only for a token that verified. *)
Theorem authenticate_no_fallback {W} (a : Authenticator W) header entry w result rejection w' :
  is_Some (header !! CanonicalHeaderKey authorizationHeader) →
  Authenticate a header entry w = ((result, rejection), w') →
  match rejection with
  | None => is_Some (External result)
  | Some rejection =>
      rejection_Reason rejection ≠ "" ∧
      rejection_Code rejection ∈ [CodeUnauthenticated; CodePermissionDenied; CodeUnavailable] ∧
      (rejection_Code rejection = CodeUnavailable →
         rejection_Reason rejection = ReasonVerifierUnavailable) ∧
      (rejection_Code rejection = CodePermissionDenied →
         ∃ token, External result = Some token ∧ SenderConstrained token = false)
  end.
Proof.
  intros Hp Ha. destruct rejection as [rejection|].
  - split; [by eapply Authenticate_reason|by eapply Authenticate_codes].
  - apply Authenticate_admitted in Ha. destruct result as [[token|]]; [done|].
    exfalso. by eapply admitted_no_fallback.
Qed.

Definition example_header : Header := {["Authorization" := ["Bearer abc"]]}.

Definition example_entry : Registry.Entry :=
  {| Registry.entry_Procedure := "/a.S/Open"; Registry.entry_Destination := "svc-a";
     Registry.entry_Anonymous := true; Registry.entry_ExternalTokenUses := [];
     Registry.entry_Service := false; Registry.entry_RequiredScopes := [];
     Registry.entry_Introspection := false |}.

Lemma authenticate_no_fallback_witness :
  ReasonExternalAuthorization ≠ "" ∧
  CodeUnauthenticated ∈ [CodeUnauthenticated; CodePermissionDenied; CodeUnavailable].
Proof.
  pose proof (authenticate_no_fallback (NewAuthenticator (W := unit) None None) example_header
    example_entry tt {| External := None |}
    (Some (unauthenticated ReasonExternalAuthorization)) tt
    ltac:(eexists; vm_compute; reflexivity) ltac:(vm_compute; reflexivity)) as (H & H' & _).
  by split.
Defined.

(** The internal listener takes exactly two credentials: a declared caller,
    or a context token that names its holder by its one audience, never both,
    never with a DPoP proof, and always with a non-empty caller. *)
Theorem service_call_spec ParseUnverified header credential :
  (ServiceCall ParseUnverified header = (credential, None) ↔
     header !! CanonicalHeaderKey dpopHeader = None ∧
     service_credential ParseUnverified header credential) ∧
  ((service_credential ParseUnverified header credential → Caller credential ≠ "")).
Proof.
  split; [apply ServiceCall_ok|].
  intros Hc. by apply (service_credential_caller ParseUnverified header).
Qed.
