(* ===== verification/AuditLog.v ===== *)
(** * Audit records ([internal/audit/audit.go])

    A [Record] collects what the gateway knows about one RPC; [attrs] renders it
    as the attributes of one log line and [Emit] writes the line.  The emitted
    lines are a list in the world. *)

From S2P Require Import Prelude GoStd.

Definition groupKey : string := "audit".
Definition keyMethod : string := "method".
Definition keyCallerService : string := "caller_service".
Definition keyOrigin : string := "origin".
Definition keyClientID : string := "client_id".
Definition keySubject : string := "sub".
Definition keyTokenUse : string := "token_use".
Definition keyTxn : string := "txn".
Definition keyIssuedJTI : string := "jti".
Definition keySourceJTI : string := "src_jti".
Definition keyOriginSubject : string := "origin_sub".
Definition keyResult : string := "result".
Definition keyFailureReason : string := "failure_reason".
Definition keySourceIP : string := "source_ip".
Definition keyHTTPStatus : string := "http_status".
Definition keyTraceID : string := "trace_id".
Definition keySpanID : string := "span_id".

Record Record_ : Type := {
  Procedure : string;
  SourceIP : string;
  CallerService : string;
  Origin : string;
  ClientID : string;
  Subject : string;
  TokenUse : string;
  Txn : string;
  IssuedJTI : string;
  SourceJTI : string;
  OriginSubject : string;
  Result : string;
  FailureReason : string;
  HTTPStatus : Z;
  TraceID : string;
  SpanID : string;
}.

#[export] Instance Record_eq_dec : EqDecision Record_.
Proof. solve_decision. Defined.

(** [slog.Value]: the kinds an audit line uses. *)
Inductive Value : Type := StringValue (s : string) | IntValue (n : Z).

#[export] Instance Value_eq_dec : EqDecision Value.
Proof. solve_decision. Defined.

Record Attr : Type := { Key : string; value : Value }.

Definition slog_String (key s : string) : Attr := {| Key := key; value := StringValue s |}.
Definition slog_Int (key : string) (n : Z) : Attr := {| Key := key; value := IntValue n |}.

(** [attr.Value.String() != ""] *)
Definition nonempty (attr : Attr) : bool :=
  match value attr with StringValue s => negb (bool_decide (s = "")) | IntValue _ => true end.

Definition optional (r : Record_) : list Attr :=
  [slog_String keyCallerService (CallerService r);
   slog_String keyOrigin (Origin r);
   slog_String keyClientID (ClientID r);
   slog_String keySubject (Subject r);
   slog_String keyTokenUse (TokenUse r);
   slog_String keyTxn (Txn r);
   slog_String keyIssuedJTI (IssuedJTI r);
   slog_String keySourceJTI (SourceJTI r);
   slog_String keyOriginSubject (OriginSubject r)].

Definition attrs (r : Record_) : list Attr :=
  let attrs := [slog_String keyMethod (Procedure r)] in
  let attrs := attrs ++ List.filter nonempty (optional r) in
  let attrs := attrs ++ [slog_String keyResult (Result r)] in
  let attrs :=
    if decide (FailureReason r ≠ "") then
      attrs ++ [slog_String keyFailureReason (FailureReason r)]
    else attrs in
  let attrs :=
    attrs ++ [slog_String keySourceIP (SourceIP r); slog_Int keyHTTPStatus (HTTPStatus r)] in
  let attrs :=
    if decide (TraceID r ≠ "") then attrs ++ [slog_String keyTraceID (TraceID r)] else attrs in
  if decide (SpanID r ≠ "") then attrs ++ [slog_String keySpanID (SpanID r)] else attrs.

(** A line the audit logger wrote: the message and the attributes of its group. *)
Record Line : Type := { line_Message : string; line_Group : list Attr }.

(** The emitter; [logging] is false when the emitter or its logger is nil. *)
Record Emitter : Type := { logging : bool }.

(** [Emit] appends to the lines written so far; the record is [None] for nil. *)
Definition Emit (e : Emitter) (record : option Record_) : M (list Line) unit := λ lines,
  match record with
  | Some record =>
      if logging e then
        (tt, lines ++ [{| line_Message := groupKey; line_Group := attrs record |}])
      else (tt, lines)
  | None => (tt, lines)
  end.

(** ** Reading a line back *)

Definition attr_lookup (key : string) (l : list Attr) : option Value :=
  value <$> head (filter (λ a, Key a = key) l).

Definition string_attr (key : string) (l : list Attr) : string :=
  match attr_lookup key l with Some (StringValue s) => s | _ => "" end.

Definition int_attr (key : string) (l : list Attr) : Z :=
  match attr_lookup key l with Some (IntValue n) => n | _ => 0 end.

Definition read (l : list Attr) : Record_ :=
  {| Procedure := string_attr keyMethod l;
     SourceIP := string_attr keySourceIP l;
     CallerService := string_attr keyCallerService l;
     Origin := string_attr keyOrigin l;
     ClientID := string_attr keyClientID l;
     Subject := string_attr keySubject l;
     TokenUse := string_attr keyTokenUse l;
     Txn := string_attr keyTxn l;
     IssuedJTI := string_attr keyIssuedJTI l;
     SourceJTI := string_attr keySourceJTI l;
     OriginSubject := string_attr keyOriginSubject l;
     Result := string_attr keyResult l;
     FailureReason := string_attr keyFailureReason l;
     HTTPStatus := int_attr keyHTTPStatus l;
     TraceID := string_attr keyTraceID l;
     SpanID := string_attr keySpanID l |}.

(** ** Correctness *)

(** An optional string attribute: left out when empty. *)
Definition opt (key s : string) : list Attr :=
  if decide (s = "") then [] else [slog_String key s].

Lemma filter_nonempty_cons key s l :
  List.filter nonempty (slog_String key s :: l) = opt key s ++ List.filter nonempty l.
Proof.
  unfold opt. simpl. destruct (decide (s = "")) as [->|H]; [done|].
  unfold nonempty. simpl. by rewrite bool_decide_eq_false_2.
Qed.

(** The line, attribute by attribute. *)
Lemma attrs_eq r :
  attrs r =
    [slog_String keyMethod (Procedure r)] ++ opt keyCallerService (CallerService r) ++
    opt keyOrigin (Origin r) ++ opt keyClientID (ClientID r) ++ opt keySubject (Subject r) ++
    opt keyTokenUse (TokenUse r) ++ opt keyTxn (Txn r) ++ opt keyIssuedJTI (IssuedJTI r) ++
    opt keySourceJTI (SourceJTI r) ++ opt keyOriginSubject (OriginSubject r) ++
    [slog_String keyResult (Result r)] ++ opt keyFailureReason (FailureReason r) ++
    [slog_String keySourceIP (SourceIP r); slog_Int keyHTTPStatus (HTTPStatus r)] ++
    opt keyTraceID (TraceID r) ++ opt keySpanID (SpanID r).
Proof.
  assert (∀ key s (l : list Attr),
    (if decide (s ≠ "") then l ++ [slog_String key s] else l) = l ++ opt key s) as Htail.
  { intros key s l. unfold opt. destruct (decide (s = "")) as [->|];
      [rewrite decide_False by tauto; by rewrite app_nil_r|by rewrite decide_True]. }
  unfold attrs, optional. rewrite !Htail, !filter_nonempty_cons. simpl.
  by rewrite !app_nil_r, <-!app_assoc.
Qed.

Lemma filter_key_opt key k s :
  filter (λ a, Key a = key) (opt k s) = if decide (k = key) then opt k s else [].
Proof.
  unfold opt. destruct (decide (s = "")); [by destruct (decide (k = key))|].
  destruct (decide (k = key)); [by rewrite filter_cons_True|by rewrite filter_cons_False].
Qed.

Lemma string_attr_opt key s :
  match (value <$> head (opt key s)) with Some (StringValue s) => s | _ => "" end = s.
Proof. unfold opt. by destruct (decide (s = "")) as [->|]. Qed.

(** A line says everything about its record. *)
Lemma read_attrs r : read (attrs r) = r.
Proof.
  rewrite attrs_eq. unfold read, string_attr, int_attr, attr_lookup.
  rewrite !filter_app, !filter_key_opt. cbn -[opt].
  repeat match goal with |- context [decide (?k = ?k)] => rewrite (decide_True (P := k = k)) by done end.
  rewrite !decide_False by done. cbn -[opt]. rewrite ?app_nil_r, ?string_attr_opt. by destruct r.
Qed.

(** The keys of a line are pairwise distinct. *)
Lemma attrs_keys r : NoDup (Key <$> attrs r).
Proof.
  assert (∀ l l' : list string, NoDup l' → sublist l l' → NoDup l) as Hsub.
  { intros l l' H Hs. by eapply sublist_NoDup. }
  apply (Hsub _ [keyMethod; keyCallerService; keyOrigin; keyClientID; keySubject; keyTokenUse;
    keyTxn; keyIssuedJTI; keySourceJTI; keyOriginSubject; keyResult; keyFailureReason;
    keySourceIP; keyHTTPStatus; keyTraceID; keySpanID]).
  - by_computation.
  - rewrite attrs_eq, !fmap_app. simpl. assert (∀ key s, sublist (Key <$> opt key s) [key]) as Ho.
    { intros key s. unfold opt. destruct (decide (s = "")); simpl; repeat constructor. }
    constructor.
    repeat first [apply Ho | apply (sublist_app _ [_]); [apply Ho|] | constructor].
Qed.

(** ** Properties *)

(** C40. An audit line loses nothing: every field of the record can be read back
    from the attributes of the line, the optional ones included, and no key is
    written twice. *)
Theorem audit_line_roundtrip r : read (attrs r) = r ∧ NoDup (Key <$> attrs r).
Proof. split; [apply read_attrs|apply attrs_keys]. Qed.
