(* ===== verification/SourceIP.v ===== *)
(** * The source address of a request ([internal/infra/connect/sourceip.go])

    Behind [trustedProxyHops] trusted proxies the address is the one the first
    of them appended to [X-Forwarded-For], counted from the right; otherwise it
    is the peer of the connection. *)

From S2P Require Import Prelude GoStd GoNet.

Definition forwardedForHeader : string := "X-Forwarded-For".

(** The addresses of the header, in order, over all its values. *)
Definition addresses (header : Header) : list string :=
  concat ((λ value, TrimSpace <$> Split value ",") <$> header_values header forwardedForHeader).

Definition forwardedFor (header : Header) (trustedProxyHops : Z) : option string :=
  let addresses := addresses header in
  let length := Z.of_nat (List.length addresses) in
  if length <? trustedProxyHops then None
  else
    match addresses !! Z.to_nat (length - trustedProxyHops) with
    | Some address => if ParseAddr address then Some address else None
    | None => None
    end.

Definition remoteHost (remoteAddr : string) : string :=
  match SplitHostPort remoteAddr with Some host => host | None => remoteAddr end.

Definition sourceIP (header : Header) (remoteAddr : string) (trustedProxyHops : Z) : string :=
  if 0 <? trustedProxyHops then
    match forwardedFor header trustedProxyHops with
    | Some forwarded => forwarded
    | None => remoteHost remoteAddr
    end
  else remoteHost remoteAddr.

(** ** Correctness *)

(** The index is in range, so the source's slice expression does not panic. *)
Lemma forwardedFor_in_range header hops :
  0 < hops → (Z.of_nat (List.length (addresses header)) <? hops) = false →
  is_Some (addresses header !! Z.to_nat (Z.of_nat (List.length (addresses header)) - hops)).
Proof. intros ? ?%Z.ltb_ge. apply lookup_lt_is_Some_2. lia. Qed.

Lemma sourceIP_direct header remoteAddr hops :
  hops ≤ 0 → sourceIP header remoteAddr hops = remoteHost remoteAddr.
Proof. intros ?. unfold sourceIP. by rewrite (proj2 (Z.ltb_ge 0 hops)). Qed.

(** The address counted from the right does not depend on what stands left of
    the [hops] last ones. *)
Lemma sourceIP_suffix header header' pre pre' post remoteAddr hops :
  addresses header = pre ++ post → addresses header' = pre' ++ post →
  hops ≤ Z.of_nat (List.length post) →
  sourceIP header remoteAddr hops = sourceIP header' remoteAddr hops.
Proof.
  intros H H' Hpost. unfold sourceIP. destruct (0 <? hops) eqn:Hhops; [|done].
  apply Z.ltb_lt in Hhops.
  assert (∀ h p, addresses h = p ++ post →
    forwardedFor h hops =
      (match post !! Z.to_nat (Z.of_nat (List.length post) - hops) with
      | Some address => (if ParseAddr address then Some address else None)
      | None => None end)) as Heq.
  { intros h p Hp. unfold forwardedFor. rewrite Hp, length_app.
    rewrite (proj2 (Z.ltb_ge _ _)) by lia. rewrite lookup_app_r by lia.
    by replace (Z.to_nat (Z.of_nat (length p + length post) - hops) - length p)%nat
      with (Z.to_nat (Z.of_nat (length post) - hops)) by lia. }
  by rewrite (Heq _ _ H), (Heq _ _ H').
Qed.

(** The addresses of one value a proxy appended to: the client's part is on the
    left. *)
Lemma addresses_appended header value appended :
  header_values header forwardedForHeader = [value +:+ String "," appended] →
  ∃ pre, addresses header = pre ++ (TrimSpace <$> Split appended ",").
Proof.
  intros H. exists (TrimSpace <$> Split value ","). unfold addresses. rewrite H. simpl.
  by rewrite app_nil_r, Split_app_sep, fmap_app.
Qed.

(** A proxy that appends to the header determines the address, whatever the
    client sent before it. *)
Lemma sourceIP_appended header header' value value' appended remoteAddr hops :
  header_values header forwardedForHeader = [value +:+ String "," appended] →
  header_values header' forwardedForHeader = [value' +:+ String "," appended] →
  hops ≤ Z.of_nat (List.length (Split appended ",")) →
  sourceIP header remoteAddr hops = sourceIP header' remoteAddr hops.
Proof.
  intros [pre H]%addresses_appended [pre' H']%addresses_appended Hhops.
  eapply sourceIP_suffix; [exact H|exact H'|]. by rewrite length_fmap.
Qed.

(** What is reported is a parsed address or the connection's peer. *)
Lemma sourceIP_valid header remoteAddr hops :
  ParseAddr (sourceIP header remoteAddr hops) = true ∨
  sourceIP header remoteAddr hops = remoteHost remoteAddr.
Proof.
  unfold sourceIP. destruct (0 <? hops); [|by right].
  destruct (forwardedFor header hops) as [address|] eqn:Hf; [|by right].
  left. unfold forwardedFor in Hf. destruct (_ <? hops); [done|].
  destruct (addresses header !! _) as [a|]; [|done].
  destruct (ParseAddr a) eqn:Hp; [|done]. by injection Hf as <-.
Qed.

(** ** Properties *)

(** C39. The reported source address cannot be forged past the trusted proxies:
    when they appended [appended] to the header, the address is the same
    whatever the client had sent before, and it is a valid IP address or the
    peer of the connection. *)
Theorem source_ip_not_forged header header' value value' appended remoteAddr hops :
  header_values header forwardedForHeader = [value +:+ String "," appended] →
  header_values header' forwardedForHeader = [value' +:+ String "," appended] →
  hops ≤ Z.of_nat (List.length (Split appended ",")) →
  sourceIP header remoteAddr hops = sourceIP header' remoteAddr hops ∧
  (ParseAddr (sourceIP header remoteAddr hops) = true ∨
   sourceIP header remoteAddr hops = remoteHost remoteAddr).
Proof. intros H H' Hh. split; [by eapply sourceIP_appended|apply sourceIP_valid]. Qed.

Lemma source_ip_not_forged_witness :
  sourceIP {["X-Forwarded-For" := ["10.9.9.9, 203.0.113.7"]]} "192.0.2.1:443" 1 = "203.0.113.7" ∧
  sourceIP {["X-Forwarded-For" := ["10.9.9.9, 203.0.113.7"]]} "192.0.2.1:443" 1
    = sourceIP {["X-Forwarded-For" := ["evil, 203.0.113.7"]]} "192.0.2.1:443" 1.
Proof.
  split; [vm_compute; reflexivity|].
  apply (source_ip_not_forged {["X-Forwarded-For" := ["10.9.9.9, 203.0.113.7"]]}
           {["X-Forwarded-For" := ["evil, 203.0.113.7"]]} "10.9.9.9" "evil" " 203.0.113.7");
    vm_compute; done.
Defined.
