(* ===== verification/Gateway.v ===== *)
(** * The RPC pipeline ([internal/infra/connect/connect.go], [interceptor.go])

    One pipeline per service path: [ServeHTTP] classifies a request, admits it
    through the admission of its listener, forwards or rejects it and, whatever
    happens, emits one audit record.  Handlers, token issuer and tracer act on a
    world [W]; a response is the list of calls made on the [ResponseWriter]. *)

From S2P Require Import Prelude GoStd GoErrors.
From S2P Require Config Registry Reissue Connecterr Authn AuditLog SourceIP.

Definition resultOK : string := "ok".
Definition resultUnknown : string := "unknown".
Definition reasonIssueFailed : string := "issue_failed".
Definition reasonEdgeNotAllowed : string := "edge_not_allowed".
Definition reasonContextRequired : string := "context_required".

Definition errMissingIssuer : string := "connect: no internal JWT issuer is configured".
Definition errUnexpectedRejection : string := "connect: unexpected rejection code".

(** ** Requests and responses *)

Record Request : Type := {
  Method : string;
  URL_Path : string;
  header : Header;
  RemoteAddr : string;
}.

(** A call on the [http.ResponseWriter]. *)
Inductive ResponseEvent : Type :=
| WriteHeader (status : Z)
| Write (body : string).

Definition StatusOK : Z := 200.
Definition StatusNotFound : Z := 404.
Definition MethodPost : string := "POST".

(** [http.NotFound] *)
Definition NotFound : list ResponseEvent :=
  [WriteHeader StatusNotFound; Write ("404 page not found" +:+ newline)].

(** ** The status recorder *)

Record statusRecorder : Type := { status : Z; written : bool }.

Definition newStatusRecorder : statusRecorder := {| status := StatusOK; written := false |}.

Definition recorder_WriteHeader (s : statusRecorder) (st : Z) : statusRecorder :=
  if negb (written s) then {| status := st; written := true |} else s.

Definition recorder_Write (s : statusRecorder) : statusRecorder :=
  {| status := status s; written := true |}.

Definition recorder_step (s : statusRecorder) (e : ResponseEvent) : statusRecorder :=
  match e with
  | WriteHeader st => recorder_WriteHeader s st
  | Write _ => recorder_Write s
  end.

Definition recorder_run (events : list ResponseEvent) : statusRecorder :=
  foldl recorder_step newStatusRecorder events.

(** The status a client sees ([net/http]): that of the first [WriteHeader] that
    is not informational, made before any [Write]; 200 by default. *)
Definition informational (st : Z) : bool := (100 <=? st) && (st <=? 199) && negb (st =? 101).

Fixpoint response_status (events : list ResponseEvent) : Z :=
  match events with
  | WriteHeader st :: rest => if informational st then response_status rest else st
  | _ => StatusOK
  end.

(** ** The audit record of a request *)

(** The state of the record: the fields the pipeline sets. *)
Definition newRecord (entry : Registry.Entry) (sourceIP : string)
    (spanContext : option (string * string)) : AuditLog.Record_ :=
  let '(trace, span) := default ("", "") spanContext in
  {| AuditLog.Procedure := Registry.entry_Procedure entry; AuditLog.SourceIP := sourceIP;
     AuditLog.CallerService := ""; AuditLog.Origin := ""; AuditLog.ClientID := ""; AuditLog.Subject := "";
     AuditLog.TokenUse := ""; AuditLog.Txn := ""; AuditLog.IssuedJTI := ""; AuditLog.SourceJTI := "";
     AuditLog.OriginSubject := ""; AuditLog.Result := ""; AuditLog.FailureReason := "";
     AuditLog.HTTPStatus := 0; AuditLog.TraceID := trace; AuditLog.SpanID := span |}.

Definition set_FailureReason (r : AuditLog.Record_) (reason : string) : AuditLog.Record_ :=
  {| AuditLog.Procedure := AuditLog.Procedure r; AuditLog.SourceIP := AuditLog.SourceIP r;
     AuditLog.CallerService := AuditLog.CallerService r; AuditLog.Origin := AuditLog.Origin r;
     AuditLog.ClientID := AuditLog.ClientID r; AuditLog.Subject := AuditLog.Subject r;
     AuditLog.TokenUse := AuditLog.TokenUse r; AuditLog.Txn := AuditLog.Txn r;
     AuditLog.IssuedJTI := AuditLog.IssuedJTI r; AuditLog.SourceJTI := AuditLog.SourceJTI r;
     AuditLog.OriginSubject := AuditLog.OriginSubject r; AuditLog.Result := AuditLog.Result r;
     AuditLog.FailureReason := reason; AuditLog.HTTPStatus := AuditLog.HTTPStatus r;
     AuditLog.TraceID := AuditLog.TraceID r; AuditLog.SpanID := AuditLog.SpanID r |}.

Definition set_CallerService (r : AuditLog.Record_) (caller : string) : AuditLog.Record_ :=
  {| AuditLog.Procedure := AuditLog.Procedure r; AuditLog.SourceIP := AuditLog.SourceIP r;
     AuditLog.CallerService := caller; AuditLog.Origin := AuditLog.Origin r;
     AuditLog.ClientID := AuditLog.ClientID r; AuditLog.Subject := AuditLog.Subject r;
     AuditLog.TokenUse := AuditLog.TokenUse r; AuditLog.Txn := AuditLog.Txn r;
     AuditLog.IssuedJTI := AuditLog.IssuedJTI r; AuditLog.SourceJTI := AuditLog.SourceJTI r;
     AuditLog.OriginSubject := AuditLog.OriginSubject r; AuditLog.Result := AuditLog.Result r;
     AuditLog.FailureReason := AuditLog.FailureReason r; AuditLog.HTTPStatus := AuditLog.HTTPStatus r;
     AuditLog.TraceID := AuditLog.TraceID r; AuditLog.SpanID := AuditLog.SpanID r |}.

Definition set_outcome (r : AuditLog.Record_) (result : string) (status : Z) : AuditLog.Record_ :=
  {| AuditLog.Procedure := AuditLog.Procedure r; AuditLog.SourceIP := AuditLog.SourceIP r;
     AuditLog.CallerService := AuditLog.CallerService r; AuditLog.Origin := AuditLog.Origin r;
     AuditLog.ClientID := AuditLog.ClientID r; AuditLog.Subject := AuditLog.Subject r;
     AuditLog.TokenUse := AuditLog.TokenUse r; AuditLog.Txn := AuditLog.Txn r;
     AuditLog.IssuedJTI := AuditLog.IssuedJTI r; AuditLog.SourceJTI := AuditLog.SourceJTI r;
     AuditLog.OriginSubject := AuditLog.OriginSubject r; AuditLog.Result := result;
     AuditLog.FailureReason := AuditLog.FailureReason r; AuditLog.HTTPStatus := status;
     AuditLog.TraceID := AuditLog.TraceID r; AuditLog.SpanID := AuditLog.SpanID r |}.

Definition set_Result (r : AuditLog.Record_) (result : string) : AuditLog.Record_ :=
  set_outcome r result (AuditLog.HTTPStatus r).

Definition recordExternal (r : AuditLog.Record_) (token : Authn.ExternalToken) : AuditLog.Record_ :=
  {| AuditLog.Procedure := AuditLog.Procedure r; AuditLog.SourceIP := AuditLog.SourceIP r;
     AuditLog.CallerService := AuditLog.CallerService r; AuditLog.Origin := AuditLog.Origin r;
     AuditLog.ClientID := Authn.ClientID token; AuditLog.Subject := Authn.Subject token;
     AuditLog.TokenUse := Authn.TokenUse token; AuditLog.Txn := AuditLog.Txn r;
     AuditLog.IssuedJTI := AuditLog.IssuedJTI r; AuditLog.SourceJTI := Authn.JTI token;
     AuditLog.OriginSubject := AuditLog.OriginSubject r; AuditLog.Result := AuditLog.Result r;
     AuditLog.FailureReason := AuditLog.FailureReason r; AuditLog.HTTPStatus := AuditLog.HTTPStatus r;
     AuditLog.TraceID := AuditLog.TraceID r; AuditLog.SpanID := AuditLog.SpanID r |}.

Definition set_issued (r : AuditLog.Record_) (txn jti : string) : AuditLog.Record_ :=
  {| AuditLog.Procedure := AuditLog.Procedure r; AuditLog.SourceIP := AuditLog.SourceIP r;
     AuditLog.CallerService := AuditLog.CallerService r; AuditLog.Origin := AuditLog.Origin r;
     AuditLog.ClientID := AuditLog.ClientID r; AuditLog.Subject := AuditLog.Subject r;
     AuditLog.TokenUse := AuditLog.TokenUse r; AuditLog.Txn := txn;
     AuditLog.IssuedJTI := jti; AuditLog.SourceJTI := AuditLog.SourceJTI r;
     AuditLog.OriginSubject := AuditLog.OriginSubject r; AuditLog.Result := AuditLog.Result r;
     AuditLog.FailureReason := AuditLog.FailureReason r; AuditLog.HTTPStatus := AuditLog.HTTPStatus r;
     AuditLog.TraceID := AuditLog.TraceID r; AuditLog.SpanID := AuditLog.SpanID r |}.

(** ** Issued tokens

    [issuer.Issued] and the claims of [internaljwt.Claims] the audit reads. *)

Record Claims : Type := {
  claims_ClientID : string;
  claims_Subject : string;
  claims_TokenUse : string;
  claims_Txn : string;
  claims_ID : string;
  claims_SourceJTI : string;
  claims_OriginSub : string;
}.

#[export] Instance Claims_context : Reissue.ContextClaims Claims :=
  {| Reissue.TokenUse := claims_TokenUse; Reissue.OriginSub := claims_OriginSub |}.

Record Issued : Type := { issued_Token : string; issued_Claims : Claims }.

Record ExternalTokenInput : Type := {
  Audience : string;
  input_TokenUse : string;
  input_Subject : string;
  input_ClientID : string;
  input_Scope : string;
  SourceJTI : string;
  SourceExpiresAt : Time;
  TenantPublicID : string;
  EventPublicID : string;
}.

Record EntryIssuer (W : Type) : Type := {
  IssueFromExternal : ExternalTokenInput → M W (result error Issued);
}.
Arguments IssueFromExternal {W}.

(** ** Admission *)

(** An admission returns the internal token (empty for none), the rejection and
    the record with what it set. *)
Definition Admission (W : Type) : Type :=
  Header → Registry.Entry → AuditLog.Record_ → M W (string * option error * AuditLog.Record_).

Definition rejectionError (code : Code) : error :=
  if decide (code = CodePermissionDenied) then Connecterr.PermissionDenied
  else if decide (code = CodeUnavailable) then Connecterr.AuthenticationUnavailable
  else if decide (code = CodeUnauthenticated) then Connecterr.Unauthenticated
  else Connecterr.InternalError
         (Errorf "%w: %s" [ErrorNew errUnexpectedRejection] [code_string code]).

Definition reissueRejection (err : error) (record : AuditLog.Record_) : error * AuditLog.Record_ :=
  if Is err Reissue.ErrEdgeNotAllowed then
    (Connecterr.PermissionDenied, set_FailureReason record reasonEdgeNotAllowed)
  else if Is err Reissue.ErrContextRequired then
    (Connecterr.Unauthenticated, set_FailureReason record reasonContextRequired)
  else if Is err Reissue.ErrInvalidContext then
    (Connecterr.Unauthenticated, set_FailureReason record Authn.ReasonInvalidContext)
  else (Connecterr.InternalError err, set_FailureReason record reasonIssueFailed).

(** What [serviceAdmission.admit] records of a reissued token. *)
Definition recordReissued (r : AuditLog.Record_) (caller : string)
    (result : Reissue.Result Issued) : AuditLog.Record_ :=
  let claims := issued_Claims (Reissue.res_Issued result) in
  {| AuditLog.Procedure := AuditLog.Procedure r; AuditLog.SourceIP := AuditLog.SourceIP r;
     AuditLog.CallerService := caller;
     AuditLog.Origin := Reissue.origin_string (Reissue.res_Origin result);
     AuditLog.ClientID := claims_ClientID claims; AuditLog.Subject := claims_Subject claims;
     AuditLog.TokenUse := claims_TokenUse claims; AuditLog.Txn := claims_Txn claims;
     AuditLog.IssuedJTI := claims_ID claims; AuditLog.SourceJTI := claims_SourceJTI claims;
     AuditLog.OriginSubject := claims_OriginSub claims; AuditLog.Result := AuditLog.Result r;
     AuditLog.FailureReason := AuditLog.FailureReason r; AuditLog.HTTPStatus := AuditLog.HTTPStatus r;
     AuditLog.TraceID := AuditLog.TraceID r; AuditLog.SpanID := AuditLog.SpanID r |}.

Section admission.
Context {W : Type}.

(** [publicAdmission.issue] *)
Definition issue (entryIssuer : option (EntryIssuer W)) (entry : Registry.Entry)
    (token : Authn.ExternalToken) : M W (result error Issued) :=
  match entryIssuer with
  | None => mret_ (Err (ErrorNew errMissingIssuer))
  | Some i =>
      let! issued :=
        IssueFromExternal i
          {| Audience := Registry.entry_Destination entry;
             input_TokenUse := Authn.TokenUse token; input_Subject := Authn.Subject token;
             input_ClientID := Authn.ClientID token; input_Scope := Authn.Scope token;
             SourceJTI := Authn.JTI token; SourceExpiresAt := Authn.ExpiresAt token;
             TenantPublicID := Authn.TenantID token; EventPublicID := Authn.EventID token |} in
      mret_ (match issued with
             | Err err => Err (Errorf "issue the internal JWT: %w" [err] [])
             | Ok issued => Ok issued
             end)
  end.

(** [publicAdmission.admit] *)
Definition public_admit (authenticator : Authn.Authenticator W)
    (entryIssuer : option (EntryIssuer W)) : Admission W := λ header entry record,
  let! outcome := Authn.Authenticate authenticator header entry in
  let '(result, rejection) := outcome in
  match rejection with
  | Some rejection =>
      let record :=
        match Authn.External result with
        | Some token => recordExternal record token
        | None => record
        end in
      mret_ ("", Some (rejectionError (Authn.rejection_Code rejection)),
             set_FailureReason record (Authn.rejection_Reason rejection))
  | None =>
      match Authn.External result with
      | None => mret_ ("", None, record)
      | Some token =>
          let! issued := issue entryIssuer entry token in
          mret_ (match issued with
                 | Err err =>
                     ("", Some (Connecterr.InternalError err),
                      set_FailureReason record reasonIssueFailed)
                 | Ok issued =>
                     (issued_Token issued, None,
                      set_issued (recordExternal record token)
                        (claims_Txn (issued_Claims issued)) (claims_ID (issued_Claims issued)))
                 end)
      end
  end.

(** [serviceAdmission.admit] *)
Context (ParseUnverified : string → option (list string)).
Context `{!Reissue.ContextVerifier W Claims} `{!Reissue.ServiceIssuer W Claims Issued}.

Definition service_admit (reissuer : Reissue.Reissuer) : Admission W := λ header entry record,
  match Authn.ServiceCall ParseUnverified header with
  | (_, Some rejection) =>
      mret_ ("", Some (rejectionError (Authn.rejection_Code rejection)),
             set_FailureReason record (Authn.rejection_Reason rejection))
  | (credential, None) =>
      let caller := Authn.Caller credential in
      let! result :=
        Reissue.Reissue reissuer
          {| Reissue.req_Caller := caller;
             Reissue.req_Procedure := Registry.entry_Procedure entry;
             Reissue.req_ContextToken := Authn.ContextToken credential |} in
      mret_ (match result with
             | Err err =>
                 let record :=
                   if negb (Is err Reissue.ErrInvalidContext) then
                     set_CallerService record caller
                   else record in
                 let '(rejection, record) := reissueRejection err record in
                 ("", Some rejection, record)
             | Ok result =>
                 (issued_Token (Reissue.res_Issued result), None,
                  recordReissued record caller result)
             end)
  end.
End admission.

(** ** The pipeline *)

(** What a handler does with a request whose context carries the internal token
    and the audit record: the calls on the response writer, the record as it
    left it, and whether it panicked instead of returning. *)
Record Served : Type := {
  served_events : list ResponseEvent;
  served_record : AuditLog.Record_;
  served_panicked : bool;
}.

Definition Handler (W : Type) : Type :=
  Request → option string → AuditLog.Record_ → M W Served.

(** What one request leaves behind. *)
Record Exchange : Type := {
  response : list ResponseEvent;
  emitted : list AuditLog.Line;
  span_status : option string; (* the description of an error status *)
  panicked : bool;
}.

(** The audit interceptor of [interceptor.go], around a server function that
    answers with an error or nil; [None] stands for a context without record. *)
Definition resultOf (err : option error) : string :=
  match err with None => resultOK | Some err => code_string (Connecterr.CodeOf err) end.

Definition ServerFunc (W : Type) : Type :=
  option AuditLog.Record_ → M W (option error * option AuditLog.Record_).

Definition AuditInterceptor {W} (next : ServerFunc W) : ServerFunc W := λ record,
  let! out := next record in
  let '(err, record) := out in
  mret_ (err, (λ r, set_Result r (resultOf err)) <$> record).

Section pipeline.
Context {W : Type}.
(** [connecthttp.ErrorWriter]: which requests it answers, and the calls its
    [Write] makes on the response writer for an error. *)
Context (IsSupported : Request → bool).
Context (ErrorWriter_Write : Request → error → list ResponseEvent).
(** The span context the tracer starts, [None] when it is not valid. *)
Context (Start : string → M W (option (string * string))).

Record pipeline : Type := {
  registry : Registry.Registry;
  emitter : AuditLog.Emitter;
  trustedProxyHops : Z;
  admitWith : Admission W;
  next : Handler W;
}.

Definition classify (p : pipeline) (r : Request) : option Registry.Entry :=
  if negb (bool_decide (Method r = MethodPost)) || negb (IsSupported r) then None
  else Registry.Lookup (registry p) (URL_Path r).

(** [handleUnimplemented], the fallback of the pipelines and the handler of
    every other path. *)
Definition handleUnimplemented (r : Request) : list ResponseEvent :=
  if negb (bool_decide (Method r = MethodPost)) || negb (IsSupported r) then NotFound
  else ErrorWriter_Write r Connecterr.Unimplemented.

Definition serve (p : pipeline) (r : Request) (entry : Registry.Entry)
    (record : AuditLog.Record_) : M W Served :=
  let! admitted := admitWith p (header r) entry record in
  let '(token, rejection, record) := admitted in
  match rejection with
  | Some rejection =>
      mret_ {| served_events := ErrorWriter_Write r rejection;
               served_record :=
                 set_Result record (code_string (Connecterr.CodeOf rejection));
               served_panicked := false |}
  | None =>
      next p r (if decide (token ≠ "") then Some token else None) record
  end.

(** The deferred [finish]: it runs when the handler returns and when it
    panics. *)
Definition finish (p : pipeline) (served : Served) : Exchange :=
  let record := served_record served in
  let result :=
    if decide (AuditLog.Result record = "") then resultUnknown else AuditLog.Result record in
  let record := set_outcome record result (status (recorder_run (served_events served))) in
  {| response := served_events served;
     emitted := snd (AuditLog.Emit (emitter p) (Some record) []);
     span_status := if decide (result ≠ resultOK) then Some result else None;
     panicked := served_panicked served |}.

Definition ServeHTTP (p : pipeline) (r : Request) : M W Exchange :=
  match classify p r with
  | None =>
      mret_ {| response := handleUnimplemented r; emitted := []; span_status := None;
               panicked := false |}
  | Some entry =>
      let! spanContext := Start (TrimPrefix (Registry.entry_Procedure entry) "/") in
      let record :=
        newRecord entry (SourceIP.sourceIP (header r) (RemoteAddr r) (trustedProxyHops p))
          spanContext in
      let! served := serve p r entry record in
      mret_ (finish p served)
  end.
End pipeline.

Arguments pipeline : clear implicits.

(** ** The routes of a listener *)

(** A handler as a mux sees it. *)
Definition HTTPHandler (W : Type) : Type := Request → M W Exchange.

(** [Config]; [None] for a nil authenticator or issuer. *)
Record Config {W : Type} : Type := {
  Inbound : string;
  cfg_Registry : Registry.Registry;
  Handlers : gmap string (Handler W);
  cfg_Audit : AuditLog.Emitter;
  Authenticator : option (Authn.Authenticator W);
  Issuer : option (EntryIssuer W);
  Reissuer : Reissue.Reissuer;
  TrustedProxyHops : Z;
}.
Arguments Config : clear implicits.

Section routes.
Context {W : Type}.
Context (IsSupported : Request → bool).
Context (ErrorWriter_Write : Request → error → list ResponseEvent).
Context (Start : string → M W (option (string * string))).
Context (ParseUnverified : string → option (list string)).
Context `{!Reissue.ContextVerifier W Claims} `{!Reissue.ServiceIssuer W Claims Issued}.

(** [cfg.admission()]: [None] is the panic on an unknown inbound. *)
Definition admission (cfg : Config W) : option (Admission W) :=
  if decide (Inbound cfg = Config.InboundPublic) then
    let authenticator := default (Authn.NewAuthenticator None None) (Authenticator cfg) in
    Some (public_admit authenticator (Issuer cfg))
  else if decide (Inbound cfg = Config.InboundInternal) then
    Some (service_admit ParseUnverified (Reissuer cfg))
  else None.

Definition newUnimplementedHandler : HTTPHandler W := λ r,
  mret_ {| response := handleUnimplemented IsSupported ErrorWriter_Write r; emitted := [];
           span_status := None; panicked := false |}.

(** The pipeline [Routes] mounts at the path of a handler. *)
Definition pipelineOf (cfg : Config W) (admitWith : Admission W) (next : Handler W) : pipeline W :=
  {| registry := cfg_Registry cfg; emitter := cfg_Audit cfg;
     trustedProxyHops := TrustedProxyHops cfg; admitWith := admitWith; next := next |}.

(** What [Routes] registers with the mux, in order. *)
Definition Routes (cfg : Config W) : option (list (string * HTTPHandler W)) :=
  match admission cfg with
  | None => None
  | Some admitWith =>
      Some (omap (λ path,
              (λ next, (path, ServeHTTP IsSupported ErrorWriter_Write Start
                                (pipelineOf cfg admitWith next))) <$> Handlers cfg !! path)
              (sorted_keys (Handlers cfg))
            ++ [("/", newUnimplementedHandler)])
  end.
End routes.

(** ** Correctness of the recorder *)

Lemma recorder_run_written s events :
  written s = true → status (foldl recorder_step s events) = status s.
Proof.
  revert s. induction events as [|e events IH]; intros s Hs; [done|]. simpl.
  destruct e; simpl; unfold recorder_WriteHeader; rewrite ?Hs; simpl; rewrite IH; done.
Qed.

(** A response without informational headers before its status. *)
Definition plain (events : list ResponseEvent) : Prop :=
  match events with WriteHeader st :: _ => informational st = false | _ => True end.

(** The recorder agrees with the status the client sees, except that it takes
    an informational header for the status. *)
Lemma recorder_run_status events :
  plain events → status (recorder_run events) = response_status events.
Proof.
  unfold recorder_run. destruct events as [|[st|body] events]; [done|..]; simpl.
  - intros ->. by rewrite recorder_run_written.
  - intros _. by rewrite recorder_run_written.
Qed.

(** ** Correctness of the admissions *)

(** The input an external token is exchanged with. *)
Definition external_input (entry : Registry.Entry) (token : Authn.ExternalToken) :
    ExternalTokenInput :=
  {| Audience := Registry.entry_Destination entry;
     input_TokenUse := Authn.TokenUse token; input_Subject := Authn.Subject token;
     input_ClientID := Authn.ClientID token; input_Scope := Authn.Scope token;
     SourceJTI := Authn.JTI token; SourceExpiresAt := Authn.ExpiresAt token;
     TenantPublicID := Authn.TenantID token; EventPublicID := Authn.EventID token |}.

Section admission_correct.
Context {W : Type}.
Implicit Types (a : Authn.Authenticator W) (ei : option (EntryIssuer W)) (w : W).
Implicit Types (header : Header) (entry : Registry.Entry) (record : AuditLog.Record_).

(** What the public listener forwards: an anonymous request without a token,
    or one whose external token is admitted and exchanged for an internal
    token for the entry's destination. *)
Inductive public_forwards (a : Authn.Authenticator W) (ei : option (EntryIssuer W))
    header entry (w : W) : string → option Issued → W → Prop :=
| forwards_anonymous w' :
    Authn.admitted a header entry w {| Authn.External := None |} w' →
    public_forwards a ei header entry w "" None w'
| forwards_external token i issued w1 w' :
    Authn.admitted a header entry w {| Authn.External := Some token |} w1 →
    ei = Some i →
    IssueFromExternal i (external_input entry token) w1 = (Ok issued, w') →
    public_forwards a ei header entry w (issued_Token issued) (Some issued) w'.

Lemma issue_ok (ei : option (EntryIssuer W)) entry token w issued w' :
  issue ei entry token w = (Ok issued, w') ↔
  ∃ i, ei = Some i ∧ IssueFromExternal i (external_input entry token) w = (Ok issued, w').
Proof.
  unfold issue, mbind_, mret_, external_input. destruct ei as [i|].
  2: { split; [done|by intros (? & ? & _)]. }
  destruct (IssueFromExternal i _ w) as [[x|] w1] eqn:Hi;
    (split; [try done; intros [= <- <-]; by exists i|]); intros (? & [= <-] & H); congruence.
Qed.

Lemma public_admit_ok a ei header entry record w token record' w' :
  public_admit a ei header entry record w = ((token, None, record'), w') →
  ∃ issued, public_forwards a ei header entry w token issued w'.
Proof.
  unfold public_admit, mbind_, mret_.
  destruct (Authn.Authenticate a header entry w) as [[result [rejection|]] w1] eqn:Ha; [done|].
  apply Authn.Authenticate_admitted in Ha. destruct result as [[ext|]]; simpl.
  - destruct (issue ei entry ext w1) as [[issued|err] w2] eqn:Hi; [|done].
    intros [= <- _ <-]. apply issue_ok in Hi as (i & -> & Hi).
    exists (Some issued). by econstructor.
  - intros [= <- _ <-]. exists None. by constructor.
Qed.

Lemma public_forwards_admit a ei header entry record w token issued w' :
  public_forwards a ei header entry w token issued w' →
  ∃ record', public_admit a ei header entry record w = ((token, None, record'), w') ∧
    AuditLog.FailureReason record' = AuditLog.FailureReason record.
Proof.
  intros [w1 Ha|ext i iss w1 w2 Ha -> Hi]; apply Authn.Authenticate_admitted in Ha;
    unfold public_admit, mbind_, mret_; rewrite Ha; cbn [Authn.External]; [by eexists|].
  rewrite (proj2 (issue_ok (Some i) entry ext w1 iss w2)) by eauto. by eexists.
Qed.

(** A rejection has a reason and one of the fixed answers. *)
Definition answers : list (Code * string * list string) :=
  [(CodePermissionDenied, Connecterr.messagePermissionDenied, []);
   (CodeUnavailable, Connecterr.messageAuthenticationUnavailable, []);
   (CodeUnauthenticated, Connecterr.messageUnauthenticated, []);
   (CodeCanceled, Connecterr.messageCanceled, []);
   (CodeDeadlineExceeded, Connecterr.messageDeadlineExceeded, []);
   (CodeInternal, Connecterr.messageInternal, [])].

Lemma InternalError_answers err : Connecterr.visible (Connecterr.InternalError err) ∈ answers.
Proof.
  rewrite Connecterr.InternalError_visible. unfold answers.
  destruct (Is err Canceled); [set_solver|]. destruct (Is err DeadlineExceeded); set_solver.
Qed.

Lemma rejectionError_answers code : Connecterr.visible (rejectionError code) ∈ answers.
Proof.
  unfold rejectionError. repeat case_decide; [set_solver..|]. apply InternalError_answers.
Qed.

(** A refusal: what the audit record says of a request that was not admitted. *)
Record refusal (record record' : AuditLog.Record_) : Prop := {
  refusal_reason : AuditLog.FailureReason record' ≠ "";
  refusal_procedure : AuditLog.Procedure record' = AuditLog.Procedure record;
  refusal_source : AuditLog.SourceIP record' = AuditLog.SourceIP record;
  refusal_not_issued : AuditLog.IssuedJTI record' = AuditLog.IssuedJTI record;
}.

Lemma public_admit_rejected a ei header entry record w token err record' w' :
  public_admit a ei header entry record w = ((token, Some err, record'), w') →
  token = "" ∧ Connecterr.visible err ∈ answers ∧ refusal record record'.
Proof.
  unfold public_admit, mbind_, mret_.
  destruct (Authn.Authenticate a header entry w) as [[result [rejection|]] w1] eqn:Ha.
  - intros [= <- <- <- _]. split; [done|]. split; [apply rejectionError_answers|].
    apply Authn.Authenticate_reason in Ha. by destruct (Authn.External result).
  - destruct result as [[ext|]]; simpl; [|done].
    destruct (issue ei entry ext w1) as [[issued|e] w2]; [done|].
    intros [= <- <- <- _]. split; [done|]. split; [apply InternalError_answers|]. done.
Qed.

Context (ParseUnverified : string → option (list string)).
Context `{!Reissue.ContextVerifier W Claims} `{!Reissue.ServiceIssuer W Claims Issued}.

(** What the internal listener forwards: a request whose credential the
    reissuer turns into a service token. *)
Definition service_forwards (reissuer : Reissue.Reissuer) header entry (w : W)
    (credential : Authn.ServiceCredential) (result : Reissue.Result Issued) (w' : W) : Prop :=
  header !! CanonicalHeaderKey Authn.dpopHeader = None ∧
  Authn.service_credential ParseUnverified header credential ∧
  Reissue.reissues reissuer
    {| Reissue.req_Caller := Authn.Caller credential;
       Reissue.req_Procedure := Registry.entry_Procedure entry;
       Reissue.req_ContextToken := Authn.ContextToken credential |} w result w'.

Lemma service_admit_ok reissuer header entry record w token record' w' :
  service_admit ParseUnverified reissuer header entry record w = ((token, None, record'), w') ↔
  ∃ credential result, service_forwards reissuer header entry w credential result w' ∧
    token = issued_Token (Reissue.res_Issued result) ∧
    record' = recordReissued record (Authn.Caller credential) result.
Proof.
  unfold service_admit, mbind_, mret_, service_forwards.
  destruct (Authn.ServiceCall ParseUnverified header) as [credential [rejection|]] eqn:Hs.
  { split; [done|]. intros (c & res & (Hd & Hc & _) & _).
    enough (Authn.ServiceCall ParseUnverified header = (c, None)) by congruence.
    by apply Authn.ServiceCall_ok. }
  destruct (Reissue.Reissue reissuer _ w) as [[res|err] w1] eqn:Hr.
  - apply Authn.ServiceCall_ok in Hs as Hs'. destruct Hs' as [Hd Hc].
    apply Reissue.Reissue_ok in Hr as Hr'. split.
    + intros [= <- <- <-]. by exists credential, res.
    + intros (c & res' & (Hd' & Hc' & Hr2) & -> & ->).
      assert (c = credential) as ->.
      { enough (Authn.ServiceCall ParseUnverified header = (c, None)) by congruence.
        by apply Authn.ServiceCall_ok. }
      apply Reissue.Reissue_ok in Hr2. congruence.
  - split; [by destruct (reissueRejection err _)|].
    intros (c & res' & (Hd' & Hc' & Hr2) & _). exfalso.
    assert (c = credential) as ->.
    { enough (Authn.ServiceCall ParseUnverified header = (c, None)) by congruence.
      by apply Authn.ServiceCall_ok. }
    apply Reissue.Reissue_ok in Hr2. congruence.
Qed.
End admission_correct.

(** ** Correctness of the pipeline *)

Section pipeline_correct.
Context {W : Type}.
Context (IsSupported : Request → bool).
Context (ErrorWriter_Write : Request → error → list ResponseEvent).
Context (Start : string → M W (option (string * string))).
Implicit Types (p : pipeline W) (r : Request) (w : W).

Local Abbreviation serveHTTP := (ServeHTTP IsSupported ErrorWriter_Write Start).
Local Abbreviation classified := (classify IsSupported).

(** The requests a pipeline takes for a registered procedure. *)
Lemma classify_Some p r entry :
  classified p r = Some entry ↔
  Method r = MethodPost ∧ IsSupported r = true ∧
  Registry.Lookup (registry p) (URL_Path r) = Some entry.
Proof.
  unfold classify. destruct (bool_decide (Method r = MethodPost)) eqn:Hm;
    [apply bool_decide_eq_true in Hm|apply bool_decide_eq_false in Hm].
  - destruct (IsSupported r); simpl; [tauto|]. split; [done|by intros (_ & ? & _)].
  - simpl. split; [done|]. by intros [? _].
Qed.

(** One audit line, about the response as the client sees it. *)
Definition audited (e : Exchange) : Prop :=
  ∃ record, emitted e =
    [{| AuditLog.line_Message := AuditLog.groupKey; AuditLog.line_Group := AuditLog.attrs record |}] ∧
    (plain (response e) → AuditLog.HTTPStatus record = response_status (response e)) ∧
    AuditLog.Result record ≠ "" ∧
    span_status e =
      (if decide (AuditLog.Result record = resultOK) then None else Some (AuditLog.Result record)).

Lemma finish_audited p served :
  AuditLog.logging (emitter p) = true → audited (finish p served).
Proof.
  intros Hlog. unfold finish, audited, AuditLog.Emit. simpl. rewrite Hlog. simpl.
  eexists. split; [done|]. split; [apply recorder_run_status|]. simpl.
  destruct (decide (AuditLog.Result (served_record served) = "")) as [|Hne]; [done|].
  split; [done|]. destruct (decide (_ = resultOK)) as [->|];
    [by rewrite decide_False by tauto|by rewrite decide_True].
Qed.

(** Every exchange of a registered procedure is audited once, also when the
    handler panics; no other exchange is. *)
Lemma ServeHTTP_audited p r w :
  AuditLog.logging (emitter p) = true →
  match classified p r with
  | Some _ => audited (serveHTTP p r w).1
  | None => emitted (serveHTTP p r w).1 = []
  end.
Proof.
  intros Hlog. unfold ServeHTTP. destruct (classified p r) as [entry|]; [|done].
  unfold mbind_. destruct (Start _ w) as [sc w1].
  destruct (serve ErrorWriter_Write p r entry _ w1) as [served w2]. simpl.
  by apply finish_audited.
Qed.

(** The record a request starts with. *)
Definition started p r (entry : Registry.Entry) (sc : option (string * string)) :
    AuditLog.Record_ :=
  newRecord entry (SourceIP.sourceIP (header r) (RemoteAddr r) (trustedProxyHops p)) sc.

(** A rejected request is answered by the error writer: the handler is not
    consulted. *)
Lemma ServeHTTP_rejected p r w entry sc w1 token err record w2 :
  classified p r = Some entry →
  Start (TrimPrefix (Registry.entry_Procedure entry) "/") w = (sc, w1) →
  admitWith p (header r) entry (started p r entry sc) w1 = ((token, Some err, record), w2) →
  serveHTTP p r w =
    (finish p {| served_events := ErrorWriter_Write r err;
                 served_record := set_Result record (code_string (Connecterr.CodeOf err));
                 served_panicked := false |}, w2).
Proof.
  intros Hc Hs Ha. unfold ServeHTTP, mbind_, mret_. rewrite Hc, Hs.
  unfold serve, mbind_, mret_. fold (started p r entry sc). by rewrite Ha.
Qed.

Lemma ServeHTTP_admitted p r w entry sc w1 token record w2 :
  classified p r = Some entry →
  Start (TrimPrefix (Registry.entry_Procedure entry) "/") w = (sc, w1) →
  admitWith p (header r) entry (started p r entry sc) w1 = ((token, None, record), w2) →
  serveHTTP p r w =
    (let '(served, w3) := next p r (if decide (token ≠ "") then Some token else None) record w2 in
     (finish p served, w3)).
Proof.
  intros Hc Hs Ha. unfold ServeHTTP, mbind_, mret_. rewrite Hc, Hs.
  unfold serve, mbind_, mret_. fold (started p r entry sc). by rewrite Ha.
Qed.

(** Two pipelines that differ in their handler only. *)
Definition with_next p (h : Handler W) : pipeline W :=
  {| registry := registry p; emitter := emitter p; trustedProxyHops := trustedProxyHops p;
     admitWith := admitWith p; next := h |}.

(** A request whose exchange depends on the handler was admitted. *)
Lemma ServeHTTP_forwards p r w h h' :
  serveHTTP (with_next p h) r w ≠ serveHTTP (with_next p h') r w →
  ∃ entry sc w1 token record w2,
    classified p r = Some entry ∧
    Start (TrimPrefix (Registry.entry_Procedure entry) "/") w = (sc, w1) ∧
    admitWith p (header r) entry (started p r entry sc) w1 = ((token, None, record), w2).
Proof.
  intros Hne. destruct (classified p r) as [entry|] eqn:Hc.
  2: { exfalso. apply Hne. unfold ServeHTTP, with_next.
       unfold classify in *. simpl. by rewrite Hc. }
  destruct (Start (TrimPrefix (Registry.entry_Procedure entry) "/") w) as [sc w1] eqn:Hs.
  destruct (admitWith p (header r) entry (started p r entry sc) w1)
    as [[[token [err|]] record] w2] eqn:Ha; [|eauto 10].
  exfalso. apply Hne.
  rewrite (ServeHTTP_rejected (with_next p h) r w entry sc w1 token err record w2) by done.
  by rewrite (ServeHTTP_rejected (with_next p h') r w entry sc w1 token err record w2).
Qed.

(** Nothing reaches a service from the public listener unless it was admitted
    there, and it carries the token that was issued for it. *)
Lemma public_forwards_only p a ei r w h h' :
  admitWith p = public_admit a ei →
  serveHTTP (with_next p h) r w ≠ serveHTTP (with_next p h') r w →
  ∃ entry sc w1 token issued w2,
    classified p r = Some entry ∧
    Start (TrimPrefix (Registry.entry_Procedure entry) "/") w = (sc, w1) ∧
    public_forwards a ei (header r) entry w1 token issued w2.
Proof.
  intros Ha (entry & sc & w1 & token & record & w2 & Hc & Hs & Had)%ServeHTTP_forwards.
  rewrite Ha in Had. apply public_admit_ok in Had as [issued Hf]. eauto 10.
Qed.
End pipeline_correct.

(** Nothing reaches a service from the internal listener but what the reissuer
    gave a service token for. *)
Lemma service_forwards_only {W} IsSupported ErrorWriter_Write
    (Start : string → M W (option (string * string))) ParseUnverified
    `{!Reissue.ContextVerifier W Claims} `{!Reissue.ServiceIssuer W Claims Issued}
    (p : pipeline W) reissuer r w h h' :
  admitWith p = service_admit ParseUnverified reissuer →
  ServeHTTP IsSupported ErrorWriter_Write Start (with_next p h) r w
    ≠ ServeHTTP IsSupported ErrorWriter_Write Start (with_next p h') r w →
  ∃ entry sc w1 credential result w2,
    classify IsSupported p r = Some entry ∧
    Start (TrimPrefix (Registry.entry_Procedure entry) "/") w = (sc, w1) ∧
    service_forwards ParseUnverified reissuer (header r) entry w1 credential result w2.
Proof.
  intros Ha (entry & sc & w1 & token & record & w2 & Hc & Hs & Had)%ServeHTTP_forwards.
  rewrite Ha in Had. apply service_admit_ok in Had as (credential & result & Hf & _). eauto 10.
Qed.

(** ** The two listeners as specifications *)

Section listeners.
Context {W : Type}.
Context (IsSupported : Request → bool).
Context (ErrorWriter_Write : Request → error → list ResponseEvent).
Context (Start : string → M W (option (string * string))).
Implicit Types (p : pipeline W) (r : Request) (w : W).

(** The token a handler gets: an empty one is not attached. *)
Definition attached (token : string) : option string :=
  if decide (token ≠ "") then Some token else None.

(** A request is not for a registered procedure. *)
Definition exchange_ignored p r (w : W) (e : Exchange) (w' : W) : Prop :=
  classify IsSupported p r = None ∧ w' = w ∧
  e = {| response := handleUnimplemented IsSupported ErrorWriter_Write r; emitted := [];
         span_status := None; panicked := false |}.

(** A procedure is recognised and its span started. *)
Definition exchange_started p r (w : W) entry sc (w1 : W) : Prop :=
  classify IsSupported p r = Some entry ∧
  Start (TrimPrefix (Registry.entry_Procedure entry) "/") w = (sc, w1).

(** A rejected exchange: one of the fixed answers; the audit line carries its
    code and the reason, which the answer does not. *)
Definition exchange_rejected p r entry sc (e : Exchange) : Prop :=
  ∃ err record, Connecterr.visible err ∈ answers ∧ refusal (started p r entry sc) record ∧
    e = finish p {| served_events := ErrorWriter_Write r err;
                    served_record := set_Result record (code_string (Connecterr.CodeOf err));
                    served_panicked := false |}.

(** A forwarded exchange: the handler ran, with this token and this record. *)
Definition exchange_forwarded p r (token : string) record (w : W) (e : Exchange) (w' : W) : Prop :=
  ∃ served, next p r (attached token) record w = (served, w') ∧ e = finish p served.

(** The public listener. *)
Inductive public_exchange p (a : Authn.Authenticator W) (ei : option (EntryIssuer W)) r (w : W) :
    Exchange → W → Prop :=
| public_ignored e w' : exchange_ignored p r w e w' → public_exchange p a ei r w e w'
| public_rejected entry sc w1 e w' :
    exchange_started p r w entry sc w1 →
    (∀ token issued w2, ¬ public_forwards a ei (header r) entry w1 token issued w2) →
    exchange_rejected p r entry sc e → public_exchange p a ei r w e w'
| public_anonymous entry sc w1 w2 e w' :
    exchange_started p r w entry sc w1 →
    Authn.admitted a (header r) entry w1 {| Authn.External := None |} w2 →
    exchange_forwarded p r "" (started p r entry sc) w2 e w' →
    public_exchange p a ei r w e w'
| public_external entry sc w1 token w2 i issued w3 e w' :
    exchange_started p r w entry sc w1 →
    Authn.admitted a (header r) entry w1 {| Authn.External := Some token |} w2 →
    ei = Some i →
    IssueFromExternal i (external_input entry token) w2 = (Ok issued, w3) →
    exchange_forwarded p r (issued_Token issued)
      (set_issued (recordExternal (started p r entry sc) token)
         (claims_Txn (issued_Claims issued)) (claims_ID (issued_Claims issued))) w3 e w' →
    public_exchange p a ei r w e w'.

Lemma public_admit_cases a ei header entry record w :
  (∃ w', Authn.admitted a header entry w {| Authn.External := None |} w' ∧
     public_admit a ei header entry record w = (("", None, record), w')) ∨
  (∃ token w1 i issued w', Authn.admitted a header entry w {| Authn.External := Some token |} w1 ∧
     ei = Some i ∧ IssueFromExternal i (external_input entry token) w1 = (Ok issued, w') ∧
     public_admit a ei header entry record w =
       ((issued_Token issued, None,
         set_issued (recordExternal record token)
           (claims_Txn (issued_Claims issued)) (claims_ID (issued_Claims issued))), w')) ∨
  (∃ token err record' w', public_admit a ei header entry record w = ((token, Some err, record'), w')).
Proof.
  unfold public_admit, mbind_.
  destruct (Authn.Authenticate a header entry w) as [[result [rejection|]] w1] eqn:Ha;
    [by right; right; eauto|].
  apply Authn.Authenticate_admitted in Ha. destruct result as [[token|]]; simpl in *.
  - destruct (issue ei entry token w1) as [[issued|err] w2] eqn:Hi; simpl; [|by right; right; eauto].
    apply issue_ok in Hi as (i & -> & Hi). right; left. by exists token, w1, i, issued, w2.
  - left. by exists w1.
Qed.

Context (ParseUnverified : string → option (list string)).
Context `{!Reissue.ContextVerifier W Claims} `{!Reissue.ServiceIssuer W Claims Issued}.

(** The internal listener. *)
Inductive service_exchange p (reissuer : Reissue.Reissuer) r (w : W) : Exchange → W → Prop :=
| service_ignored e w' : exchange_ignored p r w e w' → service_exchange p reissuer r w e w'
| service_rejected entry sc w1 e w' :
    exchange_started p r w entry sc w1 →
    (∀ credential result w2,
       ¬ service_forwards ParseUnverified reissuer (header r) entry w1 credential result w2) →
    exchange_rejected p r entry sc e → service_exchange p reissuer r w e w'
| service_reissued entry sc w1 credential result w2 e w' :
    exchange_started p r w entry sc w1 →
    service_forwards ParseUnverified reissuer (header r) entry w1 credential result w2 →
    exchange_forwarded p r (issued_Token (Reissue.res_Issued result))
      (recordReissued (started p r entry sc) (Authn.Caller credential) result) w2 e w' →
    service_exchange p reissuer r w e w'.

Lemma reissueRejection_answers err record rejection record' :
  reissueRejection err record = (rejection, record') →
  Connecterr.visible rejection ∈ answers ∧ refusal record record'.
Proof.
  unfold reissueRejection.
  repeat case_match; intros [= <- <-]; (split; [|done]); try apply InternalError_answers;
    unfold answers; set_solver.
Qed.

Lemma service_admit_rejected reissuer header entry record w token err record' w' :
  service_admit ParseUnverified reissuer header entry record w
    = ((token, Some err, record'), w') →
  token = "" ∧ Connecterr.visible err ∈ answers ∧ refusal record record'.
Proof.
  unfold service_admit, mbind_.
  destruct (Authn.ServiceCall ParseUnverified header) as [credential [rejection|]] eqn:Hc.
  { intros [= <- <- <- _]. apply Authn.ServiceCall_rejection in Hc as [_ Hreason].
    split; [done|]. split; [apply rejectionError_answers|]. done. }
  destruct (Reissue.Reissue _ _ w) as [[result|e] w1]; [done|].
  destruct (reissueRejection e _) as [rejection record1] eqn:Hr. intros [= <- <- <- _].
  apply reissueRejection_answers in Hr as [? [? Hp Hs Hj]]. split; [done|]. split; [done|].
  destruct (negb _); split; done.
Qed.

Lemma ServeHTTP_ignored p r w :
  classify IsSupported p r = None →
  exchange_ignored p r w (ServeHTTP IsSupported ErrorWriter_Write Start p r w).1
    (ServeHTTP IsSupported ErrorWriter_Write Start p r w).2.
Proof. intros Hc. unfold ServeHTTP. by rewrite Hc. Qed.

Lemma ServeHTTP_forwarded p r w entry sc w1 token record w2 :
  exchange_started p r w entry sc w1 →
  admitWith p (header r) entry (started p r entry sc) w1 = ((token, None, record), w2) →
  exchange_forwarded p r token record w2 (ServeHTTP IsSupported ErrorWriter_Write Start p r w).1
    (ServeHTTP IsSupported ErrorWriter_Write Start p r w).2.
Proof.
  intros [Hc Hs] Ha. rewrite (ServeHTTP_admitted _ _ _ _ _ _ _ _ _ _ _ _ Hc Hs Ha).
  unfold exchange_forwarded, attached. destruct (next p r _ record w2) as [served w3]. eauto.
Qed.

Lemma ServeHTTP_refused p r w entry sc w1 token err record w2 :
  exchange_started p r w entry sc w1 →
  Connecterr.visible err ∈ answers ∧ refusal (started p r entry sc) record →
  admitWith p (header r) entry (started p r entry sc) w1 = ((token, Some err, record), w2) →
  exchange_rejected p r entry sc (ServeHTTP IsSupported ErrorWriter_Write Start p r w).1.
Proof.
  intros [Hc Hs] [Hv Href] Ha. rewrite (ServeHTTP_rejected _ _ _ _ _ _ _ _ _ _ _ _ _ Hc Hs Ha).
  by exists err, record.
Qed.

Lemma public_refines p a ei r w :
  admitWith p = public_admit a ei →
  public_exchange p a ei r w (ServeHTTP IsSupported ErrorWriter_Write Start p r w).1
    (ServeHTTP IsSupported ErrorWriter_Write Start p r w).2.
Proof.
  intros Hadmit. destruct (classify IsSupported p r) as [entry|] eqn:Hc;
    [|by apply public_ignored, ServeHTTP_ignored].
  destruct (Start (TrimPrefix (Registry.entry_Procedure entry) "/") w) as [sc w1] eqn:Hs.
  assert (exchange_started p r w entry sc w1) as Hst by done.
  destruct (public_admit_cases a ei (header r) entry (started p r entry sc) w1) as
    [(w2 & Hin & Ha)|[(token & w2 & i & issued & w3 & Hin & Hi & Hx & Ha)|
      (token & err & record & w2 & Ha)]].
  - eapply public_anonymous; [done..|]. apply (ServeHTTP_forwarded _ _ _ _ _ _ _ _ _ Hst).
    by rewrite Hadmit.
  - eapply public_external; [done..|]. apply (ServeHTTP_forwarded _ _ _ _ _ _ _ _ _ Hst).
    by rewrite Hadmit.
  - eapply public_rejected; [done|..].
    + intros t issued w3 Hf.
      apply (public_forwards_admit _ _ _ _ (started p r entry sc)) in Hf as (? & Hf & _).
      congruence.
    + eapply ServeHTTP_refused; [done| |by rewrite Hadmit].
      by apply public_admit_rejected in Ha as [_ ?].
Qed.

Lemma service_refines p reissuer r w :
  admitWith p = service_admit ParseUnverified reissuer →
  service_exchange p reissuer r w (ServeHTTP IsSupported ErrorWriter_Write Start p r w).1
    (ServeHTTP IsSupported ErrorWriter_Write Start p r w).2.
Proof.
  intros Hadmit. destruct (classify IsSupported p r) as [entry|] eqn:Hc;
    [|by apply service_ignored, ServeHTTP_ignored].
  destruct (Start (TrimPrefix (Registry.entry_Procedure entry) "/") w) as [sc w1] eqn:Hs.
  assert (exchange_started p r w entry sc w1) as Hst by done.
  destruct (service_admit ParseUnverified reissuer (header r) entry (started p r entry sc) w1)
    as [[[token [err|]] record] w2] eqn:Ha.
  - eapply service_rejected; [done|..].
    + intros credential result w3 Hf.
      assert (service_admit ParseUnverified reissuer (header r) entry (started p r entry sc) w1
              = ((issued_Token (Reissue.res_Issued result), None,
                  recordReissued (started p r entry sc) (Authn.Caller credential) result), w3))
        as Hok by (apply service_admit_ok; eauto).
      congruence.
    + eapply ServeHTTP_refused; [done| |by rewrite Hadmit].
      by apply service_admit_rejected in Ha as [_ ?].
  - pose proof Ha as (credential & result & Hf & -> & ->)%service_admit_ok.
    eapply service_reissued; [done..|]. apply (ServeHTTP_forwarded _ _ _ _ _ _ _ _ _ Hst).
    by rewrite Hadmit.
Qed.
End listeners.

(** ** The routes of the two listeners *)

Section routes_correct.
Context {W : Type}.
Context (IsSupported : Request → bool).
Context (ErrorWriter_Write : Request → error → list ResponseEvent).
Context (Start : string → M W (option (string * string))).
Context (ParseUnverified : string → option (list string)).
Context `{!Reissue.ContextVerifier W Claims} `{!Reissue.ServiceIssuer W Claims Issued}.
Implicit Types (cfg : Config W).

Local Abbreviation routes := (Routes IsSupported ErrorWriter_Write Start ParseUnverified).

Lemma admission_public cfg :
  Inbound cfg = Config.InboundPublic →
  admission ParseUnverified cfg
    = Some (public_admit (default (Authn.NewAuthenticator None None) (Authenticator cfg)) (Issuer cfg)).
Proof. intros Hin. unfold admission. by rewrite decide_True. Qed.

Lemma admission_internal cfg :
  Inbound cfg = Config.InboundInternal →
  admission ParseUnverified cfg = Some (service_admit ParseUnverified (Reissuer cfg)).
Proof. intros Hin. unfold admission. by rewrite Hin. Qed.

(** Routes exist for the two inbounds only, and there is one per handler next
    to the fallback. *)
Lemma elem_of_Routes cfg rs path h :
  routes cfg = Some rs →
  (path, h) ∈ rs ↔
    (path = "/" ∧ h = newUnimplementedHandler IsSupported ErrorWriter_Write) ∨
    ∃ next admitWith, Handlers cfg !! path = Some next ∧ admission ParseUnverified cfg = Some admitWith ∧
      h = ServeHTTP IsSupported ErrorWriter_Write Start (pipelineOf cfg admitWith next).
Proof.
  unfold Routes. destruct (admission ParseUnverified cfg) as [admitWith|]; [|done]. intros [= <-].
  rewrite elem_of_app, list_elem_of_singleton, list_elem_of_omap. split.
  - intros [(path' & _ & Hp)|[= -> ->]]; [right|by left].
    destruct (Handlers cfg !! path') as [next|] eqn:Hn; [|done]. injection Hp as -> <-. eauto.
  - intros [[-> ->]|(next & ? & Hn & [= <-] & ->)]; [by right|left].
    exists path. rewrite Hn. split; [|done]. by apply elem_of_sorted_keys.
Qed.
End routes_correct.

(** ** Properties *)

(** The exchange of a path without a pipeline. *)
Definition answers_unimplemented {W} IsSupported ErrorWriter_Write (h : HTTPHandler W) : Prop :=
  ∀ r w, h r w =
    ({| response := handleUnimplemented IsSupported ErrorWriter_Write r; emitted := [];
        span_status := None; panicked := false |}, w).

(** C1. The public listener implements its specification: every route answers
    each request as [public_exchange] says, for every handler, verifier, issuer
    and world. A request reaches a service only without credentials on an
    anonymous procedure, or with an admitted external token, and then carries
    the internal token issued for exactly that token and destination; every
    other request is answered with one of the fixed errors and audited with a
    reason. *)
Theorem public_listener_refines {W} IsSupported ErrorWriter_Write
    (Start : string → M W (option (string * string))) ParseUnverified
    `{!Reissue.ContextVerifier W Claims} `{!Reissue.ServiceIssuer W Claims Issued}
    (cfg : Config W) rs path h :
  Inbound cfg = Config.InboundPublic →
  Routes IsSupported ErrorWriter_Write Start ParseUnverified cfg = Some rs → (path, h) ∈ rs →
  let a := default (Authn.NewAuthenticator None None) (Authenticator cfg) in
  (path = "/" ∧ answers_unimplemented IsSupported ErrorWriter_Write h) ∨
  ∃ next, Handlers cfg !! path = Some next ∧
    let p := pipelineOf cfg (public_admit a (Issuer cfg)) next in
    ∀ r w, public_exchange IsSupported ErrorWriter_Write Start p a (Issuer cfg) r w
             (h r w).1 (h r w).2.
Proof.
  intros Hin Hr Hh. apply (elem_of_Routes _ _ _ _ _ _ _ _ Hr) in Hh as
    [[-> ->]|(next & admission_ & Hn & Ha & ->)]; [by left|right].
  rewrite admission_public in Ha by done. injection Ha as <-.
  exists next. split; [done|]. intros p r w. by apply public_refines.
Qed.

(** C2. The internal listener implements its specification: a request reaches a
    service only with the service token the reissuer issued for its credential
    and the procedure; every other request is answered with one of the fixed
    errors and audited with a reason. *)
Theorem internal_listener_refines {W} IsSupported ErrorWriter_Write
    (Start : string → M W (option (string * string))) ParseUnverified
    `{!Reissue.ContextVerifier W Claims} `{!Reissue.ServiceIssuer W Claims Issued}
    (cfg : Config W) rs path h :
  Inbound cfg = Config.InboundInternal →
  Routes IsSupported ErrorWriter_Write Start ParseUnverified cfg = Some rs → (path, h) ∈ rs →
  (path = "/" ∧ answers_unimplemented IsSupported ErrorWriter_Write h) ∨
  ∃ next, Handlers cfg !! path = Some next ∧
    let p := pipelineOf cfg (service_admit ParseUnverified (Reissuer cfg)) next in
    ∀ r w, service_exchange IsSupported ErrorWriter_Write Start ParseUnverified p (Reissuer cfg)
             r w (h r w).1 (h r w).2.
Proof.
  intros Hin Hr Hh. apply (elem_of_Routes _ _ _ _ _ _ _ _ Hr) in Hh as
    [[-> ->]|(next & admission_ & Hn & Ha & ->)]; [by left|right].
  rewrite admission_internal in Ha by done. injection Ha as <-.
  exists next. split; [done|]. intros p r w. by apply service_refines.
Qed.

(** The status of an informational header is recorded, although the client gets
    the one after it. *)
Lemma recorder_informational :
  status (recorder_run [WriteHeader 103; WriteHeader 200]) = 103 ∧
  response_status [WriteHeader 103; WriteHeader 200] = 200.
Proof. done. Qed.

(** C7. Every exchange of a registered procedure is audited by exactly one line,
    also when the handler panics; the line reports a result and the status of the
    response as it was written (if no informational header came first), and the
    span is marked as failed exactly when the result is not [ok]. Requests for anything
    else leave no line. *)
Theorem exchanges_are_audited {W} IsSupported ErrorWriter_Write
    (Start : string → M W (option (string * string))) (p : pipeline W) r w :
  AuditLog.logging (emitter p) = true →
  match classify IsSupported p r with
  | Some _ => audited (ServeHTTP IsSupported ErrorWriter_Write Start p r w).1
  | None => emitted (ServeHTTP IsSupported ErrorWriter_Write Start p r w).1 = []
  end.
Proof. apply ServeHTTP_audited. Qed.

(** A listener in front of a service that panics after it wrote a status. *)

#[local] Instance example_verifier : Reissue.ContextVerifier unit Claims :=
  {| Reissue.Verify := λ _ _ w, (Err (ErrorNew "invalid token"), w) |}.

#[local] Instance example_issuer : Reissue.ServiceIssuer unit Claims Issued :=
  {| Reissue.ErrContextExpired := "context expired";
     Reissue.IssueUserOriginService := λ _ w, (Err (ErrorNew "no key"), w);
     Reissue.IssueMachineOriginService := λ _ w, (Err (ErrorNew "no key"), w) |}.

Definition example_next : Handler unit := λ r token record w,
  ({| served_events := [WriteHeader 207]; served_record := record; served_panicked := true |}, w).

Definition example_write (r : Request) (err : error) : list ResponseEvent :=
  [WriteHeader 500; Write (code_string (Connecterr.CodeOf err))].

Definition example_config (inbound : string) : Config unit :=
  {| Inbound := inbound; cfg_Registry := Registry.example_registry;
     Handlers := {["/a.S/" := example_next]}; cfg_Audit := {| AuditLog.logging := true |};
     Authenticator := None; Issuer := None;
     Reissuer := {| Reissue.registry := Registry.example_registry;
                    Reissue.policy := EdgePolicy.example_policy |};
     TrustedProxyHops := 0 |}.

Definition example_request (procedure : string) : Request :=
  {| Method := "POST"; URL_Path := procedure; header := ∅; RemoteAddr := "192.0.2.1:443" |}.

Definition example_routes (inbound : string) : list (string * HTTPHandler unit) :=
  default [] (Routes (λ _, true) example_write (λ _ w, (None, w)) (λ _, None)
                (example_config inbound)).

Lemma public_listener_refines_witness :
  ∃ h, (("/a.S/", h) ∈ example_routes "public") ∧
    ("/a.S/" = "/" ∧ answers_unimplemented (λ _, true) example_write h ∨
     ∃ next, Handlers (example_config "public") !! "/a.S/" = Some next ∧
       ∀ r w, public_exchange (λ _, true) example_write (λ _ w, (None, w))
         (pipelineOf (example_config "public")
            (public_admit (Authn.NewAuthenticator None None) None) next)
         (Authn.NewAuthenticator None None) None r w (h r w).1 (h r w).2).
Proof.
  eexists. split; [left|].
  apply (public_listener_refines (λ _, true) example_write (λ _ w, (None, w)) (λ _, None)
           (example_config "public") (example_routes "public")); [done|done|left].
Defined.

Lemma internal_listener_refines_witness :
  ∃ h, (("/a.S/", h) ∈ example_routes "internal") ∧
    ("/a.S/" = "/" ∧ answers_unimplemented (λ _, true) example_write h ∨
     ∃ next, Handlers (example_config "internal") !! "/a.S/" = Some next ∧
       ∀ r w, service_exchange (λ _, true) example_write (λ _ w, (None, w)) (λ _, None)
         (pipelineOf (example_config "internal")
            (service_admit (λ _, None) (Reissuer (example_config "internal"))) next)
         (Reissuer (example_config "internal")) r w (h r w).1 (h r w).2).
Proof.
  eexists. split; [left|].
  apply (internal_listener_refines (λ _, true) example_write (λ _ w, (None, w)) (λ _, None)
           (example_config "internal") (example_routes "internal")); [done|done|left].
Defined.

Definition example_pipeline : pipeline unit :=
  pipelineOf (example_config "public") (public_admit (Authn.NewAuthenticator None None) None)
    example_next.

Definition example_exchange : Exchange :=
  (ServeHTTP (λ _, true) example_write (λ _ w, (None, w)) example_pipeline
     (example_request "/a.S/Open") tt).1.

Lemma exchanges_are_audited_witness :
  panicked example_exchange = true ∧ response_status (response example_exchange) = 207 ∧
  audited example_exchange.
Proof.
  split; [vm_compute; reflexivity|]. split; [vm_compute; reflexivity|].
  apply (exchanges_are_audited (λ _, true) example_write (λ _ w, (None, w)) example_pipeline
           (example_request "/a.S/Open") tt). reflexivity.
Defined.
