(* ===== verification/Forward.v ===== *)
(** * Forwarding to a service ([internal/infra/connect/forward])

    [Unary] (forward.go) calls a service under a deadline and translates its
    errors; [Handlers] (mount.go) builds one handler per mounted service once
    mounts and bindings cover each other. *)

From S2P Require Import Prelude GoStd GoErrors.
From S2P Require Registry Destinations Connecterr AuditLog Authn Gateway.

Definition defaultUpstreamTimeout : Duration := 30 * Second.

Definition reasonUpstreamUnreachable : string := "upstream_unreachable".
Definition reasonUpstreamInternal : string := "upstream_internal".
Definition reasonUpstreamError : string := "upstream_error".
Definition reasonUpstreamRefused : string := "upstream_refused".
Definition reasonUpstreamRejectedInternalToken : string := "upstream_rejected_internal_token".
Definition reasonCanceled : string := "canceled".
Definition reasonDeadlineExceeded : string := "deadline_exceeded".

Definition authorizationHeader : string := "Authorization".

(** ** The context of a call *)

(** What the package reads of a [context.Context]: its deadline, the internal
    token under [internalTokenKey] and the audit record. *)
Record Context_ : Type := {
  ctx_Deadline : option Time;
  ctx_InternalToken : option string;
  ctx_Record : option AuditLog.Record_;
}.

Definition ContextWithInternalToken (ctx : Context_) (token : string) : Context_ :=
  {| ctx_Deadline := ctx_Deadline ctx; ctx_InternalToken := Some token;
     ctx_Record := ctx_Record ctx |}.

Definition internalTokenFrom (ctx : Context_) : option string := ctx_InternalToken ctx.

Definition hasInternalToken (ctx : Context_) : bool := bool_decide (is_Some (internalTokenFrom ctx)).

(** [AuthorizationInterceptor]: the request headers it leaves ([Header.Set]);
    [info] is false when the context carries no call info. *)
Definition AuthorizationInterceptor (ctx : Context_) (info : bool) (header : Header) : Header :=
  match internalTokenFrom ctx with
  | Some token =>
      if info then
        <[CanonicalHeaderKey authorizationHeader := ["Bearer " +:+ token]]> header
      else header
  | None => header
  end.

(** [withUpstreamDeadline] at time [now]; cancellation by the caller is part of
    the error a call returns. *)
Definition withUpstreamDeadline (now : Time) (ctx : Context_) : Context_ :=
  match ctx_Deadline ctx with
  | Some _ => ctx
  | None =>
      {| ctx_Deadline := Some (time_add now defaultUpstreamTimeout);
         ctx_InternalToken := ctx_InternalToken ctx; ctx_Record := ctx_Record ctx |}
  end.

(** ** Translating errors *)

Definition refusalCodes : list Code :=
  [CodeInvalidArgument; CodeNotFound; CodeAlreadyExists; CodePermissionDenied;
   CodeFailedPrecondition; CodeOutOfRange; CodeAborted; CodeUnauthenticated].

Definition relayedReason (code : Code) : string :=
  if bool_decide (code ∈ refusalCodes) then reasonUpstreamRefused else reasonUpstreamError.

Definition relayedError (upstream : Connect) : error :=
  foldl Connecterr.WithDetail
    (Connecterr.NewError (connect_code upstream) (connect_message upstream))
    (connect_details upstream).

(** [failed]: the error, and the record with the reason. *)
Definition failed (ctx : Context_) (reason : string) (err : error) :
    error * option AuditLog.Record_ :=
  (err, (λ r, Gateway.set_FailureReason r reason) <$> ctx_Record ctx).

Definition translateError (ctx : Context_) (err : error) : error * option AuditLog.Record_ :=
  if Is err Canceled then failed ctx reasonCanceled Connecterr.Canceled_
  else if Is err DeadlineExceeded then
    failed ctx reasonDeadlineExceeded Connecterr.DeadlineExceeded_
  else
    match AsConnectError err with
    | None => failed ctx reasonUpstreamUnreachable Connecterr.Unavailable
    | Some upstream =>
        if decide (connect_code upstream = CodeCanceled) then
          failed ctx reasonCanceled Connecterr.Canceled_
        else if decide (connect_code upstream = CodeDeadlineExceeded) then
          failed ctx reasonDeadlineExceeded Connecterr.DeadlineExceeded_
        else if negb (connect_remote upstream) then
          failed ctx reasonUpstreamUnreachable Connecterr.Unavailable
        else if bool_decide (connect_code upstream = CodeUnauthenticated)
                && hasInternalToken ctx then
          failed ctx reasonUpstreamRejectedInternalToken (Connecterr.InternalError err)
        else if bool_decide (connect_code upstream = CodeUnknown)
                || bool_decide (connect_code upstream = CodeInternal) then
          failed ctx reasonUpstreamInternal (Connecterr.InternalError err)
        else failed ctx (relayedReason (connect_code upstream)) (relayedError upstream)
    end.

(** [Unary]: the call runs under the upstream deadline; its error is
    translated.  The second component is the audit record of the context. *)
Definition Unary {W Req Res} (now : Time) (ctx : Context_) (req : Req)
    (call : Context_ → Req → M W (result error Res)) :
    M W (result error Res * option AuditLog.Record_) :=
  let ctx := withUpstreamDeadline now ctx in
  let! r := call ctx req in
  mret_ (match r with
         | Ok res => (Ok res, ctx_Record ctx)
         | Err err => let '(err, record) := translateError ctx err in (Err err, record)
         end).

(** ** Mounting *)

Definition ErrMissingMount : string := "forward: missing mount".
Definition ErrUnboundMount : string := "forward: unbound mount".
Definition ErrDuplicateMount : string := "forward: duplicate mount".

(** A [Mount]; what its [Register] does to a server is generated code. *)
Record Mount : Type := { mount_Service : string }.

(** The size limit of a request. *)
Definition maxRequestBytes : Z := Z.shiftl 1 20.

(** A handler: the service it serves, the base URL its client calls and the size
    its server reads. *)
Record MountedHandler : Type := {
  handler_Service : string;
  handler_BaseURL : string;
  handler_ReadMaxBytes : Z;
}.

Definition bind (bound : gmap string string) (binding : Registry.Binding) : gmap string string :=
  <[Registry.Service binding := Registry.Destination binding]> bound.

Fixpoint indexMounts (mounts : list Mount) (mounted : gmap string Mount) :
    result error (gmap string Mount) :=
  match mounts with
  | [] => Ok mounted
  | mount :: rest =>
      if decide (is_Some (mounted !! mount_Service mount)) then
        Err (Errorf "%w: %s is mounted more than once" [ErrorNew ErrDuplicateMount]
               [mount_Service mount])
      else indexMounts rest (<[mount_Service mount := mount]> mounted)
  end.

Definition checkCoverage (bound : gmap string string) (mounted : gmap string Mount) :
    option error :=
  let uncovered service :=
    if decide (is_Some (mounted !! service)) then []
    else [Errorf "%w: %s is bound but has no forwarder" [ErrorNew ErrMissingMount] [service]] in
  let unbound service :=
    if decide (is_Some (bound !! service)) then []
    else [Errorf "%w: %s has a forwarder but is not bound" [ErrorNew ErrUnboundMount] [service]] in
  errors_Join (concat (uncovered <$> sorted_keys bound) ++ concat (unbound <$> sorted_keys mounted)).

Section handlers.
(** The [String] method of a URL. *)
Context (url_String : URL → string).

Definition baseURLOf (service destination : string) (destinations : Destinations.DestinationsT) :
    result error string :=
  match destinations !! destination with
  | None =>
      Err (Errorf "%w: %s is bound to %q, which is not configured"
             [ErrorNew Destinations.ErrMissingDestination] [service; destination])
  | Some configured =>
      Ok (TrimRight (url_String (Destinations.destination_URL configured)) ["/"%char])
  end.

Fixpoint handlersLoop (services : list string) (bound : gmap string string)
    (destinations : Destinations.DestinationsT) (handlers : gmap string MountedHandler) :
    result error (gmap string MountedHandler) :=
  match services with
  | [] => Ok handlers
  | service :: rest =>
      let? baseURL := baseURLOf service (default "" (bound !! service)) destinations in
      handlersLoop rest bound destinations
        (<["/" +:+ service +:+ "/" :=
             {| handler_Service := service; handler_BaseURL := baseURL;
                handler_ReadMaxBytes := maxRequestBytes |}]> handlers)
  end.

Definition Handlers (bindings : list Registry.Binding)
    (destinations : Destinations.DestinationsT) (mounts : list Mount) :
    result error (gmap string MountedHandler) :=
  let bound := foldl bind ∅ bindings in
  let? mounted := indexMounts mounts ∅ in
  match checkCoverage bound mounted with
  | Some err => Err err
  | None => handlersLoop (sorted_keys mounted) bound destinations ∅
  end.
End handlers.

(** ** Correctness of the error translation *)

(** An upstream error that is passed on: it came from the service, it is not
    about the call itself, it does not reject the gateway's own token and it is
    not an internal failure. *)
Record relays (ctx : Context_) (err : error) (upstream : Connect) : Prop := {
  relays_not_canceled : Is err Canceled = false;
  relays_not_expired : Is err DeadlineExceeded = false;
  relays_upstream : AsConnectError err = Some upstream;
  relays_remote : connect_remote upstream = true;
  relays_code : connect_code upstream ∉ [CodeCanceled; CodeDeadlineExceeded; CodeUnknown; CodeInternal];
  relays_token : connect_code upstream = CodeUnauthenticated → ctx_InternalToken ctx = None;
}.

(** The answers the gateway gives in its own name. *)
Definition own_answers : list (Code * string * list string) :=
  [(CodeCanceled, Connecterr.messageCanceled, []);
   (CodeDeadlineExceeded, Connecterr.messageDeadlineExceeded, []);
   (CodeUnavailable, Connecterr.messageUpstreamUnavailable, []);
   (CodeInternal, Connecterr.messageInternal, [])].

Lemma relayedError_visible u :
  Connecterr.visible (relayedError u) = (connect_code u, connect_message u, connect_details u).
Proof.
  unfold relayedError, Connecterr.NewError.
  assert (∀ ds acc c m, Connecterr.visible
    (foldl Connecterr.WithDetail (ConnectError c m acc false []) ds) = (c, m, acc ++ ds)) as H.
  { induction ds as [|d ds IH]; intros acc c m; simpl; [by rewrite app_nil_r|].
    rewrite IH. by rewrite <-app_assoc. }
  apply H.
Qed.

Lemma hasInternalToken_false ctx : hasInternalToken ctx = false ↔ ctx_InternalToken ctx = None.
Proof.
  unfold hasInternalToken, internalTokenFrom. by rewrite bool_decide_eq_false, eq_None_not_Some.
Qed.

(** What a client learns of an upstream error: either it is relayed as it is,
    or it becomes one of the gateway's own answers. *)
Lemma translateError_visible ctx err :
  (∃ upstream, relays ctx err upstream ∧
     Connecterr.visible (translateError ctx err).1
       = (connect_code upstream, connect_message upstream, connect_details upstream)) ∨
  ((∀ upstream, ¬ relays ctx err upstream) ∧
     Connecterr.visible (translateError ctx err).1 ∈ own_answers).
Proof.
  assert (∀ e, Connecterr.visible (Connecterr.InternalError e) ∈ own_answers) as Hint.
  { intros e. rewrite Connecterr.InternalError_visible. unfold own_answers.
    destruct (Is e Canceled); [set_solver|]. destruct (Is e DeadlineExceeded); set_solver. }
  unfold translateError. destruct (Is err Canceled) eqn:Hc.
  { right. split; [intros u []; congruence|]. unfold own_answers. set_solver. }
  destruct (Is err DeadlineExceeded) eqn:Hd.
  { right. split; [intros u []; congruence|]. unfold own_answers. set_solver. }
  destruct (AsConnectError err) as [u|] eqn:Hu.
  2: { right. split; [intros u []; congruence|]. unfold own_answers. set_solver. }
  assert ((relays ctx err u → False) → ∀ u', ¬ relays ctx err u') as Huniq.
  { intros HP u' H. apply HP. destruct H as [? ? Hu' ? ? ?].
    rewrite Hu in Hu'. injection Hu' as <-. done. }
  destruct (decide (connect_code u = CodeCanceled)) as [E|Hn1].
  { right. split; [|unfold own_answers; set_solver].
    apply Huniq. intros []. rewrite E in *. set_solver. }
  destruct (decide (connect_code u = CodeDeadlineExceeded)) as [E|Hn2].
  { right. split; [|unfold own_answers; set_solver].
    apply Huniq. intros []. rewrite E in *. set_solver. }
  destruct (connect_remote u) eqn:Hr; simpl.
  2: { right. split; [|unfold own_answers; set_solver].
       apply Huniq. intros []. congruence. }
  destruct (bool_decide _ && _) eqn:Htok.
  { right. split; [|apply Hint]. apply Huniq. intros [].
    apply andb_prop in Htok as [E%bool_decide_eq_true Ht].
    apply not_false_iff_true in Ht. by apply Ht, hasInternalToken_false, relays_token0. }
  destruct (bool_decide _ || _) eqn:Hcode.
  { right. split; [|apply Hint]. apply Huniq. intros [].
    apply orb_prop in Hcode as [E%bool_decide_eq_true|E%bool_decide_eq_true];
      rewrite E in *; set_solver. }
  left. exists u. split; [|apply relayedError_visible].
  apply orb_false_elim in Hcode as [?%bool_decide_eq_false ?%bool_decide_eq_false].
  split; try done; [set_solver|]. intros E.
  rewrite bool_decide_eq_true_2 in Htok by done. by apply hasInternalToken_false.
Qed.

(** The reasons the audit record can get. *)
Definition reasons : list string :=
  [reasonUpstreamUnreachable; reasonUpstreamInternal; reasonUpstreamError; reasonUpstreamRefused;
   reasonUpstreamRejectedInternalToken; reasonCanceled; reasonDeadlineExceeded].

Lemma translateError_record ctx err :
  ∃ reason, reason ∈ reasons ∧
    (translateError ctx err).2 = (λ r, Gateway.set_FailureReason r reason) <$> ctx_Record ctx.
Proof.
  assert (∀ c, relayedReason c ∈ reasons) as Hrel.
  { intros c. unfold relayedReason. destruct (bool_decide _); unfold reasons; set_solver. }
  unfold translateError, failed. repeat case_match; eexists; (split; [|reflexivity]);
    try apply Hrel; unfold reasons; set_solver.
Qed.

(** ** Deadlines and credentials of a call *)

(** Every call has a deadline; one set by the client is kept. *)
Lemma withUpstreamDeadline_spec now ctx :
  ctx_Deadline (withUpstreamDeadline now ctx)
    = Some (default (now + defaultUpstreamTimeout) (ctx_Deadline ctx)) ∧
  ctx_InternalToken (withUpstreamDeadline now ctx) = ctx_InternalToken ctx ∧
  ctx_Record (withUpstreamDeadline now ctx) = ctx_Record ctx.
Proof. unfold withUpstreamDeadline. destruct (ctx_Deadline ctx) eqn:H; simpl; by rewrite ?H. Qed.

(** A service reads the token the gateway issued, and no other credential: the
    client's own header is replaced. *)
Lemma AuthorizationInterceptor_bearer ctx token header :
  is_word token →
  let sent := AuthorizationInterceptor (ContextWithInternalToken ctx token) true header in
  Authn.bearerToken (header_values sent authorizationHeader) = Some token ∧
  ∀ name, name ≠ CanonicalHeaderKey authorizationHeader → sent !! name = header !! name.
Proof.
  intros Hw sent. subst sent. unfold AuthorizationInterceptor, header_values.
  cbn [internalTokenFrom ctx_InternalToken ContextWithInternalToken].
  rewrite lookup_insert_eq. split.
  - by apply Authn.bearerToken_Bearer.
  - intros name Hne. by rewrite lookup_insert_ne.
Qed.

(** ** Correctness of mounting *)

Lemma foldl_bind_dom bindings bound service :
  is_Some (foldl bind bound bindings !! service) ↔
  service ∈ Registry.Service <$> bindings ∨ is_Some (bound !! service).
Proof.
  revert bound. induction bindings as [|b bs IH]; intros bound; cbn [foldl].
  { split; [by right|]. by intros [[]%not_elem_of_nil|?]. }
  rewrite IH, fmap_cons, elem_of_cons. unfold bind.
  destruct (decide (service = Registry.Service b)) as [->|].
  - rewrite lookup_insert_eq. split; [by left; left|]. intros _. right. by eexists.
  - rewrite lookup_insert_ne by done. tauto.
Qed.

Lemma indexMounts_ok mounts mounted res :
  indexMounts mounts mounted = Ok res →
  NoDup (mount_Service <$> mounts) ∧
  ∀ service, is_Some (res !! service) ↔
    service ∈ mount_Service <$> mounts ∨ is_Some (mounted !! service).
Proof.
  enough (indexMounts mounts mounted = Ok res →
    NoDup (mount_Service <$> mounts) ∧
    Forall (λ m, mounted !! mount_Service m = None) mounts ∧
    ∀ service, is_Some (res !! service) ↔
      service ∈ mount_Service <$> mounts ∨ is_Some (mounted !! service)) by naive_solver.
  revert mounted. induction mounts as [|m ms IH]; intros mounted; cbn [indexMounts].
  { intros [= ->]. split; [constructor|]. split; [constructor|].
    intros s. split; [by right|]. by intros [[]%not_elem_of_nil|?]. }
  destruct (decide (is_Some (mounted !! mount_Service m))) as [|Hn]; [done|].
  apply eq_None_not_Some in Hn. intros (Hnd & Hfree & Hin)%IH.
  rewrite fmap_cons, NoDup_cons, Forall_cons. rewrite Forall_forall in Hfree.
  assert (∀ m', m' ∈ ms → mount_Service m' ≠ mount_Service m) as Hne.
  { intros m' Hm' E. specialize (Hfree m' Hm'). by rewrite E, lookup_insert_eq in Hfree. }
  split_and!; try done.
  - intros (m' & E & Hm')%list_elem_of_fmap. by apply (Hne m').
  - apply Forall_forall. intros m' Hm'. specialize (Hfree m' Hm').
    rewrite lookup_insert_ne in Hfree by (intros E; by apply (Hne m')). done.
  - intros s. rewrite Hin, elem_of_cons.
    destruct (decide (s = mount_Service m)) as [->|].
    + rewrite lookup_insert_eq. split; [by left; left|]. intros _. right. by eexists.
    + rewrite lookup_insert_ne by done. tauto.
Qed.

Lemma checkCoverage_None bound mounted :
  checkCoverage bound mounted = None ↔
  ∀ service, is_Some (bound !! service) ↔ is_Some (mounted !! service).
Proof.
  unfold checkCoverage. rewrite errors_Join_None, app_nil,
    !Destinations.concat_fmap_nil. setoid_rewrite elem_of_sorted_keys. split.
  - intros [H1 H2] s. split; intros Hs; [specialize (H1 s Hs)|specialize (H2 s Hs)];
      destruct (decide _) in *; done.
  - intros H. split; intros s Hs; rewrite decide_True; try done; by apply H.
Qed.

Lemma string_path_inj s t : "/" +:+ s +:+ "/" = "/" +:+ t +:+ "/" → s = t.
Proof. intros [= H]. by apply (string_app_inj_r "/") in H. Qed.

Definition path_of (service : string) : string := "/" +:+ service +:+ "/".

Section handlers_correct.
Context (url_String : URL → string).

(** The handler of a service whose binding names a configured destination. *)
Definition handler_of (bound : gmap string string) (destinations : Destinations.DestinationsT)
    (service : string) (h : MountedHandler) : Prop :=
  ∃ d, destinations !! default "" (bound !! service) = Some d ∧
    h = {| handler_Service := service;
           handler_BaseURL :=
             TrimRight (url_String (Destinations.destination_URL d)) ["/"%char];
           handler_ReadMaxBytes := maxRequestBytes |}.

Lemma handlersLoop_ok services bound destinations hs res :
  handlersLoop url_String services bound destinations hs = Ok res →
  (∀ service, service ∈ services → ∃ h, handler_of bound destinations service h) ∧
  ∀ key h, res !! key = Some h ↔
    (∃ service, service ∈ services ∧ key = path_of service ∧
       handler_of bound destinations service h) ∨
    ((∀ service, service ∈ services → key ≠ path_of service) ∧ hs !! key = Some h).
Proof.
  revert hs. induction services as [|s ss IH]; intros hs; cbn [handlersLoop].
  { intros [= ->]. split; [intros ? []%not_elem_of_nil|]. intros key h. split.
    - intros H. right. split; [intros ? []%not_elem_of_nil|done].
    - by intros [(? & []%not_elem_of_nil & _)|[_ ?]]. }
  unfold baseURLOf. destruct (destinations !! default "" (bound !! s)) as [d|] eqn:Hd; [|done].
  cbn [result_bind]. intros (Hall & Hres)%IH. fold (path_of s) in Hres.
  set (hd := {| handler_Service := s; handler_BaseURL := _; handler_ReadMaxBytes := _ |}) in *.
  assert (∀ h, handler_of bound destinations s h ↔ h = hd) as Hhd.
  { intros h. unfold handler_of. rewrite Hd. split; [by intros (? & [= <-] & ->)|].
    intros ->. by exists d. }
  split.
  { intros s' [->|Hs']%elem_of_cons; [exists hd; by apply Hhd|auto]. }
  intros key h. rewrite Hres. setoid_rewrite elem_of_cons.
  destruct (decide (key = path_of s)) as [->|Hne].
  - rewrite lookup_insert_eq. split.
    + intros [(s' & Hs' & Hp & Hh)|[Hno [= <-]]]; left.
      * exists s'. split_and!; [by right|done|done].
      * exists s. split_and!; [by left|done|by apply Hhd].
    + intros [(s' & [->|Hs'] & Hp & Hh)|[Hno _]].
      * apply Hhd in Hh as ->. destruct (decide (s ∈ ss)) as [Hin|Hnin].
        -- left. exists s. split_and!; [done|done|by apply Hhd].
        -- right. split; [|done]. intros s' Hs' Heq%string_path_inj. by subst.
      * left. exists s'. done.
      * exfalso. apply (Hno s); [by left|done].
  - rewrite lookup_insert_ne by done. split.
    + intros [(s' & Hs' & ? & ?)|[Hno ?]].
      * left. exists s'. split_and!; [by right|done|done].
      * right. split; [|done]. intros s' [->|Hs']; auto.
    + intros [(s' & [->|Hs'] & ? & ?)|[Hno ?]]; [done| |].
      * left. by exists s'.
      * right. split; [|done]. intros s' Hs'. apply Hno. by right.
Qed.

(** [Handlers] only succeeds when mounts and bindings cover each other and
    every destination is configured; each service then has the one handler
    for its path, which calls its own destination. *)
Lemma Handlers_ok bindings destinations mounts hs :
  Handlers url_String bindings destinations mounts = Ok hs →
  NoDup (mount_Service <$> mounts) ∧
  (∀ service, service ∈ Registry.Service <$> bindings ↔ service ∈ mount_Service <$> mounts) ∧
  ∀ key h, hs !! key = Some h ↔
    ∃ service, service ∈ mount_Service <$> mounts ∧ key = path_of service ∧
      handler_of (foldl bind ∅ bindings) destinations service h.
Proof.
  unfold Handlers. destruct (indexMounts mounts ∅) as [mounted|] eqn:Hm; [|done].
  cbn [result_bind]. apply indexMounts_ok in Hm as [Hnd Hin].
  destruct (checkCoverage _ _) as [|] eqn:Hc; [done|].
  rewrite checkCoverage_None in Hc. intros [Hall Hhs]%handlersLoop_ok.
  assert (∀ s, s ∈ sorted_keys mounted ↔ s ∈ mount_Service <$> mounts) as Hkeys.
  { intros s. rewrite elem_of_sorted_keys, Hin, lookup_empty, is_Some_alt. tauto. }
  split; [done|]. split.
  - intros s. rewrite <-Hkeys, elem_of_sorted_keys, <-Hc, foldl_bind_dom, lookup_empty, is_Some_alt.
    tauto.
  - intros key h. rewrite Hhs, lookup_empty. setoid_rewrite Hkeys. naive_solver.
Qed.
Lemma Handlers_served bindings destinations mounts hs service :
  Handlers url_String bindings destinations mounts = Ok hs →
  service ∈ mount_Service <$> mounts → is_Some (hs !! path_of service).
Proof.
  unfold Handlers. destruct (indexMounts mounts ∅) as [mounted|] eqn:Hm; [|done].
  cbn [result_bind]. apply indexMounts_ok in Hm as [_ Hin].
  destruct (checkCoverage _ _) as [|]; [done|]. intros [Hall Hhs]%handlersLoop_ok Hs.
  assert (service ∈ sorted_keys mounted) as Hk by (apply elem_of_sorted_keys, Hin; by left).
  destruct (Hall service Hk) as [h Hh]. exists h. apply Hhs. left. by exists service.
Qed.

(** What is bound to no service yet has the destination of its last binding. *)
Lemma foldl_bind_elem bindings bound service d :
  foldl bind bound bindings !! service = Some d →
  (∃ b, b ∈ bindings ∧ Registry.Service b = service ∧ Registry.Destination b = d) ∨
  bound !! service = Some d.
Proof.
  revert bound. induction bindings as [|b bs IH]; intros bound; cbn [foldl]; [by right|].
  intros [(b' & Hb & ? & ?)|Hd]%IH; [left; exists b'; split; [by right|done]|].
  unfold bind in Hd. destruct (decide (service = Registry.Service b)) as [->|Hne].
  - rewrite lookup_insert_eq in Hd. injection Hd as <-. left. exists b. split; [by left|done].
  - rewrite lookup_insert_ne in Hd by done. by right.
Qed.

Lemma indexMounts_total mounts mounted :
  NoDup (mount_Service <$> mounts) → Forall (λ m, mounted !! mount_Service m = None) mounts →
  ∃ res, indexMounts mounts mounted = Ok res.
Proof.
  revert mounted. induction mounts as [|m ms IH]; intros mounted; cbn [indexMounts]; [eauto|].
  rewrite fmap_cons, NoDup_cons, Forall_cons. intros [Hm Hms] [Hn Hns].
  rewrite decide_False by (rewrite Hn; apply is_Some_None). apply IH; [done|].
  apply Forall_forall. intros m' Hm'. rewrite lookup_insert_ne.
  - rewrite Forall_forall in Hns. auto.
  - intros Heq. apply Hm. rewrite Heq. by apply list_elem_of_fmap_2.
Qed.

Lemma handlersLoop_total services bound destinations hs :
  (∀ service, service ∈ services → is_Some (destinations !! default "" (bound !! service))) →
  ∃ res, handlersLoop url_String services bound destinations hs = Ok res.
Proof.
  revert hs. induction services as [|s ss IH]; intros hs Hd; cbn [handlersLoop]; [eauto|].
  unfold baseURLOf. destruct (Hd s) as [d ->]; [by left|]. cbn [result_bind].
  apply IH. intros s' Hs'. apply Hd. by right.
Qed.

(** Mounts that cover the bindings find their handlers when every destination is
    configured. *)
Lemma Handlers_total bindings destinations mounts :
  NoDup (mount_Service <$> mounts) →
  (∀ service, service ∈ Registry.Service <$> bindings ↔ service ∈ mount_Service <$> mounts) →
  (∀ b, b ∈ bindings → is_Some (destinations !! Registry.Destination b)) →
  ∃ hs, Handlers url_String bindings destinations mounts = Ok hs.
Proof.
  intros Hnd Hcover Hdest. unfold Handlers.
  destruct (indexMounts_total mounts ∅ Hnd) as [mounted Hm].
  { apply Forall_forall. intros m _. apply lookup_empty. }
  rewrite Hm. cbn [result_bind]. apply indexMounts_ok in Hm as [_ Hin].
  assert (∀ s, is_Some (foldl bind ∅ bindings !! s) ↔ s ∈ mount_Service <$> mounts) as Hbound.
  { intros s. rewrite foldl_bind_dom, lookup_empty, is_Some_alt. rewrite Hcover. tauto. }
  rewrite (proj2 (checkCoverage_None _ _)).
  2: { intros s. rewrite Hbound, Hin, lookup_empty, (is_Some_alt None). tauto. }
  apply handlersLoop_total. intros s Hs%elem_of_sorted_keys.
  apply Hin in Hs as [Hs|[? [=]]]. apply Hbound in Hs as [d Hd]. rewrite Hd. simpl.
  apply foldl_bind_elem in Hd as [(b & Hb & _ & <-)|[=]]. by apply Hdest.
Qed.
End handlers_correct.

(** ** Properties *)

(** C29. What a client learns of a failed call: an error of the service is passed
    on unchanged exactly when it is the service's own statement ([relays]: it
    came from the other side, is no cancellation, deadline, internal or unknown
    error and does not reject the gateway's token); everything else becomes one
    of four fixed answers. Either way the audit record gets a reason. *)
Theorem upstream_errors_translated ctx err :
  ((∃ upstream, relays ctx err upstream ∧
      Connecterr.visible (translateError ctx err).1
        = (connect_code upstream, connect_message upstream, connect_details upstream)) ∨
   ((∀ upstream, ¬ relays ctx err upstream) ∧
      Connecterr.visible (translateError ctx err).1 ∈ own_answers)) ∧
  ∃ reason, reason ∈ reasons ∧
    (translateError ctx err).2 = (λ r, Gateway.set_FailureReason r reason) <$> ctx_Record ctx.
Proof. split; [apply translateError_visible|apply translateError_record]. Qed.


Definition example_context : Context_ :=
  {| ctx_Deadline := None; ctx_InternalToken := None; ctx_Record := None |}.

Definition example_sent : Header :=
  AuthorizationInterceptor
    (withUpstreamDeadline 7 (ContextWithInternalToken example_context "internal.jwt")) true
    {["Authorization" := ["Bearer external"]]}.


(** The handlers of a gateway cover its bindings: [Handlers] only succeeds
    when no service is mounted twice, the mounted services are the bound ones
    and every destination is configured; each service then has the one handler
    for its path, and it calls its own destination. *)
Theorem handlers_cover_bindings url_String bindings destinations mounts hs :
  Handlers url_String bindings destinations mounts = Ok hs →
  NoDup (mount_Service <$> mounts) ∧
  (∀ service, service ∈ Registry.Service <$> bindings ↔ service ∈ mount_Service <$> mounts) ∧
  ∀ key h, hs !! key = Some h ↔
    ∃ service, service ∈ mount_Service <$> mounts ∧ key = path_of service ∧
      handler_of url_String (foldl bind ∅ bindings) destinations service h.
Proof. apply Handlers_ok. Qed.

Definition example_handlers : gmap string MountedHandler :=
  {["/a.S/" := {| handler_Service := "a.S"; handler_BaseURL := "http://svc-a:8080";
                   handler_ReadMaxBytes := 1048576 |}]}.

Lemma handlers_cover_bindings_witness :
  NoDup ["a.S"] ∧ is_Some (example_handlers !! "/a.S/").
Proof.
  pose proof (handlers_cover_bindings
    (λ u, URL_Scheme u +:+ "://" +:+ URL_Host u +:+ "/") Registry.example_bindings
    Destinations.example_destinations [{| mount_Service := "a.S" |}] example_handlers
    ltac:(vm_compute; reflexivity)) as (Hn & _ & _).
  split; [exact Hn|by eexists].
Defined.
