(* ===== verification/Forwardgen.v ===== *)
(** * The generated forwarders ([internal/infra/connect/forwardgen])

    The table genforward writes (mounts.forward.go): the services the gateway
    has a forwarder for, in the order of the file.  What a [Register] function
    does to a Connect server is generated glue: every method calls
    [forward.Unary] with the client's method of the same name. *)

From S2P Require Import Prelude GoStd GoErrors.
From S2P Require Import Forward.
From S2P Require Registry Destinations Catalog.

Definition mount (service : string) : Mount := {| mount_Service := service |}.

Definition Mounts : list Mount :=
  [ mount Catalog.GreetServiceName;
    mount Catalog.GraphAuthoringServiceName;
    mount Catalog.GraphSupplyServiceName;
    mount Catalog.GuestPageServiceName;
    mount Catalog.GuestSettingsServiceName;
    mount Catalog.EdgeDeviceServiceName;
    mount Catalog.MeasurementIngestServiceName;
    mount Catalog.ObservationSettingsServiceName;
    mount Catalog.StatusQueryServiceName;
    mount Catalog.DeliveryCoordinationServiceName;
    mount Catalog.DigestServiceName;
    mount Catalog.OperationControlServiceName;
    mount Catalog.StaffCommunicationServiceName;
    mount Catalog.RealtimeFetchServiceName;
    mount Catalog.RelationAdminServiceName;
    mount Catalog.TenantServiceName ].

Lemma Mounts_distinct : NoDup (mount_Service <$> Mounts).
Proof. by_computation. Qed.

(** The forwarders are those of the catalog's services. *)
Lemma Mounts_cover policiesOf s :
  s ∈ Registry.Service <$> Catalog.Bindings policiesOf ↔ s ∈ mount_Service <$> Mounts.
Proof.
  assert (Registry.Service <$> Catalog.Bindings policiesOf
    = Registry.Service <$> Catalog.Bindings (λ _, ∅)) as -> by reflexivity.
  assert (list_to_set (C := gset string) (Registry.Service <$> Catalog.Bindings (λ _, ∅))
    = list_to_set (mount_Service <$> Mounts)) as H.
  { by_computation. }
  rewrite <-(elem_of_list_to_set (C := gset string)), H. apply elem_of_list_to_set.
Qed.
