(* ===== verification/Discovery.v ===== *)
(** * Provider discovery ([internal/externaltoken/discovery.go])

    [Discover] fetches the two metadata documents of an issuer and checks that
    they agree; [fetchDocument] is the bounded download the key set uses too.
    The HTTP client and the JSON decoder are a class over a world [W];
    [url.Parse] and the escaped path of a URL are parameters. *)

From S2P Require Import Prelude GoStd GoErrors.

Definition openIDConfigurationPath : string := "/.well-known/openid-configuration".
Definition authorizationServerPath : string := "/.well-known/oauth-authorization-server".
Definition DefaultMaxDocumentSize : Z := 2 ^ 20.

Definition ErrInvalidIssuer : string := "issuer is not an absolute HTTP URL".
Definition ErrFetch : string := "fetch document".
Definition ErrDocumentTooLarge : string := "document is too large".
Definition ErrInvalidMetadata : string := "provider metadata is invalid".

Definition StatusOK : Z := 200.

(** ** Data *)

Record Metadata : Type := {
  Issuer : string;
  JWKSURI : string;
  IntrospectionEndpoint : string;
}.

#[export] Instance Metadata_eq_dec : EqDecision Metadata.
Proof. solve_decision. Defined.

Record metadataDocument : Type := {
  document_Issuer : string;
  document_JWKSURI : string;
  document_IntrospectionEndpoint : string;
}.

(** An [http.Response] as far as the code reads it; [Body n] is what
    [io.ReadAll(io.LimitReader(body, n))] returns. *)
Record Response : Type := {
  StatusCode : Z;
  Status : string;
  Body : Z → result error string;
}.

(** The client of a world: building a GET request (its error), sending it
    without following redirects, and decoding a metadata document. *)
Class HTTPClient (W : Type) : Type := {
  NewGetRequest : string → option error;
  Get : string → M W (result error Response);
  UnmarshalMetadata : string → result error metadataDocument;
}.

(** [isHTTPURL] *)
Definition isHTTPURL (parsed : URL) : bool :=
  (bool_decide (URL_Scheme parsed = "http") || bool_decide (URL_Scheme parsed = "https"))
  && negb (bool_decide (URL_Host parsed = "")) && bool_decide (URL_Opaque parsed = "").

Section discover.
Context {W : Type} `{!HTTPClient W}.
Context (url_Parse : string → result error URL) (EscapedPath : URL → string).

Definition fetchDocument (documentURL : string) (maxSize : Z) : M W (result error string) :=
  match NewGetRequest documentURL with
  | Some err => mret_ (Err (Errorf "%w: %s: %w" [ErrorNew ErrFetch; err] [documentURL]))
  | None =>
      let! response := Get documentURL in
      mret_ (match response with
             | Err err => Err (Errorf "%w: %s: %w" [ErrorNew ErrFetch; err] [documentURL])
             | Ok response =>
                 if negb (StatusCode response =? StatusOK) then
                   Err (UnexpectedStatus documentURL (Status response) (StatusCode response))
                 else
                   match Body response (maxSize + 1) with
                   | Err err =>
                       Err (Errorf "%w: %s: %w" [ErrorNew ErrFetch; err] [documentURL])
                   | Ok encoded =>
                       if maxSize <? Z.of_nat (String.length encoded) then
                         Err (Errorf "%w: %s: over %d bytes" [ErrorNew ErrDocumentTooLarge]
                                [documentURL; Itoa maxSize])
                       else Ok encoded
                   end
             end)
  end.

Definition fetchMetadata (documentURL : string) : M W (result error metadataDocument) :=
  let! encoded := fetchDocument documentURL DefaultMaxDocumentSize in
  mret_ (let? encoded := encoded in
         match UnmarshalMetadata encoded with
         | Err err =>
             Err (Errorf "%w: %s: %w" [ErrorNew ErrInvalidMetadata; err] [documentURL])
         | Ok document => Ok document
         end).

Definition checkEndpoint (name raw : string) : option error :=
  if decide (raw = "") then
    Some (Errorf "%w: %s is missing" [ErrorNew ErrInvalidMetadata] [name])
  else
    match url_Parse raw with
    | Err err => Some (Errorf "%w: %s %q: %w" [ErrorNew ErrInvalidMetadata; err] [name; raw])
    | Ok parsed =>
        if negb (isHTTPURL parsed) then
          Some (Errorf "%w: %s %q is not an absolute HTTP URL" [ErrorNew ErrInvalidMetadata]
                  [name; raw])
        else None
    end.

Definition checkDocument (issuer name : string) (document : metadataDocument) : option error :=
  if decide (document_Issuer document ≠ issuer) then
    Some (Errorf "%w: %s declares issuer %q, want %q" [ErrorNew ErrInvalidMetadata]
            [name; document_Issuer document; issuer])
  else checkEndpoint (name +:+ " jwks_uri") (document_JWKSURI document).

Definition checkMetadata (issuer : string) (openID authorizationServer : metadataDocument) :
    option error :=
  match checkDocument issuer "openid-configuration" openID with
  | Some err => Some err
  | None =>
      match checkDocument issuer "oauth-authorization-server" authorizationServer with
      | Some err => Some err
      | None =>
          if decide (document_JWKSURI openID ≠ document_JWKSURI authorizationServer) then
            Some (Errorf "%w: jwks_uri differs between the two documents: %q and %q"
                    [ErrorNew ErrInvalidMetadata]
                    [document_JWKSURI openID; document_JWKSURI authorizationServer])
          else if decide (document_IntrospectionEndpoint authorizationServer = "") then None
          else
            checkEndpoint "introspection_endpoint"
              (document_IntrospectionEndpoint authorizationServer)
      end
  end.

Definition parseIssuer (issuer : string) : result error URL :=
  match url_Parse issuer with
  | Err err => Err (Errorf "%w: %q: %w" [ErrorNew ErrInvalidIssuer; err] [issuer])
  | Ok parsed =>
      if negb (isHTTPURL parsed) || negb (bool_decide (URL_RawQuery parsed = ""))
         || negb (bool_decide (URL_Fragment parsed = ""))
         || negb (bool_decide (URL_User parsed = None)) then
        Err (Errorf "%w: %q" [ErrorNew ErrInvalidIssuer] [issuer])
      else Ok parsed
  end.

Definition openIDConfigurationURL (base : URL) : string :=
  URL_Scheme base +:+ "://" +:+ URL_Host base +:+ TrimSuffix (EscapedPath base) "/"
    +:+ openIDConfigurationPath.

Definition authorizationServerURL (base : URL) : string :=
  URL_Scheme base +:+ "://" +:+ URL_Host base +:+ authorizationServerPath
    +:+ TrimSuffix (EscapedPath base) "/".

Definition Discover (issuer : string) : M W (result error Metadata) :=
  match parseIssuer issuer with
  | Err err => mret_ (Err err)
  | Ok base =>
      let! openID := fetchMetadata (openIDConfigurationURL base) in
      match openID with
      | Err err => mret_ (Err err)
      | Ok openID =>
          let! authorizationServer := fetchMetadata (authorizationServerURL base) in
          mret_ (let? authorizationServer := authorizationServer in
                 match checkMetadata issuer openID authorizationServer with
                 | Some err => Err err
                 | None =>
                     Ok {| Issuer := issuer; JWKSURI := document_JWKSURI openID;
                           IntrospectionEndpoint :=
                             document_IntrospectionEndpoint authorizationServer |}
                 end)
      end
  end.
End discover.

(** ** Correctness *)

Section discover_correct.
Context {W : Type} `{!HTTPClient W}.
Context (url_Parse : string → result error URL) (EscapedPath : URL → string).

(** A document of at most [maxSize] bytes came with status 200. *)
Lemma fetchDocument_ok url maxSize w encoded w' :
  fetchDocument url maxSize w = (Ok encoded, w') ↔
  NewGetRequest url = None ∧
  ∃ response, Get url w = (Ok response, w') ∧ StatusCode response = 200 ∧
    Body response (maxSize + 1) = Ok encoded ∧ Z.of_nat (String.length encoded) ≤ maxSize.
Proof.
  unfold fetchDocument, mbind_, mret_. destruct (NewGetRequest url).
  { split; [done|]. by intros [? _]. }
  destruct (Get url w) as [[response|] w1]; [|split; [done|by intros (_ & ? & ? & _)]].
  destruct (Z.eqb_spec (StatusCode response) StatusOK) as [E|E]; simpl.
  2: { split; [done|]. by intros (_ & ? & [= <- <-] & ? & _). }
  destruct (Body response (maxSize + 1)) as [enc|] eqn:Hb.
  2: { split; [done|]. intros (_ & ? & [= <- <-] & _ & ? & _). congruence. }
  destruct (Z.ltb_spec maxSize (Z.of_nat (String.length enc))) as [Hl|Hl].
  - split; [done|]. intros (_ & ? & [= <- <-] & _ & Hb' & ?).
    rewrite Hb in Hb'. injection Hb' as ->. lia.
  - split; [intros [= <- <-]; split; [done|]; by exists response|].
    intros (_ & ? & [= <- <-] & _ & Hb' & _). congruence.
Qed.

(** Why a download fails, for the retry logic of its callers. *)
Lemma fetchDocument_err url maxSize w err w' :
  fetchDocument url maxSize w = (Err err, w') →
  Is err ErrFetch = true ∨ Is err ErrDocumentTooLarge = true ∨
  ∃ status code, err = UnexpectedStatus url status code ∧ code ≠ 200.
Proof.
  unfold fetchDocument, mbind_, mret_. destruct (NewGetRequest url); [intros [= <- _]; by left|].
  destruct (Get url w) as [[response|] w1]; [|intros [= <- _]; by left].
  destruct (Z.eqb_spec (StatusCode response) StatusOK) as [E|E]; simpl.
  2: { intros [= <- _]. right. right. eauto. }
  destruct (Body response (maxSize + 1)) as [enc|]; [|intros [= <- _]; by left].
  destruct (maxSize <? _); [|done]. intros [= <- _]. by right; left.
Qed.

(** A raw text is an absolute HTTP URL. *)
Definition http_url (raw : string) : Prop :=
  raw ≠ "" ∧ ∃ parsed, url_Parse raw = Ok parsed ∧ isHTTPURL parsed = true.

Lemma checkEndpoint_None name raw : checkEndpoint url_Parse name raw = None ↔ http_url raw.
Proof.
  unfold checkEndpoint, http_url. destruct (decide (raw = "")); [split; [done|tauto]|].
  destruct (url_Parse raw) as [p|]; [|split; [done|by intros (_ & ? & ? & _)]].
  destruct (isHTTPURL p) eqn:Hp; simpl.
  - split; [intros _; split; [done|by exists p]|done].
  - split; [done|]. intros (_ & ? & [= <-] & ?). congruence.
Qed.

(** Two documents that agree about an issuer. *)
Record agree (issuer : string) (openID authorizationServer : metadataDocument) : Prop := {
  agree_openID : document_Issuer openID = issuer;
  agree_authorizationServer : document_Issuer authorizationServer = issuer;
  agree_JWKSURI : document_JWKSURI openID = document_JWKSURI authorizationServer;
  agree_http : http_url (document_JWKSURI openID);
  agree_endpoint : document_IntrospectionEndpoint authorizationServer = "" ∨
    http_url (document_IntrospectionEndpoint authorizationServer);
}.

Lemma checkDocument_None issuer name document :
  checkDocument url_Parse issuer name document = None ↔
  document_Issuer document = issuer ∧ http_url (document_JWKSURI document).
Proof.
  unfold checkDocument. destruct (decide (document_Issuer document ≠ issuer)) as [|E%dec_stable].
  - split; [done|]. by intros [? _].
  - rewrite checkEndpoint_None. tauto.
Qed.

Lemma checkMetadata_None issuer openID authorizationServer :
  checkMetadata url_Parse issuer openID authorizationServer = None ↔
  agree issuer openID authorizationServer.
Proof.
  unfold checkMetadata.
  destruct (checkDocument _ _ _ openID) eqn:H1.
  { split; [done|]. intros []. enough (Some e = None) by done. rewrite <-H1.
    by apply checkDocument_None. }
  apply checkDocument_None in H1 as [? ?].
  destruct (checkDocument _ _ _ authorizationServer) eqn:H2.
  { split; [done|]. intros [? ? E ? ?]. enough (Some e = None) by done. rewrite <-H2.
    apply checkDocument_None. by rewrite <-E. }
  apply checkDocument_None in H2 as [? ?].
  destruct (decide (_ ≠ _)) as [Hne|Heq%dec_stable]; [split; [done|by intros []]|].
  destruct (decide (document_IntrospectionEndpoint authorizationServer = "")) as [E|E].
  - split; [|done]. intros _. by split; try left.
  - rewrite checkEndpoint_None. split; [intros ?; by split; try right|]. by intros [_ _ _ _ [?|?]].
Qed.

Lemma fetchMetadata_ok url w document w' :
  fetchMetadata url w = (Ok document, w') ↔
  ∃ encoded, fetchDocument url DefaultMaxDocumentSize w = (Ok encoded, w') ∧
    UnmarshalMetadata encoded = Ok document.
Proof.
  unfold fetchMetadata, mbind_, mret_.
  destruct (fetchDocument url DefaultMaxDocumentSize w) as [[enc|] w1]; simpl;
    [|split; [done|by intros (? & ? & _)]].
  destruct (UnmarshalMetadata enc) as [d|] eqn:Hu; split; try done.
  - intros [= <- <-]. by exists enc.
  - intros (? & [= <- <-] & ?). congruence.
  - intros (? & [= <- <-] & ?). congruence.
Qed.

(** [Discover] returns metadata exactly when both documents arrive and agree
    about the issuer. *)
Lemma Discover_ok issuer w metadata w' :
  Discover url_Parse EscapedPath issuer w = (Ok metadata, w') ↔
  ∃ base openID authorizationServer w1,
    parseIssuer url_Parse issuer = Ok base ∧
    fetchMetadata (openIDConfigurationURL EscapedPath base) w = (Ok openID, w1) ∧
    fetchMetadata (authorizationServerURL EscapedPath base) w1 = (Ok authorizationServer, w') ∧
    agree issuer openID authorizationServer ∧
    metadata = {| Issuer := issuer; JWKSURI := document_JWKSURI openID;
                  IntrospectionEndpoint :=
                    document_IntrospectionEndpoint authorizationServer |}.
Proof.
  unfold Discover, mbind_, mret_.
  destruct (parseIssuer url_Parse issuer) as [base|]; [|split; [done|by intros (? & ? & ? & ? & ? & _)]].
  destruct (fetchMetadata _ w) as [[openID|] w1] eqn:H1.
  2: { split; [done|]. intros (? & ? & ? & ? & [= <-] & ? & _). congruence. }
  destruct (fetchMetadata (authorizationServerURL _ _) w1) as [[server|] w2] eqn:H2; simpl.
  2: { split; [done|]. intros (? & ? & ? & ? & [= <-] & ? & ? & _). congruence. }
  destruct (checkMetadata url_Parse issuer openID server) eqn:Hc.
  - split; [done|]. intros (? & o & s & ? & [= <-] & ? & ? & Ha%checkMetadata_None & _).
    assert (o = openID) as -> by congruence. assert (s = server) as -> by congruence. congruence.
  - apply checkMetadata_None in Hc. split.
    + intros [= <- <-]. by exists base, openID, server, w1.
    + intros (? & o & s & ? & [= <-] & ? & ? & _ & ->).
      assert (o = openID) as -> by congruence. assert (s = server) as -> by congruence. congruence.
Qed.
End discover_correct.

(** ** Properties *)

(** [Discover] returns metadata exactly when both metadata documents of the
    issuer arrive (status 200, within the size limit) and agree: both declare
    that issuer and the same absolute HTTP [jwks_uri], and an introspection
    endpoint, if declared, is an absolute HTTP URL. *)
Theorem discover_spec {W} `{!HTTPClient W} url_Parse EscapedPath issuer (w : W) metadata w' :
  Discover url_Parse EscapedPath issuer w = (Ok metadata, w') ↔
  ∃ base openID authorizationServer w1,
    parseIssuer url_Parse issuer = Ok base ∧
    fetchMetadata (openIDConfigurationURL EscapedPath base) w = (Ok openID, w1) ∧
    fetchMetadata (authorizationServerURL EscapedPath base) w1 = (Ok authorizationServer, w') ∧
    agree url_Parse issuer openID authorizationServer ∧
    metadata = {| Issuer := issuer; JWKSURI := document_JWKSURI openID;
                  IntrospectionEndpoint := document_IntrospectionEndpoint authorizationServer |}.
Proof. apply Discover_ok. Qed.
