(* ===== verification/Verifier.v ===== *)
(** * External token verification ([internal/externaltoken/verifier.go])

    [Verify] checks a JWT of the IdP: the parser of golang-jwt checks signature,
    issuer and times with the key its key function returns; the verifier's own
    code selects the key, checks the audience and reads the claims.  The parser
    is a class: its operation and what its documentation promises. *)

From S2P Require Import Prelude GoStd GoErrors.
From S2P Require Registry.

Definition DefaultLeeway : Duration := 30 * Second.

Definition ErrInvalidConfig : string := "external token verifier config is invalid".
Definition ErrInvalidToken : string := "external token is invalid".
Definition ErrInvalidClaims : string := "external token claims are invalid".
(** Sentinels of keyset.go the verifier uses. *)
Definition ErrMissingKeyID : string := "token has no kid".
Definition ErrKeysUnavailable : string := "the IdP verification keys are unavailable".

(** [Alg()] of the two signing methods of golang-jwt *)
Definition RS256 : string := "RS256".
Definition ES256 : string := "ES256".

Definition supportedAlgorithms : list string := [RS256; ES256].

Definition externalTokenUses : list string :=
  [Registry.TokenUseTenantAccess; Registry.TokenUseEventAccess; Registry.TokenUseRegistration].

(** ** JSON values, keys and claims *)

(** A decoded JSON value ([any] after [encoding/json]); numbers keep their
    literal. *)
#[warnings="-register-all"]
Inductive json : Type :=
| JNull | JBool (b : bool) | JNumber (literal : string) | JString (s : string)
| JArray (items : list json) | JObject (members : list (string * json)).

(** Indexing a [map[string]any]: nil for a missing key. *)
Definition member_of (members : list (string * json)) (name : string) : json :=
  match List.find (λ m, bool_decide (m.1 = name)) members with
  | Some (_, v) => v
  | None => JNull
  end.

Abbreviation MapClaims := (gmap string json).

(** A [crypto.PublicKey] as far as the type switch looks at it. *)
Inductive PublicKey : Type :=
| RSAKey (modulus exponent : Z)
| ECDSAKey (curve : string) (x y : Z)
| OtherKey.

#[export] Instance PublicKey_eq_dec : EqDecision PublicKey.
Proof. solve_decision. Defined.

Definition P256 : string := "P-256".

(** A [*jwt.Token] as far as the key function looks at it: the [kid] member of
    its header and the name of its method. *)
Record Token : Type := { token_kid : json; token_Alg : string }.

Record Claims : Type := {
  Subject : string;
  ClientID : string;
  TokenUse : string;
  Scope : string;
  JTI : string;
  TenantID : string;
  EventID : string;
  ExpiresAt : Time;
  Confirmation : string;
}.

(** ** The interfaces *)

(** [KeyResolver] *)
Record KeyResolver (W : Type) : Type := {
  Key : string → M W (result error PublicKey);
}.
Arguments Key {W}.

(** The options [NewVerifier] gives the parser ([WithExpirationRequired] is
    always among them). *)
Record ParserOptions : Type := {
  ValidMethods : list string;
  ParserIssuer : string;
  ParserLeeway : Duration;
}.

Definition Keyfunc (W : Type) : Type := Token → M W (result error PublicKey).

(** golang-jwt: parsing, and reading the registered claims. *)
Class JWT (W : Type) : Type := {
  ParseWithClaims : ParserOptions → string → Keyfunc W → M W (result error MapClaims);
  GetAudience : MapClaims → result error (list string);
  GetExpirationTime : MapClaims → result error (option Time);
  (** The header of a raw token: [kid] and [alg], when it has one. *)
  header : string → option Token;
  (** A key that verifies the signature of a token by an algorithm. *)
  signs : string → PublicKey → string → Prop;
  (** A parsed token was signed, by the algorithm its own header names, with the
      key the key function returned for this header; the algorithm is one of the
      allowed methods, and the issuer is the one asked for. *)
  ParseWithClaims_ok : ∀ options raw keyfunc w claims w',
    ParseWithClaims options raw keyfunc w = (Ok claims, w') →
    ∃ token key,
      header raw = Some token ∧ keyfunc token w = (Ok key, w') ∧
      token_Alg token ∈ ValidMethods options ∧ signs (token_Alg token) key raw ∧
      claims !! "iss" = Some (JString (ParserIssuer options));
}.

(** [internaljwt.ValidateBinding] *)
Definition BindingValidator : Type := string → string → string → option error.

(** ** Construction *)

Record Config (W : Type) : Type := {
  config_Issuer : string;
  config_Audience : string;
  config_Algorithms : list string;
  config_Keys : option (KeyResolver W);
  config_Leeway : Duration;
}.
Arguments config_Issuer {W}.
Arguments config_Audience {W}.
Arguments config_Algorithms {W}.
Arguments config_Keys {W}.
Arguments config_Leeway {W}.

Record Verifier (W : Type) : Type := {
  parser : ParserOptions;
  keys : KeyResolver W;
  audience : string;
}.
Arguments parser {W}.
Arguments keys {W}.
Arguments audience {W}.

Definition invalid (sentinel format : string) (args : list string) : error :=
  Errorf format [ErrorNew sentinel] args.

Definition NewVerifier {W} (config : Config W) : result error (Verifier W) :=
  if decide (config_Issuer config = "") then
    Err (invalid ErrInvalidConfig "%w: issuer is required" [])
  else if decide (config_Audience config = "") then
    Err (invalid ErrInvalidConfig "%w: audience is required" [])
  else
    match config_Keys config with
    | None => Err (invalid ErrInvalidConfig "%w: key resolver is required" [])
    | Some keys =>
        let algorithms :=
          if decide (config_Algorithms config = []) then [RS256] else config_Algorithms config in
        match List.find (λ a, negb (Contains supportedAlgorithms a)) algorithms with
        | Some algorithm =>
            Err (invalid ErrInvalidConfig "%w: unsupported algorithm %q" [algorithm])
        | None =>
            let leeway :=
              if config_Leeway config <=? 0 then DefaultLeeway else config_Leeway config in
            Ok {| parser := {| ValidMethods := algorithms; ParserIssuer := config_Issuer config;
                               ParserLeeway := leeway |};
                  keys := keys; audience := config_Audience config |}
        end
    end.

(** ** Claims *)

Definition stringClaim (claims : MapClaims) (name : string) : result error string :=
  match claims !! name with
  | None => Err (invalid ErrInvalidClaims "%w: %s is missing" [name])
  | Some (JString text) =>
      if decide (text = "") then
        Err (invalid ErrInvalidClaims "%w: %s is not a non-empty string" [name])
      else Ok text
  | Some _ => Err (invalid ErrInvalidClaims "%w: %s is not a non-empty string" [name])
  end.

(** [publicIDPattern]: sixteen lowercase hexadecimal digits. *)
Definition is_lower_hex (a : ascii) : bool :=
  is_digit a || ((97 <=? code a) && (code a <=? 102))%N.

Definition publicIDPattern (s : string) : bool :=
  (String.length s =? 16)%nat && all_bytes is_lower_hex s.

Definition publicIDClaim (claims : MapClaims) (name : string) : result error string :=
  match claims !! name with
  | None => Ok ""
  | Some (JString publicID) =>
      if publicIDPattern publicID then Ok publicID
      else Err (invalid ErrInvalidClaims "%w: %s is not a 16 digit lowercase hex public ID" [name])
  | Some _ =>
      Err (invalid ErrInvalidClaims "%w: %s is not a 16 digit lowercase hex public ID" [name])
  end.

Definition readTokenUse (claims : MapClaims) : result error string :=
  let? tokenUse := stringClaim claims "token_use" in
  if negb (Contains externalTokenUses tokenUse) then
    Err (invalid ErrInvalidClaims "%w: token_use %q is not an external token use" [tokenUse])
  else Ok tokenUse.

Definition readConfirmation (claims : MapClaims) : result error string :=
  match claims !! "cnf" with
  | None => Ok ""
  | Some (JObject confirmation) =>
      match member_of confirmation "jkt" with
      | JString thumbprint =>
          if decide (thumbprint = "") then
            Err (invalid ErrInvalidClaims "%w: cnf.jkt is not a non-empty string" [])
          else Ok thumbprint
      | _ => Err (invalid ErrInvalidClaims "%w: cnf.jkt is not a non-empty string" [])
      end
  | Some _ => Err (invalid ErrInvalidClaims "%w: cnf is not an object" [])
  end.

(** [checkKeyAlgorithm]: the type switch over the key. *)
Definition checkKeyAlgorithm (key : PublicKey) (algorithm : string) : option error :=
  let matches :=
    match key with
    | RSAKey _ _ => bool_decide (algorithm = RS256)
    | ECDSAKey curve _ _ => bool_decide (algorithm = ES256) && bool_decide (curve = P256)
    | OtherKey => false
    end in
  if matches then None
  else Some (invalid ErrInvalidToken "%w: alg %q does not match the verification key" [algorithm]).

Section verify.
Context {W : Type} `{!JWT W} (ValidateBinding : BindingValidator).

Definition readBinding (claims : MapClaims) (tokenUse : string) :
    result error (string * string) :=
  let? tenantID := publicIDClaim claims "tenant_id" in
  let? eventID := publicIDClaim claims "event_id" in
  match ValidateBinding tokenUse tenantID eventID with
  | Some err => Err (Errorf "%w: %w" [ErrorNew ErrInvalidClaims; err] [])
  | None => Ok (tenantID, eventID)
  end.

Definition readClaims (claims : MapClaims) : result error Claims :=
  let? subject := stringClaim claims "sub" in
  let? clientID := stringClaim claims "client_id" in
  let? scope := stringClaim claims "scope" in
  let? tokenID := stringClaim claims "jti" in
  let? tokenUse := readTokenUse claims in
  let? ' (tenantID, eventID) := readBinding claims tokenUse in
  let? confirmation := readConfirmation claims in
  match GetExpirationTime claims with
  | Ok (Some expiresAt) =>
      Ok {| Subject := subject; ClientID := clientID; TokenUse := tokenUse; Scope := scope;
            JTI := tokenID; TenantID := tenantID; EventID := eventID; ExpiresAt := expiresAt;
            Confirmation := confirmation |}
  | _ => Err (invalid ErrInvalidClaims "%w: exp is missing" [])
  end.

Definition checkAudience (v : Verifier W) (claims : MapClaims) : option error :=
  match GetAudience claims with
  | Err err => Some (Errorf "%w: aud: %w" [ErrorNew ErrInvalidClaims; err] [])
  | Ok [value] =>
      if decide (value ≠ audience v) then
        Some (invalid ErrInvalidClaims "%w: aud is %q, want %q" [value; audience v])
      else None
  | Ok values =>
      Some (invalid ErrInvalidClaims "%w: aud must hold exactly one value, got %d"
              [Itoa (Z.of_nat (List.length values))])
  end.

Definition keyFunc (v : Verifier W) : Keyfunc W := λ token,
  match token_kid token with
  | JString keyID =>
      if decide (keyID = "") then mret_ (Err (ErrorNew ErrMissingKeyID))
      else
        let! key := Key (keys v) keyID in
        mret_ (match key with
               | Err err => Err err
               | Ok key =>
                   match checkKeyAlgorithm key (token_Alg token) with
                   | Some err => Err err
                   | None => Ok key
                   end
               end)
  | _ => mret_ (Err (ErrorNew ErrMissingKeyID))
  end.

Definition Verify (v : Verifier W) (token : string) : M W (result error Claims) :=
  let! parsed := ParseWithClaims (parser v) token (keyFunc v) in
  mret_ (match parsed with
         | Err err =>
             if Is err ErrKeysUnavailable then
               Err (Errorf "resolve the external token verification key: %w" [err] [])
             else Err (Errorf "%w: %w" [ErrorNew ErrInvalidToken; err] [])
         | Ok claims =>
             match checkAudience v claims with
             | Some err => Err err
             | None => readClaims claims
             end
         end).
End verify.

(** ** Correctness *)

(** A claim holds a non-empty text. *)
Definition holds_text (claims : MapClaims) (name text : string) : Prop :=
  claims !! name = Some (JString text) ∧ text ≠ "".

(** A public ID: absent, or sixteen lowercase hexadecimal digits. *)
Definition holds_publicID (claims : MapClaims) (name value : string) : Prop :=
  (claims !! name = None ∧ value = "") ∨
  (claims !! name = Some (JString value) ∧ publicIDPattern value = true).

Definition holds_confirmation (claims : MapClaims) (value : string) : Prop :=
  (claims !! "cnf" = None ∧ value = "") ∨
  (∃ members, claims !! "cnf" = Some (JObject members) ∧
     member_of members "jkt" = JString value ∧ value ≠ "").

Lemma stringClaim_ok claims name text :
  stringClaim claims name = Ok text ↔ holds_text claims name text.
Proof.
  unfold stringClaim, holds_text. destruct (claims !! name) as [[]|]; try (split; [done|naive_solver]).
  destruct (decide (s = "")) as [->|]; split; [done|naive_solver|naive_solver|naive_solver].
Qed.

Lemma publicIDClaim_ok claims name value :
  publicIDClaim claims name = Ok value ↔ holds_publicID claims name value.
Proof.
  unfold publicIDClaim, holds_publicID.
  destruct (claims !! name) as [[]|]; try (split; [done|naive_solver]).
  - destruct (publicIDPattern s) eqn:Hs; split; [|naive_solver congruence|done|naive_solver congruence].
    intros [= <-]. by right.
  - split; [intros [= <-]; by left|]. by intros [[_ ->]|[? _]].
Qed.

Lemma readTokenUse_ok claims use :
  readTokenUse claims = Ok use ↔ holds_text claims "token_use" use ∧ use ∈ externalTokenUses.
Proof.
  unfold readTokenUse. destruct (stringClaim claims "token_use") as [u|] eqn:Hu; simpl.
  - apply stringClaim_ok in Hu as Hu'. destruct (Contains externalTokenUses u) eqn:Hc; simpl.
    + apply Contains_true in Hc. split; [by intros [= <-]|].
      intros [H%stringClaim_ok _]. congruence.
    + apply Contains_false in Hc. split; [done|]. intros [H%stringClaim_ok ?]. congruence.
  - split; [done|]. intros [H%stringClaim_ok _]. congruence.
Qed.

Lemma readConfirmation_ok claims value :
  readConfirmation claims = Ok value ↔ holds_confirmation claims value.
Proof.
  unfold readConfirmation, holds_confirmation.
  destruct (claims !! "cnf") as [[| | | | |members]|]; try (split; [done|naive_solver]).
  - destruct (member_of members "jkt") as [| | |s| |] eqn:Hm;
      try (split; [done|intros [[? _]|(? & [= <-] & ? & _)]; congruence]).
    destruct (decide (s = "")) as [->|Hs].
    + split; [done|]. intros [[? _]|(? & [= <-] & H & ?)]; [done|]. rewrite Hm in H.
      injection H as <-. done.
    + split; [intros [= <-]; right; by exists members|].
      intros [[? _]|(? & [= <-] & H & ?)]; [done|]. rewrite Hm in H. by injection H as <-.
  - split; [intros [= <-]; by left|]. by intros [[_ ->]|(? & ? & _)].
Qed.

Section verify_correct.
Context {W : Type} `{!JWT W} (ValidateBinding : BindingValidator).

(** The claims an accepted token set carries. *)
Record reads (claims : MapClaims) (c : Claims) : Prop := {
  reads_Subject : holds_text claims "sub" (Subject c);
  reads_ClientID : holds_text claims "client_id" (ClientID c);
  reads_Scope : holds_text claims "scope" (Scope c);
  reads_JTI : holds_text claims "jti" (JTI c);
  reads_TokenUse : holds_text claims "token_use" (TokenUse c);
  reads_external : TokenUse c ∈ externalTokenUses;
  reads_TenantID : holds_publicID claims "tenant_id" (TenantID c);
  reads_EventID : holds_publicID claims "event_id" (EventID c);
  reads_binding : ValidateBinding (TokenUse c) (TenantID c) (EventID c) = None;
  reads_Confirmation : holds_confirmation claims (Confirmation c);
  reads_ExpiresAt : GetExpirationTime claims = Ok (Some (ExpiresAt c));
}.

Lemma readBinding_ok claims use tenant event :
  readBinding ValidateBinding claims use = Ok (tenant, event) ↔
  holds_publicID claims "tenant_id" tenant ∧ holds_publicID claims "event_id" event ∧
  ValidateBinding use tenant event = None.
Proof.
  rewrite <-!publicIDClaim_ok. unfold readBinding.
  destruct (publicIDClaim claims "tenant_id") as [t|]; simpl; [|split; [done|by intros [? _]]].
  destruct (publicIDClaim claims "event_id") as [e|]; simpl; [|split; [done|by intros (_ & ? & _)]].
  destruct (ValidateBinding use t e) eqn:Hv; split.
  - done.
  - intros ([= <-] & [= <-] & ?). congruence.
  - intros [= <- <-]. done.
  - by intros ([= <-] & [= <-] & ?).
Qed.

(** Reading the claims succeeds exactly on the accepted sets. *)
Lemma readClaims_ok claims c : readClaims ValidateBinding claims = Ok c ↔ reads claims c.
Proof.
  split.
  - unfold readClaims.
    destruct (stringClaim claims "sub") as [x1|] eqn:H1; [|done].
    destruct (stringClaim claims "client_id") as [x2|] eqn:H2; [|done].
    destruct (stringClaim claims "scope") as [x3|] eqn:H3; [|done].
    destruct (stringClaim claims "jti") as [x4|] eqn:H4; [|done].
    destruct (readTokenUse claims) as [x5|] eqn:H5; [|done]. cbn [result_bind].
    destruct (readBinding ValidateBinding claims x5) as [[x6 x7]|] eqn:H6; [|done].
    destruct (readConfirmation claims) as [x8|] eqn:H7; [|done]. cbn [result_bind].
    destruct (GetExpirationTime claims) as [[x9|]|] eqn:H8; [|done..]. intros [= <-].
    rewrite !stringClaim_ok in H1, H2, H3, H4. apply readTokenUse_ok in H5 as [??].
    apply readBinding_ok in H6 as (? & ? & ?). apply readConfirmation_ok in H7.
    by split.
  - intros [H1 H2 H3 H4 H5 H6 H7 H8 H9 H10 H11]. unfold readClaims.
    apply stringClaim_ok in H1, H2, H3, H4. rewrite H1, H2, H3, H4. cbn [result_bind].
    rewrite (proj2 (readTokenUse_ok claims (TokenUse c))) by done. cbn [result_bind].
    rewrite (proj2 (readBinding_ok claims (TokenUse c) (TenantID c) (EventID c))) by done.
    cbn [result_bind]. apply readConfirmation_ok in H10. rewrite H10. cbn [result_bind].
    rewrite H11. by destruct c.
Qed.

Lemma checkAudience_None (v : Verifier W) claims :
  checkAudience v claims = None ↔ GetAudience claims = Ok [audience v].
Proof.
  unfold checkAudience. destruct (GetAudience claims) as [[|a [|]]|]; try (split; [done|naive_solver]).
  destruct (decide (a ≠ audience v)) as [Hne|Heq%dec_stable].
  - split; [done|]. intros [= ->]. done.
  - by rewrite Heq.
Qed.

Lemma Verify_ok (v : Verifier W) token w c w' :
  Verify ValidateBinding v token w = (Ok c, w') ↔
  ∃ claims, ParseWithClaims (parser v) token (keyFunc v) w = (Ok claims, w') ∧
    GetAudience claims = Ok [audience v] ∧ reads claims c.
Proof.
  unfold Verify, mbind_, mret_.
  destruct (ParseWithClaims _ _ _ w) as [[claims|err] w1] eqn:Hp.
  - setoid_rewrite <-checkAudience_None. setoid_rewrite <-readClaims_ok.
    destruct (checkAudience v claims) as [err|] eqn:Ha.
    + split; [done|]. intros (? & [= <- <-] & ? & _). congruence.
    + split; [intros [= ? <-]; by exists claims|]. intros (? & [= <- <-] & _ & <-). done.
  - split; [by destruct (Is err ErrKeysUnavailable)|]. by intros (? & ? & _).
Qed.

(** A key and an algorithm that belong together. *)
Inductive matches : PublicKey → string → Prop :=
| matches_rsa n e : matches (RSAKey n e) RS256
| matches_ec x y : matches (ECDSAKey P256 x y) ES256.

Lemma checkKeyAlgorithm_None key algorithm :
  checkKeyAlgorithm key algorithm = None ↔ matches key algorithm.
Proof.
  unfold checkKeyAlgorithm. split.
  - destruct key as [n e|curve x y|]; simpl; [| |done].
    + destruct (bool_decide (algorithm = RS256)) eqn:H; [|done].
      apply bool_decide_eq_true in H as ->. constructor.
    + destruct (_ && _) eqn:H; [|done].
      apply andb_prop in H as [->%bool_decide_eq_true ->%bool_decide_eq_true]. constructor.
  - by intros [].
Qed.

Lemma keyFunc_ok (v : Verifier W) token w key w' :
  keyFunc v token w = (Ok key, w') ↔
  ∃ keyID, token_kid token = JString keyID ∧ keyID ≠ "" ∧
    Key (keys v) keyID w = (Ok key, w') ∧ matches key (token_Alg token).
Proof.
  unfold keyFunc, mbind_, mret_.
  destruct (token_kid token) as [| | |keyID| |]; try (split; [done|naive_solver]).
  destruct (decide (keyID = "")) as [->|Hne]; [split; [done|naive_solver]|].
  destruct (Key (keys v) keyID w) as [[k|err] w1] eqn:Hk.
  - destruct (checkKeyAlgorithm k (token_Alg token)) eqn:Hc.
    + split; [done|]. intros (? & [= <-] & _ & H & Hm%checkKeyAlgorithm_None). congruence.
    + apply checkKeyAlgorithm_None in Hc. split.
      * intros [= <- <-]. by exists keyID.
      * intros (? & [= <-] & _ & H & _). congruence.
  - split; [done|]. intros (? & [= <-] & _ & H & _). congruence.
Qed.

(** What an accepted token shows about itself: its header names a key ID and one
    of the allowed algorithms, the resolver returned a key for this very ID, the
    key verifies the signature by this very algorithm, and its type is the one
    the algorithm needs. *)
Definition signed_as_headed (v : Verifier W) (raw : string) (w w' : W) : Prop :=
  ∃ token keyID key,
    header raw = Some token ∧ token_kid token = JString keyID ∧ keyID ≠ "" ∧
    Key (keys v) keyID w = (Ok key, w') ∧ signs (token_Alg token) key raw ∧
    matches key (token_Alg token) ∧ token_Alg token ∈ ValidMethods (parser v).

Lemma Verify_key (v : Verifier W) raw w c w' :
  Verify ValidateBinding v raw w = (Ok c, w') → signed_as_headed v raw w w'.
Proof.
  intros (claims & Hp & _)%Verify_ok.
  apply ParseWithClaims_ok in Hp as (t & key & Hh & Hk & Ha & Hs & _).
  apply keyFunc_ok in Hk as (keyID & ? & ? & ? & ?). exists t, keyID, key. by split_and!.
Qed.
End verify_correct.

(** [NewVerifier] allows only RS256 and ES256, RS256 by default, and always has
    a positive leeway. *)
Lemma NewVerifier_ok {W} (config : Config W) v :
  NewVerifier config = Ok v →
  config_Issuer config ≠ "" ∧ config_Audience config ≠ "" ∧ config_Keys config = Some (keys v) ∧
  audience v = config_Audience config ∧ ParserIssuer (parser v) = config_Issuer config ∧
  ValidMethods (parser v)
    = (if decide (config_Algorithms config = []) then [RS256] else config_Algorithms config) ∧
  Forall (.∈ supportedAlgorithms) (ValidMethods (parser v)) ∧ ValidMethods (parser v) ≠ [] ∧
  0 < ParserLeeway (parser v).
Proof.
  unfold NewVerifier. repeat (case_decide; [done|]). destruct (config_Keys config); [|done].
  destruct (List.find _ _) eqn:Hf; [done|]. intros [= <-]. simpl. split_and!; try done.
  - apply Forall_forall. intros a Ha%list_elem_of_In.
    pose proof (List.find_none _ _ Hf a Ha) as Hn%negb_false_iff. by apply Contains_true.
  - by case_decide.
  - destruct (config_Leeway config <=? 0) eqn:Hl; [done|]. by apply Z.leb_gt in Hl.
Qed.

(** ** Properties *)

(** C9. A token is accepted exactly when the JWT library accepts it with the
    verifier's options, its audience is the configured one alone, and its claims
    are those of an external token ([reads]: subject, client, scope and [jti]
    are non-empty texts, the token use is external, the tenant and event IDs are
    well formed and fit the token use, the confirmation is absent or a
    thumbprint, and it expires); the result carries these claims. *)
Theorem verify_spec {W} `{!JWT W} ValidateBinding (v : Verifier W) token w c w' :
  Verify ValidateBinding v token w = (Ok c, w') ↔
  ∃ claims, ParseWithClaims (parser v) token (keyFunc v) w = (Ok claims, w') ∧
    GetAudience claims = Ok [audience v] ∧ reads ValidateBinding claims c.
Proof. apply Verify_ok. Qed.

(** C8. No algorithm confusion: an accepted token has a header that names a
    non-empty key ID and an algorithm, RS256 or ES256; the resolver [NewVerifier]
    was given returned a key for exactly this key ID, this key verifies the
    signature by exactly this algorithm, and its type is the one the algorithm
    needs (RSA for RS256, the P-256 curve for ES256). *)
Theorem verify_no_algorithm_confusion {W} `{!JWT W} ValidateBinding config (v : Verifier W) raw
    w c w' :
  NewVerifier config = Ok v → Verify ValidateBinding v raw w = (Ok c, w') →
  ∃ resolver token keyID key,
    config_Keys config = Some resolver ∧
    header raw = Some token ∧ token_kid token = JString keyID ∧ keyID ≠ "" ∧
    Key resolver keyID w = (Ok key, w') ∧ signs (token_Alg token) key raw ∧
    matches key (token_Alg token) ∧ token_Alg token ∈ supportedAlgorithms.
Proof.
  intros (_ & _ & Hk & _ & _ & _ & Ha & _)%NewVerifier_ok Hv.
  apply Verify_key in Hv as (token & keyID & key & ? & ? & ? & ? & ? & ? & Hin).
  rewrite Forall_forall in Ha. exists (keys v), token, keyID, key. split_and!; auto.
Qed.

(** A JWT library for one token, which one RSA key signs. *)

Definition example_key : PublicKey := RSAKey (2 ^ 2048 + 1) 65537.

Definition example_claims (issuer : string) : MapClaims :=
  list_to_map [("iss", JString issuer); ("sub", JString "user"); ("client_id", JString "web");
               ("scope", JString "a.read"); ("jti", JString "id-1");
               ("token_use", JString Registry.TokenUseRegistration)].

Definition example_header : Token := {| token_kid := JString "k1"; token_Alg := RS256 |}.

Definition example_parse (options : ParserOptions) (raw : string) (keyfunc : Keyfunc unit) :
    M unit (result error MapClaims) := λ w,
  match keyfunc example_header w with
  | (Err err, w) => (Err err, w)
  | (Ok key, w) =>
      (if decide (key = example_key ∧ RS256 ∈ ValidMethods options ∧ raw = "token")
       then Ok (example_claims (ParserIssuer options)) else Err (ErrorNew "bad signature"), w)
  end.

#[local] Program Instance example_jwt : JWT unit :=
  {| ParseWithClaims := example_parse;
     GetAudience := λ _, Ok ["gateway"];
     GetExpirationTime := λ _, Ok (Some 100);
     header := λ raw, if decide (raw = "token") then Some example_header else None;
     signs := λ alg key raw, alg = RS256 ∧ key = example_key ∧ raw = "token" |}.
Next Obligation.
  intros options raw keyfunc w claims w'. unfold example_parse.
  destruct (keyfunc _ w) as [[key|err] w1] eqn:Hk; [|done].
  destruct (decide _) as [(-> & Hin & ->)|]; [|done]. intros [= <- <-].
  exists example_header, example_key. done.
Qed.

Definition example_config : Config unit :=
  {| config_Issuer := "https://idp"; config_Audience := "gateway"; config_Algorithms := [];
     config_Keys := Some {| Key := λ _ w, (Ok example_key, w) |}; config_Leeway := 0 |}.

Definition example_verifier : Verifier unit :=
  {| parser := {| ValidMethods := [RS256]; ParserIssuer := "https://idp";
                  ParserLeeway := DefaultLeeway |};
     keys := {| Key := λ _ w, (Ok example_key, w) |}; audience := "gateway" |}.

Definition example_accepted : Claims :=
  {| Subject := "user"; ClientID := "web"; TokenUse := Registry.TokenUseRegistration;
     Scope := "a.read"; JTI := "id-1"; TenantID := ""; EventID := ""; ExpiresAt := 100;
     Confirmation := "" |}.

Lemma example_verified :
  Verify (λ _ _ _, None) example_verifier "token" tt = (Ok example_accepted, tt).
Proof. vm_compute. reflexivity. Qed.

Lemma verify_no_algorithm_confusion_witness :
  ∃ resolver token keyID key,
    config_Keys example_config = Some resolver ∧
    header "token" = Some token ∧ token_kid token = JString keyID ∧ keyID ≠ "" ∧
    Key resolver keyID tt = (Ok key, tt) ∧ signs (token_Alg token) key "token" ∧
    matches key (token_Alg token) ∧ token_Alg token ∈ supportedAlgorithms.
Proof.
  apply (verify_no_algorithm_confusion (λ _ _ _, None) example_config example_verifier "token" tt
           example_accepted tt eq_refl example_verified).
Defined.
