(* ===== verification/KeySet.v ===== *)
(** * The IdP's verification keys ([internal/externaltoken/keyset.go])

    A key set keeps the keys of the IdP's JWKS document for [cacheTTL], fetches
    them again for an unknown key ID after [refreshCooldown], retries transient
    failures and remembers a failure for [failureCooldown].  [cached], [lookup],
    [store] and [recordFailure] hold the mutex; the single-flight group shares
    one [refresh] between the calls that arrive while it runs. *)

From S2P Require Import Prelude GoStd GoErrors Base64 Discovery.
From S2P Require Import Verifier.

Definition DefaultCacheTTL : Duration := 5 * Minute.
Definition DefaultRefreshCooldown : Duration := 30 * Second.
Definition DefaultFailureCooldown : Duration := 5 * Second.
Definition DefaultFetchTimeout : Duration := 5 * Second.
Definition minimumRSAKeySize : Z := 2048.
Definition p256CoordinateSize : nat := 32.

Definition ErrUnknownKeyID : string := "the IdP JWKS has no key with this kid".
Definition ErrInvalidJWKS : string := "JWKS document is invalid".
Definition ErrInvalidJWKSURL : string := "JWKS URL is not an absolute HTTP URL".
Definition ErrInvalidRetryBackoff : string := "JWKS retry backoff has a negative delay".
Definition errFetchRequired : string := "JWKS fetch required".
Definition errUnusableKey : string := "unusable JWKS key".

Definition DefaultRetryBackoff : list Duration := [100 * Millisecond; 200 * Millisecond].

(** ** The JWKS document *)

Record jwk : Type := {
  KeyType : string;
  KeyID : string;
  Use : string;
  Curve : string;
  Modulus : string;
  Exponent : string;
  XPosition : string;
  YPosition : string;
}.

(** [ecdsa.ParseUncompressedPublicKey] on P-256: the coordinates are reduced and
    the point is on the curve. *)
Definition p256_p : Z := 2 ^ 256 - 2 ^ 224 + 2 ^ 192 + 2 ^ 96 - 1.
Definition p256_b : Z := 0x5ac635d8aa3a93e7b3ebbd55769886bc651d06b0cc53b0f63bce3c3e27d2604b.

Definition on_p256 (x y : Z) : bool :=
  (x <? p256_p) && (y <? p256_p) &&
  ((y * y) mod p256_p =? (x * x * x - 3 * x + p256_b) mod p256_p).

Example on_p256_generator :
  on_p256 0x6b17d1f2e12c4247f8bce6e563a440f277037d812deb33a0f4a13945d898c296
    0x4fe342e2fe1a7f9b8ee7eb4a7c0f9e162bce33576b315ececbb6406837bf51f5 = true.
Proof. vm_compute. reflexivity. Qed.

Definition kid_error (value : jwk) (format : string) (args : list string) : error :=
  Errorf format [] (KeyID value :: args).

Definition member (value : jwk) (name encoded : string) : result error (list Z) :=
  if decide (encoded = "") then Err (kid_error value "kid %q: member %s is missing" [name])
  else
    match DecodeString encoded with
    | None => Err (kid_error value "kid %q: member %s is not base64url" [name])
    | Some decoded => Ok decoded
    end.

Definition integer (value : jwk) (name encoded : string) : result error Z :=
  let? decoded := member value name encoded in Ok (SetBytes decoded).

Definition coordinate (value : jwk) (name encoded : string) : result error (list Z) :=
  let? decoded := member value name encoded in
  if negb (List.length decoded =? p256CoordinateSize)%nat then
    Err (kid_error value "kid %q: member %s is not %d bytes" [name; "32"])
  else Ok decoded.

Definition MaxInt32 : Z := 2 ^ 31 - 1.

Definition rsaKey (value : jwk) : result error PublicKey :=
  let? modulus := integer value "n" (Modulus value) in
  let? exponent := integer value "e" (Exponent value) in
  if BitLen modulus <? minimumRSAKeySize then Err (ErrorNew errUnusableKey)
  else if (max_int <? exponent) || (exponent <? 3) || (MaxInt32 <? exponent) then
    Err (kid_error value "kid %q: exponent e is out of range" [])
  else Ok (RSAKey modulus exponent).

Definition ecdsaKey (value : jwk) : result error PublicKey :=
  if decide (Curve value ≠ "P-256") then Err (ErrorNew errUnusableKey)
  else
    let? x := coordinate value "x" (XPosition value) in
    let? y := coordinate value "y" (YPosition value) in
    if on_p256 (SetBytes x) (SetBytes y) then Ok (ECDSAKey P256 (SetBytes x) (SetBytes y))
    else Err (Errorf "kid %q: %w" [ErrorNew "invalid point"] [KeyID value]).

Definition publicKey (value : jwk) : result error PublicKey :=
  if negb (bool_decide (Use value = "")) && negb (bool_decide (Use value = "sig")) then
    Err (ErrorNew errUnusableKey)
  else if decide (KeyType value = "RSA") then rsaKey value
  else if decide (KeyType value = "EC") then ecdsaKey value
  else Err (ErrorNew errUnusableKey).

(** The loop of [parseJWKS]. *)
Fixpoint parseKeys (values : list jwk) (keys : gmap string PublicKey) :
    result error (gmap string PublicKey) :=
  match values with
  | [] => Ok keys
  | value :: rest =>
      match publicKey value with
      | Err err =>
          if Is err errUnusableKey then parseKeys rest keys
          else Err (Errorf "%w: %w" [ErrorNew ErrInvalidJWKS; err] [])
      | Ok key =>
          if decide (KeyID value = "") then
            Err (Errorf "%w: a %s key has no kid" [ErrorNew ErrInvalidJWKS] [KeyType value])
          else if decide (is_Some (keys !! KeyID value)) then
            Err (Errorf "%w: duplicate kid %q" [ErrorNew ErrInvalidJWKS] [KeyID value])
          else parseKeys rest (<[KeyID value := key]> keys)
      end
  end.

(** [UnmarshalJWKS] decodes the [keys] of the document. *)
Definition parseJWKS (UnmarshalJWKS : string → result error (list jwk)) (encoded : string) :
    result error (gmap string PublicKey) :=
  match UnmarshalJWKS encoded with
  | Err err => Err (Errorf "%w: %w" [ErrorNew ErrInvalidJWKS; err] [])
  | Ok values => parseKeys values ∅
  end.

(** ** The key set *)

Record KeySetConfig : Type := {
  config_URL : string;
  config_CacheTTL : Duration;
  config_RefreshCooldown : Duration;
  config_FailureCooldown : Duration;
  config_FetchTimeout : Duration;
  config_RetryBackoff : option (list Duration);
  config_MaxDocumentSize : Z;
}.

Record KeySet : Type := {
  url : string;
  cacheTTL : Duration;
  refreshCooldown : Duration;
  failureCooldown : Duration;
  fetchTimeout : Duration;
  retryBackoff : list Duration;
  maxDocumentSize : Z;
}.

(** The fields the mutex guards. *)
Record State : Type := {
  keys : gmap string PublicKey;
  expiry : Time;
  lastRefresh : Time;
  lastFailure : Time;
  lastError : option error;
}.

Definition newState : State :=
  {| keys := ∅; expiry := 0; lastRefresh := 0; lastFailure := 0; lastError := None |}.

Definition orDefaultDuration (value fallback : Duration) : Duration :=
  if value <=? 0 then fallback else value.

Definition orDefaultSize (value fallback : Z) : Z := if value <=? 0 then fallback else value.

Fixpoint checkBackoff (index : nat) (configured : list Duration) : option error :=
  match configured with
  | [] => None
  | delay :: rest =>
      if delay <? 0 then
        Some (Errorf "%w: RetryBackoff[%d] is %s" [ErrorNew ErrInvalidRetryBackoff]
                [Itoa (Z.of_nat index); Itoa delay])
      else checkBackoff (S index) rest
  end.

(** [retryBackoff] (the function) *)
Definition retryBackoffOf (configured : option (list Duration)) : result error (list Duration) :=
  match configured with
  | None => Ok DefaultRetryBackoff
  | Some configured =>
      match checkBackoff 0 configured with Some err => Err err | None => Ok configured end
  end.

Definition NewKeySet (url_Parse : string → result error URL) (config : KeySetConfig) :
    result error KeySet :=
  let invalid := Err (Errorf "%w: %q" [ErrorNew ErrInvalidJWKSURL] [config_URL config]) in
  match url_Parse (config_URL config) with
  | Err _ => invalid
  | Ok parsed =>
      if negb (isHTTPURL parsed) then invalid
      else
        let? backoff := retryBackoffOf (config_RetryBackoff config) in
        Ok {| url := config_URL config;
              cacheTTL := orDefaultDuration (config_CacheTTL config) DefaultCacheTTL;
              refreshCooldown :=
                orDefaultDuration (config_RefreshCooldown config) DefaultRefreshCooldown;
              failureCooldown :=
                orDefaultDuration (config_FailureCooldown config) DefaultFailureCooldown;
              fetchTimeout := orDefaultDuration (config_FetchTimeout config) DefaultFetchTimeout;
              retryBackoff := backoff;
              maxDocumentSize :=
                orDefaultSize (config_MaxDocumentSize config) DefaultMaxDocumentSize |}
  end.

Definition unknownKey (keyID : string) : error :=
  Errorf "%w: %q" [ErrorNew ErrUnknownKeyID] [keyID].

(** [%w: %w] with the last error: [None] prints as a nil error. *)
Definition keysUnavailable (cause : option error) : error :=
  Errorf "%w: %w" (ErrorNew ErrKeysUnavailable :: option_list cause) [].

Definition cached (k : KeySet) (s : State) (now : Time) (keyID : string) :
    result error PublicKey :=
  let failed :=
    if negb (time_is_zero (lastFailure s))
       && (time_sub now (lastFailure s) <? failureCooldown k) then
      Err (keysUnavailable (lastError s))
    else Err (ErrorNew errFetchRequired) in
  if time_before now (expiry s) then
    match keys s !! keyID with
    | Some key => Ok key
    | None =>
        if time_sub now (lastRefresh s) <? refreshCooldown k then Err (unknownKey keyID)
        else failed
    end
  else failed.

Definition lookup (s : State) (keyID : string) : result error PublicKey :=
  match keys s !! keyID with Some key => Ok key | None => Err (unknownKey keyID) end.

Definition store (k : KeySet) (now : Time) (keys : gmap string PublicKey) : State :=
  {| keys := keys; expiry := time_add now (cacheTTL k); lastRefresh := now; lastFailure := 0;
     lastError := None |}.

Definition failure (s : State) (now : Time) (err : error) : State :=
  {| keys := keys s; expiry := expiry s; lastRefresh := lastRefresh s; lastFailure := now;
     lastError := Some err |}.

Definition isTransientFetchError (err : error) : bool :=
  match AsUnexpectedStatus err with
  | Some code => (code =? 429) || (500 <=? code)
  | None => Is err ErrFetch
  end.

(** The clock, the request context and the timers of a world: [Cancelled] is
    [ctx.Err() != nil], and [Fires delay] whether the timer fires before the
    context is done.  [Fetch] is [fetchDocument] under the fetch timeout. *)
Class KeySetWorld (W : Type) : Type := {
  now : M W Time;
  Cancelled : M W bool;
  Fires : Duration → M W bool;
  Fetch : Duration → string → Z → M W (result error string);
  UnmarshalJWKS : string → result error (list jwk);
}.

Section key.
Context {W : Type} `{!KeySetWorld W}.

Definition waitFor (delay : Duration) : M W bool :=
  if delay <=? 0 then
    let! cancelled := Cancelled in mret_ (negb cancelled)
  else Fires delay.

Definition load (k : KeySet) : M W (result error (gmap string PublicKey)) :=
  let! encoded := Fetch (fetchTimeout k) (url k) (maxDocumentSize k) in
  mret_ (let? encoded := encoded in parseJWKS UnmarshalJWKS encoded).

(** The attempts after one that failed with [lastErr], one per remaining
    backoff: [None] when one succeeds. *)
Fixpoint attempts (k : KeySet) (backoff : list Duration) (lastErr : error) :
    M W (result error (gmap string PublicKey)) :=
  match backoff with
  | [] => mret_ (Err lastErr)
  | delay :: rest =>
      let! fires := waitFor delay in
      if negb fires then mret_ (Err lastErr)
      else
        let! loaded := load k in
        match loaded with
        | Ok keys => mret_ (Ok keys)
        | Err err =>
            if negb (isTransientFetchError err) then mret_ (Err err)
            else attempts k rest err
        end
  end.

(** The loop of [refresh]: the keys, or the error of the last attempt. *)
Definition loadWithRetries (k : KeySet) : M W (result error (gmap string PublicKey)) :=
  let! loaded := load k in
  match loaded with
  | Ok keys => mret_ (Ok keys)
  | Err err =>
      if negb (isTransientFetchError err) then mret_ (Err err)
      else attempts k (retryBackoff k) err
  end.

Definition recordFailure (err : error) : M (State * W) unit := λ '(s, w),
  let '(cancelled, w) := Cancelled w in
  if (cancelled : bool) then (tt, (s, w))
  else let '(t, w) := now w in (tt, (failure s t err, w)).

Definition refresh (k : KeySet) : M (State * W) (option error) := λ '(s, w),
  let '(loaded, w) := loadWithRetries k w in
  match loaded with
  | Ok keys => let '(t, w) := now w in (None, (store k t keys, w))
  | Err err => let '(_, sw) := recordFailure err (s, w) in (Some err, sw)
  end.

Definition fetch (k : KeySet) : M (State * W) (option error) :=
  let! err := refresh k in
  mret_ ((λ err, Errorf "%w: %w" [ErrorNew ErrKeysUnavailable; err] []) <$> err).

(** The method [Key] of a key set *)
Definition KeySet_Key (k : KeySet) (keyID : string) : M (State * W) (result error PublicKey) :=
  λ '(s, w),
  if decide (keyID = "") then (Err (ErrorNew ErrMissingKeyID), (s, w))
  else
    let '(t, w) := now w in
    match cached k s t keyID with
    | Ok key => (Ok key, (s, w))
    | Err err =>
        if negb (Is err errFetchRequired) then (Err err, (s, w))
        else
          let '(failed, (s, w)) := fetch k (s, w) in
          match failed with
          | Some err => (Err err, (s, w))
          | None => (lookup s keyID, (s, w))
          end
    end.
End key.

(** ** The keys of a document *)

(** A key the gateway accepts: RSA of at least 2048 bits with an exponent that
    fits, or a point of P-256. *)
Definition usable (key : PublicKey) : Prop :=
  match key with
  | RSAKey n e => minimumRSAKeySize ≤ BitLen n ∧ 3 ≤ e ≤ MaxInt32
  | ECDSAKey curve x y => curve = P256 ∧ on_p256 x y = true
  | OtherKey => False
  end.

Lemma publicKey_usable value key :
  publicKey value = Ok key → usable key ∧ Use value ∈ [""; "sig"].
Proof.
  unfold publicKey. destruct (negb _ && negb _) eqn:Hu; [done|]. intros Hk. split.
  2: { apply andb_false_iff in Hu as [E%negb_false_iff|E%negb_false_iff];
       apply bool_decide_eq_true in E; rewrite E; set_solver. }
  revert Hk. destruct (decide (KeyType value = "RSA")).
  - unfold rsaKey. destruct (integer value "n" _) as [n|]; [|done].
    destruct (integer value "e" _) as [ex|]; [|done]. cbn [result_bind].
    destruct (Z.ltb_spec (BitLen n) minimumRSAKeySize) as [|Hn]; [done|].
    destruct (_ || _ || _) eqn:He; [done|]. intros [= <-].
    apply orb_false_elim in He as [[_ ?%Z.ltb_ge]%orb_false_elim ?%Z.ltb_ge]. done.
  - destruct (decide (KeyType value = "EC")); [|done]. unfold ecdsaKey.
    destruct (decide (Curve value ≠ "P-256")); [done|].
    destruct (coordinate value "x" _) as [x|]; [|done].
    destruct (coordinate value "y" _) as [y|]; [|done]. cbn [result_bind].
    destruct (on_p256 _ _) eqn:Hon; [|done]. by intros [= <-].
Qed.

(** What the document of an IdP may hold: keys of the set, each with its own
    ID, and keys that are skipped. *)
Definition skipped (value : jwk) : Prop :=
  ∃ err, publicKey value = Err err ∧ Is err errUnusableKey = true.

Definition named (value : jwk) (id : string) (key : PublicKey) : Prop :=
  publicKey value = Ok key ∧ KeyID value = id ∧ id ≠ "".

Lemma parseKeys_ok values ks ks' :
  parseKeys values ks = Ok ks' →
  Forall (λ v, skipped v ∨ ∃ id key, named v id key) values ∧
  ∀ id key, ks' !! id = Some key ↔
    ks !! id = Some key ∨ ∃ v, v ∈ values ∧ named v id key.
Proof.
  revert ks. induction values as [|v vs IH]; intros ks; cbn [parseKeys].
  { intros [= ->]. split; [constructor|]. intros id key. split; [by left|].
    intros [?|(? & []%not_elem_of_nil & _)]; done. }
  destruct (publicKey v) as [key0|err] eqn:Hk.
  - destruct (decide (KeyID v = "")) as [|Hid]; [done|].
    destruct (decide (is_Some (ks !! KeyID v))) as [|Hfree]; [done|].
    apply eq_None_not_Some in Hfree. intros [Hall Hks]%IH. split.
    { constructor; [|done]. right. by exists (KeyID v), key0. }
    intros id key. rewrite Hks. setoid_rewrite elem_of_cons.
    destruct (decide (id = KeyID v)) as [->|Hne].
    + rewrite lookup_insert_eq, Hfree. split.
      * intros [[= <-]|(v' & ? & ?)]; right; [exists v|exists v']; split; auto; by split_and!.
      * intros [?|(v' & [->|Hv'] & Hnamed)]; [done| |right; by exists v'].
        destruct Hnamed as (E & _ & _). left. congruence.
    + rewrite lookup_insert_ne by done. split.
      * intros [?|(v' & ? & ?)]; [by left|right; exists v'; split; [by right|done]].
      * intros [?|(v' & [->|Hv'] & Hnamed)]; [by left| |right; by exists v'].
        by destruct Hnamed as (_ & E & _).
  - destruct (Is err errUnusableKey) eqn:Herr; [|done]. intros [Hall Hks]%IH. split.
    { constructor; [|done]. left. by exists err. }
    intros id key. rewrite Hks. setoid_rewrite elem_of_cons. split.
    + intros [?|(v' & ? & ?)]; [by left|right; exists v'; split; [by right|done]].
    + intros [?|(v' & [->|Hv'] & Hnamed)]; [by left| |right; by exists v'].
      destruct Hnamed as (E & _). congruence.
Qed.

Lemma parseJWKS_usable unmarshal encoded ks id key :
  parseJWKS unmarshal encoded = Ok ks → ks !! id = Some key → usable key ∧ id ≠ "".
Proof.
  unfold parseJWKS. destruct (unmarshal encoded) as [values|]; [|done].
  intros [_ Hks]%parseKeys_ok [H|(v & _ & Hk & _ & ?)]%Hks; [by rewrite lookup_empty in H|].
  by apply publicKey_usable in Hk as [? _].
Qed.

(** ** The state machine *)

(** Every key of the set is acceptable. *)
Definition state_wf (s : State) : Prop :=
  ∀ id key, keys s !! id = Some key → usable key ∧ id ≠ "".

Lemma newState_wf : state_wf newState.
Proof. intros id key H. simpl in H. by rewrite lookup_empty in H. Qed.

Section key_correct.
Context {W : Type} `{!KeySetWorld W}.
Implicit Types (k : KeySet) (s : State) (w : W).

Lemma load_usable k w ks w' id key :
  load k w = (Ok ks, w') → ks !! id = Some key → usable key ∧ id ≠ "".
Proof.
  unfold load, mbind_, mret_. destruct (Fetch _ _ _ w) as [[encoded|] w1]; simpl; [|done].
  intros [= H _]. by eapply parseJWKS_usable.
Qed.

Lemma attempts_usable k backoff err w ks w' id key :
  attempts k backoff err w = (Ok ks, w') → ks !! id = Some key → usable key ∧ id ≠ "".
Proof.
  revert err w. induction backoff as [|delay rest IH]; intros err w; cbn [attempts]; [done|].
  run_monad. destruct (waitFor delay w) as [[] w1]; [|done]. simpl.
  destruct (load k w1) as [[ks1|err1] w2] eqn:Hl.
  - intros [= <- _]. by eapply load_usable.
  - destruct (isTransientFetchError err1); simpl; [apply IH|done].
Qed.

Lemma loadWithRetries_usable k w ks w' id key :
  loadWithRetries k w = (Ok ks, w') → ks !! id = Some key → usable key ∧ id ≠ "".
Proof.
  unfold loadWithRetries, mbind_, mret_. destruct (load k w) as [[ks1|err1] w2] eqn:Hl.
  - intros [= <- _]. by eapply load_usable.
  - destruct (isTransientFetchError err1); simpl; [apply attempts_usable|done].
Qed.

(** A failed download leaves a mark, unless the context of the call is done. *)
Definition recorded s (err : error) (w : W) s' (w' : W) : Prop :=
  Cancelled w = (true, w') ∧ s' = s ∨
  ∃ w1 t, Cancelled w = (false, w1) ∧ now w1 = (t, w') ∧ s' = failure s t err.

(** A refresh replaces the keys or leaves them; a failure only leaves a mark. *)
Lemma refresh_outcome k s w failed s' w' :
  refresh k (s, w) = (failed, (s', w')) →
  (failed = None ∧ ∃ ks w1 t, loadWithRetries k w = (Ok ks, w1) ∧ now w1 = (t, w') ∧
     s' = store k t ks) ∨
  (∃ err w1, failed = Some err ∧ loadWithRetries k w = (Err err, w1) ∧ recorded s err w1 s' w').
Proof.
  unfold refresh, recorded. destruct (loadWithRetries k w) as [[ks|err] w1] eqn:Hl.
  - destruct (now w1) as [t w2] eqn:Hn. intros [= <- <- <-]. left. split; [done|].
    by exists ks, w1, t.
  - unfold recordFailure. destruct (Cancelled w1) as [[] w2] eqn:Hc.
    + intros [= <- <- <-]. right. exists err, w1. auto.
    + destruct (now w2) as [t w3] eqn:Hn. intros [= <- <- <-]. right. exists err, w1. eauto 10.
Qed.

(** What a call of [Key] returns and does. *)
Inductive served k s w (keyID : string) : result error PublicKey → State → W → Prop :=
| served_cached t w1 r :
    now w = (t, w1) → cached k s t keyID = r →
    (∀ err, r = Err err → Is err errFetchRequired = false) → served k s w keyID r s w1
| served_fetched t w1 required ks w2 t' w3 :
    now w = (t, w1) → cached k s t keyID = Err required →
    Is required errFetchRequired = true →
    loadWithRetries k w1 = (Ok ks, w2) → now w2 = (t', w3) →
    served k s w keyID (lookup (store k t' ks) keyID) (store k t' ks) w3
| served_failed t w1 required err w2 s' w3 :
    now w = (t, w1) → cached k s t keyID = Err required →
    Is required errFetchRequired = true →
    loadWithRetries k w1 = (Err err, w2) → recorded s err w2 s' w3 →
    served k s w keyID (Err (Errorf "%w: %w" [ErrorNew ErrKeysUnavailable; err] [])) s' w3.

Lemma Key_served k keyID s w r s' w' :
  KeySet_Key k keyID (s, w) = (r, (s', w')) → keyID ≠ "" → served k s w keyID r s' w'.
Proof.
  intros H Hid. unfold KeySet_Key in H. rewrite decide_False in H by done.
  destruct (now w) as [t w1] eqn:Hn. destruct (cached k s t keyID) as [key|err] eqn:Hc.
  { injection H as <- <- <-. by eapply served_cached. }
  destruct (Is err errFetchRequired) eqn:He; simpl in H.
  2: { injection H as <- <- <-. eapply served_cached; [done..|]. by intros ? [= <-]. }
  unfold fetch, mbind_, mret_ in H.
  destruct (refresh k (s, w1)) as [failed [s1 w2]] eqn:Hr.
  apply refresh_outcome in Hr as [(-> & ks & w3 & t' & Hl & Hn' & ->)|
    (e & w3 & -> & Hl & Hs)]; injection H as <- <- <-.
  - by eapply served_fetched.
  - by eapply served_failed.
Qed.

(** The cache answers with a key only before its expiry. *)
Lemma cached_ok k s t keyID key :
  cached k s t keyID = Ok key ↔ t < expiry s ∧ keys s !! keyID = Some key.
Proof.
  unfold cached, time_before.
  assert (∀ (b : bool) e1 e2, (if b then Err e1 else Err e2) ≠ (Ok key : result error PublicKey))
    as Hno by (by intros []).
  destruct (Z.ltb_spec t (expiry s)) as [Hl|Hl].
  - destruct (keys s !! keyID) as [key'|] eqn:Hk.
    + split; [by intros [= ->]|by intros [_ [= ->]]].
    + split; [|by intros [_ ?]]. destruct (_ <? _); [done|]. by intros []%Hno.
  - split; [by intros []%Hno|]. intros [? _]. lia.
Qed.

(** The keys stay acceptable, whatever the IdP serves. *)
Lemma Key_wf k keyID s w r s' w' :
  state_wf s → KeySet_Key k keyID (s, w) = (r, (s', w')) → state_wf s'.
Proof.
  intros Hwf H. destruct (decide (keyID = "")) as [->|Hid].
  { unfold KeySet_Key in H. rewrite decide_True in H by done. by injection H as _ <- _. }
  apply Key_served in H; [|done]. inversion H; subst; [done| |].
  - intros id key Hk. by eapply loadWithRetries_usable.
  - match goal with Hs : recorded _ _ _ _ _ |- _ => destruct Hs as [[_ ->]|(? & ? & _ & _ & ->)] end; done.
Qed.

(** What a download leaves behind, field by field. *)
Record replaced k (t : Time) (ks : gmap string PublicKey) s' : Prop := {
  replaced_keys : keys s' = ks;
  replaced_expiry : expiry s' = t + cacheTTL k;
  replaced_lastRefresh : lastRefresh s' = t;
  replaced_lastFailure : lastFailure s' = 0;
  replaced_lastError : lastError s' = None;
}.

(** What a failed download leaves behind: the keys and their times as they were. *)
Record marked s (t : Time) (err : error) s' : Prop := {
  marked_keys : keys s' = keys s;
  marked_expiry : expiry s' = expiry s;
  marked_lastRefresh : lastRefresh s' = lastRefresh s;
  marked_lastFailure : lastFailure s' = t;
  marked_lastError : lastError s' = Some err;
}.

(** The call downloaded [ks] and stored them. *)
Definition downloads k w (ks : gmap string PublicKey) s' w' : Prop :=
  ∃ t0 w1 w2 t, now w = (t0, w1) ∧ loadWithRetries k w1 = (Ok ks, w2) ∧ now w2 = (t, w') ∧
    replaced k t ks s'.

(** The call's download failed with [cause], and was recorded unless the context
    of the call was done. *)
Definition fails k s w (cause : error) s' w' : Prop :=
  ∃ t0 w1 w2, now w = (t0, w1) ∧ loadWithRetries k w1 = (Err cause, w2) ∧
    (Cancelled w2 = (true, w') ∧ s' = s ∨
     ∃ w3 t, Cancelled w2 = (false, w3) ∧ now w3 = (t, w') ∧ marked s t cause s').

(** A key comes from the set, which is not expired or was just fetched. *)
Lemma Key_ok k keyID s w key s' w' :
  KeySet_Key k keyID (s, w) = (Ok key, (s', w')) →
  keys s' !! keyID = Some key ∧ keyID ≠ "" ∧
  ((s' = s ∧ ∃ t, now w = (t, w') ∧ t < expiry s) ∨ ∃ ks, downloads k w ks s' w').
Proof.
  intros H. destruct (decide (keyID = "")) as [->|Hid].
  { unfold KeySet_Key in H. by rewrite decide_True in H. }
  apply Key_served in H; [|done].
  inversion H as [t w1 r Hn Hc Hr|t w1 req ks w2 t' w3 Hn Hc Hreq Hl Hn'|]; subst.
  - apply cached_ok in Hc as [Ht Hk]. split; [done|]. split; [done|]. left. eauto.
  - unfold lookup in *. simpl in *.
    destruct (ks !! keyID) as [key'|] eqn:Hk; [|done].
    match goal with Heq : Ok _ = Ok _ |- _ => injection Heq as -> end.
    split; [done|]. split; [done|]. right. exists ks, t, w1, w2, t'. by split_and!.
Qed.

(** The cache says that a key ID is unknown only when it is, and that the keys
    are unavailable only after a failure. *)
Lemma cached_err k s t keyID err :
  cached k s t keyID = Err err →
  err = ErrorNew errFetchRequired ∨
  (err = unknownKey keyID ∧ t < expiry s ∧ keys s !! keyID = None ∧
     time_sub t (lastRefresh s) < refreshCooldown k) ∨
  (err = keysUnavailable (lastError s) ∧ lastFailure s ≠ 0 ∧
     time_sub t (lastFailure s) < failureCooldown k).
Proof.
  assert (∀ e, (if negb (time_is_zero (lastFailure s))
       && (time_sub t (lastFailure s) <? failureCooldown k) then
      Err (keysUnavailable (lastError s)) else Err (ErrorNew errFetchRequired)) = (Err e : result error PublicKey) →
    e = ErrorNew errFetchRequired ∨
    e = keysUnavailable (lastError s) ∧ lastFailure s ≠ 0 ∧
      time_sub t (lastFailure s) < failureCooldown k) as Hfailed.
  { intros e. unfold time_is_zero. destruct (Z.eqb_spec (lastFailure s) 0); cbn; [intros [= <-]; by left|].
    destruct (Z.ltb_spec (time_sub t (lastFailure s)) (failureCooldown k)); intros [= <-]; auto. }
  unfold cached, time_before. destruct (Z.ltb_spec t (expiry s)).
  2: { intros [?|?]%Hfailed; [by left|by do 2 right]. }
  destruct (keys s !! keyID) eqn:Hk; [done|].
  destruct (Z.ltb_spec (time_sub t (lastRefresh s)) (refreshCooldown k)).
  2: { intros [?|?]%Hfailed; [by left|by do 2 right]. }
  intros [= <-]. right. left. by split_and!.
Qed.

(** In the failure cooldown the cache has an answer. *)
Lemma failure_answers k s0 t1 err t keyID :
  t1 ≠ 0 → time_sub t t1 < failureCooldown k →
  cached k (failure s0 t1 err) t keyID ≠ Err (ErrorNew errFetchRequired).
Proof.
  intros Ht1 Hcool. unfold cached, failure, time_is_zero. cbn.
  rewrite (proj2 (Z.eqb_neq _ _) Ht1), (proj2 (Z.ltb_lt _ _) Hcool). cbn.
  destruct (time_before t (expiry s0)); [|done]. destruct (keys s0 !! keyID); [done|].
  by destruct (_ <? _).
Qed.

(** A failed call leaves the state as it was, marks the failure of its own
    download, or downloaded keys that the key ID is not among. *)
Lemma Key_err k keyID s w err s' w' :
  KeySet_Key k keyID (s, w) = (Err err, (s', w')) →
  (s' = s ∧ (keyID = "" ∧ w' = w ∨
     ∃ t, now w = (t, w') ∧ cached k s t keyID = Err err ∧ Is err errFetchRequired = false)) ∨
  (∃ cause, fails k s w cause s' w' ∧ err = keysUnavailable (Some cause)) ∨
  (∃ ks, downloads k w ks s' w' ∧ ks !! keyID = None ∧ err = unknownKey keyID).
Proof.
  intros H. destruct (decide (keyID = "")) as [->|Hid].
  { unfold KeySet_Key in H. rewrite decide_True in H by done. injection H as _ <- <-. auto. }
  apply Key_served in H; [|done].
  inversion H as [t w1 r Hn Hc Hr|t w1 req ks w2 t' w3 Hn Hc Hreq Hl Hn' Hlk|t w1 req e w2 s1 w3 Hn Hc Hreq Hl Hs];
    subst;
    [left; eauto 10| |].
  - right. right. unfold lookup in Hlk. simpl in Hlk. destruct (ks !! keyID) eqn:Hk; [done|].
    injection Hlk as <-. exists ks. split_and!; [|done..]. exists t, w1, w2, t'. by split_and!.
  - right. left. exists e. split; [|done]. exists t, w1, w2. split_and!; [done..|].
    destruct Hs as [[? ->]|(w4 & t' & ? & ? & ->)]; [by left|right]. by exists w4, t'.
Qed.

(** Within the failure cooldown nothing is fetched: the call ends with the
    reading of the clock. *)
Lemma Key_failure_cooldown k keyID s w t w1 :
  keyID ≠ "" → now w = (t, w1) → lastFailure s ≠ 0 →
  time_sub t (lastFailure s) < failureCooldown k →
  (t < expiry s → keys s !! keyID = None ∧ refreshCooldown k ≤ time_sub t (lastRefresh s)) →
  Is (keysUnavailable (lastError s)) errFetchRequired = false →
  KeySet_Key k keyID (s, w) = (Err (keysUnavailable (lastError s)), (s, w1)).
Proof.
  intros Hid Hn Hf Hcool Hmiss Hreq. unfold KeySet_Key. rewrite decide_False, Hn by done.
  assert (cached k s t keyID = Err (keysUnavailable (lastError s))) as ->.
  { unfold cached, time_before, time_is_zero.
    rewrite (proj2 (Z.eqb_neq _ _) Hf), (proj2 (Z.ltb_lt _ _) Hcool). simpl.
    destruct (Z.ltb_spec t (expiry s)) as [Hl|]; [|done].
    destruct (Hmiss Hl) as [-> Hr]. by rewrite (proj2 (Z.ltb_ge _ _) Hr). }
  by rewrite Hreq.
Qed.

(** An unknown key ID does not cause a fetch within the refresh cooldown. *)
Lemma Key_refresh_cooldown k keyID s w t w1 :
  keyID ≠ "" → now w = (t, w1) → t < expiry s → keys s !! keyID = None →
  time_sub t (lastRefresh s) < refreshCooldown k →
  KeySet_Key k keyID (s, w) = (Err (unknownKey keyID), (s, w1)).
Proof.
  intros Hid Hn Ht Hk Hcool. unfold KeySet_Key. rewrite decide_False, Hn by done.
  assert (cached k s t keyID = Err (unknownKey keyID)) as ->; [|done].
  unfold cached, time_before.
  by rewrite (proj2 (Z.ltb_lt _ _) Ht), Hk, (proj2 (Z.ltb_lt _ _) Hcool).
Qed.
End key_correct.

(** ** How often the IdP is asked *)

(** The world with a counter of downloads. *)
#[export] Instance counted {W} `{!KeySetWorld W} : KeySetWorld (W * nat) :=
  {| now := λ '(w, n), let '(t, w) := now w in (t, (w, n));
     Cancelled := λ '(w, n), let '(b, w) := Cancelled w in (b, (w, n));
     Fires := λ delay '(w, n), let '(b, w) := Fires delay w in (b, (w, n));
     Fetch := λ timeout url size '(w, n),
       let '(r, w) := Fetch timeout url size w in (r, (w, S n));
     UnmarshalJWKS := UnmarshalJWKS |}.

Section retries.
Context {W : Type} `{!KeySetWorld W}.
Implicit Types (k : KeySet) (w : W) (n : nat).

Lemma load_count k w n r w' n' :
  load k (w, n) = (r, (w', n')) → n' = S n.
Proof.
  unfold load, mbind_, mret_. simpl. destruct (Fetch _ _ _ w) as [x w1]. by intros [= _ _ <-].
Qed.

Lemma waitFor_count delay w n b w' n' :
  waitFor delay (w, n) = (b, (w', n')) → n' = n.
Proof.
  unfold waitFor, mbind_, mret_. destruct (delay <=? 0); simpl.
  - destruct (Cancelled w). by intros [= _ _ <-].
  - destruct (Fires delay w). by intros [= _ _ <-].
Qed.

Lemma attempts_count k backoff err w n r w' n' :
  attempts k backoff err (w, n) = (r, (w', n')) → (n' <= n + length backoff)%nat.
Proof.
  revert err w n. induction backoff as [|delay rest IH]; intros err w n; cbn [attempts length].
  { intros [= _ _ <-]. lia. }
  run_monad. destruct (waitFor delay (w, n)) as [b [w1 n1]] eqn:Hw.
  apply waitFor_count in Hw as ->. destruct b; simpl; [|intros [= _ _ <-]; lia].
  destruct (load k (w1, n)) as [[ks|e] [w2 n2]] eqn:Hl; apply load_count in Hl as ->.
  - intros [= _ _ <-]. lia.
  - destruct (isTransientFetchError e); simpl; [intros H%IH; lia|intros [= _ _ <-]; lia].
Qed.

Lemma loadWithRetries_count k w n r w' n' :
  loadWithRetries k (w, n) = (r, (w', n')) → (n' <= n + 1 + length (retryBackoff k))%nat.
Proof.
  unfold loadWithRetries, mbind_, mret_.
  destruct (load k (w, n)) as [[ks|e] [w2 n2]] eqn:Hl; apply load_count in Hl as ->.
  - intros [= _ _ <-]. lia.
  - destruct (isTransientFetchError e); simpl;
      [intros H%attempts_count; lia|intros [= _ _ <-]; lia].
Qed.

(** One call of [Key] downloads the document at most once more than there are
    backoffs. *)
Lemma Key_count k keyID s w n r s' w' n' :
  KeySet_Key k keyID (s, (w, n)) = (r, (s', (w', n'))) →
  (n' <= n + 1 + length (retryBackoff k))%nat.
Proof.
  intros H. destruct (decide (keyID = "")) as [->|Hid].
  { unfold KeySet_Key in H. rewrite decide_True in H by done. injection H as _ _ _ <-. lia. }
  assert (∀ x t y m, @now _ counted (x, m) = (t, y) → y.2 = m) as Hnow.
  { intros x t y m. simpl. destruct (now x). by intros [= _ <-]. }
  unfold KeySet_Key in H. rewrite decide_False in H by done.
  destruct (now (w, n)) as [t [w1 n1]] eqn:Hn. apply Hnow in Hn. simpl in Hn. subst n1.
  destruct (cached k s t keyID) as [key|err]; [injection H as _ _ _ <-; lia|].
  destruct (Is err errFetchRequired); simpl in H; [|injection H as _ _ _ <-; lia].
  unfold fetch, refresh, recordFailure, mbind_, mret_ in H.
  destruct (loadWithRetries k (w1, n)) as [[ks|e] [w2 n2]] eqn:Hl;
    apply loadWithRetries_count in Hl.
  - destruct (now (w2, n2)) as [t2 [w3 n3]] eqn:Hn2. apply Hnow in Hn2. simpl in Hn2. subst n3.
    simpl in H. injection H as _ _ _ <-. lia.
  - destruct (Cancelled (w2, n2)) as [b [w3 n3]] eqn:Hcan.
    assert (n3 = n2) as -> by (simpl in Hcan; destruct (Cancelled w2); by injection Hcan as _ _ <-).
    destruct b; [simpl in H; injection H as _ _ _ <-; lia|].
    destruct (now (w3, n2)) as [t2 [w4 n4]] eqn:Hn2. apply Hnow in Hn2. simpl in Hn2. subst n4.
    simpl in H. injection H as _ _ _ <-. lia.
Qed.
End retries.

(** ** Recovery *)

Section recovery.
Context {W : Type} `{!KeySetWorld W}.

(** The IdP serves [ks] after transient failures, no more of them than there are
    backoffs, and every backoff's timer fires. *)
Inductive recovers (k : KeySet) : list Duration → W → gmap string PublicKey → W → Prop :=
| recovers_now backoff w ks w' : load k w = (Ok ks, w') → recovers k backoff w ks w'
| recovers_later delay backoff w err w1 w2 ks w' :
    load k w = (Err err, w1) → isTransientFetchError err = true → waitFor delay w1 = (true, w2) →
    recovers k backoff w2 ks w' → recovers k (delay :: backoff) w ks w'.

Lemma attempts_recover k delay backoff err w w1 ks w' :
  waitFor delay w = (true, w1) → recovers k backoff w1 ks w' →
  attempts k (delay :: backoff) err w = (Ok ks, w').
Proof.
  intros Hwait H. revert delay err w Hwait.
  induction H as [backoff w1 ks w' Hl|delay' backoff w1 err' w2 w3 ks w' Hl Ht Hw _ IH];
    intros delay err w Hwait; cbn [attempts]; run_monad; rewrite Hwait; simpl; rewrite Hl; [done|].
  rewrite Ht. simpl. by apply IH.
Qed.

Lemma loadWithRetries_recovers k w ks w' :
  recovers k (retryBackoff k) w ks w' → loadWithRetries k w = (Ok ks, w').
Proof.
  unfold loadWithRetries, mbind_, mret_. intros H.
  inversion H as [? ? ? ? Hl|delay backoff ? err w1 w2 ? ? Hl Ht Hw Hr Hb]; subst; rewrite Hl; [done|].
  rewrite Ht. simpl. by eapply attempts_recover.
Qed.

(** A call that finds no usable key and no cooldown asks the IdP. *)
Lemma cached_fetch k s t keyID :
  (lastFailure s = 0 ∨ failureCooldown k ≤ time_sub t (lastFailure s)) →
  (t < expiry s → keys s !! keyID = None ∧ refreshCooldown k ≤ time_sub t (lastRefresh s)) →
  cached k s t keyID = Err (ErrorNew errFetchRequired).
Proof.
  intros Hfail Hmiss. unfold cached, time_before, time_is_zero.
  assert (negb (lastFailure s =? 0) && (time_sub t (lastFailure s) <? failureCooldown k) = false) as ->.
  { destruct Hfail as [->|Hf]; [done|]. rewrite (proj2 (Z.ltb_ge _ _) Hf). apply andb_false_r. }
  destruct (Z.ltb_spec t (expiry s)) as [Hl|]; [|done].
  destruct (Hmiss Hl) as [-> Hr]. by rewrite (proj2 (Z.ltb_ge _ _) Hr).
Qed.

(** Such a call returns a key that the IdP serves within the retries. *)
Lemma Key_recovers k keyID s w t w1 ks w2 t' w3 key :
  keyID ≠ "" → now w = (t, w1) →
  (lastFailure s = 0 ∨ failureCooldown k ≤ time_sub t (lastFailure s)) →
  (t < expiry s → keys s !! keyID = None ∧ refreshCooldown k ≤ time_sub t (lastRefresh s)) →
  recovers k (retryBackoff k) w1 ks w2 → now w2 = (t', w3) → ks !! keyID = Some key →
  KeySet_Key k keyID (s, w) = (Ok key, (store k t' ks, w3)).
Proof.
  intros Hid Hn Hfail Hmiss Hr Hn' Hk. unfold KeySet_Key. rewrite decide_False, Hn, cached_fetch by done.
  simpl. unfold fetch, refresh, mbind_, mret_. rewrite (loadWithRetries_recovers _ _ _ _ Hr), Hn'. simpl.
  unfold lookup. simpl. by rewrite Hk.
Qed.

Lemma Key_cached k s keyID w t w1 key :
  keyID ≠ "" → now w = (t, w1) → t < expiry s → keys s !! keyID = Some key →
  KeySet_Key k keyID (s, w) = (Ok key, (s, w1)).
Proof.
  intros Hid Hn Ht Hk. unfold KeySet_Key. rewrite decide_False, Hn by done.
  by rewrite (proj2 (cached_ok k s t keyID key)).
Qed.
End recovery.

(** ** Properties *)

(** Whatever the IdP serves, a key set only ever holds and returns
    acceptable keys (RSA of 2048 bits or more with an exponent that fits, or a
    point of P-256), under a non-empty key ID; a call keeps that invariant. *)
Theorem keyset_keys_acceptable {W} `{!KeySetWorld W} k keyID s (w : W) r s' w' :
  state_wf s → KeySet_Key k keyID (s, w) = (r, (s', w')) →
  state_wf s' ∧ ∀ key, r = Ok key → usable key ∧ keys s' !! keyID = Some key.
Proof.
  intros Hwf Hk. assert (state_wf s') as Hwf' by (by eapply Key_wf). split; [done|].
  intros key ->. apply Key_ok in Hk as (Hl & _ & _). split; [|done]. by eapply Hwf'.
Qed.

(** C19. A key that is returned is current: it is in the set, and either the set
    was not expired at the time of the call and the call changed nothing, or the
    call has just downloaded the set. A call that fails either answers from the
    cache (no key ID, unknown to fresh keys, or a failure not long ago) and changes
    nothing; or its download failed, and then the keys, their expiry and the time
    of their refresh stay as they were and only the failure is noted, unless the
    call's context is done; or it downloaded keys and the key ID is not among
    them. *)
Theorem keyset_answers_are_current {W} `{!KeySetWorld W} k keyID s (w : W) r s' w' :
  KeySet_Key k keyID (s, w) = (r, (s', w')) →
  match r with
  | Ok key =>
      keys s' !! keyID = Some key ∧ keyID ≠ "" ∧
      ((s' = s ∧ ∃ t, now w = (t, w') ∧ t < expiry s) ∨ ∃ ks, downloads k w ks s' w')
  | Err err =>
      (s' = s ∧
        (keyID = "" ∧ w' = w ∨
         ∃ t, now w = (t, w') ∧
           (err = unknownKey keyID ∧ t < expiry s ∧ keys s !! keyID = None ∨
            err = keysUnavailable (lastError s) ∧ lastFailure s ≠ 0 ∧
              time_sub t (lastFailure s) < failureCooldown k))) ∨
      (∃ cause, fails k s w cause s' w' ∧ err = keysUnavailable (Some cause)) ∨
      (∃ ks, downloads k w ks s' w' ∧ ks !! keyID = None ∧ err = unknownKey keyID)
  end.
Proof.
  intros Hk. destruct r as [key|err]; [by eapply Key_ok|].
  destruct (Key_err _ _ _ _ _ _ _ Hk) as [[-> [?|(t & Hn & Hc & Hf)]]|?]; [auto| |auto].
  left. split; [done|]. right. exists t. split; [done|].
  destruct (cached_err _ _ _ _ _ Hc) as [->|[(-> & ? & ? & _)|?]]; [|by left|by right].
  done.
Qed.

(** One call asks the IdP a bounded number of times: at most once more than
    there are backoffs, whatever the answers are. *)
Theorem keyset_downloads_bounded {W} `{!KeySetWorld W} k keyID s (w : W) n r s' w' n' :
  KeySet_Key k keyID (s, (w, n)) = (r, (s', (w', n'))) →
  (n' <= n + 1 + length (retryBackoff k))%nat.
Proof. apply Key_count. Qed.

(** C20. A call that begins in a cooldown downloads nothing and changes nothing,
    it only reads the clock. In the refresh cooldown of fresh keys it answers with
    the key of the set, or says that the key ID is unknown. In the failure
    cooldown it answers with a key of the set while this is not expired, and
    otherwise with the failure (or that the key ID is unknown, in the refresh
    cooldown of the set). This says nothing about a call that looked into the
    cache before the download ended and only then comes to the single-flight
    group: it can download again ([late_call_downloads_again] in
    KeySetFlight.v). *)
Theorem keyset_cooldowns {W} `{!KeySetWorld W} k keyID s (w : W) t w1 t1 :
  keyID ≠ "" → now w = (t, w1) → t1 ≤ t →
  (∀ ks, s = store k t1 ks → t - t1 < cacheTTL k → t - t1 < refreshCooldown k →
     KeySet_Key k keyID (s, w)
       = (match ks !! keyID with Some key => Ok key | None => Err (unknownKey keyID) end, (s, w1))) ∧
  (∀ s0 err, s = failure s0 t1 err → t1 ≠ 0 → Is err errFetchRequired = false →
     t - t1 < failureCooldown k →
     ∃ r, KeySet_Key k keyID (s, w) = (r, (s, w1)) ∧
       match r with
       | Ok key => t < expiry s0 ∧ keys s0 !! keyID = Some key
       | Err e =>
           e = keysUnavailable (Some err) ∨
           (e = unknownKey keyID ∧ t < expiry s0 ∧ keys s0 !! keyID = None ∧
            time_sub t (lastRefresh s0) < refreshCooldown k)
       end).
Proof.
  intros Hid Hn Hmono.
  assert (time_sub t t1 ≤ t - t1) as Hsub by (unfold time_sub, max_int, min_int; lia).
  split.
  - intros ks -> Httl Hcool. destruct (ks !! keyID) as [key|] eqn:Hk.
    + apply Key_cached with t; try done. unfold store, time_add. cbn. lia.
    + apply Key_refresh_cooldown with t; try done; unfold store, time_add; cbn; lia.
  - intros s0 err -> Ht1 Herr Hcool.
    destruct (cached k (failure s0 t1 err) t keyID) as [key|e] eqn:Hc.
    + exists (Ok key). apply cached_ok in Hc as [Ht Hk]. split; [by apply Key_cached with t|done].
    + exists (Err e). destruct (cached_err _ _ _ _ _ Hc) as [->|[(-> & ? & ? & ?)|(-> & _ & _)]].
      * exfalso. revert Hc. apply failure_answers; [done|lia].
      * split; [by apply Key_refresh_cooldown with t|by right].
      * split; [|by left]. unfold KeySet_Key. rewrite decide_False, Hn, Hc by done.
        unfold keysUnavailable. cbn. by rewrite Herr.
Qed.

(** C36. A key set recovers: when neither a usable key nor a cooldown answers a
    call, and the IdP serves the key within the retries, the call returns this
    key, whatever failed before; and from then on every call for it returns it
    from the cache until the time to live is over. *)
Theorem keyset_recovers {W} `{!KeySetWorld W} k keyID s (w : W) t w1 ks w2 t' w3 key :
  keyID ≠ "" → now w = (t, w1) →
  (lastFailure s = 0 ∨ failureCooldown k ≤ time_sub t (lastFailure s)) →
  (t < expiry s → keys s !! keyID = None ∧ refreshCooldown k ≤ time_sub t (lastRefresh s)) →
  recovers k (retryBackoff k) w1 ks w2 → now w2 = (t', w3) → ks !! keyID = Some key →
  KeySet_Key k keyID (s, w) = (Ok key, (store k t' ks, w3)) ∧
  ∀ v t2 v1, now v = (t2, v1) → t2 < t' + cacheTTL k →
    KeySet_Key k keyID (store k t' ks, v) = (Ok key, (store k t' ks, v1)).
Proof.
  intros Hid Hn Hfail Hmiss Hr Hn' Hk. split.
  - by apply (Key_recovers k keyID s w t w1 ks w2 t').
  - intros v t2 v1 Hv Ht. by apply (Key_cached k _ keyID v t2).
Qed.

(** A world whose state is its clock, in which the IdP serves one P-256 key
    until time 1000 and fails with status 503 afterwards. *)

Definition example_jwk : jwk :=
  {| KeyType := "EC"; KeyID := "k1"; Use := "sig"; Curve := "P-256"; Modulus := ""; Exponent := "";
     XPosition := "axfR8uEsQkf4vOblY6RA8ncDfYEt6zOg9KE5RdiYwpY";
     YPosition := "T-NC4v4af5uO5-tKfA-eFivOM1drMV7Oy7ZAaDe_UfU" |}.

#[local] Instance example_world : KeySetWorld Z :=
  {| now := λ t, (t, t); Cancelled := λ t, (false, t); Fires := λ delay t, (true, t);
     Fetch := λ timeout url size t,
       (if t <? 1000 then Ok "document" else Err (UnexpectedStatus url "503" 503), t);
     UnmarshalJWKS := λ _, Ok [example_jwk] |}.

Definition example_keyset : KeySet :=
  {| url := "https://idp/jwks"; cacheTTL := 300; refreshCooldown := 30; failureCooldown := 5;
     fetchTimeout := 5; retryBackoff := [1; 2]; maxDocumentSize := 100 |}.

Definition example_key : PublicKey :=
  ECDSAKey P256 0x6b17d1f2e12c4247f8bce6e563a440f277037d812deb33a0f4a13945d898c296
    0x4fe342e2fe1a7f9b8ee7eb4a7c0f9e162bce33576b315ececbb6406837bf51f5.

Definition example_keys : gmap string PublicKey := {["k1" := example_key]}.

Lemma example_call :
  KeySet_Key example_keyset "k1" (newState, 7)
    = (Ok example_key, (store example_keyset 7 example_keys, 7)).
Proof. vm_compute. reflexivity. Qed.

Lemma keyset_keys_acceptable_witness :
  usable example_key ∧ keys (store example_keyset 7 example_keys) !! "k1" = Some example_key.
Proof.
  apply (proj2 (keyset_keys_acceptable (W := Z) example_keyset "k1" newState 7 (Ok example_key)
           (store example_keyset 7 example_keys) 7 newState_wf example_call)).
  reflexivity.
Defined.

Lemma keyset_answers_are_current_witness :
  keys (store example_keyset 7 example_keys) !! "k1" = Some example_key.
Proof.
  apply (keyset_answers_are_current (W := Z) example_keyset "k1" newState 7 (Ok example_key)
           (store example_keyset 7 example_keys) 7 example_call).
Defined.

Lemma keyset_downloads_bounded_witness :
  (KeySet_Key example_keyset "k1" (newState, (2000, 0%nat))).2.2 = (2000, 3%nat) ∧ (3 <= 0 + 1 + 2)%nat.
Proof.
  split; [vm_compute; reflexivity|].
  apply (keyset_downloads_bounded (W := Z) example_keyset "k1" newState 2000 0
           (KeySet_Key example_keyset "k1" (newState, (2000, 0%nat))).1
           (KeySet_Key example_keyset "k1" (newState, (2000, 0%nat))).2.1 2000 3).
  vm_compute; reflexivity.
Defined.

Lemma keyset_cooldowns_witness :
  KeySet_Key example_keyset "k2" (store example_keyset 7 example_keys, 8)
    = (Err (unknownKey "k2"), (store example_keyset 7 example_keys, 8)) ∧
  ∃ r, KeySet_Key example_keyset "k1"
         (failure newState 998 (UnexpectedStatus "https://idp/jwks" "503" 503), 999)
       = (r, (failure newState 998 (UnexpectedStatus "https://idp/jwks" "503" 503), 999)).
Proof.
  split.
  - apply (proj1 (keyset_cooldowns (W := Z) example_keyset "k2" (store example_keyset 7 example_keys)
             8 8 8 7 ltac:(discriminate) eq_refl ltac:(lia)) example_keys eq_refl); vm_compute; reflexivity.
  - destruct (proj2 (keyset_cooldowns (W := Z) example_keyset "k1"
      (failure newState 998 (UnexpectedStatus "https://idp/jwks" "503" 503))
      999 999 999 998 ltac:(discriminate) eq_refl ltac:(lia)) newState
      (UnexpectedStatus "https://idp/jwks" "503" 503) eq_refl ltac:(lia) eq_refl eq_refl) as [r [Hr _]].
    by exists r.
Defined.

(** After a failure at time 1, a call at time 7 fetches the keys again. *)
Lemma keyset_recovers_witness :
  KeySet_Key example_keyset "k1" (failure newState 1 (ErrorNew ErrUnexpectedStatus), 7)
    = (Ok example_key, (store example_keyset 7 example_keys, 7)).
Proof.
  refine (proj1 (keyset_recovers (W := Z) example_keyset "k1"
    (failure newState 1 (ErrorNew ErrUnexpectedStatus)) 7 7 7 example_keys 7 7 7 example_key
    _ eq_refl _ _ _ eq_refl _)).
  - discriminate.
  - right. apply Z.leb_le. vm_compute. reflexivity.
  - intros H. exfalso. revert H. apply Z.le_ngt, Z.leb_le. reflexivity.
  - apply recovers_now. vm_compute. reflexivity.
  - vm_compute. reflexivity.
Defined.
