(* ===== verification/Introspection.v ===== *)
(** * Token introspection ([internal/externaltoken/introspection.go])

    [Active] asks the IdP whether a token is active and remembers the answer per
    [jti] for at most [cacheTTL].  The cache is the state; its two operations
    [cached] and [store] hold the mutex, so concurrent calls are interleavings
    of them.  The clock and the HTTP client act on a world [W]; the order in
    which Go iterates over a map is an unknown permutation of its keys. *)

From S2P Require Import Prelude GoStd GoErrors Base64 GoUrl Discovery.

Definition DefaultIntrospectionCacheTTL : Duration := 60 * Second.
Definition DefaultIntrospectionTimeout : Duration := 5 * Second.
Definition DefaultIntrospectionMaxEntries : Z := 10000.
Definition ErrIntrospectionUnavailable : string :=
  "the IdP cannot be asked whether the token is active".
Definition ErrInvalidIntrospection : string := "the introspection config is invalid".

(** ** Data *)

Record introspectionResult : Type := { active : bool; expiry : Time }.

#[export] Instance introspectionResult_eq_dec : EqDecision introspectionResult.
Proof. solve_decision. Defined.

Abbreviation Results := (gmap string introspectionResult).

Record introspectionDocument : Type := {
  document_Active : option bool;
  document_JTI : string;
}.

Record IntrospectorConfig : Type := {
  config_Endpoint : string;
  config_ClientID : string;
  config_ClientSecret : string;
  config_CacheTTL : Duration;
  config_Timeout : Duration;
  config_MaxEntries : Z;
}.

Record Introspector : Type := {
  endpoint : string;
  clientID : string;
  clientSecret : string;
  cacheTTL : Duration;
  timeout : Duration;
  maxEntries : Z;
}.

(** [orDefaultDuration] of keyset.go *)
Definition orDefaultDuration (value fallback : Duration) : Duration :=
  if value <=? 0 then fallback else value.

Definition unavailable (format : string) (args : list string) : error :=
  Errorf format [ErrorNew ErrIntrospectionUnavailable] args.

Definition NewIntrospector (url_Parse : string → result error URL) (config : IntrospectorConfig) :
    result error Introspector :=
  let invalid :=
    Err (Errorf "%w: endpoint %q is not an absolute HTTP URL" [ErrorNew ErrInvalidIntrospection]
           [config_Endpoint config]) in
  match url_Parse (config_Endpoint config) with
  | Err _ => invalid
  | Ok parsed =>
      if negb (isHTTPURL parsed) then invalid
      else if bool_decide (config_ClientID config = "")
              || bool_decide (config_ClientSecret config = "") then
        Err (Errorf "%w: the client ID and its secret are both required"
               [ErrorNew ErrInvalidIntrospection] [])
      else
        let maxEntries :=
          if config_MaxEntries config <=? 0 then DefaultIntrospectionMaxEntries
          else config_MaxEntries config in
        Ok {| endpoint := config_Endpoint config; clientID := config_ClientID config;
              clientSecret := config_ClientSecret config;
              cacheTTL := orDefaultDuration (config_CacheTTL config) DefaultIntrospectionCacheTTL;
              timeout := orDefaultDuration (config_Timeout config) DefaultIntrospectionTimeout;
              maxEntries := maxEntries |}
  end.

(** ** The cache *)

Definition cached (results : Results) (now : Time) (jti : string) : option bool :=
  match results !! jti with
  | Some result => if negb (time_before now (expiry result)) then None else Some (active result)
  | None => None
  end.

(** How long an answer is kept: [cacheTTL], and not beyond the token. *)
Definition expiryOf (cacheTTL : Duration) (now expiresAt : Time) : Time :=
  let expiry := time_add now cacheTTL in
  if negb (time_is_zero expiresAt) && time_before expiresAt expiry then expiresAt else expiry.

(** [expiry.Compare] *)
Definition expires_before (results : Results) (left right : string) : Prop :=
  from_option expiry 0 (results !! left) ≤ from_option expiry 0 (results !! right).

#[export] Instance expires_before_dec results : RelDecision (expires_before results).
Proof. intros l r. unfold expires_before. apply _. Defined.

Section cache.
(** The iteration order over a map. *)
Context (iterate : Results → list string).

Definition evict (maxEntries : Z) (results : Results) (now : Time) : Results :=
  let results := filter (λ kv, time_before now (expiry kv.2) = true) results in
  let excess := Z.of_nat (size results) - maxEntries in
  if excess <=? 0 then results
  else
    let keys := merge_sort (expires_before results) (iterate results) in
    foldl (λ m k, delete k m) results (firstn (Z.to_nat excess) keys).

Definition store (i : Introspector) (results : Results) (now : Time) (jti : string)
    (answer : bool) (expiresAt : Time) : Results :=
  let results :=
    <[jti := {| active := answer; expiry := expiryOf (cacheTTL i) now expiresAt |}]> results in
  if maxEntries i <? Z.of_nat (size results) then evict (maxEntries i) results now
  else results.
End cache.

(** ** Asking the IdP *)

(** A request as the client is given it, with the timeout of its context. *)
Record ClientRequest : Type := {
  request_Timeout : Duration;
  request_Method : string;
  request_URL : string;
  request_Header : Header;
  request_Body : string;
}.

(** The request [introspect] builds: the form of the token, the three headers it
    sets, the last one by [SetBasicAuth]. *)
Definition introspectionForm (token : string) : Values :=
  <["token" := [token]]> {["token_type_hint" := ["access_token"]]}.

Definition introspectionRequest (i : Introspector) (token : string) : ClientRequest :=
  {| request_Timeout := timeout i;
     request_Method := "POST";
     request_URL := endpoint i;
     request_Header :=
       <["Authorization" :=
           [basicAuth (QueryEscape (clientID i)) (QueryEscape (clientSecret i))]]>
         (<["Accept" := ["application/json"]]>
            {["Content-Type" := ["application/x-www-form-urlencoded"]]});
     request_Body := Encode (introspectionForm token) |}.

(** The clock and the client; [NewRequest] may refuse a method or a URL. *)
Class IntrospectionWorld (W : Type) : Type := {
  now : M W Time;
  NewRequest : string → string → option error;
  Do : ClientRequest → M W (result error Response);
  Unmarshal : string → result error introspectionDocument;
}.

Section introspect.
Context {W : Type} `{!IntrospectionWorld W}.
Context (iterate : Results → list string).

Definition readDocument (i : Introspector) (response : Response) :
    result error introspectionDocument :=
  if negb (StatusCode response =? 200) then
    Err (unavailable "%w: %s: %s" [endpoint i; Status response])
  else
    match Body response (DefaultMaxDocumentSize + 1) with
    | Err _ => Err (unavailable "%w: %s: read the response" [endpoint i])
    | Ok encoded =>
        if DefaultMaxDocumentSize <? Z.of_nat (String.length encoded) then
          Err (unavailable "%w: %s: the response is over %d bytes"
                 [endpoint i; Itoa DefaultMaxDocumentSize])
        else
          match Unmarshal encoded with
          | Err _ =>
              Err (unavailable "%w: %s: the response is not an introspection document"
                     [endpoint i])
          | Ok document =>
              match document_Active document with
              | None =>
                  Err (unavailable "%w: %s: the response has no boolean active member"
                         [endpoint i])
              | Some _ => Ok document
              end
          end
    end.

Definition introspect (i : Introspector) (token jti : string) : M W (result error bool) :=
  match NewRequest "POST" (endpoint i) with
  | Some _ => mret_ (Err (unavailable "%w: %s: build the request" [endpoint i]))
  | None =>
      let! response := Do (introspectionRequest i token) in
      mret_ (match response with
             | Err err =>
                 Err (Errorf "%w: %s: %w" [ErrorNew ErrIntrospectionUnavailable; err]
                        [endpoint i])
             | Ok response =>
                 let? document := readDocument i response in
                 let answer := default false (document_Active document) in
                 if answer && negb (bool_decide (document_JTI document = ""))
                    && negb (bool_decide (document_JTI document = jti)) then
                   Err (unavailable "%w: %s: the response answers for another jti"
                          [endpoint i])
                 else Ok answer
             end)
  end.

(** The function [Active] gives to the single-flight group; callers that
    arrive while it runs get its result. *)
Definition flight (i : Introspector) (token jti : string) (expiresAt : Time) :
    M (Results * W) (result error bool) := λ '(results, w),
  let '(t, w) := now w in
  match cached results t jti with
  | Some answer => (Ok answer, (results, w))
  | None =>
      match introspect i token jti w with
      | (Err err, w) => (Err err, (results, w))
      | (Ok answer, w) =>
          let '(t, w) := now w in
          (Ok answer, (store iterate i results t jti answer expiresAt, w))
      end
  end.

Definition Active (i : Introspector) (token jti : string) (expiresAt : Time) :
    M (Results * W) (result error bool) := λ '(results, w),
  if bool_decide (token = "") || bool_decide (jti = "") then
    (Err (unavailable "%w: the token and its jti are both required" []), (results, w))
  else
    let '(t, w) := now w in
    match cached results t jti with
    | Some answer => (Ok answer, (results, w))
    | None => flight i token jti expiresAt (results, w)
    end.
End introspect.

(** ** The cache stays within its bound *)

Section cache_correct.
Context (iterate : Results → list string).
Context (iterate_keys : ∀ results, iterate results ≡ₚ (map_to_list results).*1).

Lemma foldl_delete_lookup (keys : list string) (results : Results) k :
  foldl (λ m k, delete k m) results keys !! k
    = if decide (k ∈ keys) then None else results !! k.
Proof.
  revert results. induction keys as [|k' keys IH]; intros results; [done|].
  cbn [foldl]. rewrite IH. destruct (decide (k ∈ keys)) as [Hin|Hnin].
  - by rewrite decide_True by (by right).
  - destruct (decide (k = k')) as [->|Hne].
    + rewrite lookup_delete_eq, decide_True; [done|]. by left.
    + rewrite lookup_delete_ne, decide_False; [done| |done].
      by intros [->|?]%elem_of_cons.
Qed.

Lemma foldl_delete_size (keys : list string) (results : Results) :
  NoDup keys → (∀ k, k ∈ keys → is_Some (results !! k)) →
  (size (foldl (λ m k, delete k m) results keys) + length keys = size results)%nat.
Proof.
  revert results. induction keys as [|k keys IH]; intros results Hnd Hin; [simpl; lia|].
  apply NoDup_cons in Hnd as [Hnin Hnd]. cbn [foldl]. destruct (Hin k) as [v Hv]; [by left|].
  assert (size (delete k results) = pred (size results)) as Hsize.
  { rewrite map_size_delete, Hv. done. }
  assert (size results ≠ 0%nat) as Hne.
  { intros ->%map_size_empty_iff. by rewrite lookup_empty in Hv. }
  specialize (IH (delete k results) Hnd). rewrite Hsize in IH. simpl.
  rewrite <-(Nat.succ_pred (size results)), <-IH by
    first [done | intros k' Hk'; rewrite lookup_delete_ne by (intros ->; done);
                  apply Hin; by right].
  lia.
Qed.

Lemma evict_size maxEntries results now :
  0 ≤ maxEntries → Z.of_nat (size (evict iterate maxEntries results now)) ≤ maxEntries.
Proof.
  intros Hmax. unfold evict. set (alive := filter _ results).
  destruct (_ <=? 0) eqn:He; [apply Z.leb_le in He; lia|]. apply Z.leb_gt in He.
  set (keys := merge_sort _ _).
  assert (keys ≡ₚ (map_to_list alive).*1) as Hkeys.
  { unfold keys. by rewrite merge_sort_Permutation, iterate_keys. }
  assert (length keys = size alive) as Hlen.
  { rewrite Hkeys, length_fmap. apply length_map_to_list. }
  assert (NoDup keys) as Hnd by (rewrite Hkeys; apply NoDup_fst_map_to_list).
  pose proof (foldl_delete_size (firstn (Z.to_nat (Z.of_nat (size alive) - maxEntries)) keys) alive)
    as Hsize.
  rewrite length_firstn in Hsize. rewrite <-(firstn_skipn (Z.to_nat
    (Z.of_nat (size alive) - maxEntries)) keys) in Hnd. apply NoDup_app in Hnd as (Hnd & _ & _).
  specialize (Hsize Hnd). lapply Hsize; [lia|].
  intros k Hk. assert (k ∈ keys) as Hin.
  { rewrite <-(firstn_skipn (Z.to_nat (Z.of_nat (size alive) - maxEntries)) keys).
    apply elem_of_app. by left. }
  rewrite Hkeys, list_elem_of_fmap in Hin. destruct Hin as ([k' v] & -> & Hv).
  apply elem_of_map_to_list in Hv. by eexists.
Qed.

Lemma evict_lookup maxEntries results now k r :
  evict iterate maxEntries results now !! k = Some r → results !! k = Some r.
Proof.
  unfold evict. destruct (_ <=? 0).
  - by intros [? _]%map_lookup_filter_Some.
  - rewrite foldl_delete_lookup. destruct (decide _); [done|].
    by intros [? _]%map_lookup_filter_Some.
Qed.

(** The size of the cache never exceeds the configured bound. *)
Lemma store_size i results now jti answer expiresAt :
  0 ≤ maxEntries i →
  Z.of_nat (size (store iterate i results now jti answer expiresAt)) ≤ maxEntries i.
Proof.
  intros Hmax. unfold store. destruct (_ <? _) eqn:Hl; [by apply evict_size|].
  by apply Z.ltb_ge in Hl.
Qed.

Lemma store_lookup i results now jti answer expiresAt k r :
  store iterate i results now jti answer expiresAt !! k = Some r →
  (k = jti ∧ r = {| active := answer; expiry := expiryOf (cacheTTL i) now expiresAt |}) ∨
  (k ≠ jti ∧ results !! k = Some r).
Proof.
  unfold store. intros H.
  assert (<[jti := {| active := answer; expiry := expiryOf (cacheTTL i) now expiresAt |}]> results
    !! k = Some r) as H'.
  { destruct (_ <? _); [by eapply evict_lookup|done]. }
  destruct (decide (k = jti)) as [->|Hne].
  - rewrite lookup_insert_eq in H'. left. by injection H' as <-.
  - rewrite lookup_insert_ne in H' by done. by right.
Qed.

(** ** Every interleaving of stores *)

(** A store made by some call: the answer of the IdP for a token, and when it
    was remembered. *)
Record Stored : Type := {
  stored_at : Time;
  stored_jti : string;
  stored_answer : bool;
  stored_expiresAt : Time;
}.

Definition store_step (i : Introspector) (results : Results) (s : Stored) : Results :=
  store iterate i results (stored_at s) (stored_jti s) (stored_answer s) (stored_expiresAt s).

Definition cache_after (i : Introspector) (history : list Stored) : Results :=
  foldl (store_step i) ∅ history.

(** The last store for a token. *)
Definition last_stored (history : list Stored) (jti : string) (s : Stored) : Prop :=
  ∃ before after, history = before ++ s :: after ∧ stored_jti s = jti ∧
    Forall (λ s', stored_jti s' ≠ jti) after.

Lemma cache_after_size i history :
  0 ≤ maxEntries i → Z.of_nat (size (cache_after i history)) ≤ maxEntries i.
Proof.
  intros Hmax. unfold cache_after. destruct history as [|s history] using rev_ind.
  - cbn [foldl]. by rewrite map_size_empty.
  - rewrite foldl_snoc. by apply store_size.
Qed.

Lemma cache_after_lookup i history jti r :
  cache_after i history !! jti = Some r →
  ∃ s, last_stored history jti s ∧
    r = {| active := stored_answer s;
           expiry := expiryOf (cacheTTL i) (stored_at s) (stored_expiresAt s) |}.
Proof.
  unfold cache_after. induction history as [|s history IH] using rev_ind; [done|].
  rewrite foldl_snoc. unfold store_step at 1.
  intros [[-> ->]|[Hne Hr]]%store_lookup.
  - exists s. split; [|done]. exists history, []. by split_and!.
  - destruct (IH Hr) as (s' & (before & after & -> & Hj & Hafter) & ->).
    exists s'. split; [|done]. exists before, (after ++ [s]). rewrite <-app_assoc.
    split_and!; try done. apply Forall_app. split; [done|]. by constructor.
Qed.

Lemma expiryOf_bound ttl now expiresAt :
  expiryOf ttl now expiresAt ≤ now + ttl ∧
  (expiresAt ≠ 0 → expiryOf ttl now expiresAt ≤ expiresAt).
Proof.
  unfold expiryOf, time_is_zero, time_before, time_add.
  destruct (expiresAt =? 0) eqn:H0; simpl; [apply Z.eqb_eq in H0|apply Z.eqb_neq in H0];
    [lia|]. destruct (expiresAt <? now + ttl) eqn:Hl;
    [apply Z.ltb_lt in Hl|apply Z.ltb_ge in Hl]; lia.
Qed.

(** A cached answer is the last one the IdP gave for the token, is younger
    than [cacheTTL] and is not given for an expired token. *)
Lemma cached_fresh i history now jti answer :
  cached (cache_after i history) now jti = Some answer →
  ∃ s, last_stored history jti s ∧ stored_answer s = answer ∧
    now < stored_at s + cacheTTL i ∧
    (stored_expiresAt s ≠ 0 → now < stored_expiresAt s).
Proof.
  unfold cached. destruct (cache_after i history !! jti) as [r|] eqn:Hr; [|done].
  unfold time_before. destruct (now <? expiry r) eqn:Hl; simpl; [|done]. intros [= <-].
  apply Z.ltb_lt in Hl. apply cache_after_lookup in Hr as (s & Hs & ->). simpl in *.
  exists s. split; [done|]. split; [done|].
  destruct (expiryOf_bound (cacheTTL i) (stored_at s) (stored_expiresAt s)). lia.
Qed.
End cache_correct.

(** ** What an answer rests on *)

Section active_correct.
Context {W : Type} `{!IntrospectionWorld W}.
Context (iterate : Results → list string).

(** The response of the IdP says so: status 200, a document of at most
    [DefaultMaxDocumentSize] bytes with an [active] member, and not about
    another token when it says the token is active. *)
Record answers (jti : string) (response : Response) (answer : bool) : Prop := {
  answers_status : StatusCode response = 200;
  answers_document : ∃ encoded document,
    Body response (DefaultMaxDocumentSize + 1) = Ok encoded ∧
    Z.of_nat (String.length encoded) ≤ DefaultMaxDocumentSize ∧
    Unmarshal encoded = Ok document ∧ document_Active document = Some answer ∧
    (answer = true → document_JTI document ∈ [""; jti]);
}.

Lemma readDocument_ok i response document :
  readDocument i response = Ok document ↔
  StatusCode response = 200 ∧ is_Some (document_Active document) ∧
  ∃ encoded, Body response (DefaultMaxDocumentSize + 1) = Ok encoded ∧
    Z.of_nat (String.length encoded) ≤ DefaultMaxDocumentSize ∧ Unmarshal encoded = Ok document.
Proof.
  unfold readDocument. destruct (Z.eqb_spec (StatusCode response) 200) as [E|E]; cbn [negb].
  2: { split; [done|]. by intros [? _]. }
  destruct (Body response _) as [encoded|] eqn:Hb.
  2: { split; [done|]. by intros (_ & _ & ? & ? & _). }
  destruct (Z.ltb_spec DefaultMaxDocumentSize (Z.of_nat (String.length encoded))) as [Hl|Hl].
  { split; [done|]. intros (_ & _ & ? & [= <-] & ? & _). lia. }
  destruct (Unmarshal encoded) as [d|] eqn:Hu.
  2: { split; [done|]. intros (_ & _ & ? & [= <-] & _ & ?). congruence. }
  destruct (document_Active d) as [b|] eqn:Ha.
  - split.
    + intros [= <-]. rewrite Ha. split_and!; [done|by eexists|]. by exists encoded.
    + intros (_ & _ & ? & [= <-] & _ & ?). congruence.
  - split; [done|]. intros (_ & [b Hb'] & ? & [= <-] & _ & ?). congruence.
Qed.

Lemma introspect_ok i token jti w answer w' :
  introspect i token jti w = (Ok answer, w') ↔
  NewRequest "POST" (endpoint i) = None ∧
  ∃ response, Do (introspectionRequest i token) w = (Ok response, w') ∧ answers jti response answer.
Proof.
  unfold introspect, mbind_, mret_. destruct (NewRequest "POST" (endpoint i)) as [e|].
  { split; [done|]. by intros [? _]. }
  destruct (Do (introspectionRequest i token) w) as [[response|err] w1] eqn:Hd.
  2: { split; [done|]. by intros (_ & ? & ? & _). }
  split.
  - intros H. split; [done|]. destruct (readDocument i response) as [d|] eqn:Hr; [|done].
    cbn [result_bind] in H. apply readDocument_ok in Hr as (Hs & [b Hb] & encoded & ? & ? & ?).
    rewrite Hb in H. change (default false (Some b)) with b in H. exists response.
    destruct (b && _ && _) eqn:Hc; [done|].
    injection H as -> <-. split; [done|]. split; [done|]. exists encoded, d. split_and!; try done.
    intros ->. simpl in Hc. apply andb_false_iff in Hc as [E%negb_false_iff|E%negb_false_iff];
      apply bool_decide_eq_true in E; rewrite E; set_solver.
  - intros (_ & response' & [= <- <-] & Hs & encoded & d & ? & ? & ? & Ha & Hj).
    rewrite (proj2 (readDocument_ok i response d)) by (rewrite Ha; eauto 10).
    cbn [result_bind]. rewrite Ha. change (default false (Some answer)) with answer.
    destruct answer; [|done]. specialize (Hj eq_refl). simpl.
    apply elem_of_cons in Hj as [->|[->|[]%not_elem_of_nil]%elem_of_cons]; [done|].
    by rewrite (bool_decide_eq_true_2 (jti = jti)), andb_false_r.
Qed.

(** An answer of [Active] is remembered or comes from the IdP, and only an
    answer of the IdP changes the cache, by one store. *)
Inductive answered i token jti expiresAt : Results → W → bool → Results → W → Prop :=
| answered_cached results w t w1 answer :
    now w = (t, w1) → cached results t jti = Some answer →
    answered i token jti expiresAt results w answer results w1
| answered_late results w t w1 t2 w2 answer :
    now w = (t, w1) → cached results t jti = None → now w1 = (t2, w2) →
    cached results t2 jti = Some answer →
    answered i token jti expiresAt results w answer results w2
| answered_asked results w t w1 t2 w2 w3 t4 w4 answer response :
    now w = (t, w1) → cached results t jti = None → now w1 = (t2, w2) →
    cached results t2 jti = None → NewRequest "POST" (endpoint i) = None →
    Do (introspectionRequest i token) w2 = (Ok response, w3) → answers jti response answer → now w3 = (t4, w4) →
    answered i token jti expiresAt results w answer
      (store_step iterate i results
         {| stored_at := t4; stored_jti := jti; stored_answer := answer;
            stored_expiresAt := expiresAt |}) w4.

Lemma Active_ok i token jti expiresAt results w answer results' w' :
  Active iterate i token jti expiresAt (results, w) = (Ok answer, (results', w')) ↔
  token ≠ "" ∧ jti ≠ "" ∧ answered i token jti expiresAt results w answer results' w'.
Proof.
  unfold Active. destruct (bool_decide _ || bool_decide _) eqn:He.
  { split; [done|]. intros (? & ? & _).
    apply orb_prop in He as [E|E]; by apply bool_decide_eq_true in E. }
  apply orb_false_elim in He as [?%bool_decide_eq_false ?%bool_decide_eq_false].
  destruct (now w) as [t w1] eqn:Hn1. destruct (cached results t jti) as [b|] eqn:Hc1.
  { split; [intros [= -> <- <-]; split_and!; [done..|by econstructor]|].
    intros (_ & _ & Hans). inversion Hans; subst; congruence. }
  unfold flight. destruct (now w1) as [t2 w2] eqn:Hn2.
  destruct (cached results t2 jti) as [b|] eqn:Hc2.
  { split; [intros [= -> <- <-]; split_and!; [done..|by eapply answered_late]|].
    intros (_ & _ & Hans). inversion Hans; subst; congruence. }
  destruct (introspect i token jti w2) as [[b|err] w3] eqn:Hi.
  - apply introspect_ok in Hi as Hi'. destruct Hi' as (Hr & response & Hd & Ha).
    destruct (now w3) as [t4 w4] eqn:Hn4. split.
    + intros [= -> <- <-]. split_and!; [done..|by eapply answered_asked].
    + intros (_ & _ & Hans). inversion Hans; subst; try congruence.
      match goal with
      | Hd' : Do (introspectionRequest i token) ?w0 = (Ok ?r, ?w0'), Ha' : answers jti ?r answer |- _ =>
          assert (introspect i token jti w0 = (Ok answer, w0')) as Hi2
            by (apply introspect_ok; eauto)
      end. unfold store_step. simpl. congruence.
  - split; [done|]. intros (_ & _ & Hans). inversion Hans; subst; try congruence.
    match goal with
    | Hd' : Do (introspectionRequest i token) ?w0 = (Ok ?r, ?w0'), Ha' : answers jti ?r answer |- _ =>
        assert (introspect i token jti w0 = (Ok answer, w0')) as Hi2
          by (apply introspect_ok; eauto)
    end. congruence.
Qed.

(** A call that fails leaves the cache alone. *)
Lemma Active_err i token jti expiresAt results w err results' w' :
  Active iterate i token jti expiresAt (results, w) = (Err err, (results', w')) → results' = results.
Proof.
  unfold Active, flight. destruct (bool_decide _ || bool_decide _); [by intros [= _ <-]|].
  destruct (now w) as [t w1]. destruct (cached results t jti); [by intros [= _ <-]|].
  destruct (now w1) as [t2 w2]. destruct (cached results t2 jti); [by intros [= _ <-]|].
  destruct (introspect i token jti w2) as [[b|e] w3]; [by destruct (now w3)|by intros [= _ <-]].
Qed.

(** What the clock and the IdP keep of the world, a call keeps. *)
Lemma Active_world (P : W → Prop) i token jti expiresAt results w r results' w' :
  (∀ w t w', now w = (t, w') → P w → P w') →
  (∀ token w r w', Do (introspectionRequest i token) w = (r, w') → P w → P w') →
  Active iterate i token jti expiresAt (results, w) = (r, (results', w')) → P w → P w'.
Proof.
  intros Hnow HDo. unfold Active, flight. destruct (bool_decide _ || bool_decide _); [by intros [= _ _ <-]|].
  destruct (now w) as [t w1] eqn:Hn1. intros H Hw. eapply Hnow in Hn1; [|exact Hw]. revert H.
  destruct (cached results t jti); [by intros [= _ _ <-]|].
  destruct (now w1) as [t2 w2] eqn:Hn2. eapply Hnow in Hn2; [|exact Hn1].
  destruct (cached results t2 jti); [by intros [= _ _ <-]|].
  assert (P (introspect i token jti w2).2) as Hi.
  { unfold introspect. run_monad. destruct (NewRequest _); [done|].
    destruct (Do (introspectionRequest i token) w2) as [response w3] eqn:Hd. by eapply HDo. }
  destruct (introspect i token jti w2) as [[b|e] w3]; [|by intros [= _ _ <-]].
  destruct (now w3) as [t4 w4] eqn:Hn4. intros [= _ _ <-]. by eapply Hnow.
Qed.
End active_correct.

(** ** Construction *)

Lemma NewIntrospector_ok url_Parse config i :
  NewIntrospector url_Parse config = Ok i →
  clientID i ≠ "" ∧ clientSecret i ≠ "" ∧ 0 < maxEntries i ∧ 0 < cacheTTL i ∧ 0 < timeout i ∧
  (config_CacheTTL config ≤ 0 → cacheTTL i = DefaultIntrospectionCacheTTL) ∧
  ∃ parsed, url_Parse (endpoint i) = Ok parsed ∧ isHTTPURL parsed = true.
Proof.
  unfold NewIntrospector. destruct (url_Parse (config_Endpoint config)) as [parsed|] eqn:Hp; [|done].
  destruct (isHTTPURL parsed) eqn:Hh; [|done]. simpl.
  destruct (_ || _) eqn:He; [done|].
  apply orb_false_elim in He as [?%bool_decide_eq_false ?%bool_decide_eq_false].
  assert (∀ v f, 0 < f → 0 < orDefaultDuration v f) as Hpos.
  { intros v f Hf. unfold orDefaultDuration. destruct (Z.leb_spec v 0); lia. }
  intros [= <-]. simpl. split_and!; try done; [|by apply Hpos..| |by exists parsed].
  - destruct (Z.leb_spec (config_MaxEntries config) 0); [done|lia].
  - intros Hle. unfold orDefaultDuration. by rewrite (proj2 (Z.leb_le _ _) Hle).
Qed.

(** ** Properties *)

(** C21. The cache never vouches for a token it should ask about: whatever calls
    were interleaved before, a cached answer for a [jti] is the last one the IdP
    gave for it, it is younger than [cacheTTL], and the token it was given for
    has not expired. *)
Theorem introspection_cache_fresh iterate i history now jti answer :
  cached (cache_after iterate i history) now jti = Some answer →
  ∃ s, last_stored history jti s ∧ stored_answer s = answer ∧
    now < stored_at s + cacheTTL i ∧ (stored_expiresAt s ≠ 0 → now < stored_expiresAt s).
Proof. apply cached_fresh. Qed.

(** The cache is bounded: whatever answers are remembered in whatever order,
    it never holds more than [maxEntries] of them, however Go orders the
    iteration over the map when it evicts. *)
Theorem introspection_cache_bounded iterate i history :
  (∀ results, iterate results ≡ₚ (map_to_list results).*1) → 0 ≤ maxEntries i →
  Z.of_nat (size (cache_after iterate i history)) ≤ maxEntries i.
Proof. intros. by apply cache_after_size. Qed.

(** C22. [Active] answers exactly as [answered] says: from the cache, or with the
    [active] member of a response of the IdP with status 200 that is within the
    size limit and is not about another token; only such a response changes the
    cache, by one store. It never answers for a token without a [jti]. *)
Theorem introspection_active_spec {W} `{!IntrospectionWorld W} iterate i token jti expiresAt results
    (w : W) answer results' w' :
  Active iterate i token jti expiresAt (results, w) = (Ok answer, (results', w')) ↔
  token ≠ "" ∧ jti ≠ "" ∧ answered iterate i token jti expiresAt results w answer results' w'.
Proof. apply Active_ok. Qed.

Definition example_iterate (results : Results) : list string := (map_to_list results).*1.

Definition example_introspector : Introspector :=
  {| endpoint := "https://idp/introspect"; clientID := "gateway"; clientSecret := "secret";
     cacheTTL := 60; timeout := 5; maxEntries := 2 |}.

(** Three answers for three tokens, one more than the cache holds. *)
Definition example_history : list Stored :=
  [{| stored_at := 1; stored_jti := "a"; stored_answer := true; stored_expiresAt := 20 |};
   {| stored_at := 2; stored_jti := "b"; stored_answer := false; stored_expiresAt := 0 |};
   {| stored_at := 3; stored_jti := "c"; stored_answer := true; stored_expiresAt := 0 |}].

Lemma introspection_cache_fresh_witness :
  ∃ s, last_stored example_history "b" s ∧ stored_answer s = false ∧ 30 < stored_at s + 60 ∧
    (stored_expiresAt s ≠ 0 → 30 < stored_expiresAt s).
Proof.
  apply (introspection_cache_fresh example_iterate example_introspector example_history 30 "b" false).
  vm_compute. reflexivity.
Defined.

Lemma introspection_cache_bounded_witness :
  cache_after example_iterate example_introspector example_history !! "a" = None ∧
  Z.of_nat (size (cache_after example_iterate example_introspector example_history)) ≤ 2.
Proof.
  split; [vm_compute; reflexivity|].
  apply (introspection_cache_bounded example_iterate example_introspector example_history);
    [done|vm_compute; discriminate].
Defined.
