(* ===== verification/SingleFlight.v ===== *)
(** * Concurrent calls behind a single-flight group

    The key set and the introspector let concurrent calls share work: a call
    looks for an answer under the mutex, and when it finds none it runs a function
    through a [singleflight.Group], which runs one function per group key at a
    time and gives its outcome to every call that arrived meanwhile.  This file
    models such calls as a transition system, for any number of calls and any
    interleaving of their atomic steps: the steps that hold the mutex, joining or
    leading a flight, the steps of a flight, and its landing.

    [Protocol] is what a component fills in; KeySetFlight.v and
    IntrospectionFlight.v do. *)

From S2P Require Import Prelude.

(** [A] are the arguments of a call, [G] the keys of the group, [R] the results
    of a call, [O] the outcomes of a flight, [St] the state the mutex guards
    together with the clock, and [F] where a flight stands. *)
Record Protocol {A G R O St F : Type} : Type := {
  group_key : A → G;
  (** the fast path, [None] when the call needs a flight *)
  check : A → St → option R;
  (** the function the first call of a flight gives to the group *)
  start : A → F;
  (** one atomic step of that function *)
  fly : F → St → F → St → Prop;
  landed : F → option O;
  (** what a call does with the outcome *)
  finish : A → O → St → R;
  (** time passes *)
  tick : St → St → Prop;
}.
Arguments Protocol : clear implicits.

Inductive phase {A R O : Type} : Type :=
| Called (a : A)
| Missed (a : A)
| Waiting (a : A)
| Woken (a : A) (o : O)
| Returned (a : A) (r : R).
Arguments phase : clear implicits.

Record config {A G R O St F : Type} `{Countable G} : Type := {
  shared : St;
  flights : gmap G F;
  calls : list (phase A R O);
}.
Arguments config A G R O St F {_ _}.

Section protocol.
Context {A G R O St F : Type} `{Countable G} (p : Protocol A G R O St F).
Implicit Types (c : config A G R O St F).

(** The landing of the flight of [g] wakes the calls that wait for it. *)
Definition wake (g : G) (o : O) (call : phase A R O) : phase A R O :=
  match call with
  | Waiting a => if decide (group_key p a = g) then Woken a o else call
  | _ => call
  end.

(** The steps of the calls and of the flights. *)
Inductive progress : config A G R O St F → config A G R O St F → Prop :=
| step_hit s fl cs i a r :
    cs !! i = Some (Called a) → check p a s = Some r →
    progress {| shared := s; flights := fl; calls := cs |}
             {| shared := s; flights := fl; calls := <[i := Returned a r]> cs |}
| step_miss s fl cs i a :
    cs !! i = Some (Called a) → check p a s = None →
    progress {| shared := s; flights := fl; calls := cs |}
             {| shared := s; flights := fl; calls := <[i := Missed a]> cs |}
| step_join s fl cs i a f :
    cs !! i = Some (Missed a) → fl !! group_key p a = Some f →
    progress {| shared := s; flights := fl; calls := cs |}
             {| shared := s; flights := fl; calls := <[i := Waiting a]> cs |}
| step_lead s fl cs i a :
    cs !! i = Some (Missed a) → fl !! group_key p a = None →
    progress {| shared := s; flights := fl; calls := cs |}
             {| shared := s; flights := <[group_key p a := start p a]> fl;
                calls := <[i := Waiting a]> cs |}
| step_fly s fl cs g f f' s' :
    fl !! g = Some f → landed p f = None → fly p f s f' s' →
    progress {| shared := s; flights := fl; calls := cs |}
             {| shared := s'; flights := <[g := f']> fl; calls := cs |}
| step_land s fl cs g f o :
    fl !! g = Some f → landed p f = Some o →
    progress {| shared := s; flights := fl; calls := cs |}
             {| shared := s; flights := delete g fl; calls := wake g o <$> cs |}
| step_finish s fl cs i a o :
    cs !! i = Some (Woken a o) →
    progress {| shared := s; flights := fl; calls := cs |}
             {| shared := s; flights := fl; calls := <[i := Returned a (finish p a o s)]> cs |}.

(** The steps of the world: a call arrives, or time passes. *)
Inductive environment : config A G R O St F → config A G R O St F → Prop :=
| step_call s fl cs a :
    environment {| shared := s; flights := fl; calls := cs |}
                {| shared := s; flights := fl; calls := cs ++ [Called a] |}
| step_tick s s' fl cs :
    tick p s s' →
    environment {| shared := s; flights := fl; calls := cs |}
                {| shared := s'; flights := fl; calls := cs |}.

Definition step c c' : Prop := progress c c' ∨ environment c c'.

Definition initial (s : St) : config A G R O St F := {| shared := s; flights := ∅; calls := [] |}.

Definition reachable (s : St) c : Prop := rtc step (initial s) c.

(** Every waiting call has its flight. *)
Definition waiting_in_flight c : Prop :=
  ∀ a, Waiting a ∈ calls c → is_Some (flights c !! group_key p a).

Lemma insert_waiting (cs : list (phase A R O)) i call a :
  Waiting a ∈ <[i := call]> cs → Waiting a ∈ cs ∨ call = Waiting a.
Proof.
  intros (j & Hj)%list_elem_of_lookup. apply list_lookup_insert_Some in Hj as [(_ & -> & _)|[_ Hj]];
    [by right|]. left. by eapply list_elem_of_lookup_2.
Qed.

Lemma wake_waiting g o (cs : list (phase A R O)) a :
  Waiting a ∈ wake g o <$> cs → Waiting a ∈ cs ∧ group_key p a ≠ g.
Proof.
  intros (call & Hw & Hin)%list_elem_of_fmap. destruct call; cbn in Hw; try done.
  case_decide; [done|]. by injection Hw as ->.
Qed.

Lemma progress_waiting c c' :
  progress c c' → waiting_in_flight c → waiting_in_flight c'.
Proof.
  intros [s fl cs i a r _ _|s fl cs i a _ _|s fl cs i a f _ Hf|s fl cs i a _ _
    |s fl cs g f f' s' _ _ _|s fl cs g f o _ _|s fl cs i a o _] Hw a'; specialize (Hw a'); cbn in *.
  - intros [?|[=]]%insert_waiting. auto.
  - intros [?|[=]]%insert_waiting. auto.
  - intros [?|[= ->]]%insert_waiting; [auto|by eexists].
  - rewrite lookup_insert_is_Some'. intros [?|[= ->]]%insert_waiting; auto.
  - rewrite lookup_insert_is_Some'. auto.
  - intros [? ?]%wake_waiting. rewrite lookup_delete_is_Some. auto.
  - intros [?|[=]]%insert_waiting. auto.
Qed.

Lemma reachable_waiting s c : reachable s c → waiting_in_flight c.
Proof.
  apply (rtc_ind_r waiting_in_flight); [by intros a ?%not_elem_of_nil|].
  intros c1 c2 _ [Hp|[s0 fl cs a|s0 s' fl cs _]] IH a'; [by eapply progress_waiting| |apply (IH a')].
  specialize (IH a'). cbn in *. intros [?|[=]%list_elem_of_singleton]%elem_of_app. auto.
Qed.

(** ** Invariants

    What holds of the state ([I]), of a flight in it ([J]), of an outcome ([U])
    and of a result ([V]) holds in every reachable configuration when every
    atomic step keeps it. *)
(** The fast path once had no answer. *)
Definition missed (a : A) : Prop := ∃ s, check p a s = None.

Record invariant (I : St → Prop) (J : G → F → St → Prop) (U : G → O → Prop) (V : A → R → Prop) : Prop := {
  inv_tick s s' : tick p s s' → I s → I s' ∧ ∀ g f, J g f s → J g f s';
  inv_start a s : missed a → I s → J (group_key p a) (start p a) s;
  inv_fly g f s f' s' :
    fly p f s f' s' → I s → J g f s →
    I s' ∧ J g f' s' ∧ ∀ g' f'', g' ≠ g → J g' f'' s → J g' f'' s';
  inv_landed g f s o : landed p f = Some o → J g f s → U g o;
  inv_check a s r : check p a s = Some r → I s → V a r;
  inv_finish a o s : missed a → U (group_key p a) o → I s → V a (finish p a o s);
}.

(** What an invariant says of a call. *)
Definition call_ok (U : G → O → Prop) (V : A → R → Prop) (call : phase A R O) : Prop :=
  match call with
  | Called _ => True
  | Missed a | Waiting a => missed a
  | Woken a o => missed a ∧ U (group_key p a) o
  | Returned a r => V a r
  end.

(** A configuration that keeps an invariant. *)
Record config_ok (I : St → Prop) (J : G → F → St → Prop) (U : G → O → Prop) (V : A → R → Prop) c : Prop := {
  ok_shared : I (shared c);
  ok_flights g f : flights c !! g = Some f → J g f (shared c);
  ok_calls : Forall (call_ok U V) (calls c);
}.

Lemma progress_ok I J U V c c' :
  invariant I J U V → progress c c' → config_ok I J U V c → config_ok I J U V c'.
Proof.
  intros Hinv Hstep [HI HJ Hcs].
  assert (∀ i call, calls c !! i = Some call → call_ok U V call) as Hcall.
  { intros i call Hi. rewrite Forall_lookup in Hcs. by eapply Hcs. }
  destruct Hstep as [s fl cs i a r Hi Hc|s fl cs i a Hi Hc|s fl cs i a f Hi Hf|s fl cs i a Hi Hf
    |s fl cs g f f' s' Hf Hl Hfly|s fl cs g f o Hf Hl|s fl cs i a o Hi]; cbn in *; split; cbn; try assumption.
  - apply Forall_insert; [done|]. by eapply (inv_check _ _ _ _ Hinv).
  - apply Forall_insert; [done|]. by exists s.
  - apply Forall_insert; [done|]. by apply (Hcall i _ Hi).
  - intros g f [[<- <-]|[_ ?]]%lookup_insert_Some; [|auto].
    apply (inv_start _ _ _ _ Hinv); [by apply (Hcall i _ Hi)|done].
  - apply Forall_insert; [done|]. by apply (Hcall i _ Hi).
  - by destruct (inv_fly _ _ _ _ Hinv g f s f' s' Hfly HI (HJ _ _ Hf)).
  - pose proof (inv_fly _ _ _ _ Hinv g f s f' s' Hfly HI (HJ _ _ Hf)) as (_ & ? & Hother).
    intros g' f'' [[<- <-]|[? ?]]%lookup_insert_Some; [done|]. apply Hother; auto.
  - intros g' f' [_ ?]%lookup_delete_Some. auto.
  - apply Forall_fmap. eapply Forall_impl; [exact Hcs|]. intros [] Hok; cbn in *; try done.
    case_decide as Hg; [|done]. cbn. rewrite Hg. split; [done|]. eapply (inv_landed _ _ _ _ Hinv); eauto.
  - apply Forall_insert; [done|]. destruct (Hcall i _ Hi). by apply (inv_finish _ _ _ _ Hinv).
Qed.

Lemma environment_ok I J U V c c' :
  invariant I J U V → environment c c' → config_ok I J U V c → config_ok I J U V c'.
Proof.
  intros Hinv [s fl cs a|s s' fl cs Ht] [HI HJ Hcs]; cbn in *; split; cbn; try assumption.
  - apply Forall_app. split; [done|]. by apply Forall_singleton.
  - by destruct (inv_tick _ _ _ _ Hinv s s' Ht HI).
  - intros g f Hf. apply (inv_tick _ _ _ _ Hinv s s' Ht HI). auto.
Qed.

Lemma steps_ok I J U V c c' :
  invariant I J U V → rtc step c c' → config_ok I J U V c → config_ok I J U V c'.
Proof.
  intros Hinv. induction 1 as [|c c1 c2 [Hp|He] _ IH]; [done|intros Hc; apply IH..];
    [by eapply progress_ok|by eapply environment_ok].
Qed.

Lemma reachable_ok I J U V s c :
  invariant I J U V → I s → reachable s c → config_ok I J U V c.
Proof.
  intros Hinv Hs Hr. eapply steps_ok; [exact Hinv|exact Hr|]. split; cbn; [done| |constructor].
  intros g f Hf. by rewrite lookup_empty in Hf.
Qed.

(** ** Every call returns

    Flights that take a bounded number of steps and never get stuck on their own
    land, and then every call returns: no call waits for ever, however the steps
    are interleaved. *)

Definition returned (call : phase A R O) : Prop :=
  match call with Returned _ _ => True | _ => False end.

Definition finished c : Prop := Forall returned (calls c).

#[local] Instance returned_dec call : Decision (returned call).
Proof. destruct call; apply _. Defined.

Section termination.
Context (flight_size : F → nat).
Context (fly_size : ∀ f s f' s', fly p f s f' s' → (flight_size f' < flight_size f)%nat).
Context (fly_on : ∀ f s, landed p f = None → ∃ f' s', fly p f s f' s').

(** The steps a call and a flight can still take. *)
Definition call_weight (call : phase A R O) : nat :=
  match call with
  | Called a => 6 + flight_size (start p a)
  | Missed a => 5 + flight_size (start p a)
  | Waiting _ => 2
  | Woken _ _ => 1
  | Returned _ _ => 0
  end.

Definition flight_weight (gf : G * F) : nat := S (flight_size gf.2).

Definition flights_weight (fl : gmap G F) : nat := sum_list_with flight_weight (map_to_list fl).

Definition weight c : nat := sum_list_with call_weight (calls c) + flights_weight (flights c).

Lemma calls_weight_insert (cs : list (phase A R O)) i call call' :
  cs !! i = Some call →
  (sum_list_with call_weight (<[i := call']> cs) + call_weight call
    = sum_list_with call_weight cs + call_weight call')%nat.
Proof.
  revert i. induction cs as [|c cs IH]; intros [|i] Hi; cbn in *; try done.
  - injection Hi as ->. lia.
  - specialize (IH i Hi). rewrite <-!Nat.add_assoc. f_equal. exact IH.
Qed.

Lemma flights_weight_delete fl g f :
  fl !! g = Some f → flights_weight fl = (S (flight_size f) + flights_weight (delete g fl))%nat.
Proof. intros Hf. unfold flights_weight. by rewrite <-(map_to_list_delete fl g f Hf). Qed.

Lemma flights_weight_insert fl g f :
  flights_weight (<[g := f]> fl) = (S (flight_size f) + flights_weight (delete g fl))%nat.
Proof.
  rewrite (flights_weight_delete (<[g := f]> fl) g f) by apply lookup_insert_eq.
  by rewrite delete_insert_eq.
Qed.

Lemma wake_weight g o (cs : list (phase A R O)) :
  (sum_list_with call_weight (wake g o <$> cs) ≤ sum_list_with call_weight cs)%nat.
Proof.
  induction cs as [|call cs IH]; cbn; [done|].
  assert (call_weight (wake g o call) ≤ call_weight call)%nat by
    (destruct call; cbn; [done..| |done|done]; case_decide; cbn; lia).
  lia.
Qed.

Lemma progress_weight c c' : progress c c' → (weight c' < weight c)%nat.
Proof.
  intros Hstep. unfold weight.
  destruct Hstep as [s fl cs i a r Hi _|s fl cs i a Hi _|s fl cs i a f Hi _|s fl cs i a Hi Hf
    |s fl cs g f f' s' Hf _ Hfly|s fl cs g f o Hf _|s fl cs i a o Hi]; cbn [shared flights calls].
  - apply (calls_weight_insert _ _ _ (Returned a r)) in Hi. cbn in Hi. lia.
  - apply (calls_weight_insert _ _ _ (Missed a)) in Hi. cbn in Hi. lia.
  - apply (calls_weight_insert _ _ _ (Waiting a)) in Hi. cbn in Hi. lia.
  - apply (calls_weight_insert _ _ _ (Waiting a)) in Hi. cbn in Hi.
    rewrite flights_weight_insert, delete_id by done. lia.
  - rewrite flights_weight_insert, (flights_weight_delete fl g f Hf). apply fly_size in Hfly. lia.
  - rewrite (flights_weight_delete fl g f Hf). pose proof (wake_weight g o cs). lia.
  - apply (calls_weight_insert _ _ _ (Returned a (finish p a o s))) in Hi. cbn in Hi. lia.
Qed.

Lemma progress_bounded n c c' : nsteps progress n c c' → (n + weight c' ≤ weight c)%nat.
Proof. induction 1 as [|n c1 c2 c3 Hs _ IH]; [lia|]. apply progress_weight in Hs. lia. Qed.

(** No call gets stuck. *)
Lemma unfinished_progress c :
  waiting_in_flight c →
  ¬ finished c → ∃ c', progress c c'.
Proof.
  destruct c as [s fl cs]. cbn. unfold finished. cbn. intros Hw Hn.
  apply not_Forall_Exists in Hn; [|apply _].
  apply Exists_exists in Hn as (call & (i & Hi)%list_elem_of_lookup & Hcall).
  destruct call as [a|a|a|a o|a r]; [| | | |by destruct Hcall].
  - destruct (check p a s) as [r|] eqn:Hc; eexists; [by eapply step_hit|by eapply step_miss].
  - destruct (fl !! group_key p a) as [f|] eqn:Hf; eexists; [by eapply step_join|by eapply step_lead].
  - destruct (Hw a) as [f Hf]; [by eapply list_elem_of_lookup_2|].
    destruct (landed p f) as [o|] eqn:Hl; [eexists; by eapply step_land|].
    destruct (fly_on f s Hl) as (f' & s' & Hfly). eexists. by eapply step_fly.
  - eexists. by eapply step_finish.
Qed.

(** All calls return when they go on, in whatever order they do. *)
Lemma all_return c :
  waiting_in_flight c →
  (∃ c', rtc progress c c' ∧ finished c') ∧
  ∀ n c', nsteps progress n c c' →
    (n ≤ weight c)%nat ∧ (finished c' ∨ ∃ c'', progress c' c'').
Proof.
  intros Hw. split.
  - remember (weight c) as n eqn:Hn. revert c Hw Hn.
    induction n as [n IH] using lt_wf_ind. intros c Hw ->.
    destruct (decide (finished c)) as [|Hf]; [by exists c|].
    destruct (unfinished_progress c Hw Hf) as [c1 H1].
    destruct (IH (weight c1) (progress_weight _ _ H1) c1 (progress_waiting _ _ H1 Hw) eq_refl)
      as (c' & Hs & ?).
    exists c'. split; [by eapply rtc_l|done].
  - intros n c' Hs. split; [apply progress_bounded in Hs; lia|].
    assert (waiting_in_flight c') as Hw'.
    { clear -Hs Hw. induction Hs as [|n c c1 c2 H1 _ IH]; [done|]. apply IH. by eapply progress_waiting. }
    destruct (decide (finished c')); [by left|right]. by apply unfinished_progress.
Qed.
End termination.

(** ** A call that nobody disturbs *)

(** A flight moves on, or time passes. *)
Definition moves (fs fs' : F * St) : Prop :=
  (landed p fs.1 = None ∧ fly p fs.1 fs.2 fs'.1 fs'.2) ∨ (fs'.1 = fs.1 ∧ tick p fs.2 fs'.2).

(** A flight alone with the call that leads it. *)
Definition alone (a : A) (fs : F * St) : config A G R O St F :=
  {| shared := fs.2; flights := {[group_key p a := fs.1]}; calls := [Waiting a] |}.

Lemma alone_moves a fs fs' : rtc moves fs fs' → rtc step (alone a fs) (alone a fs').
Proof.
  induction 1 as [|fs [f1 s1] fs' Hs _ IH]; [done|]. eapply rtc_l; [|exact IH].
  destruct fs as [f s]. unfold alone. destruct Hs as [[Hl Hfly]|[-> Ht]]; cbn in *.
  - left. assert ({[group_key p a := f1]} = <[group_key p a := f1]> ({[group_key p a := f]} : gmap G F)) as ->
      by (by rewrite insert_singleton_eq).
    eapply step_fly; [apply lookup_singleton_eq|done|done].
  - right. by apply step_tick.
Qed.

(** It finds its answer, or leads a flight and takes its outcome. *)
Lemma undisturbed_hit a s r :
  check p a s = Some r →
  rtc step {| shared := s; flights := ∅; calls := [Called a] |}
           {| shared := s; flights := ∅; calls := [Returned a r] |}.
Proof. intros Hc. apply rtc_once. left. by apply (step_hit _ _ [Called a] 0). Qed.

Lemma undisturbed_flight a s f' s' o :
  check p a s = None → rtc moves (start p a, s) (f', s') → landed p f' = Some o →
  rtc step {| shared := s; flights := ∅; calls := [Called a] |}
           {| shared := s'; flights := ∅; calls := [Returned a (finish p a o s')] |}.
Proof.
  intros Hc Hm Hl.
  eapply rtc_l; [left; by apply (step_miss _ _ [Called a] 0)|].
  eapply rtc_l; [left; apply (step_lead _ _ [Missed a] 0 a); [done|apply lookup_empty]|].
  rewrite insert_empty. etrans; [apply (alone_moves a _ _ Hm)|].
  eapply rtc_l; [left; apply (step_land _ _ [Waiting a] (group_key p a) f' o); [apply lookup_singleton_eq|done]|].
  rewrite delete_singleton_eq. cbn. destruct (decide (group_key p a = group_key p a)) as [_|[]]; [|done].
  apply rtc_once. left. by apply (step_finish _ _ [Woken a o] 0).
Qed.
End protocol.
