(* ===== verification/KeySetFlight.v ===== *)
(** * Concurrent calls of the key set ([internal/externaltoken/keyset.go])

    [Key], [fetch] and [refresh] as a protocol of SingleFlight.v: [cached],
    [lookup], [store] and [recordFailure] hold the mutex, [group.Do] runs one
    [refresh] at a time, and the requests to the IdP, the timers and the looks at
    the leading call's context happen between these steps, with any outcome.  Each
    of them is an event of the execution.  KeySet.v has the same functions run by
    a single call; the theorems say that such a run is one of the executions here,
    event by event. *)

From S2P Require Import Prelude GoStd GoErrors Discovery Verifier KeySet SingleFlight.

(** What a [refresh] asks of the world, and what it gets: a request to the IdP
    (with its timeout, URL and size limit), a timer of [waitFor], which fires or
    is stopped by the context, and [ctx.Err()], which is not nil when the context
    is done. *)
Inductive Event : Type :=
| Fetched (timeout : Duration) (url : string) (size : Z) (r : result error string)
| Timer (delay : Duration) (fires : bool)
| Context (done : bool).

(** What the mutex guards, the clock, and the events so far. *)
Record Shared : Type := {
  state : State;
  clock : Time;
  events : list Event;
}.

(** Where [refresh] stands: before an attempt with the backoffs that are left;
    before the wait of a backoff after a transient failure; with the keys to
    store; with the last failure, before it looks at the context ([true] when the
    wait has found it done); with the failure to record; or done. *)
Inductive Flight : Type :=
| Loading (backoff : list Duration)
| Backing (delay : Duration) (backoff : list Duration) (err : error)
| Loaded (ks : gmap string PublicKey)
| Failing (done : bool) (err : error)
| Recording (err : error)
| Landed (err : option error).

Abbreviation Config := (config string unit (result error PublicKey) (option error) Shared Flight).

Section keyset_flight.
Context (k : KeySet) (UnmarshalJWKS : string → result error (list jwk)).

Definition emit (s : Shared) (e : Event) : Shared :=
  {| state := state s; clock := clock s; events := events s ++ [e] |}.

Definition with_state (s : Shared) (st : State) : Shared :=
  {| state := st; clock := clock s; events := events s |}.

(** A request of [load], with its answer. *)
Definition fetched (r : result error string) : Event :=
  Fetched (fetchTimeout k) (url k) (maxDocumentSize k) r.

(** The loop of [refresh] after an attempt: the keys, a wait when the failure is
    transient and a backoff is left, and the last failure otherwise. *)
Definition attempted (backoff : list Duration) (loaded : result error (gmap string PublicKey)) : Flight :=
  match loaded with
  | Ok ks => Loaded ks
  | Err err =>
      if isTransientFetchError err then
        match backoff with
        | [] => Failing false err
        | delay :: rest => Backing delay rest err
        end
      else Failing false err
  end.

(** The steps of [refresh].  A positive delay waits for its timer, another one
    looks at the context; [recordFailure] does nothing when the context is done,
    and a context that was done stays so. *)
Inductive fly_refresh : Flight → Shared → Flight → Shared → Prop :=
| fly_fetched backoff s r :
    fly_refresh (Loading backoff) s
      (attempted backoff (let? encoded := r in parseJWKS UnmarshalJWKS encoded)) (emit s (fetched r))
| fly_timer delay backoff err s fires :
    0 < delay →
    fly_refresh (Backing delay backoff err) s
      (if (fires : bool) then Loading backoff else Failing true err) (emit s (Timer delay fires))
| fly_no_delay delay backoff err s cancelled :
    delay ≤ 0 →
    fly_refresh (Backing delay backoff err) s
      (if (cancelled : bool) then Failing true err else Loading backoff) (emit s (Context cancelled))
| fly_store ks s :
    fly_refresh (Loaded ks) s (Landed None) (with_state s (store k (clock s) ks))
| fly_cancelled known err s :
    fly_refresh (Failing known err) s (Landed (Some err)) (emit s (Context true))
| fly_running err s :
    fly_refresh (Failing false err) s (Recording err) (emit s (Context false))
| fly_record err s :
    fly_refresh (Recording err) s (Landed (Some err)) (with_state s (failure (state s) (clock s) err)).

(** Nothing but the events and the clock decides where a flight goes. *)
Lemma refresh_determined f s f1 s1 f2 s2 :
  fly_refresh f s f1 s1 → fly_refresh f s f2 s2 → events s1 = events s2 → f1 = f2 ∧ s1 = s2.
Proof.
  destruct 1; inversion 1; subst; cbn; intros He; try lia; try done;
    apply app_inj_tail in He as [_ He]; try discriminate; by injection He as ->.
Qed.

(** [Key] up to [fetch]. *)
Definition check_key (keyID : string) (s : Shared) : option (result error PublicKey) :=
  if decide (keyID = "") then Some (Err (ErrorNew ErrMissingKeyID))
  else
    match cached k (state s) (clock s) keyID with
    | Ok key => Some (Ok key)
    | Err err => if Is err errFetchRequired then None else Some (Err err)
    end.

(** [Key] after [group.Do]. *)
Definition finish_key (keyID : string) (outcome : option error) (s : Shared) :
    result error PublicKey :=
  match outcome with
  | Some err => Err (Errorf "%w: %w" [ErrorNew ErrKeysUnavailable; err] [])
  | None => lookup (state s) keyID
  end.

(** The clock moves as the machine's does. *)
Definition tick_clock (s s' : Shared) : Prop := state s' = state s ∧ events s' = events s.

(** The group has one key, the URL of the document. *)
Definition keyset_protocol : Protocol string unit (result error PublicKey) (option error) Shared Flight :=
  {| group_key := λ _, tt;
     check := check_key;
     start := λ _, Loading (retryBackoff k);
     fly := fly_refresh;
     landed := λ f, match f with Landed err => Some err | _ => None end;
     finish := finish_key;
     tick := tick_clock |}.

Implicit Types (c : Config) (s : Shared).

(** ** The invariant *)

Definition keys_ok (ks : gmap string PublicKey) : Prop :=
  ∀ id key, ks !! id = Some key → usable key ∧ id ≠ "".

Definition flight_ok (f : Flight) : Prop := match f with Loaded ks => keys_ok ks | _ => True end.

Definition result_ok (keyID : string) (r : result error PublicKey) : Prop :=
  ∀ key, r = Ok key → usable key ∧ keyID ≠ "".

Lemma keyset_invariant :
  invariant keyset_protocol (λ s, state_wf (state s)) (λ _ f _, flight_ok f) (λ _ _, True)
    result_ok.
Proof.
  split; cbn.
  - intros s s' [-> _] Hs. auto.
  - done.
  - intros g f s f' s' Hfly Hs Hf. destruct Hfly; cbn in *; split_and!; auto.
    + destruct r as [encoded|err]; cbn; [|by destruct (isTransientFetchError err), backoff].
      destruct (parseJWKS UnmarshalJWKS encoded) as [ks|err] eqn:Hp; cbn;
        [|by destruct (isTransientFetchError err), backoff].
      intros id key Hk. by eapply parseJWKS_usable.
    + by destruct fires.
    + by destruct cancelled.
  - done.
  - intros keyID s r Hr Hs key ->. unfold check_key in Hr. case_decide; [done|].
    destruct (cached _ _ _ _) as [key'|err] eqn:Hc; [|by destruct (Is _ _)].
    injection Hr as ->. apply cached_ok in Hc as [_ Hk]. by apply Hs in Hk.
  - intros keyID [err|] s _ _ Hs key; cbn; [done|]. unfold lookup.
    destruct (keys (state s) !! keyID) as [key'|] eqn:Hk; [|done]. intros [= ->].
    by apply Hs in Hk.
Qed.

(** ** Flights land *)

Definition flight_size (f : Flight) : nat :=
  match f with
  | Loading backoff => 3 + 2 * length backoff
  | Backing _ backoff _ => 4 + 2 * length backoff
  | Failing _ _ => 2
  | Loaded _ | Recording _ => 1
  | Landed _ => 0
  end.

Lemma attempted_size backoff loaded :
  (flight_size (attempted backoff loaded) < flight_size (Loading backoff))%nat.
Proof.
  destruct loaded as [ks|err]; cbn; [lia|].
  destruct (isTransientFetchError err), backoff; cbn; lia.
Qed.

Lemma refresh_size f s f' s' : fly_refresh f s f' s' → (flight_size f' < flight_size f)%nat.
Proof.
  destruct 1; [apply attempted_size|destruct fires|destruct cancelled| | | |]; cbn; lia.
Qed.

Lemma refresh_on f s : landed keyset_protocol f = None → ∃ f' s', fly_refresh f s f' s'.
Proof.
  destruct f as [backoff|delay backoff err|ks|known err|err|err]; cbn; intros Hl; [..|done].
  - eexists _, _. apply (fly_fetched _ _ (Err (ErrorNew ErrFetch))).
  - destruct (Z.lt_ge_cases 0 delay); eexists _, _; [by apply (fly_timer _ _ _ _ true)|].
    by apply (fly_no_delay _ _ _ _ true).
  - eexists _, _. apply fly_store.
  - eexists _, _. apply fly_cancelled.
  - eexists _, _. apply fly_record.
Qed.

(** A call that looks into the cache in a cooldown has its answer there: it
    neither leads nor joins a flight. *)
Lemma cooldown_answers keyID s t1 :
  t1 ≤ clock s →
  ((∃ ks, state s = store k t1 ks) ∧ clock s - t1 < cacheTTL k ∧ clock s - t1 < refreshCooldown k ∨
   (∃ (st0 : State) err, state s = failure st0 t1 err ∧ Is err errFetchRequired = false) ∧ t1 ≠ 0 ∧
     clock s - t1 < failureCooldown k) →
  is_Some (check_key keyID s).
Proof.
  intros Ht Hs. assert (time_sub (clock s) t1 ≤ clock s - t1) as Hsub
    by (unfold time_sub, max_int, min_int; lia).
  unfold check_key. case_decide as Hid; [by eexists|].
  destruct (cached k (state s) (clock s) keyID) as [key|err] eqn:Hc; [by eexists|].
  destruct Hs as [([ks Hks] & Httl & Hcool)|((st0 & e & Hf & Herr) & Hpos & Hcool)].
  - rewrite Hks in Hc. unfold cached, store, time_before, time_add in Hc. cbn in Hc.
    rewrite (proj2 (Z.ltb_lt _ (t1 + _))) in Hc by lia. destruct (ks !! keyID); [done|].
    rewrite (proj2 (Z.ltb_lt _ (refreshCooldown k))) in Hc by lia. injection Hc as <-. by eexists.
  - rewrite Hf in Hc. pose proof Hc as Hans.
    apply cached_err in Hc as [->|[(-> & _)|(-> & _)]].
    + exfalso. revert Hans. apply failure_answers; [done|lia].
    + by eexists.
    + unfold keysUnavailable. cbn. rewrite Herr. by eexists.
Qed.
End keyset_flight.

(** ** The sequential functions are executions *)

(** A world that keeps the events of a [refresh]. *)
#[export] Instance recording {W} `{!KeySetWorld W} : KeySetWorld (W * list Event) :=
  {| now := λ '(w, es), let '(t, w) := now w in (t, (w, es));
     Cancelled := λ '(w, es), let '(b, w) := Cancelled w in (b, (w, es ++ [Context b]));
     Fires := λ delay '(w, es), let '(b, w) := Fires delay w in (b, (w, es ++ [Timer delay b]));
     Fetch := λ timeout url size '(w, es),
       let '(r, w) := Fetch timeout url size w in (r, (w, es ++ [Fetched timeout url size r]));
     UnmarshalJWKS := UnmarshalJWKS |}.

(** A context that is done stays done ([context.Context]), and a timer of
    [waitFor] that does not fire was stopped by it. *)
Definition is_done {W} `{!KeySetWorld W} (w : W) : Prop := ∃ w', Cancelled w = (true, w').

Record context_laws (W : Type) `{!KeySetWorld W} : Prop := {
  done_stays (w w' : W) : Cancelled w = (true, w') → is_done w';
  stopped_done delay (w w' : W) : Fires delay w = (false, w') → is_done w';
}.

Section sequential.
Context {W : Type} `{!KeySetWorld W} (k : KeySet) (Hcontext : context_laws W).

#[local] Abbreviation protocol := (keyset_protocol k UnmarshalJWKS).
#[local] Abbreviation fly_k := (fly_refresh k UnmarshalJWKS).

(** A flight moves with the events [es], at whatever time and after whatever
    events it begins. *)
Definition flies (es : list Event) (f : Flight) (st : State) (f' : Flight) (st' : State) : Prop :=
  ∀ t es0, ∃ t', rtc (moves protocol) (f, {| state := st; clock := t; events := es0 |})
    (f', {| state := st'; clock := t'; events := es0 ++ es |}).

Lemma flies_refl f st : flies [] f st f st.
Proof. intros t es0. exists t. by rewrite app_nil_r. Qed.

Lemma flies_trans es1 es2 f1 st1 f2 st2 f3 st3 :
  flies es1 f1 st1 f2 st2 → flies es2 f2 st2 f3 st3 → flies (es1 ++ es2) f1 st1 f3 st3.
Proof.
  intros H1 H2 t es0. destruct (H1 t es0) as (t1 & Hs1). destruct (H2 t1 (es0 ++ es1)) as (t2 & Hs2).
  exists t2. rewrite app_assoc. by etrans.
Qed.

(** A step with an event. *)
Lemma flies_event e f st f' :
  landed protocol f = None → (∀ s, fly_k f s f' (emit s e)) → flies [e] f st f' st.
Proof. intros Hl Hf t es0. exists t. apply rtc_once. left. by split; [|apply Hf]. Qed.

(** A step of the mutex, at a time of the world's clock. *)
Lemma flies_at t f st f' st' :
  landed protocol f = None →
  (∀ es, fly_k f {| state := st; clock := t; events := es |} f' {| state := st'; clock := t; events := es |}) →
  flies [] f st f' st'.
Proof.
  intros Hl Hf t0 es0. exists t. rewrite app_nil_r.
  apply (rtc_l _ _ (f, {| state := st; clock := t; events := es0 |})); [by right|].
  apply rtc_once. left. by split; [|apply Hf].
Qed.

(** A recorded run of [m'] is the run of [m] with events [es] of which [P] holds. *)
Definition records {A} (m : M W A) (m' : M (W * list Event) A) (P : A → W → list Event → Prop) : Prop :=
  ∀ w es0, ∃ es, m' (w, es0) = ((m w).1, ((m w).2, es0 ++ es)) ∧ P (m w).1 (m w).2 es.

Lemma load_records st backoff :
  records (load k) (load k) (λ loaded _ es, flies es (Loading backoff) st (attempted backoff loaded) st).
Proof.
  intros w es0. unfold load. run_monad. cbn.
  destruct (Fetch _ _ _ w) as [r w1]. cbn. exists [fetched k r]. split; [done|].
  apply flies_event; [done|]. intros s. apply fly_fetched.
Qed.

Lemma waitFor_records st delay backoff err :
  records (waitFor delay) (waitFor delay) (λ fires w' es,
    flies es (Backing delay backoff err) st (if fires then Loading backoff else Failing true err) st ∧
    (fires = false → is_done w')).
Proof.
  intros w es0. unfold waitFor. destruct (Z.leb_spec delay 0); run_monad; cbn.
  - destruct (Cancelled w) as [b w1] eqn:Hc. cbn. exists [Context b]. split; [done|]. split.
    + assert ((if negb b then Loading backoff else Failing true err)
        = (if b then Failing true err else Loading backoff)) as -> by (by destruct b).
      apply flies_event; [done|]. intros s. by apply fly_no_delay.
    + intros ->%negb_false_iff. by eapply done_stays.
  - destruct (Fires delay w) as [b w1] eqn:Hf. cbn. exists [Timer delay b]. split; [done|]. split.
    + apply flies_event; [done|]. intros s. by apply fly_timer.
    + intros ->. by eapply stopped_done.
Qed.

(** Where a flight is after its attempts: [known] when a wait found the context
    done. *)
Definition ended (known : bool) (loaded : result error (gmap string PublicKey)) : Flight :=
  match loaded with Ok ks => Loaded ks | Err err => Failing known err end.

Definition ends (f : Flight) (st : State) (loaded : result error (gmap string PublicKey)) (w' : W)
    (es : list Event) : Prop :=
  ∃ known, flies es f st (ended known loaded) st ∧ (known = true → is_done w').

Lemma ends_at st f loaded w' :
  f = ended false loaded → ends f st loaded w' [].
Proof. intros ->. exists false. split; [apply flies_refl|done]. Qed.

Lemma ends_after es1 es2 f1 st f2 loaded w' :
  flies es1 f1 st f2 st → ends f2 st loaded w' es2 → ends f1 st loaded w' (es1 ++ es2).
Proof. intros H1 (known & H2 & Hd). exists known. split; [by eapply flies_trans|done]. Qed.

Lemma attempts_record st backoff err :
  isTransientFetchError err = true →
  records (attempts k backoff err) (attempts k backoff err) (ends (attempted backoff (Err err)) st).
Proof.
  revert err. induction backoff as [|delay rest IH]; intros err Ht w es0; cbn [attempted];
    rewrite Ht; cbn [attempts]; run_monad.
  { exists []. rewrite app_nil_r. split; [done|]. by apply ends_at. }
  destruct (waitFor_records st delay rest err w es0) as (es1 & Hw & Hfl & Hdone). rewrite Hw.
  destruct (waitFor delay w) as [[] w1]; cbn in *.
  2: { exists es1. split; [done|]. exists true. split; [done|]. intros _. by apply Hdone. }
  destruct (load_records st rest w1 (es0 ++ es1)) as (es2 & Hl & Hfl2). rewrite Hl.
  destruct (load k w1) as [[ks|err1] w2]; cbn [fst snd] in *.
  { exists (es1 ++ es2). rewrite app_assoc. split; [done|].
    eapply ends_after; [exact Hfl|]. rewrite <-(app_nil_r es2).
    eapply ends_after; [exact Hfl2|]. by apply ends_at. }
  destruct (isTransientFetchError err1) eqn:Ht1; cbn [negb].
  - destruct (IH err1 Ht1 w2 ((es0 ++ es1) ++ es2)) as (es3 & Hrun & Hends). rewrite Hrun.
    exists (es1 ++ es2 ++ es3). rewrite !app_assoc. split; [done|]. rewrite <-app_assoc.
    eapply ends_after; [exact Hfl|]. by eapply ends_after.
  - exists (es1 ++ es2). rewrite app_assoc. split; [done|].
    eapply ends_after; [exact Hfl|]. rewrite <-(app_nil_r es2).
    eapply ends_after; [exact Hfl2|]. apply ends_at. cbn. by rewrite Ht1.
Qed.

Lemma loadWithRetries_records st :
  records (loadWithRetries k) (loadWithRetries k) (ends (Loading (retryBackoff k)) st).
Proof.
  intros w es0. unfold loadWithRetries. run_monad.
  destruct (load_records st (retryBackoff k) w es0) as (es1 & Hl & Hfl). rewrite Hl.
  destruct (load k w) as [[ks|err] w1]; cbn [fst snd] in *.
  { exists es1. split; [done|]. rewrite <-(app_nil_r es1).
    eapply ends_after; [exact Hfl|]. by apply ends_at. }
  destruct (isTransientFetchError err) eqn:Ht; cbn [negb].
  - destruct (attempts_record st (retryBackoff k) err Ht w1 (es0 ++ es1)) as (es2 & Hrun & Hends).
    rewrite Hrun. exists (es1 ++ es2). rewrite app_assoc. split; [done|]. by eapply ends_after.
  - exists es1. split; [done|]. rewrite <-(app_nil_r es1).
    eapply ends_after; [exact Hfl|]. apply ends_at. cbn. by rewrite Ht.
Qed.

Lemma refresh_records s w failed s' w' es0 :
  refresh k (s, w) = (failed, (s', w')) →
  ∃ es, refresh k (s, (w, es0)) = (failed, (s', (w', es0 ++ es))) ∧
    flies es (Loading (retryBackoff k)) s (Landed failed) s'.
Proof.
  unfold refresh. destruct (loadWithRetries_records s w es0) as (es1 & Hl & known & Hfl & Hdone).
  rewrite Hl. destruct (loadWithRetries k w) as [[ks|err] w1]; cbn in *.
  - destruct (now w1) as [t w2]. intros [= <- <- <-]. exists es1. split; [done|].
    rewrite <-(app_nil_r es1). eapply flies_trans; [exact Hfl|].
    apply (flies_at t); [done|]. intros es. apply fly_store.
  - destruct (Cancelled w1) as [cancelled w2] eqn:Hc. destruct cancelled.
    + intros [= <- <- <-]. exists (es1 ++ [Context true]). rewrite app_assoc. split; [done|].
      eapply flies_trans; [exact Hfl|]. apply flies_event; [done|]. intros sh. apply fly_cancelled.
    + assert (known = false) as ->.
      { destruct known; [|done]. destruct (Hdone eq_refl) as [w3 Hd]. by rewrite Hd in Hc. }
      destruct (now w2) as [t w3]. intros [= <- <- <-]. exists (es1 ++ [Context false]).
      rewrite app_assoc. split; [done|]. eapply flies_trans; [exact Hfl|].
      rewrite <-(app_nil_r [Context false]). eapply flies_trans.
      * apply flies_event; [done|]. intros sh. apply fly_running.
      * apply (flies_at t); [done|]. intros es. apply fly_record.
Qed.

Lemma checked_key keyID s w t w1 es :
  now w = (t, w1) → keyID ≠ "" →
  match check_key k keyID {| state := s; clock := t; events := es |} with
  | Some r => KeySet_Key k keyID (s, w) = (r, (s, w1))
  | None =>
      KeySet_Key k keyID (s, w)
        = (let '(failed, (s', w')) := refresh k (s, w1) in
           (finish_key keyID failed {| state := s'; clock := t; events := es |}, (s', w')))
  end.
Proof.
  intros Hn Hid. unfold check_key, KeySet_Key.
  destruct (decide (keyID = "")) as [|_]; [done|]. rewrite Hn. cbn [state clock].
  destruct (cached k s t keyID) as [key|err]; [done|].
  destruct (Is err errFetchRequired); cbn [negb]; [|done].
  unfold fetch, mbind_, mret_. destruct (refresh k (s, w1)) as [[err'|] [s' w']]; reflexivity.
Qed.
End sequential.

Section execution.
Context {W : Type} `{!KeySetWorld W} (k : KeySet) (Hcontext : context_laws W).

#[local] Abbreviation protocol := (keyset_protocol k UnmarshalJWKS).

(** A call alone: before it begins and when it has returned. *)
Definition called (keyID : string) (s : State) (t : Time) : Config :=
  {| shared := {| state := s; clock := t; events := [] |}; flights := ∅; calls := [Called keyID] |}.

Definition answered (keyID : string) (s : State) (t : Time) (es : list Event)
    (r : result error PublicKey) : Config :=
  {| shared := {| state := s; clock := t; events := es |}; flights := ∅; calls := [Returned keyID r] |}.

Lemma called_tick keyID s t t' : step protocol (called keyID s t) (called keyID s t').
Proof. right. by apply step_tick. Qed.

(** KeySet.v's [Key] is the execution of a call that nobody disturbs. *)
Lemma Key_execution keyID s w r s' w' t :
  KeySet_Key k keyID (s, w) = (r, (s', w')) →
  ∃ es t', KeySet_Key k keyID (s, (w, [])) = (r, (s', (w', es))) ∧
    rtc (step protocol) (called keyID s t) (answered keyID s' t' es r).
Proof.
  intros H. destruct (decide (keyID = "")) as [->|Hid].
  { unfold KeySet_Key in H |- *. destruct (decide ("" = "")) as [_|]; [|done].
    injection H as <- <- <-. exists [], t. split; [done|]. by apply undisturbed_hit. }
  destruct (now w) as [t1 w1] eqn:Hn.
  assert (now (w, @nil Event) = (t1, (w1, []))) as Hn' by (cbn; by rewrite Hn).
  pose proof (checked_key k keyID s w t1 w1 [] Hn Hid) as Hk.
  pose proof (checked_key k keyID s (w, []) t1 (w1, []) [] Hn' Hid) as Hk'.
  set (sh := {| state := s; clock := t1; events := [] |}) in *.
  destruct (check_key k keyID sh) as [r'|] eqn:Hc.
  - rewrite H in Hk. injection Hk as -> -> ->. exists [], t1. split; [done|].
    eapply rtc_l; [apply (called_tick keyID s t t1)|]. by apply undisturbed_hit.
  - rewrite H in Hk. destruct (refresh k (s, w1)) as [failed [s1 w2]] eqn:Hr. injection Hk as -> -> ->.
    destruct (refresh_records k Hcontext s w1 failed s1 w2 [] Hr) as (es & Hrec & Hfl).
    rewrite Hrec in Hk'. cbn [app] in Hk'. destruct (Hfl t1 []) as (t' & Hm).
    exists es, t'. split; [exact Hk'|]. eapply rtc_l; [apply (called_tick keyID s t t1)|].
    assert (finish_key keyID failed {| state := s1; clock := t1; events := [] |}
      = finish protocol keyID failed {| state := s1; clock := t'; events := es |}) as ->
      by (by destruct failed).
    by eapply undisturbed_flight.
Qed.
End execution.

(** ** The group does not look again

    Unlike the introspector's, the function [fetch] gives to the group does not
    look into the cache again.  A call that missed before another call's flight
    stored the keys starts a flight of its own when it comes late: the document
    is downloaded twice although the keys are fresh and the refresh cooldown has
    just begun. *)

Section race.
Context (k : KeySet) (UnmarshalJWKS : string → result error (list jwk)).

#[local] Abbreviation protocol := (keyset_protocol k UnmarshalJWKS).

(** A call that missed leads a flight of one attempt and returns. *)
Lemma lead_and_return s cs i keyID encoded ks key :
  parseJWKS UnmarshalJWKS encoded = Ok ks → ks !! keyID = Some key →
  cs !! i = Some (Missed keyID) → (∀ a, Waiting a ∉ cs) →
  rtc (step protocol) {| shared := s; flights := ∅; calls := cs |}
    {| shared := with_state (emit s (fetched k (Ok encoded))) (store k (clock s) ks); flights := ∅;
       calls := <[i := Returned keyID (Ok key)]> cs |}.
Proof.
  intros Hp Hk Hi Hw.
  eapply rtc_l; [left; by apply step_lead|]. cbn [group_key keyset_protocol start].
  eapply rtc_l; [left; eapply step_fly; [apply lookup_insert_eq|done|by apply (fly_fetched _ _ _ _ (Ok encoded))]|].
  cbn [result_bind]. rewrite Hp. cbn [attempted].
  rewrite insert_insert_eq.
  eapply rtc_l; [left; eapply step_fly; [apply lookup_insert_eq|done|apply fly_store]|].
  rewrite insert_insert_eq.
  eapply rtc_l; [left; eapply (step_land protocol _ _ _ tt); [apply lookup_insert_eq|done]|].
  rewrite delete_insert_eq.
  assert (wake protocol tt None <$> <[i := Waiting keyID]> cs = <[i := Woken keyID None]> cs) as ->.
  { rewrite list_fmap_insert. f_equal. rewrite <-(list_fmap_id cs) at 2. apply list_fmap_ext.
    intros j call Hj. destruct call; cbn; try done. by apply list_elem_of_lookup_2, Hw in Hj. }
  assert (Ok key = finish protocol keyID None (with_state (emit s (fetched k (Ok encoded))) (store k (clock s) ks))) as ->.
  { cbn. unfold lookup. cbn. by rewrite Hk. }
  rewrite <-(list_insert_insert_eq cs i (Returned _ _) (Woken keyID None)).
  apply rtc_once. left. apply step_finish. apply list_lookup_insert_eq.
  by eapply lookup_lt_Some.
Qed.

(** Two calls for the same key, at one time: both download the document. *)
Lemma late_call_downloads_again t encoded ks keyID key :
  0 ≤ t → keyID ≠ "" → parseJWKS UnmarshalJWKS encoded = Ok ks → ks !! keyID = Some key →
  reachable protocol {| state := newState; clock := t; events := [] |}
    {| shared := {| state := store k t ks; clock := t;
                    events := [fetched k (Ok encoded); fetched k (Ok encoded)] |}; flights := ∅;
       calls := [Returned keyID (Ok key); Returned keyID (Ok key)] |}.
Proof.
  intros Ht Hid Hp Hk. unfold reachable, initial.
  set (s0 := {| state := newState; clock := t; events := [] |}).
  assert (check protocol keyID s0 = None) as Hc.
  { cbn. unfold check_key. destruct (decide (keyID = "")) as [|_]; [done|].
    unfold cached, time_before. cbn. by destruct (Z.ltb_spec t 0); [lia|]. }
  eapply rtc_l; [right; apply (step_call protocol _ _ [] keyID)|].
  eapply rtc_l; [right; apply (step_call protocol _ _ [Called keyID] keyID)|].
  eapply rtc_l; [left; by apply (step_miss protocol _ _ [Called keyID; Called keyID] 0)|].
  eapply rtc_l; [left; by apply (step_miss protocol _ _ [Missed keyID; Called keyID] 1)|].
  etrans; [apply (lead_and_return s0 [Missed keyID; Missed keyID] 0 keyID encoded ks key)|]; try done;
    [by intros a Ha; repeat apply elem_of_cons in Ha as [?|Ha]; [..|apply elem_of_nil in Ha]|].
  apply (lead_and_return (with_state (emit s0 (fetched k (Ok encoded))) (store k t ks)) [Returned keyID (Ok key); Missed keyID] 1 keyID encoded ks key); try done.
  by intros a Ha; repeat apply elem_of_cons in Ha as [?|Ha]; [..|apply elem_of_nil in Ha].
Qed.
End race.

(** ** Properties *)

(** C14. Only acceptable keys are ever held or handed out, for any number of
    concurrent calls in any interleaving, whatever the IdP serves and whenever
    its requests, the timers and the callers' contexts end: the state stays
    well-formed, and a key that a call returns is usable and was asked for by a
    key ID. *)
Theorem concurrent_keys_acceptable k UnmarshalJWKS s c :
  state_wf (state s) → reachable (keyset_protocol k UnmarshalJWKS) s c →
  state_wf (state (shared c)) ∧
  ∀ keyID key, Returned keyID (Ok key) ∈ calls c → usable key ∧ keyID ≠ "".
Proof.
  intros Hs Hr. destruct (reachable_ok _ _ _ _ _ _ _ (keyset_invariant k UnmarshalJWKS) Hs Hr) as [HI _ Hcs].
  split; [done|]. intros keyID key Hin. rewrite Forall_forall in Hcs. by apply (Hcs _ Hin key).
Qed.

(** C15. Every call returns: from every reachable configuration some way of going
    on lets all calls return, every way of going on does so in a bounded number
    of steps, and none gets stuck before. *)
Theorem concurrent_calls_return k UnmarshalJWKS s c :
  reachable (keyset_protocol k UnmarshalJWKS) s c →
  (∃ c', rtc (progress (keyset_protocol k UnmarshalJWKS)) c c' ∧ finished c') ∧
  ∀ n c', nsteps (progress (keyset_protocol k UnmarshalJWKS)) n c c' →
    (n ≤ weight (keyset_protocol k UnmarshalJWKS) flight_size c)%nat ∧
    (finished c' ∨ ∃ c'', progress (keyset_protocol k UnmarshalJWKS) c' c'').
Proof.
  intros Hr. apply all_return; [apply refresh_size|apply refresh_on|by eapply reachable_waiting].
Qed.

(** C16. The sequential [Key] is an execution of the concurrent model, event by
    event: recorded in its world, a call makes requests, waits for timers and looks
    at its context in some order with some outcomes, and a call of the model that
    nobody disturbs, whose flight has exactly these events, ends with the same
    result and the same state. In the model, [refresh] asks again exactly after a
    transient failure with a backoff left and a wait that the context did not end,
    and then notes the last failure unless the context is done; its events decide
    where it goes ([refresh_determined]). A context that is done stays done. *)
Theorem key_is_execution {W} `{!KeySetWorld W} k keyID s (w : W) r s' w' t :
  context_laws W →
  KeySet_Key k keyID (s, w) = (r, (s', w')) →
  ∃ es t', KeySet_Key k keyID (s, (w, [])) = (r, (s', (w', es))) ∧
    rtc (step (keyset_protocol k UnmarshalJWKS)) (called keyID s t) (answered keyID s' t' es r).
Proof. intros Hc. by apply Key_execution. Qed.

(** Two calls that both download, as [late_call_downloads_again] says. *)
Definition example_raced : Config :=
  {| shared := {| state := KeySet.store example_keyset 7 example_keys; clock := 7;
                  events := replicate 2 (fetched example_keyset (Ok "document")) |};
     flights := ∅; calls := [Returned "k1" (Ok example_key); Returned "k1" (Ok example_key)] |}.

Definition example_decode (encoded : string) : result error (list jwk) := Ok [example_jwk].

Lemma example_race :
  reachable (keyset_protocol example_keyset example_decode)
    {| state := newState; clock := 7; events := [] |} example_raced.
Proof.
  apply (late_call_downloads_again example_keyset example_decode 7 "document"); [done..|].
  apply lookup_singleton_eq.
Qed.

Lemma concurrent_keys_acceptable_witness : usable example_key.
Proof.
  apply (proj2 (concurrent_keys_acceptable example_keyset example_decode
    {| state := newState; clock := 7; events := [] |} example_raced newState_wf example_race) "k1").
  left.
Defined.

(** Two calls that have just arrived. *)
Definition example_waiting : Config :=
  {| shared := {| state := newState; clock := 7; events := [] |}; flights := ∅;
     calls := [Called "k1"; Called "k2"] |}.

Lemma concurrent_calls_return_witness :
  ∃ c', rtc (progress (keyset_protocol example_keyset example_decode)) example_waiting c' ∧ finished c'.
Proof.
  refine (proj1 (concurrent_calls_return example_keyset example_decode
    {| state := newState; clock := 7; events := [] |} example_waiting _)).
  eapply rtc_l; [right; apply (step_call _ _ _ [] "k1")|]. apply rtc_once. right.
  apply (step_call _ _ _ [Called "k1"] "k2").
Defined.

(** After time 1000 the IdP fails: three requests, the two timers between them,
    and a look at the context. *)
Definition example_failed : error := UnexpectedStatus "https://idp/jwks" "503" 503.

Definition example_trace : list Event :=
  [fetched example_keyset (Err example_failed); Timer 1 true;
   fetched example_keyset (Err example_failed); Timer 2 true;
   fetched example_keyset (Err example_failed); Context false].

#[local] Existing Instance example_world.

Lemma example_context : context_laws Z.
Proof. split; done. Qed.

Lemma key_is_execution_witness :
  ∃ t', rtc (step (keyset_protocol example_keyset example_decode)) (called "k1" newState 0)
    (answered "k1" (failure newState 2000 example_failed) t' example_trace
       (Err (keysUnavailable (Some example_failed)))).
Proof.
  destruct (key_is_execution (W := Z) example_keyset "k1" newState 2000
    (Err (keysUnavailable (Some example_failed))) (failure newState 2000 example_failed) 2000 0
    example_context) as (es & t' & Hrec & Hrun).
  - vm_compute. reflexivity.
  - exists t'. assert (es = example_trace) as <-; [|exact Hrun].
    symmetry. apply (f_equal (λ x, x.2.2.2)) in Hrec. etransitivity; [|exact Hrec].
    vm_compute. reflexivity.
Defined.
