(* ===== verification/IntrospectionFlight.v ===== *)
(** * Concurrent calls of the introspector ([internal/externaltoken/introspection.go])

    [Active] as a protocol of SingleFlight.v: [cached] and [store] hold the
    mutex, [group.Do] runs one function per [jti] at a time, which looks into the
    cache again before it asks the IdP, and the exchange with the IdP happens
    between these steps: it fails, or the IdP gives a response that its state then
    allows.  The order in which Go iterates over
    the map is another permutation at every eviction. *)

From S2P Require Import Prelude GoStd GoErrors GoUrl Discovery Introspection SingleFlight.

(** What the mutex guards, the clock, and the state of the IdP. *)
Record Shared {I : Type} : Type := { results : Results; clock : Time; idp : I }.
Arguments Shared : clear implicits.

(** The arguments of a call of [Active]. *)
Record Ask : Type := { token : string; jti : string; expiresAt : Time }.

(** Where the function of the group stands: before its look into the cache,
    asking the IdP, with the answer to remember, or done. *)
Inductive Flight : Type :=
| Rechecking (a : Ask)
| Asking (a : Ask)
| Storing (a : Ask) (answer : bool)
| Landed (outcome : result error bool).

Abbreviation Config I := (config Ask string (result error bool) (result error bool) (Shared I) Flight).

Section introspection_flight.
Context {W : Type} `{!IntrospectionWorld W} (i : Introspector).
(** The IdP: how its state changes, and its responses about a token. *)
Context {I : Type} (idp_step : I → I → Prop) (responds : I → string → Response → Prop).

Definition with_results (s : Shared I) (r : Results) : Shared I :=
  {| results := r; clock := clock s; idp := idp s |}.

(** The steps of the function [Active] gives to the group. *)
Inductive fly_active : Flight → Shared I → Flight → Shared I → Prop :=
| fly_cached a s answer :
    cached (results s) (clock s) (jti a) = Some answer →
    fly_active (Rechecking a) s (Landed (Ok answer)) s
| fly_ask a s :
    cached (results s) (clock s) (jti a) = None → fly_active (Rechecking a) s (Asking a) s
| fly_answered a s response answer :
    responds (idp s) (token a) response → answers (jti a) response answer →
    fly_active (Asking a) s (Storing a answer) s
| fly_failed a s err :
    Is err ErrIntrospectionUnavailable = true → fly_active (Asking a) s (Landed (Err err)) s
| fly_store iterate a s answer :
    (∀ r, iterate r ≡ₚ (map_to_list r).*1) →
    fly_active (Storing a answer) s (Landed (Ok answer))
      (with_results s (store iterate i (results s) (clock s) (jti a) answer (expiresAt a))).

(** [Active] up to [group.Do]. *)
Definition check_active (a : Ask) (s : Shared I) : option (result error bool) :=
  if bool_decide (token a = "") || bool_decide (jti a = "") then
    Some (Err (unavailable "%w: the token and its jti are both required" []))
  else Ok <$> cached (results s) (clock s) (jti a).

(** The clock does not go back; meanwhile the IdP may change its state. *)
Definition tick_clock (s s' : Shared I) : Prop :=
  results s' = results s ∧ clock s ≤ clock s' ∧ (idp s' = idp s ∨ idp_step (idp s) (idp s')).

Definition active_protocol :
    Protocol Ask string (result error bool) (result error bool) (Shared I) Flight :=
  {| group_key := jti;
     check := check_active;
     start := Rechecking;
     fly := fly_active;
     landed := λ f, match f with Landed outcome => Some outcome | _ => None end;
     finish := λ _ outcome _, outcome;
     tick := tick_clock |}.

(** ** The invariant *)

(** The IdP said so, in some response. *)
Definition said (jti : string) (answer : bool) : Prop :=
  ∃ x token response, responds x token response ∧ answers jti response answer.

(** The cache is bounded and holds what the IdP said. *)
Definition shared_ok (s : Shared I) : Prop :=
  Z.of_nat (size (results s)) ≤ maxEntries i ∧
  ∀ jti r, results s !! jti = Some r → said jti (active r).

Definition outcome_ok (jti : string) (outcome : result error bool) : Prop :=
  match outcome with
  | Ok answer => said jti answer
  | Err err => Is err ErrIntrospectionUnavailable = true
  end.

(** A flight is about the token of its group key, and one that asks the IdP has
    no cached answer for it. *)
Definition flight_ok (g : string) (f : Flight) (s : Shared I) : Prop :=
  match f with
  | Rechecking a => jti a = g
  | Asking a => jti a = g ∧ cached (results s) (clock s) g = None
  | Storing a answer => jti a = g ∧ said g answer
  | Landed outcome => outcome_ok g outcome
  end.

Lemma cached_said s jti answer :
  shared_ok s → cached (results s) (clock s) jti = Some answer → said jti answer.
Proof.
  intros [_ Hs]. unfold cached. destruct (results s !! jti) as [r|] eqn:Hr; [|done].
  destruct (time_before _ _); [|done]. intros [= <-]. by eapply Hs.
Qed.

Lemma cached_later r t t' jti : t ≤ t' → cached r t jti = None → cached r t' jti = None.
Proof.
  unfold cached, time_before. destruct (r !! jti) as [e|]; [|done]. intros Ht.
  destruct (Z.ltb_spec t (expiry e)), (Z.ltb_spec t' (expiry e)); cbn; try done. lia.
Qed.

(** A store for one token does not bring back an answer for another. *)
Lemma cached_store iterate r t jti jti' answer e :
  jti' ≠ jti → cached r t jti' = None → cached (store iterate i r t jti answer e) t jti' = None.
Proof.
  intros Hne. unfold cached. destruct (store _ _ _ _ _ _ _ !! jti') as [x|] eqn:Hx; [|done].
  apply store_lookup in Hx as [[? _]|[_ ->]]; done.
Qed.

(** What a call returns; an answer is only given for a token and a [jti]. *)
Definition result_ok (a : Ask) (r : result error bool) : Prop :=
  outcome_ok (jti a) r ∧ ∀ answer, r = Ok answer → token a ≠ "" ∧ jti a ≠ "".

Lemma check_active_spec a s :
  match check_active a s with
  | Some (Ok answer) =>
      token a ≠ "" ∧ jti a ≠ "" ∧ cached (results s) (clock s) (jti a) = Some answer
  | Some (Err err) => Is err ErrIntrospectionUnavailable = true
  | None => token a ≠ "" ∧ jti a ≠ "" ∧ cached (results s) (clock s) (jti a) = None
  end.
Proof.
  unfold check_active. repeat case_bool_decide; try done. cbn. by destruct (cached _ _ _).
Qed.

Lemma introspection_invariant :
  0 ≤ maxEntries i → invariant active_protocol shared_ok flight_ok outcome_ok result_ok.
Proof.
  intros Hmax. split; cbn.
  - intros s s' (Hr & Ht & _) Hs. split; [by unfold shared_ok; rewrite Hr|].
    intros g []; cbn; try done. rewrite Hr. intros [? ?]. split; [done|]. by eapply cached_later.
  - done.
  - intros g f s f' s' Hfly Hs Hf.
    destruct Hfly as [a s answer Hc|a s Hc|a s response answer Hresp Ha|a s err He|iterate a s answer Hit];
      cbn in *; split_and!; auto.
    + subst g. by eapply cached_said.
    + by subst g.
    + apply Hf.
    + destruct Hf as [<- _]. by eexists _, _, _.
    + split; cbn; [by apply store_size|].
      intros g' r [[-> ->]|[_ Hr]]%store_lookup; cbn; [|by eapply Hs]. by destruct Hf as [-> ?].
    + apply Hf.
    + intros g' [] Hne; cbn; try done. intros [? ?]. split; [done|]. apply cached_store; [|done].
      destruct Hf as [-> _]. done.
  - intros g [] s o; cbn; try done. by intros [= <-].
  - intros a s r Hc Hs. pose proof (check_active_spec a s) as Hsp. rewrite Hc in Hsp. split.
    + destruct r; [|done]. destruct Hsp as (_ & _ & Hsp). by eapply cached_said.
    + intros answer ->. tauto.
  - intros a o s [s0 Hc] Ho _. split; [done|]. intros _ _.
    pose proof (check_active_spec a s0) as Hsp. cbn in Hc. rewrite Hc in Hsp. tauto.
Qed.

(** ** Flights land *)

Definition flight_size (f : Flight) : nat :=
  match f with
  | Rechecking _ => 3
  | Asking _ => 2
  | Storing _ _ => 1
  | Landed _ => 0
  end.

Lemma active_size f s f' s' : fly_active f s f' s' → (flight_size f' < flight_size f)%nat.
Proof. destruct 1; cbn; lia. Qed.

Lemma active_on f s : landed active_protocol f = None → ∃ f' s', fly_active f s f' s'.
Proof.
  destruct f as [a|a|a answer|]; cbn; [intros _..|done].
  - destruct (cached (results s) (clock s) (jti a)) as [answer|] eqn:Hc; eexists _, _;
      [by apply fly_cached|by apply fly_ask].
  - eexists _, _. by apply (fly_failed _ _ (unavailable "%w: %s" [])).
  - eexists _, _. by apply (fly_store (λ r, (map_to_list r).*1)).
Qed.
End introspection_flight.

(** ** The sequential functions are executions *)

Lemma introspect_err {W} `{!IntrospectionWorld W} i token jti (w : W) err w' :
  introspect i token jti w = (Err err, w') → Is err ErrIntrospectionUnavailable = true.
Proof.
  unfold introspect. run_monad. destruct (NewRequest _); [by intros [= <- _]|].
  destruct (Do (introspectionRequest i token) w) as [[response|e] w1]; [|by intros [= <- _]].
  unfold readDocument. destruct (negb _); [by intros [= <- _]|].
  destruct (Body response _) as [encoded|]; [|by intros [= <- _]].
  destruct (_ <? _); [by intros [= <- _]|]. destruct (Unmarshal encoded) as [d|]; [|by intros [= <- _]].
  destruct (document_Active d); [|by intros [= <- _]]. cbn [result_bind].
  destruct (_ && _ && _); [by intros [= <- _]|done].
Qed.

Section sequential.
Context {W : Type} `{!IntrospectionWorld W} (i : Introspector) (iterate : Results → list string).
Context (iterate_keys : ∀ r, iterate r ≡ₚ (map_to_list r).*1).

(** The clock of the world does not go back. *)
Context (since : W → Time).
Context (now_forward : ∀ w t w', now w = (t, w') → since w ≤ t ≤ since w').
Context (Do_forward : ∀ token w r w', Do (introspectionRequest i token) w = (r, w') → since w ≤ since w').

(** The IdP is the world, in whatever state; it responds as [Do] says. *)
Definition world_responds (w : W) (token : string) (response : Response) : Prop :=
  ∃ w', Do (introspectionRequest i token) w = (Ok response, w').

#[local] Abbreviation world_protocol := (active_protocol i (λ _ _ : W, True) world_responds).
#[local] Abbreviation moves_i := (rtc (moves world_protocol)).

Lemma move_fly f s f' s' :
  landed world_protocol f = None → fly_active i world_responds f s f' s' → moves_i (f, s) (f', s').
Proof. intros. apply rtc_once. by left. Qed.

Lemma move_tick f r t t' x x' :
  t ≤ t' →
  moves_i (f, {| results := r; clock := t; idp := x |}) (f, {| results := r; clock := t'; idp := x' |}).
Proof. intros. apply rtc_once. right. split; [done|]. cbn. split_and!; [done..|by right]. Qed.

Lemma introspect_forward token jti w r w' : introspect i token jti w = (r, w') → since w ≤ since w'.
Proof.
  unfold introspect. run_monad. destruct (NewRequest _); [by intros [= _ <-]|].
  destruct (Do (introspectionRequest i token) w) as [? w1] eqn:Hd. intros [= _ <-]. by eapply Do_forward.
Qed.

Lemma flight_moves token jti expiresAt r w res r' w' t x :
  flight iterate i token jti expiresAt (r, w) = (res, (r', w')) → t ≤ since w →
  ∃ t' x', moves_i (Rechecking {| token := token; jti := jti; expiresAt := expiresAt |},
                    {| results := r; clock := t; idp := x |})
                   (Landed res, {| results := r'; clock := t'; idp := x' |}).
Proof.
  set (a := {| token := token; jti := jti; expiresAt := expiresAt |}).
  unfold flight. intros H Ht. destruct (now w) as [t1 w1] eqn:Hn. apply now_forward in Hn.
  destruct (cached r t1 jti) as [answer|] eqn:Hc.
  { injection H as <- <- _. exists t1, x. etrans; [apply (move_tick _ _ t t1 x x); lia|].
    apply move_fly; [done|]. by apply fly_cached. }
  assert (moves_i (Rechecking a, {| results := r; clock := t; idp := x |})
                  (Asking a, {| results := r; clock := t1; idp := w1 |})) as Hask.
  { etrans; [apply (move_tick _ _ t t1 x w1); lia|]. apply move_fly; [done|]. by apply fly_ask. }
  destruct (introspect i token jti w1) as [[answer|err] w2] eqn:Hi.
  - pose proof (introspect_forward _ _ _ _ _ Hi). destruct (now w2) as [t2 w3] eqn:Hn2.
    apply now_forward in Hn2. apply introspect_ok in Hi as (_ & response & HD & Ha).
    injection H as <- <- _. exists t2, w1. etrans; [exact Hask|].
    etrans; [apply move_fly; [done|apply (fly_answered i _ a _ response answer); [by eexists|done]]|].
    etrans; [apply (move_tick _ _ t1 t2 w1 w1); lia|].
    apply move_fly; [done|]. by apply (fly_store i _ iterate a).
  - injection H as <- <- _. exists t1, w1. etrans; [exact Hask|]. apply move_fly; [done|].
    apply fly_failed. by eapply introspect_err.
Qed.

(** A call that nobody disturbs: Introspection.v's [Active] is an execution. *)
Lemma Active_execution a r w res r' w' t x :
  Active iterate i (token a) (jti a) (expiresAt a) (r, w) = (res, (r', w')) → t ≤ since w →
  ∃ t' x', rtc (step world_protocol)
    {| shared := {| results := r; clock := t; idp := x |}; flights := ∅; calls := [Called a] |}
    {| shared := {| results := r'; clock := t'; idp := x' |}; flights := ∅; calls := [Returned a res] |}.
Proof.
  intros H Ht. unfold Active in H.
  destruct (bool_decide _ || bool_decide _) eqn:He.
  { injection H as <- <- _. exists t, x. apply undisturbed_hit. cbn. unfold check_active. by rewrite He. }
  destruct (now w) as [t1 w1] eqn:Hn. apply now_forward in Hn.
  assert (rtc (step world_protocol)
    {| shared := {| results := r; clock := t; idp := x |}; flights := ∅; calls := [Called a] |}
    {| shared := {| results := r; clock := t1; idp := x |}; flights := ∅; calls := [Called a] |}) as Htick.
  { apply rtc_once. right. apply step_tick. split_and!; [done|cbn; lia|by left]. }
  assert (check_active a {| results := r; clock := t1; idp := x |} = Ok <$> cached r t1 (jti a)) as Hck
    by (unfold check_active; by rewrite He).
  destruct (cached r t1 (jti a)) as [answer|] eqn:Hc.
  - injection H as <- <- _. exists t1, x. etrans; [exact Htick|]. by apply undisturbed_hit.
  - apply flight_moves with (t := t1) (x := x) in H as (t' & x' & Hm); [|lia]. exists t', x'.
    etrans; [exact Htick|]. destruct a. eapply undisturbed_flight in Hm; [exact Hm|exact Hck|done].
Qed.
End sequential.

Lemma reachable_introspection {W} `{!IntrospectionWorld W} i {I} (idp_step : I → I → Prop) responds t x c :
  let p := active_protocol i idp_step responds in
  0 ≤ maxEntries i → reachable p {| results := ∅; clock := t; idp := x |} c →
  config_ok p (shared_ok i responds) (flight_ok responds) (outcome_ok responds) (result_ok responds) c.
Proof.
  intros p Hmax. apply reachable_ok; [by apply introspection_invariant|].
  split; cbn; [by rewrite map_size_empty|done].
Qed.

(** ** Properties *)

(** C17. The IdP is not asked twice for what is known: with any number of
    concurrent calls in any interleaving, a flight that asks the IdP about a token
    finds no unexpired answer for it in the cache as long as it asks, and no other
    flight asks about the same token. *)
Theorem asks_once {W} `{!IntrospectionWorld W} i {I} (idp_step : I → I → Prop) responds t x c g a :
  0 ≤ maxEntries i →
  reachable (active_protocol i idp_step responds) {| results := ∅; clock := t; idp := x |} c →
  flights c !! g = Some (Asking a) →
  cached (results (shared c)) (clock (shared c)) (jti a) = None ∧
  ∀ g' a', flights c !! g' = Some (Asking a') → jti a' = jti a → g' = g.
Proof.
  intros Hmax Hr Hf. apply reachable_introspection in Hr as [_ HJ _]; [|done].
  destruct (HJ _ _ Hf) as [-> ?]. split; [done|]. intros g' a' Hf'. by destruct (HJ _ _ Hf') as [-> _].
Qed.

(** C18. Concurrent calls of [Active] fail closed: in every reachable configuration
    the cache is within its bound and holds only what the IdP said in a response
    about the token; a call answers only so, and only for a token with a [jti];
    every other call fails with [ErrIntrospectionUnavailable]. *)
Theorem concurrent_answers_said {W} `{!IntrospectionWorld W} i {I} (idp_step : I → I → Prop) responds t x c :
  0 ≤ maxEntries i →
  reachable (active_protocol i idp_step responds) {| results := ∅; clock := t; idp := x |} c →
  Z.of_nat (size (results (shared c))) ≤ maxEntries i ∧
  (∀ jti r, results (shared c) !! jti = Some r → said responds jti (active r)) ∧
  ∀ a r, Returned a r ∈ calls c →
    match r with
    | Ok answer => token a ≠ "" ∧ jti a ≠ "" ∧ said responds (jti a) answer
    | Err err => Is err ErrIntrospectionUnavailable = true
    end.
Proof.
  intros Hmax Hr. apply reachable_introspection in Hr as [[Hs Hsaid] _ Hcs]; [|done].
  split; [done|]. split; [done|]. intros a r Hin. rewrite Forall_forall in Hcs.
  destruct (Hcs _ Hin) as [Ho Hok]. destruct r as [answer|]; [|done].
  destruct (Hok _ eq_refl). by split_and!.
Qed.

(** Every call of [Active] returns, as those of the key set do. *)
Theorem concurrent_asks_return {W} `{!IntrospectionWorld W} i {I} (idp_step : I → I → Prop) responds s c :
  let p := active_protocol i idp_step responds in
  reachable p s c →
  (∃ c', rtc (progress p) c c' ∧ finished c') ∧
  ∀ n c', nsteps (progress p) n c c' →
    (n ≤ weight p flight_size c)%nat ∧ (finished c' ∨ ∃ c'', progress p c' c'').
Proof.
  intros p Hr. apply all_return; [apply active_size|apply active_on|by eapply reachable_waiting].
Qed.

(** A world whose state is its clock, in which the IdP answers every token with
    the document it has for it. *)
#[local] Instance example_world : IntrospectionWorld Z :=
  {| now := λ t, (t, t); NewRequest := λ _ _, None;
     Do := λ request t,
       (Ok {| StatusCode := 200; Status := "200 OK";
              Body := λ _, Ok (Values_Get (default ∅ (ParseQuery (request_Body request))) "token") |}, t);
     Unmarshal := λ encoded,
       Ok {| document_Active := Some (bool_decide (encoded = "good")); document_JTI := "" |} |}.

Definition example_ask : Ask := {| token := "good"; jti := "t1"; expiresAt := 0 |}.

Definition example_protocol :=
  active_protocol example_introspector (λ _ _ : Z, True) (world_responds example_introspector).

Definition example_empty : Shared Z := {| results := ∅; clock := 7; idp := 7 |}.

(** The first call asks; the second one waits for it. *)
Definition example_asking : Config Z :=
  {| shared := example_empty; flights := {["t1" := Asking example_ask]};
     calls := [Waiting example_ask; Waiting example_ask] |}.

Lemma example_asking_reachable :
  reachable example_protocol example_empty example_asking.
Proof.
  eapply rtc_l; [right; apply (step_call _ _ _ [] example_ask)|].
  eapply rtc_l; [right; apply (step_call _ _ _ [Called example_ask] example_ask)|].
  eapply rtc_l; [left; by apply (step_miss _ _ _ [Called example_ask; Called example_ask] 0)|].
  eapply rtc_l; [left; by apply (step_miss _ _ _ [Missed example_ask; Called example_ask] 1)|].
  eapply rtc_l; [left; by apply (step_lead _ _ _ [Missed example_ask; Missed example_ask] 0 example_ask)|].
  eapply rtc_l.
  { left. eapply (step_join _ _ _ [Waiting example_ask; Missed example_ask] 1 example_ask); [done|].
    apply lookup_insert_eq. }
  cbn [group_key example_protocol active_protocol start]. apply rtc_once. left. rewrite insert_empty.
  unfold example_asking. assert ({["t1" := Asking example_ask]}
    = <["t1" := Asking example_ask]> ({["t1" := Rechecking example_ask]} : gmap string Flight)) as ->
    by (by rewrite insert_singleton_eq).
  eapply (step_fly example_protocol); [apply lookup_singleton_eq|done|by apply fly_ask].
Qed.

Lemma asks_once_witness : cached (results example_empty) 7 "t1" = None.
Proof.
  apply (proj1 (asks_once example_introspector (λ _ _, True) (world_responds example_introspector) 7 7 example_asking "t1" example_ask ltac:(done)
    example_asking_reachable ltac:(apply lookup_singleton_eq))).
Defined.

(** A call alone, as Introspection.v runs it. *)
Definition example_done (t : Time) (x : Z) : Config Z :=
  {| shared := {| results := {["t1" := {| active := true; expiry := 67 |}]}; clock := t; idp := x |};
     flights := ∅; calls := [Returned example_ask (Ok true)] |}.

Lemma example_answered :
  ∃ t x, reachable example_protocol example_empty (example_done t x).
Proof.
  destruct (Active_execution example_introspector example_iterate ltac:(done) (λ t, t)
    ltac:(intros w t w' [= <- <-]; lia) ltac:(intros token w r w' [= _ <-]; lia)
    example_ask ∅ 7 (Ok true) {["t1" := {| active := true; expiry := 67 |}]} 7 7 7) as (t' & x' & Hs);
    [vm_compute; reflexivity|lia|].
  exists t', x'. eapply rtc_l; [right; apply (step_call _ _ _ [] example_ask)|exact Hs].
Qed.

Lemma concurrent_answers_said_witness :
  ∃ c : Config Z, Returned example_ask (Ok true) ∈ calls c ∧ said (world_responds example_introspector) "t1" true.
Proof.
  destruct example_answered as (t & x & Ht).
  pose proof (proj2 (proj2 (concurrent_answers_said example_introspector (λ _ _, True)
    (world_responds example_introspector) 7 7 (example_done t x) ltac:(done) Ht)) example_ask (Ok true) (list_elem_of_here _ _)) as (_ & _ & Hsaid).
  exists (example_done t x). split; [apply list_elem_of_here|exact Hsaid].
Defined.

Lemma concurrent_asks_return_witness :
  ∃ c', rtc (progress example_protocol) example_asking c' ∧ finished c'.
Proof.
  apply (proj1 (concurrent_asks_return example_introspector (λ _ _, True) (world_responds example_introspector) example_empty example_asking
    example_asking_reachable)).
Defined.
