(* ===== verification/Idp.v ===== *)
(** * The identity provider ([internal/idp/idp.go])

    A [Provider] resolves the metadata of its issuer in [Run] and then verifies
    and introspects external tokens for the authenticator.  The world of its
    operations holds the key set's state, the introspection cache and the
    environment [W] of the clients. *)

From S2P Require Import Prelude GoStd GoErrors.
From S2P Require Discovery Verifier KeySet Introspection Authn.

Definition DefaultRetryDelay : Duration := 5 * Second.

Definition ErrInvalidConfig : string := "idp: the provider config is invalid".
Definition ErrNotResolved : string := "idp: the IdP metadata is not resolved yet".

(** ** Data *)

Record Config : Type := {
  config_Issuer : string;
  config_Audience : string;
  config_Algorithms : list string;
  config_IntrospectionClientID : string;
  config_IntrospectionClientSecret : string;
  config_LegacyEventsWriteScope : bool;
  config_RetryDelay : Duration;
}.

Record Provider : Type := {
  issuer : string;
  audience : string;
  algorithms : list string;
  introspectionClientID : string;
  introspectionClientSecret : string;
  legacyEventsWriteScope : bool;
  retryDelay : Duration;
}.

Definition New (config : Config) : result error Provider :=
  let invalid format := Err (Errorf format [ErrorNew ErrInvalidConfig] []) in
  if decide (config_Issuer config = "") then invalid "%w: issuer is required"
  else if decide (config_Audience config = "") then invalid "%w: audience is required"
  else
    let retryDelay :=
      if config_RetryDelay config <=? 0 then DefaultRetryDelay else config_RetryDelay config in
    if negb (Bool.eqb (bool_decide (config_IntrospectionClientID config = ""))
               (bool_decide (config_IntrospectionClientSecret config = ""))) then
      invalid "%w: the introspection client ID and its secret are set together or not at all"
    else
      Ok {| issuer := config_Issuer config; audience := config_Audience config;
            algorithms := config_Algorithms config;
            introspectionClientID := config_IntrospectionClientID config;
            introspectionClientSecret := config_IntrospectionClientSecret config;
            legacyEventsWriteScope := config_LegacyEventsWriteScope config;
            retryDelay := retryDelay |}.

(** ** The transitional scope rewrite *)

Definition legacyScope : string := "events.write".

Definition legacyReplacements : list string := ["events.manage"; "events.operate"; "events.report"].

(** [if !slices.Contains(expanded, replacement) { append }] *)
Definition add_once (expanded : list string) (replacement : string) : list string :=
  if negb (Contains expanded replacement) then expanded ++ [replacement] else expanded.

Definition replacements (field : string) : list string :=
  if decide (field = legacyScope) then legacyReplacements else [field].

Definition expandLegacyEventsWriteScope (scope : string) : string :=
  let fields := Fields scope in
  if negb (Contains fields legacyScope) then scope
  else
    let expanded :=
      foldl (λ expanded field, foldl add_once expanded (replacements field)) [] fields in
    Join expanded " ".

(** ** The world and the resolution *)

Record World {W : Type} : Type := {
  key_state : KeySet.State;
  cache : Introspection.Results;
  outer : W;
}.
Arguments World : clear implicits.

(** The operations of the key set and of the introspector, in the world. *)
Definition lift_keys {W A} (m : M (KeySet.State * W) A) : M (World W) A := λ w,
  let '(a, (s, o)) := m (key_state w, outer w) in
  (a, {| key_state := s; cache := cache w; outer := o |}).

Definition lift_cache {W A} (m : M (Introspection.Results * W) A) : M (World W) A := λ w,
  let '(a, (c, o)) := m (cache w, outer w) in
  (a, {| key_state := key_state w; cache := c; outer := o |}).

Definition lift_outer {W A} (m : M W A) : M (World W) A := λ w,
  let '(a, o) := m (outer w) in
  (a, {| key_state := key_state w; cache := cache w; outer := o |}).

(** [resolution] *)
Record resolution {W : Type} : Type := {
  metadata : Discovery.Metadata;
  keySet : KeySet.KeySet;
  verifier : Verifier.Verifier (World W);
  introspector : option Introspection.Introspector;
}.
Arguments resolution : clear implicits.

Section provider.
Context {W : Type}.
Context `{!Discovery.HTTPClient W} `{!KeySet.KeySetWorld W} `{!Introspection.IntrospectionWorld W}
  `{!Verifier.JWT (World W)}.
Context (url_Parse : string → result error URL) (EscapedPath : URL → string).
Context (ValidateBinding : Verifier.BindingValidator).
Context (iterate : Introspection.Results → list string).

Definition keyResolver (k : KeySet.KeySet) : Verifier.KeyResolver (World W) :=
  {| Verifier.Key := λ keyID, lift_keys (KeySet.KeySet_Key k keyID) |}.

Definition newIntrospector (p : Provider) (md : Discovery.Metadata) :
    result error (option Introspection.Introspector) :=
  if decide (introspectionClientID p = "") then Ok None
  else if decide (Discovery.IntrospectionEndpoint md = "") then
    Err (Errorf "%w: the IdP metadata has no introspection_endpoint" [ErrorNew ErrInvalidConfig] [])
  else
    match Introspection.NewIntrospector url_Parse
            {| Introspection.config_Endpoint := Discovery.IntrospectionEndpoint md;
               Introspection.config_ClientID := introspectionClientID p;
               Introspection.config_ClientSecret := introspectionClientSecret p;
               Introspection.config_CacheTTL := 0; Introspection.config_Timeout := 0;
               Introspection.config_MaxEntries := 0 |} with
    | Err err => Err (Errorf "build the token introspector: %w" [err] [])
    | Ok i => Ok (Some i)
    end.

Definition resolve (p : Provider) (md : Discovery.Metadata) : result error (resolution W) :=
  match KeySet.NewKeySet url_Parse
          {| KeySet.config_URL := Discovery.JWKSURI md; KeySet.config_CacheTTL := 0;
             KeySet.config_RefreshCooldown := 0; KeySet.config_FailureCooldown := 0;
             KeySet.config_FetchTimeout := 0; KeySet.config_RetryBackoff := None;
             KeySet.config_MaxDocumentSize := 0 |} with
  | Err err => Err (Errorf "build the IdP key set: %w" [err] [])
  | Ok keys =>
      match Verifier.NewVerifier
              {| Verifier.config_Issuer := issuer p; Verifier.config_Audience := audience p;
                 Verifier.config_Algorithms := algorithms p;
                 Verifier.config_Keys := Some (keyResolver keys);
                 Verifier.config_Leeway := 0 |} with
      | Err err => Err (Errorf "build the external token verifier: %w" [err] [])
      | Ok v =>
          let? i := newIntrospector p md in
          Ok {| metadata := md; keySet := keys; verifier := v; introspector := i |}
      end
  end.

Definition fatal (err : error) : bool :=
  Is err Discovery.ErrInvalidMetadata || Is err Discovery.ErrInvalidIssuer
  || Is err Discovery.ErrDocumentTooLarge.

(** The loop of [Run], at most [fuel] turns; the outer [None] means that more
    are needed.  A cancelled context ends it without a resolution. *)
Fixpoint Run (fuel : nat) (p : Provider) :
    M W (option (result error (option (resolution W)))) :=
  match fuel with
  | O => mret_ None
  | S fuel =>
      let! discovered := Discovery.Discover url_Parse EscapedPath (issuer p) in
      match discovered with
      | Ok md => mret_ (Some (let? r := resolve p md in Ok (Some r)))
      | Err err =>
          if fatal err then
            mret_ (Some (Err (Errorf "discover the IdP metadata: %w" [err] [])))
          else
            let! fires := KeySet.Fires (retryDelay p) in
            if fires then Run fuel p else mret_ (Some (Ok None))
      end
  end.

(** ** The operations of a provider; [resolved] is the pointer [Run] stores. *)

Definition Verify (p : Provider) (resolved : option (resolution W)) (token : string) :
    M (World W) (result error Authn.ExternalToken) :=
  match resolved with
  | None =>
      mret_ (Err (Errorf "%w: %w"
                    [ErrorNew ErrNotResolved; ErrorNew Authn.ErrVerifierUnavailable] []))
  | Some current =>
      let! claims := Verifier.Verify ValidateBinding (verifier current) token in
      mret_ (match claims with
             | Err err =>
                 if Is err Verifier.ErrKeysUnavailable then
                   Err (Errorf "%w: %w" [ErrorNew Authn.ErrVerifierUnavailable; err] [])
                 else Err (Errorf "verify the external token: %w" [err] [])
             | Ok claims =>
                 let scope := Verifier.Scope claims in
                 let scope :=
                   if legacyEventsWriteScope p then expandLegacyEventsWriteScope scope
                   else scope in
                 Ok {| Authn.Subject := Verifier.Subject claims;
                       Authn.ClientID := Verifier.ClientID claims;
                       Authn.TokenUse := Verifier.TokenUse claims; Authn.Scope := scope;
                       Authn.JTI := Verifier.JTI claims;
                       Authn.TenantID := Verifier.TenantID claims;
                       Authn.EventID := Verifier.EventID claims;
                       Authn.ExpiresAt := Verifier.ExpiresAt claims;
                       Authn.SenderConstrained :=
                         negb (bool_decide (Verifier.Confirmation claims = "")) |}
             end)
  end.

Definition Active (resolved : option (resolution W)) (token : string)
    (verified : Authn.ExternalToken) : M (World W) (result error bool) :=
  match resolved with
  | None =>
      mret_ (Err (Errorf "%w: %w"
                    [ErrorNew Introspection.ErrIntrospectionUnavailable; ErrorNew ErrNotResolved] []))
  | Some current =>
      match introspector current with
      | None =>
          mret_ (Err (Errorf "%w: introspection is not configured"
                        [ErrorNew Introspection.ErrIntrospectionUnavailable] []))
      | Some i =>
          let! active :=
            lift_cache (Introspection.Active iterate i token (Authn.JTI verified)
                          (Authn.ExpiresAt verified)) in
          mret_ (match active with
                 | Err err => Err (Errorf "ask the IdP whether the token is active: %w" [err] [])
                 | Ok active => Ok active
                 end)
      end
  end.

Definition Ready (resolved : option (resolution W)) : option error :=
  match resolved with None => Some (ErrorNew ErrNotResolved) | Some _ => None end.

Definition Metadata (resolved : option (resolution W)) : Discovery.Metadata * bool :=
  match resolved with
  | None =>
      ({| Discovery.Issuer := ""; Discovery.JWKSURI := "";
          Discovery.IntrospectionEndpoint := "" |}, false)
  | Some current => (metadata current, true)
  end.

(** The provider as the interfaces of the authenticator. *)
Definition as_verifier (p : Provider) (resolved : option (resolution W)) :
    Authn.ExternalVerifier (World W) :=
  {| Authn.Verify := Verify p resolved |}.

Definition as_introspector (resolved : option (resolution W)) : Authn.Introspector (World W) :=
  {| Authn.Active := Active resolved |}.
End provider.

(** ** The rewrite of scopes *)

Lemma elem_of_add_once l r x : x ∈ add_once l r ↔ x ∈ l ∨ x = r.
Proof.
  unfold add_once. destruct (Contains l r) eqn:H; simpl.
  - apply Contains_true in H. split; [by left|]. by intros [?| ->].
  - rewrite elem_of_app, list_elem_of_singleton. done.
Qed.

Lemma NoDup_add_once l r : NoDup l → NoDup (add_once l r).
Proof.
  intros Hl. unfold add_once. destruct (Contains l r) eqn:H; simpl; [done|].
  apply Contains_false in H. apply NoDup_app. split_and!; [done| |apply NoDup_singleton].
  intros x Hx ->%list_elem_of_singleton. done.
Qed.

Lemma elem_of_foldl_add_once rs l x : x ∈ foldl add_once l rs ↔ x ∈ l ∨ x ∈ rs.
Proof.
  revert l. induction rs as [|r rs IH]; intros l; cbn [foldl].
  - split; [by left|]. by intros [?|?%not_elem_of_nil].
  - rewrite IH, elem_of_add_once, elem_of_cons. tauto.
Qed.

Lemma NoDup_foldl_add_once rs l : NoDup l → NoDup (foldl add_once l rs).
Proof. revert l. induction rs as [|r rs IH]; intros l Hl; [done|]. by apply IH, NoDup_add_once. Qed.

Definition expand_fields (fields : list string) : list string :=
  foldl (λ expanded field, foldl add_once expanded (replacements field)) [] fields.

Lemma elem_of_expand_fields fields x :
  x ∈ expand_fields fields ↔ ∃ field, field ∈ fields ∧ x ∈ replacements field.
Proof.
  unfold expand_fields.
  enough (∀ acc, x ∈ foldl (λ expanded field, foldl add_once expanded (replacements field)) acc fields
    ↔ x ∈ acc ∨ ∃ field, field ∈ fields ∧ x ∈ replacements field) as H.
  { rewrite H. split; [by intros [?%not_elem_of_nil|?]|by right]. }
  induction fields as [|f fs IH]; intros acc; cbn [foldl].
  - split; [by left|]. by intros [?|(? & []%not_elem_of_nil & _)].
  - rewrite IH, elem_of_foldl_add_once. setoid_rewrite elem_of_cons. naive_solver.
Qed.

Lemma NoDup_expand_fields fields : NoDup (expand_fields fields).
Proof.
  unfold expand_fields. enough (∀ acc, NoDup acc →
    NoDup (foldl (λ expanded field, foldl add_once expanded (replacements field)) acc fields)) as H.
  { apply H. constructor. }
  induction fields as [|f fs IH]; intros acc Hacc; [done|]. by apply IH, NoDup_foldl_add_once.
Qed.

Lemma elem_of_replacements field x :
  x ∈ replacements field ↔
  (field = legacyScope ∧ x ∈ legacyReplacements) ∨ (field ≠ legacyScope ∧ x = field).
Proof.
  unfold replacements. destruct (decide (field = legacyScope)).
  - tauto.
  - rewrite list_elem_of_singleton. tauto.
Qed.

Lemma expand_fields_words fields : Forall is_word fields → Forall is_word (expand_fields fields).
Proof.
  rewrite !Forall_forall. intros H x (f & Hf & Hx)%elem_of_expand_fields.
  apply elem_of_replacements in Hx as [[_ Hx]|[_ ->]]; [|auto].
  unfold legacyReplacements in Hx.
  repeat apply elem_of_cons in Hx as [->|Hx]; [by split..|by apply not_elem_of_nil in Hx].
Qed.

(** A scope with the legacy word in it is rewritten: its other words are kept,
    the legacy word gives way to the three new ones, and every word occurs
    once.  A scope without it is not touched. *)
Lemma expand_spec scope :
  (legacyScope ∈ Fields scope →
     NoDup (Fields (expandLegacyEventsWriteScope scope)) ∧
     ∀ x, x ∈ Fields (expandLegacyEventsWriteScope scope) ↔
       x ∈ legacyReplacements ∨ (x ∈ Fields scope ∧ x ≠ legacyScope)) ∧
  (legacyScope ∉ Fields scope → expandLegacyEventsWriteScope scope = scope).
Proof.
  unfold expandLegacyEventsWriteScope. destruct (Contains (Fields scope) legacyScope) eqn:Hc;
    [apply Contains_true in Hc|apply Contains_false in Hc]; simpl; (split; [|done]); [|done].
  intros _. fold (expand_fields (Fields scope)).
  rewrite Fields_Join by (apply expand_fields_words, Fields_words).
  split; [apply NoDup_expand_fields|]. intros x. rewrite elem_of_expand_fields.
  setoid_rewrite elem_of_replacements. split.
  - intros (f & Hf & [[-> Hx]|[Hne ->]]); [by left|by right].
  - intros [Hx|[Hx Hne]]; [exists legacyScope|exists x]; tauto.
Qed.

Lemma expand_no_legacy scope : legacyScope ∉ Fields (expandLegacyEventsWriteScope scope).
Proof.
  destruct (expand_spec scope) as [H1 H2].
  destruct (decide (legacyScope ∈ Fields scope)) as [Hin|Hnin].
  - destruct (H1 Hin) as [_ H]. rewrite H. intros [Hx|[_ ?]]; [|done].
    unfold legacyReplacements, legacyScope in Hx.
    repeat apply elem_of_cons in Hx as [[=]|Hx]. by apply not_elem_of_nil in Hx.
  - by rewrite (H2 Hnin).
Qed.

Lemma expand_idempotent scope :
  expandLegacyEventsWriteScope (expandLegacyEventsWriteScope scope)
    = expandLegacyEventsWriteScope scope.
Proof. apply expand_spec, expand_no_legacy. Qed.

(** ** Resolution *)

Section provider_correct.
Context {W : Type}.
Context `{!Discovery.HTTPClient W} `{!KeySet.KeySetWorld W} `{!Introspection.IntrospectionWorld W}
  `{!Verifier.JWT (World W)}.
Context (url_Parse : string → result error URL) (EscapedPath : URL → string).
Context (ValidateBinding : Verifier.BindingValidator).
Context (iterate : Introspection.Results → list string).
Implicit Types (p : Provider).

Local Abbreviation run := (Run url_Parse EscapedPath).
Local Abbreviation discover p := (Discovery.Discover url_Parse EscapedPath (issuer p)).

(** What a resolution is made of. *)
Record resolves p (md : Discovery.Metadata) (r : resolution W) : Prop := {
  resolves_metadata : metadata r = md;
  resolves_url : KeySet.url (keySet r) = Discovery.JWKSURI md;
  resolves_keys : Verifier.keys (verifier r) = keyResolver (keySet r);
  resolves_audience : Verifier.audience (verifier r) = audience p;
  resolves_issuer : Verifier.ParserIssuer (Verifier.parser (verifier r)) = issuer p;
  resolves_methods : Forall (.∈ Verifier.supportedAlgorithms)
    (Verifier.ValidMethods (Verifier.parser (verifier r)));
  resolves_algorithms : Verifier.ValidMethods (Verifier.parser (verifier r))
    = if decide (algorithms p = []) then [Verifier.RS256] else algorithms p;
  resolves_introspector : introspectionClientID p = "" ↔ introspector r = None;
}.

Lemma resolve_ok p md r : resolve url_Parse p md = Ok r → resolves p md r.
Proof.
  unfold resolve. destruct (KeySet.NewKeySet _ _) as [k|] eqn:Hk; [|done].
  destruct (Verifier.NewVerifier _) as [v|] eqn:Hv; [|done].
  apply Verifier.NewVerifier_ok in Hv as (_ & _ & Hkeys & Ha & Hi & Halg & Hm & _). simpl in *.
  assert (KeySet.url k = Discovery.JWKSURI md) as Hu.
  { unfold KeySet.NewKeySet in Hk. simpl in Hk. destruct (url_Parse _) as [u|]; [|done].
    destruct (negb (Discovery.isHTTPURL u)); [done|]. simpl in Hk. by injection Hk as <-. }
  destruct (newIntrospector url_Parse p md) as [i|] eqn:Hn; [|done].
  cbn [result_bind]. intros [= <-]. split; simpl; try done; [by injection Hkeys as <-|].
  clear Halg. unfold newIntrospector in Hn. destruct (decide (introspectionClientID p = "")) as [E|E].
  - injection Hn as <-. tauto.
  - destruct (decide _); [done|]. destruct (Introspection.NewIntrospector _ _); [|done].
    injection Hn as <-. by split; [intros ?|intros [=]].
Qed.

(** [Run] ends with a resolution of metadata discovered for the configured
    issuer, or with an error that no retry can mend, or because the context
    was cancelled. *)
Lemma Run_ok fuel p w r w' :
  run fuel p w = (Some (Ok (Some r)), w') →
  ∃ md w1, discover p w1 = (Ok md, w') ∧ Discovery.Issuer md = issuer p ∧ resolves p md r.
Proof.
  revert w. induction fuel as [|fuel IH]; intros w; cbn [Run]; [done|].
  run_monad. destruct (discover p w) as [[md|err] w1] eqn:Hd.
  - intros [= Hres <-]. exists md, w. split; [done|].
    apply Discovery.Discover_ok in Hd as (? & ? & ? & ? & _ & _ & _ & _ & ->). simpl.
    split; [done|]. destruct (resolve url_Parse p _) as [r'|] eqn:Hr; [|done].
    injection Hres as <-. by apply resolve_ok.
  - destruct (fatal err); [done|]. destruct (KeySet.Fires _ w1) as [[] w2]; [apply IH|done].
Qed.

Lemma Run_fatal fuel p w err w' :
  run fuel p w = (Some (Err err), w') →
  ∃ w1, (∃ e, discover p w1 = (Err e, w') ∧ fatal e = true ∧
           err = Errorf "discover the IdP metadata: %w" [e] []) ∨
        (∃ md, discover p w1 = (Ok md, w') ∧ resolve (W := W) url_Parse p md = Err err).
Proof.
  revert w. induction fuel as [|fuel IH]; intros w; cbn [Run]; [done|].
  run_monad. destruct (discover p w) as [[md|e] w1] eqn:Hd.
  - destruct (resolve url_Parse p md) as [r|e] eqn:Hr; [done|]. intros [= <- <-].
    exists w. right. by exists md.
  - destruct (fatal e) eqn:Hf.
    + intros [= <- <-]. exists w. left. by exists e.
    + destruct (KeySet.Fires _ w1) as [[] w2]; [apply IH|done].
Qed.

(** [n] turns of the loop fail without being fatal and wait. *)
Inductive retried p : nat → W → W → Prop :=
| retried_none w : retried p 0 w w
| retried_more n w err w1 w2 w3 :
    discover p w = (Err err, w1) → fatal err = false →
    KeySet.Fires (retryDelay p) w1 = (true, w2) → retried p n w2 w3 → retried p (S n) w w3.

(** As soon as the IdP answers, [Run] ends: the turns before it are the only
    ones it needs. *)
Lemma Run_terminates n p w w1 md w2 :
  retried p n w w1 → discover p w1 = (Ok md, w2) →
  run (S n) p w = (Some (let? r := resolve url_Parse p md in Ok (Some r)), w2).
Proof.
  intros Hret Hd. induction Hret as [w|n w err wa wb wc Hdisc Hf Hfires _ IH].
  - cbn [Run]. run_monad. by rewrite Hd.
  - change (run (S (S n)) p w) with
      ((let! discovered := discover p in
        match discovered with
        | Ok md => mret_ (Some (let? r := resolve url_Parse p md in Ok (Some r)))
        | Err err =>
            if fatal err then
              mret_ (Some (Err (Errorf "discover the IdP metadata: %w" [err] [])))
            else
              let! fires := KeySet.Fires (retryDelay p) in
              if fires then run (S n) p else mret_ (Some (Ok None))
        end) w).
    unfold mbind_, mret_ in *. rewrite Hdisc, Hf, Hfires. by apply IH.
Qed.

(** ** Verification *)

(** The authenticator's view of verified claims. *)
Definition external_token p (c : Verifier.Claims) : Authn.ExternalToken :=
  {| Authn.Subject := Verifier.Subject c; Authn.ClientID := Verifier.ClientID c;
     Authn.TokenUse := Verifier.TokenUse c;
     Authn.Scope := if legacyEventsWriteScope p
                    then expandLegacyEventsWriteScope (Verifier.Scope c) else Verifier.Scope c;
     Authn.JTI := Verifier.JTI c; Authn.TenantID := Verifier.TenantID c;
     Authn.EventID := Verifier.EventID c; Authn.ExpiresAt := Verifier.ExpiresAt c;
     Authn.SenderConstrained := negb (bool_decide (Verifier.Confirmation c = "")) |}.

Lemma provider_Verify_ok p resolved token w t w' :
  Verify ValidateBinding p resolved token w = (Ok t, w') ↔
  ∃ r c, resolved = Some r ∧ Verifier.Verify ValidateBinding (verifier r) token w = (Ok c, w') ∧
    t = external_token p c.
Proof.
  unfold Verify, mbind_, mret_. destruct resolved as [r|].
  2: { split; [done|by intros (? & ? & ? & _)]. }
  destruct (Verifier.Verify _ _ _ w) as [[c|err] w1] eqn:Hv.
  - split; [intros [= <- <-]; by exists r, c|]. intros (r' & c' & [= <-] & Hv' & ->). rewrite Hv in Hv'. by injection Hv' as <- <-.
  - split; [by destruct (Is err Verifier.ErrKeysUnavailable)|].
    intros (r' & c' & [= <-] & Hv' & _). congruence.
Qed.

(** Before the metadata is resolved every token is refused as unavailable,
    not as invalid. *)
Lemma Verify_unresolved p token w :
  ∃ err, Verify ValidateBinding p (None : option (resolution W)) token w = (Err err, w) ∧
    Authn.verificationRejection err =
      {| Authn.rejection_Code := CodeUnavailable;
         Authn.rejection_Reason := Authn.ReasonVerifierUnavailable |}.
Proof. by eexists. Qed.

(** An accepted token is signed by an acceptable key of the key set, the one under
    the key ID of its header, by the algorithm of its header, whatever the IdP
    served so far. *)
Lemma provider_Verify_key p md r token w t w' :
  resolves p md r → KeySet.state_wf (key_state w) →
  Verify ValidateBinding p (Some r) token w = (Ok t, w') →
  KeySet.state_wf (key_state w') ∧
  ∃ head keyID key,
    Verifier.header token = Some head ∧ Verifier.token_kid head = Verifier.JString keyID ∧
    KeySet.keys (key_state w') !! keyID = Some key ∧ KeySet.usable key ∧
    Verifier.signs (Verifier.token_Alg head) key token ∧
    Verifier.matches key (Verifier.token_Alg head) ∧
    Verifier.token_Alg head ∈ Verifier.supportedAlgorithms.
Proof.
  intros Hr Hwf (? & c & [= <-] & Hv & _)%provider_Verify_ok.
  apply Verifier.Verify_key in Hv as (head & keyID & key & Hh & Hkid & Hne & Hk & Hs & Hm & Ha).
  rewrite (resolves_keys _ _ _ Hr) in Hk. simpl in Hk. unfold lift_keys in Hk.
  destruct (KeySet.KeySet_Key (keySet r) keyID (key_state w, outer w)) as [k [s o]] eqn:Hkey.
  injection Hk as -> <-. simpl. pose proof (KeySet.Key_wf _ _ _ _ _ _ _ Hwf Hkey) as Hwf'.
  split; [done|]. apply KeySet.Key_ok in Hkey as (Hin & _ & _).
  exists head, keyID, key. split_and!; try done.
  - by eapply Hwf'.
  - pose proof (resolves_methods _ _ _ Hr) as Hall. rewrite Forall_forall in Hall. auto.
Qed.

(** Introspection through the provider is introspection of the token's own
    [jti]. *)
Lemma provider_Active_ok resolved token verified w answer w' :
  Active iterate resolved token verified w = (Ok answer, w') ↔
  ∃ r i, resolved = Some r ∧ introspector r = Some i ∧
    key_state w' = key_state w ∧
    Introspection.Active iterate i token (Authn.JTI verified) (Authn.ExpiresAt verified)
      (cache w, outer w) = (Ok answer, (cache w', outer w')).
Proof.
  unfold Active, lift_cache, mbind_, mret_. destruct resolved as [r|].
  2: { split; [done|by intros (? & ? & ? & _)]. }
  destruct (introspector r) as [i|] eqn:Hi.
  2: { split; [done|]. intros (? & ? & [= <-] & ? & _). congruence. }
  destruct (Introspection.Active _ _ _ _ _ _) as [[b|err] [c o]] eqn:Ha.
  - split.
    + intros [= <- <-]. by exists r, i.
    + intros (r' & i' & [= <-] & Hi' & Hks & Ha'). rewrite Hi in Hi'. injection Hi' as <-.
      rewrite Ha in Ha'. injection Ha' as -> -> ->. rewrite <-Hks. by destruct w'.
  - split; [done|]. intros (r' & i' & [= <-] & Hi' & _ & Ha').
    rewrite Hi in Hi'. injection Hi' as <-. congruence.
Qed.
End provider_correct.

Section run_more.
Context {W : Type}.
Context `{!Discovery.HTTPClient W} `{!KeySet.KeySetWorld W} `{!Introspection.IntrospectionWorld W}
  `{!Verifier.JWT (World W)}.
Context (url_Parse : string → result error URL) (EscapedPath : URL → string).

Lemma Run_cancelled fuel p w w' :
  Run (W := W) url_Parse EscapedPath fuel p w = (Some (Ok None), w') →
  ∃ w1, KeySet.Fires (retryDelay p) w1 = (false, w').
Proof.
  revert w. induction fuel as [|fuel IH]; intros w; cbn [Run]; [done|].
  run_monad. destruct (Discovery.Discover _ _ _ w) as [[md|e] w1].
  - by destruct (resolve url_Parse p md).
  - destruct (fatal e); [done|].
    destruct (KeySet.Fires (retryDelay p) w1) as [[] w2] eqn:Hf; [apply IH|].
    intros [= <-]. by exists w1.
Qed.

(** More fuel does not change a result. *)
Lemma Run_fuel fuel extra p w res w' :
  Run (W := W) url_Parse EscapedPath fuel p w = (Some res, w') →
  Run (W := W) url_Parse EscapedPath (fuel + extra) p w = (Some res, w').
Proof.
  revert w. induction fuel as [|fuel IH]; intros w; [done|]. cbn [Run Nat.add].
  run_monad. destruct (Discovery.Discover _ _ _ w) as [[md|e] w1]; [done|].
  destruct (fatal e); [done|]. destruct (KeySet.Fires (retryDelay p) w1) as [[] w2]; [apply IH|done].
Qed.
End run_more.

(** ** Properties *)

(** How [Run] ends: with a resolution of metadata that was discovered for
    the configured issuer (the key set reads its [jwks_uri], the verifier is
    bound to the configured issuer and audience, and there is an introspector
    exactly when a client is configured), with an error that no retry can mend,
    or without a resolution because the context was cancelled while waiting. *)
Theorem run_outcomes {W} `{!Discovery.HTTPClient W} `{!KeySet.KeySetWorld W}
    `{!Introspection.IntrospectionWorld W} `{!Verifier.JWT (World W)} url_Parse EscapedPath fuel p w
    res w' :
  Run (W := W) url_Parse EscapedPath fuel p w = (Some res, w') →
  match res with
  | Ok (Some r) => ∃ md w1,
      Discovery.Discover url_Parse EscapedPath (issuer p) w1 = (Ok md, w') ∧
      Discovery.Issuer md = issuer p ∧ resolves p md r
  | Ok None => ∃ w1, KeySet.Fires (retryDelay p) w1 = (false, w')
  | Err err => ∃ w1,
      (∃ e, Discovery.Discover url_Parse EscapedPath (issuer p) w1 = (Err e, w') ∧
         fatal e = true ∧ err = Errorf "discover the IdP metadata: %w" [e] []) ∨
      (∃ md, Discovery.Discover url_Parse EscapedPath (issuer p) w1 = (Ok md, w') ∧
         resolve (W := W) url_Parse p md = Err err)
  end.
Proof.
  intros Hr. destruct res as [[r|]|err]; [by eapply Run_ok|by eapply Run_cancelled|by eapply Run_fatal].
Qed.

(** [Run] terminates once the IdP answers: after [n] turns that fail without
    being fatal, a discovery that succeeds is the last one, and [n + 1] turns
    are enough; more fuel changes nothing. *)
Theorem run_terminates {W} `{!Discovery.HTTPClient W} `{!KeySet.KeySetWorld W}
    `{!Introspection.IntrospectionWorld W} `{!Verifier.JWT (World W)} url_Parse EscapedPath n extra p
    (w w1 : W) md w2 :
  retried url_Parse EscapedPath p n w w1 →
  Discovery.Discover url_Parse EscapedPath (issuer p) w1 = (Ok md, w2) →
  Run (W := W) url_Parse EscapedPath (S n + extra) p w
    = (Some (let? r := resolve url_Parse p md in Ok (Some r)), w2).
Proof. intros Hret Hd. apply Run_fuel. by eapply Run_terminates. Qed.

(** C10. A token the provider accepts is signed, by the algorithm its own header
    names, by an acceptable key that the key set holds after the call under the key
    ID of this header; the key's type is the one the algorithm needs, whatever the
    IdP has served so far; and the key set stays acceptable. *)
Theorem accepted_tokens_are_signed {W} `{!Discovery.HTTPClient W} `{!KeySet.KeySetWorld W}
    `{!Introspection.IntrospectionWorld W} `{!Verifier.JWT (World W)} url_Parse ValidateBinding p md r
    token (w : World W) t w' :
  resolve url_Parse p md = Ok r → KeySet.state_wf (key_state w) →
  Verify ValidateBinding p (Some r) token w = (Ok t, w') →
  KeySet.state_wf (key_state w') ∧
  ∃ head keyID key,
    Verifier.header token = Some head ∧ Verifier.token_kid head = Verifier.JString keyID ∧
    KeySet.keys (key_state w') !! keyID = Some key ∧ KeySet.usable key ∧
    Verifier.signs (Verifier.token_Alg head) key token ∧
    Verifier.matches key (Verifier.token_Alg head) ∧
    Verifier.token_Alg head ∈ Verifier.supportedAlgorithms.
Proof. intros Hr%resolve_ok. by eapply provider_Verify_key. Qed.

(** The transitional scope rewrite does what it announces: a scope with
    [events.write] keeps its other words, loses that word and gains the three
    new ones, with every word once; a scope without it is not touched; and
    rewriting twice is rewriting once. *)
Theorem legacy_scope_rewrite scope :
  (legacyScope ∈ Fields scope →
     NoDup (Fields (expandLegacyEventsWriteScope scope)) ∧
     ∀ x, x ∈ Fields (expandLegacyEventsWriteScope scope) ↔
       x ∈ legacyReplacements ∨ (x ∈ Fields scope ∧ x ≠ legacyScope)) ∧
  (legacyScope ∉ Fields scope → expandLegacyEventsWriteScope scope = scope) ∧
  expandLegacyEventsWriteScope (expandLegacyEventsWriteScope scope)
    = expandLegacyEventsWriteScope scope.
Proof. destruct (expand_spec scope). split_and!; [done..|apply expand_idempotent]. Qed.

(** A world whose state is its clock: the IdP refuses connections until time 3
    and serves its documents from then on, with the key of [KeySet]. *)

Definition example_url_parse (raw : string) : result error URL :=
  Ok {| URL_Scheme := "https"; URL_Opaque := ""; URL_User := None; URL_Host := "idp"; URL_Path := "";
        URL_ForceQuery := false; URL_RawQuery := ""; URL_Fragment := "" |}.

#[local] Instance example_http : Discovery.HTTPClient Z :=
  {| Discovery.NewGetRequest := λ _, None;
     Discovery.Get := λ url t,
       (if t <? 3 then Err (ErrorNew "connection refused")
        else Ok {| Discovery.StatusCode := 200; Discovery.Status := "200 OK";
                   Discovery.Body := λ _, Ok "document" |}, t);
     Discovery.UnmarshalMetadata := λ _,
       Ok {| Discovery.document_Issuer := "https://idp";
             Discovery.document_JWKSURI := "https://idp/jwks";
             Discovery.document_IntrospectionEndpoint := "" |} |}.

#[local] Instance example_keys : KeySet.KeySetWorld Z :=
  {| KeySet.now := λ t, (t, t); KeySet.Cancelled := λ t, (false, t);
     KeySet.Fires := λ _ t, (true, t + 1); KeySet.Fetch := λ _ _ _ t, (Ok "document", t);
     KeySet.UnmarshalJWKS := λ _, Ok [KeySet.example_jwk] |}.

#[local] Instance example_introspection : Introspection.IntrospectionWorld Z :=
  {| Introspection.now := λ t, (t, t); Introspection.NewRequest := λ _ _, None;
     Introspection.Do := λ _ t, (Err (ErrorNew "connection refused"), t);
     Introspection.Unmarshal := λ _, Err (ErrorNew "no document") |}.

#[local] Existing Instance Verifier.PublicKey_eq_dec.

Definition example_header : Verifier.Token :=
  {| Verifier.token_kid := Verifier.JString "k1"; Verifier.token_Alg := Verifier.ES256 |}.

Definition example_parse (options : Verifier.ParserOptions) (raw : string)
    (keyfunc : Verifier.Keyfunc (World Z)) : M (World Z) (result error Verifier.MapClaims) := λ w,
  match keyfunc example_header w with
  | (Err err, w) => (Err err, w)
  | (Ok key, w) =>
      (if decide (key = KeySet.example_key ∧ Verifier.ES256 ∈ Verifier.ValidMethods options
                  ∧ raw = "token")
       then Ok (Verifier.example_claims (Verifier.ParserIssuer options))
       else Err (ErrorNew "bad signature"), w)
  end.

#[local] Program Instance example_jwt : Verifier.JWT (World Z) :=
  {| Verifier.ParseWithClaims := example_parse;
     Verifier.GetAudience := λ _, Ok ["gateway"];
     Verifier.GetExpirationTime := λ _, Ok (Some 100);
     Verifier.header := λ raw, if decide (raw = "token") then Some example_header else None;
     Verifier.signs := λ alg key raw,
       alg = Verifier.ES256 ∧ key = KeySet.example_key ∧ raw = "token" |}.
Next Obligation.
  intros options raw keyfunc w claims w'. unfold example_parse.
  destruct (keyfunc _ w) as [[key|err] w1] eqn:Hk; [|done].
  destruct (decide _) as [(-> & Hin & ->)|]; [|done]. intros [= <- <-].
  exists example_header, KeySet.example_key. done.
Qed.

Definition example_provider : Provider :=
  {| issuer := "https://idp"; audience := "gateway"; algorithms := ["ES256"];
     introspectionClientID := ""; introspectionClientSecret := ""; legacyEventsWriteScope := false;
     retryDelay := 1 |}.

Definition example_metadata : Discovery.Metadata :=
  {| Discovery.Issuer := "https://idp"; Discovery.JWKSURI := "https://idp/jwks";
     Discovery.IntrospectionEndpoint := "" |}.

Definition example_resolution : resolution Z :=
  let keys := {| KeySet.url := "https://idp/jwks"; KeySet.cacheTTL := KeySet.DefaultCacheTTL;
                 KeySet.refreshCooldown := KeySet.DefaultRefreshCooldown;
                 KeySet.failureCooldown := KeySet.DefaultFailureCooldown;
                 KeySet.fetchTimeout := KeySet.DefaultFetchTimeout;
                 KeySet.retryBackoff := KeySet.DefaultRetryBackoff;
                 KeySet.maxDocumentSize := Discovery.DefaultMaxDocumentSize |} in
  {| metadata := example_metadata; keySet := keys;
     verifier :=
       {| Verifier.parser :=
            {| Verifier.ValidMethods := ["ES256"]; Verifier.ParserIssuer := "https://idp";
               Verifier.ParserLeeway := Verifier.DefaultLeeway |};
          Verifier.keys := keyResolver keys; Verifier.audience := "gateway" |};
     introspector := None |}.

Lemma example_resolved : resolve example_url_parse example_provider example_metadata
  = Ok example_resolution.
Proof. reflexivity. Qed.

Lemma run_outcomes_witness :
  ∃ md w1, Discovery.Discover example_url_parse (λ _, "") "https://idp" w1 = (Ok md, 3) ∧
    Discovery.Issuer md = "https://idp" ∧ resolves example_provider md example_resolution.
Proof.
  apply (run_outcomes (W := Z) example_url_parse (λ _, "") 4 example_provider 0
           (Ok (Some example_resolution)) 3). reflexivity.
Defined.

Lemma example_retried : retried example_url_parse (λ _, "") example_provider 3 0 3.
Proof.
  do 3 (eapply retried_more; [vm_compute; reflexivity..|]). apply retried_none.
Qed.

Lemma run_terminates_witness :
  Run example_url_parse (λ _, "") 6 example_provider 0 = (Some (Ok (Some example_resolution)), 3).
Proof.
  apply (run_terminates (W := Z) example_url_parse (λ _, "") 3 2 example_provider 0 3
           example_metadata 3 example_retried). reflexivity.
Defined.

Definition example_world (t : Z) : World Z :=
  {| key_state := KeySet.newState; cache := ∅; outer := t |}.

Definition example_after : World Z :=
  {| key_state := KeySet.store (keySet example_resolution) 7 KeySet.example_keys; cache := ∅;
     outer := 7 |}.

Lemma example_accepted :
  Verify (λ _ _ _, None) example_provider (Some example_resolution) "token" (example_world 7)
    = (Ok (external_token example_provider Verifier.example_accepted), example_after).
Proof. vm_compute. reflexivity. Qed.

Lemma accepted_tokens_are_signed_witness :
  KeySet.state_wf (key_state example_after) ∧
  ∃ head keyID key,
    Verifier.header "token" = Some head ∧ Verifier.token_kid head = Verifier.JString keyID ∧
    KeySet.keys (key_state example_after) !! keyID = Some key ∧ KeySet.usable key ∧
    Verifier.signs (Verifier.token_Alg head) key "token" ∧
    Verifier.matches key (Verifier.token_Alg head) ∧
    Verifier.token_Alg head ∈ Verifier.supportedAlgorithms.
Proof.
  apply (accepted_tokens_are_signed (W := Z) example_url_parse (λ _ _ _, None) example_provider
           example_metadata example_resolution "token" (example_world 7)
           (external_token example_provider Verifier.example_accepted) example_after
           example_resolved KeySet.newState_wf example_accepted).
Defined.
