(* ===== verification/Logging.v ===== *)
(** * Structured logging ([internal/logging/handler.go])

    The service logs one JSON object per record in the shape Cloud Logging reads:
    the handler renames slog's own keys, attaches the trace of the request at the
    top level and moves attributes out of the way of the keys it writes.  slog's
    JSON handler is modelled as far as it decides which keys an entry has: the
    built-in attributes, the groups and attributes a handler was derived with,
    and the attributes of the record, as a tree of members. *)

From S2P Require Import Prelude GoStd GoErrors.

(** ** slog *)

Definition Level : Type := Z.
Definition LevelDebug : Level := -4.
Definition LevelInfo : Level := 0.
Definition LevelWarn : Level := 4.
Definition LevelError : Level := 8.

(** [slog.TimeKey], [slog.LevelKey], [slog.MessageKey], [slog.SourceKey] *)
Definition TimeKey : string := "time".
Definition LevelKey : string := "level".
Definition MessageKey : string := "msg".
Definition SourceKey : string := "source".

(** [slog.Value], after [Resolve]; [AnyValue None] is the nil value. *)
#[warnings="-register-all"]
Inductive Value : Type :=
| StringValue (s : string)
| BoolValue (b : bool)
| TimeValue (t : Time)
| LevelValue (l : Level)
| SourceValue (file : string) (line : Z) (function : string)
| AnyValue (text : option string)
| GroupValue (attrs : list (string * Value)).

Definition Attr : Type := string * Value.

(** A member of an entry: a leaf, or an object. *)
#[warnings="-register-all"]
Inductive JSON : Type :=
| JLeaf (v : Value)
| JObject (members : list (string * JSON)).

Definition member : Type := string * JSON.

(** [slog.Record]; a zero time is not written. *)
Record LogRecord : Type := {
  rec_Time : Time;
  rec_Level : Level;
  rec_Message : string;
  rec_Source : string * Z * string;
  rec_Attrs : list Attr;
}.

(** ** The keys *)

Definition LevelCritical : Level := LevelError + 4.

Definition cloudLoggingPrefix : string := "logging.googleapis.com/".
Definition keyTime : string := "time".
Definition keySeverity : string := "severity".
Definition keyMessage : string := "message".
Definition keySourceLocation : string := cloudLoggingPrefix +:+ "sourceLocation".
Definition keyTrace : string := cloudLoggingPrefix +:+ "trace".
Definition keySpanID : string := cloudLoggingPrefix +:+ "spanId".
Definition keyTraceSampled : string := cloudLoggingPrefix +:+ "trace_sampled".
Definition reservedPrefix : string := "attr_".

Definition reservedKeys : list string :=
  [keyTime; keySeverity; keyMessage; LevelKey; MessageKey; SourceKey].

Definition ParseLevel (s : string) : result error Level :=
  let name := ToLower s in
  if decide (name = "debug") then Ok LevelDebug
  else if decide (name = "info") then Ok LevelInfo
  else if decide (name = "warn" ∨ name = "warning") then Ok LevelWarn
  else if decide (name = "error") then Ok LevelError
  else if decide (name = "critical") then Ok LevelCritical
  else Err (Errorf "unknown log level %q" [] [s]).

Definition severityOf (level : Level) : string :=
  if level <? LevelInfo then "DEBUG"
  else if level <? LevelWarn then "INFO"
  else if level <? LevelError then "WARNING"
  else if level <? LevelCritical then "ERROR"
  else "CRITICAL".

Definition isReserved (key : string) : bool :=
  if HasPrefix key cloudLoggingPrefix then true else bool_decide (key ∈ reservedKeys).

Definition renameReserved (a : Attr) : Attr :=
  if negb (isReserved a.1) then a else (reservedPrefix +:+ a.1, a.2).

Definition renameReservedAttrs (attrs : list Attr) : list Attr :=
  if negb (existsb (λ a, isReserved a.1) attrs) then attrs else renameReserved <$> attrs.

(** The attributes are visited up to the first that collides. *)
Fixpoint collides (attrs : list Attr) : bool :=
  match attrs with
  | [] => false
  | a :: rest => if isReserved a.1 then true else collides rest
  end.

Definition renameReservedRecord (r : LogRecord) : LogRecord :=
  if negb (collides (rec_Attrs r)) then r
  else
    {| rec_Time := rec_Time r; rec_Level := rec_Level r; rec_Message := rec_Message r;
       rec_Source := rec_Source r; rec_Attrs := renameReserved <$> rec_Attrs r |}.

(** ** The JSON handler *)

(** One [WithAttrs] or [WithGroup] call; a group has a name. *)
Record handlerOp : Type := { op_attrs : list Attr; op_group : string }.

Record Options : Type := { opt_Level : Level; opt_AddSource : bool; opt_ProjectID : string }.

(** [slog.JSONHandler]: its options and the calls it was derived with. *)
Record JSONHandler : Type := { json_Options : Options; json_Ops : list handlerOp }.

Definition json_WithAttrs (h : JSONHandler) (attrs : list Attr) : JSONHandler :=
  if decide (length attrs = 0%nat) then h
  else {| json_Options := json_Options h;
          json_Ops := json_Ops h ++ [{| op_attrs := attrs; op_group := "" |}] |}.

Definition json_WithGroup (h : JSONHandler) (name : string) : JSONHandler :=
  if decide (name = "") then h
  else {| json_Options := json_Options h;
          json_Ops := json_Ops h ++ [{| op_attrs := []; op_group := name |}] |}.

Section render.
(** [Time.UTC().Format(time.RFC3339Nano)], and [Value.String()] of a value that
    is not a string. *)
Context (Format : Time → string) (formatValue : Value → string).

Definition value_String (v : Value) : string :=
  match v with StringValue s => s | _ => formatValue v end.

Definition replaceAttr (groups : list string) (a : Attr) : Attr :=
  match groups with
  | _ :: _ => a
  | [] =>
      if decide (a.1 = TimeKey) then
        match a.2 with TimeValue t => (keyTime, StringValue (Format t)) | _ => a end
      else if decide (a.1 = LevelKey) then
        match a.2 with LevelValue l => (keySeverity, StringValue (severityOf l)) | _ => a end
      else if decide (a.1 = MessageKey) then (keyMessage, StringValue (value_String a.2))
      else if decide (a.1 = SourceKey) then
        match a.2 with
        | SourceValue file line function =>
            (keySourceLocation,
             GroupValue [("file", StringValue file); ("line", StringValue (Itoa line));
                         ("function", StringValue function)])
        | _ => a
        end
      else a
  end.

(** A group is written when it has members, under its key or, without one, in
    the place it stands. *)
Definition grouped_ (key : string) (members : list member) : list member :=
  match members with
  | [] => []
  | _ => if decide (key = "") then members else [(key, JObject members)]
  end.

(** A member that is not replaced any more. *)
Fixpoint plainAttr (key : string) (v : Value) : list member :=
  match v with
  | GroupValue attrs =>
      grouped_ key ((fix go l := match l with
                     | [] => []
                     | (k, v) :: l => plainAttr k v ++ go l
                     end) attrs)
  | AnyValue None => if decide (key = "") then [] else [(key, JLeaf v)]
  | _ => [(key, JLeaf v)]
  end.

(** [appendAttr]: [replaceAttr] sees every attribute that is not a group, with
    the names of the groups around it.  What it makes a group of is under a key
    and has text members, which it then leaves alone. *)
Fixpoint appendAttr (groups : list string) (key : string) (v : Value) : list member :=
  match v with
  | GroupValue attrs =>
      let inner := if decide (key = "") then groups else groups ++ [key] in
      grouped_ key ((fix go l := match l with
                     | [] => []
                     | (k, v) :: l => appendAttr inner k v ++ go l
                     end) attrs)
  | _ => let '(k, v) := replaceAttr groups (key, v) in plainAttr k v
  end.

Definition appendAttrs (groups : list string) (attrs : list Attr) : list member :=
  concat ((λ a, appendAttr groups a.1 a.2) <$> attrs).

(** The attributes of the handler and of the record, in the groups that were
    open when they were added. *)
Fixpoint appendNonBuiltIns (groups : list string) (ops : list handlerOp) (attrs : list Attr) :
    list member :=
  match ops with
  | [] => appendAttrs groups attrs
  | op :: rest =>
      if decide (op_group op ≠ "") then
        grouped_ (op_group op) (appendNonBuiltIns (groups ++ [op_group op]) rest attrs)
      else appendAttrs groups (op_attrs op) ++ appendNonBuiltIns groups rest attrs
  end.

Definition builtIns (o : Options) (r : LogRecord) : list member :=
  let '(file, line, function) := rec_Source r in
  (if time_is_zero (rec_Time r) then [] else appendAttr [] TimeKey (TimeValue (rec_Time r)))
  ++ appendAttr [] LevelKey (LevelValue (rec_Level r))
  ++ (if opt_AddSource o then appendAttr [] SourceKey (SourceValue file line function) else [])
  ++ appendAttr [] MessageKey (StringValue (rec_Message r)).

Definition json_Handle (h : JSONHandler) (r : LogRecord) : list member :=
  builtIns (json_Options h) r ++ appendNonBuiltIns [] (json_Ops h) (rec_Attrs r).
End render.

Definition json_Enabled (h : JSONHandler) (level : Level) : bool := opt_Level (json_Options h) <=? level.

(** ** The trace handler *)

Record traceHandler : Type := {
  base : JSONHandler;
  inner : JSONHandler;
  ops : list handlerOp;
  projectID : string;
  grouped : bool;
}.

(** [handlerOp.apply] *)
Definition apply (o : handlerOp) (h : JSONHandler) : JSONHandler :=
  if decide (op_group o ≠ "") then json_WithGroup h (op_group o) else json_WithAttrs h (op_attrs o).

Definition apply_all (ops : list handlerOp) (h : JSONHandler) : JSONHandler :=
  foldl (λ h o, apply o h) h ops.

Definition newTraceHandler (base : JSONHandler) (ops : list handlerOp) (projectID : string) :
    traceHandler :=
  {| base := base; inner := apply_all ops base; ops := ops; projectID := projectID;
     grouped := foldl (λ grouped o, grouped || negb (bool_decide (op_group o = ""))) false ops |}.

Definition NewHandler (o : Options) : traceHandler :=
  newTraceHandler {| json_Options := o; json_Ops := [] |} [] (opt_ProjectID o).

Definition appendOp (h : traceHandler) (o : handlerOp) : list handlerOp := ops h ++ [o].

Definition WithAttrs (h : traceHandler) (attrs : list Attr) : traceHandler :=
  if decide (length attrs = 0%nat) then h
  else
    let attrs := if negb (grouped h) then renameReservedAttrs attrs else attrs in
    newTraceHandler (base h) (appendOp h {| op_attrs := attrs; op_group := "" |}) (projectID h).

Definition WithGroup (h : traceHandler) (name : string) : traceHandler :=
  if decide (name = "") then h
  else newTraceHandler (base h) (appendOp h {| op_attrs := []; op_group := name |}) (projectID h).

Definition Enabled (h : traceHandler) (level : Level) : bool := json_Enabled (inner h) level.

(** A valid span context. *)
Record SpanContext : Type := { TraceID : string; SpanID : string; IsSampled : bool }.

Definition traceResourceName (h : traceHandler) (traceID : string) : string :=
  if decide (projectID h = "") then traceID
  else "projects/" +:+ projectID h +:+ "/traces/" +:+ traceID.

Definition Handle (Format : Time → string) (formatValue : Value → string) (h : traceHandler)
    (spanContext : option SpanContext) (record : LogRecord) : list member :=
  let record := if negb (grouped h) then renameReservedRecord record else record in
  match spanContext with
  | None => json_Handle Format formatValue (inner h) record
  | Some sc =>
      let handler :=
        json_WithAttrs (base h)
          [(keyTrace, StringValue (traceResourceName h (TraceID sc)));
           (keySpanID, StringValue (SpanID sc)); (keyTraceSampled, BoolValue (IsSampled sc))] in
      json_Handle Format formatValue (apply_all (ops h) handler) record
  end.

(** ** The entries of a derived handler *)

(** The calls a handler is derived with. *)
Inductive call : Type :=
| CallAttrs (attrs : list Attr)
| CallGroup (name : string).

Definition derive_step (h : traceHandler) (c : call) : traceHandler :=
  match c with CallAttrs attrs => WithAttrs h attrs | CallGroup name => WithGroup h name end.

Definition derive (h : traceHandler) (calls : list call) : traceHandler := foldl derive_step h calls.

(** The operations the calls leave; [g] says whether a group is open. *)
Fixpoint ops_of (g : bool) (calls : list call) : list handlerOp :=
  match calls with
  | [] => []
  | CallAttrs [] :: rest => ops_of g rest
  | CallAttrs attrs :: rest =>
      {| op_attrs := if negb g then renameReservedAttrs attrs else attrs; op_group := "" |}
      :: ops_of g rest
  | CallGroup name :: rest =>
      if decide (name = "") then ops_of g rest
      else {| op_attrs := []; op_group := name |} :: ops_of true rest
  end.

Definition opens_group (c : call) : bool :=
  match c with CallAttrs _ => false | CallGroup name => negb (bool_decide (name = "")) end.

(** An operation that some call leaves. *)
Definition op_wf (o : handlerOp) : Prop :=
  (op_group o = "" ∧ op_attrs o ≠ []) ∨ (op_group o ≠ "" ∧ op_attrs o = []).

Record handler_wf (h : traceHandler) : Prop := {
  wf_inner : inner h = apply_all (ops h) (base h);
  wf_ops : Forall op_wf (ops h);
}.

Lemma apply_json o h :
  op_wf o → apply o h = {| json_Options := json_Options h; json_Ops := json_Ops h ++ [o] |}.
Proof.
  unfold apply, json_WithGroup, json_WithAttrs. destruct o as [attrs group].
  intros [[Hg Ha]|[Hg Ha]]; simpl in *; subst.
  - rewrite decide_False by tauto. by destruct attrs.
  - by rewrite decide_True, decide_False by done.
Qed.

Lemma apply_all_json os h :
  Forall op_wf os →
  apply_all os h = {| json_Options := json_Options h; json_Ops := json_Ops h ++ os |}.
Proof.
  unfold apply_all. intros Hos. revert h. induction Hos as [|o os Ho _ IH]; intros h; simpl.
  - rewrite app_nil_r. by destruct h.
  - rewrite IH, apply_json by done. simpl. by rewrite <-app_assoc.
Qed.

Lemma renameReservedAttrs_eq attrs : renameReservedAttrs attrs = renameReserved <$> attrs.
Proof.
  unfold renameReservedAttrs. destruct (existsb (λ a, isReserved a.1) attrs) eqn:He; [done|]. simpl.
  induction attrs as [|a attrs IH]; [done|]. cbn in He. apply orb_false_iff in He as [Ha He].
  rewrite fmap_cons. unfold renameReserved at 1. rewrite Ha. simpl. f_equal. by apply IH.
Qed.

Lemma collides_existsb attrs : collides attrs = existsb (λ a, isReserved a.1) attrs.
Proof. induction attrs as [|a attrs IH]; [done|]. simpl. rewrite IH. by destruct (isReserved a.1). Qed.

Lemma renameReservedRecord_eq r :
  renameReservedRecord r =
    {| rec_Time := rec_Time r; rec_Level := rec_Level r; rec_Message := rec_Message r;
       rec_Source := rec_Source r; rec_Attrs := renameReserved <$> rec_Attrs r |}.
Proof.
  unfold renameReservedRecord. rewrite collides_existsb.
  destruct (existsb (λ a, isReserved a.1) (rec_Attrs r)) eqn:He; [done|]. simpl.
  pose proof (renameReservedAttrs_eq (rec_Attrs r)) as Heq. unfold renameReservedAttrs in Heq.
  rewrite He in Heq. simpl in Heq. rewrite <-Heq. by destruct r.
Qed.

Lemma newTraceHandler_wf b os p : Forall op_wf os → handler_wf (newTraceHandler b os p).
Proof. done. Qed.

Lemma grouped_snoc b os o p :
  grouped (newTraceHandler b (os ++ [o]) p)
    = grouped (newTraceHandler b os p) || negb (bool_decide (op_group o = "")).
Proof. simpl. by rewrite foldl_snoc. Qed.

(** A handler is the one [newTraceHandler] makes of its parts. *)
Definition canonical (h : traceHandler) : Prop :=
  h = newTraceHandler (base h) (ops h) (projectID h) ∧ Forall op_wf (ops h).

Lemma derive_spec h calls :
  canonical h →
  canonical (derive h calls) ∧ base (derive h calls) = base h ∧
  projectID (derive h calls) = projectID h ∧
  ops (derive h calls) = ops h ++ ops_of (grouped h) calls ∧
  grouped (derive h calls) = grouped h || existsb opens_group calls.
Proof.
  revert h. induction calls as [|c calls IH]; intros h Hh.
  { simpl. rewrite app_nil_r, orb_false_r. done. }
  change (derive h (c :: calls)) with (derive (derive_step h c) calls).
  assert (canonical (derive_step h c) ∧ base (derive_step h c) = base h ∧
    projectID (derive_step h c) = projectID h ∧
    ops (derive_step h c) ++ ops_of (grouped (derive_step h c)) calls
      = ops h ++ ops_of (grouped h) (c :: calls) ∧
    grouped (derive_step h c) = grouped h || opens_group c) as (Hc & Hb & Hp & Ho & Hg).
  { destruct Hh as [Heq Hos]. destruct c as [attrs|name]; simpl.
    - unfold WithAttrs. destruct attrs as [|a attrs]; simpl.
      { by rewrite orb_false_r. }
      rewrite orb_false_r. split; [split; [done|]|].
      { apply Forall_app. split; [done|]. constructor; [|done]. left. simpl.
        split; [done|]. destruct (grouped h); simpl; [done|]. by rewrite renameReservedAttrs_eq. }
      split_and!; try done; unfold appendOp.
      + rewrite foldl_snoc. simpl. rewrite orb_false_r, <-app_assoc. simpl.
        do 3 f_equal. by rewrite Heq.
      + rewrite foldl_snoc. simpl. rewrite orb_false_r. by rewrite Heq.
    - unfold WithGroup. destruct (decide (name = "")) as [->|Hn].
      { by rewrite bool_decide_eq_true_2, orb_false_r by done. }
      rewrite bool_decide_eq_false_2 by done. simpl. split; [split; [done|]|].
      { apply Forall_app. split; [done|]. constructor; [|done]. by right. }
      split_and!; try done; unfold appendOp; rewrite foldl_snoc; simpl;
        rewrite bool_decide_eq_false_2 by done; rewrite orb_true_r; [|by rewrite orb_true_r].
      by rewrite <-app_assoc. }
  destruct (IH _ Hc) as (? & ? & ? & Hops & Hgr). split; [done|].
  split; [congruence|]. split; [congruence|]. split; [congruence|].
  rewrite Hgr, Hg. simpl. by rewrite orb_assoc.
Qed.

(** ** What an entry holds *)

Section value_induction.
Variable P : Value → Prop.
Hypothesis Hstring : ∀ s, P (StringValue s).
Hypothesis Hbool : ∀ b, P (BoolValue b).
Hypothesis Htime : ∀ t, P (TimeValue t).
Hypothesis Hlevel : ∀ l, P (LevelValue l).
Hypothesis Hsource : ∀ file line function, P (SourceValue file line function).
Hypothesis Hany : ∀ text, P (AnyValue text).
Hypothesis Hgroup : ∀ attrs, Forall (λ a, P a.2) attrs → P (GroupValue attrs).

Fixpoint Value_nested_ind (v : Value) : P v :=
  match v with
  | StringValue s => Hstring s
  | BoolValue b => Hbool b
  | TimeValue t => Htime t
  | LevelValue l => Hlevel l
  | SourceValue file line function => Hsource file line function
  | AnyValue text => Hany text
  | GroupValue attrs =>
      Hgroup attrs ((fix go l : Forall (λ a, P a.2) l :=
        match l with
        | [] => Forall_nil_2 _
        | (k, w) :: l => Forall_cons_2 _ (k, w) l (Value_nested_ind w) (go l)
        end) attrs)
  end.
End value_induction.

(** The members of attributes nothing replaces. *)
Definition plainAttrs (attrs : list Attr) : list member := concat ((λ a, plainAttr a.1 a.2) <$> attrs).

Lemma plainAttr_group key attrs : plainAttr key (GroupValue attrs) = grouped_ key (plainAttrs attrs).
Proof.
  cbn [plainAttr]. f_equal. induction attrs as [|[k v] attrs IH]; [done|]. cbn. f_equal. exact IH.
Qed.

(** The names a caller gave stand: an attribute in its place is not a group
    without a key, whose members stand there themselves. *)
Definition attr_ok (a : Attr) : bool :=
  match a.2 with GroupValue _ => negb (bool_decide (a.1 = "")) | _ => true end.

Definition call_ok (c : call) : bool :=
  match c with CallAttrs attrs => forallb attr_ok attrs | CallGroup name => negb (isReserved name) end.

(** The attributes as the caller gave them, out of the way of the reserved keys
    where no group is open. *)
Definition own (g : bool) (attrs : list Attr) : list Attr :=
  if g then attrs else renameReserved <$> attrs.

Fixpoint callMembers (g : bool) (calls : list call) (attrs : list Attr) : list member :=
  match calls with
  | [] => plainAttrs (own g attrs)
  | CallAttrs handed :: rest => plainAttrs (own g handed) ++ callMembers g rest attrs
  | CallGroup name :: rest =>
      if decide (name = "") then callMembers g rest attrs
      else grouped_ name (callMembers true rest attrs)
  end.

Definition traceMembers (o : Options) (spanContext : option SpanContext) : list member :=
  match spanContext with
  | None => []
  | Some sc =>
      [(keyTrace, JLeaf (StringValue
          (if decide (opt_ProjectID o = "") then TraceID sc
           else "projects/" +:+ opt_ProjectID o +:+ "/traces/" +:+ TraceID sc)));
       (keySpanID, JLeaf (StringValue (SpanID sc)));
       (keyTraceSampled, JLeaf (BoolValue (IsSampled sc)))]
  end.

Definition entryMembers (Format : Time → string) (o : Options) (r : LogRecord) : list member :=
  let '(file, line, function) := rec_Source r in
  (if time_is_zero (rec_Time r) then [] else [(keyTime, JLeaf (StringValue (Format (rec_Time r))))])
  ++ [(keySeverity, JLeaf (StringValue (severityOf (rec_Level r))))]
  ++ (if opt_AddSource o then
        [(keySourceLocation,
          JObject [("file", JLeaf (StringValue file)); ("line", JLeaf (StringValue (Itoa line)));
                   ("function", JLeaf (StringValue function))])]
      else [])
  ++ [(keyMessage, JLeaf (StringValue (rec_Message r)))].

Lemma isReserved_renamed key : isReserved (reservedPrefix +:+ key) = false.
Proof.
  unfold isReserved.
  replace (HasPrefix (reservedPrefix +:+ key) cloudLoggingPrefix) with false by done.
  apply bool_decide_eq_false_2. unfold reservedKeys. rewrite !elem_of_cons, elem_of_nil.
  intuition discriminate.
Qed.

Lemma renameReserved_free a : isReserved (renameReserved a).1 = false.
Proof.
  unfold renameReserved. destruct (isReserved a.1) eqn:Ha; simpl; [apply isReserved_renamed|done].
Qed.

Lemma renameReserved_ok a : attr_ok a = true → attr_ok (renameReserved a) = true.
Proof.
  unfold renameReserved, attr_ok. destruct (isReserved a.1); simpl; [|done]. by destruct a.2.
Qed.

Section entries.
Context (Format : Time → string) (formatValue : Value → string).

Lemma replaceAttr_free a : isReserved a.1 = false → replaceAttr Format formatValue [] a = a.
Proof.
  unfold isReserved. destruct (HasPrefix _ _); [done|]. intros Ha%bool_decide_eq_false_1.
  unfold replaceAttr. unfold reservedKeys in Ha. rewrite !not_elem_of_cons in Ha.
  destruct Ha as (H1 & H2 & H3 & H4 & H5 & H6 & _).
  rewrite !decide_False by done. done.
Qed.

Lemma appendAttr_group groups key attrs :
  appendAttr Format formatValue groups key (GroupValue attrs)
    = grouped_ key (appendAttrs Format formatValue
                      (if decide (key = "") then groups else groups ++ [key]) attrs).
Proof.
  cbn [appendAttr]. f_equal. generalize (if decide (key = "") then groups else groups ++ [key]).
  intros gs. induction attrs as [|[k v] attrs IH]; [done|]. cbn. f_equal. exact IH.
Qed.

(** Inside a group every attribute is written as it is. *)
Lemma appendAttr_inside v g groups key :
  appendAttr Format formatValue (g :: groups) key v = plainAttr key v.
Proof.
  revert g groups key. induction v as [s|b|t|l|file line function|text|attrs IH] using Value_nested_ind;
    intros g groups key; try done.
  rewrite appendAttr_group, plainAttr_group. f_equal.
  replace (if decide (key = "") then g :: groups else (g :: groups) ++ [key])
    with (g :: if decide (key = "") then groups else groups ++ [key]) by by case_decide.
  unfold appendAttrs, plainAttrs. induction IH as [|[k v] attrs Hv _ IH]; [done|].
  cbn. cbn in Hv. rewrite Hv. f_equal. exact IH.
Qed.

Lemma appendAttrs_inside g groups attrs :
  appendAttrs Format formatValue (g :: groups) attrs = plainAttrs attrs.
Proof.
  unfold appendAttrs, plainAttrs. induction attrs as [|a attrs IH]; [done|].
  cbn. rewrite appendAttr_inside. f_equal. exact IH.
Qed.

(** At the top level too, unless its key is reserved. *)
Lemma appendAttr_top a :
  isReserved a.1 = false → attr_ok a = true →
  appendAttr Format formatValue [] a.1 a.2 = plainAttr a.1 a.2.
Proof.
  intros Hr Hok. destruct a as [key v]. simpl in *.
  destruct v as [s|b|t|l|file line function|text|attrs];
    try (cbn [appendAttr]; by rewrite (replaceAttr_free (key, _)) by done).
  rewrite appendAttr_group, plainAttr_group. unfold attr_ok in Hok. simpl in Hok.
  apply negb_true_iff, bool_decide_eq_false_1 in Hok. rewrite decide_False by done.
  f_equal. apply appendAttrs_inside.
Qed.

Lemma appendAttrs_own groups attrs :
  forallb attr_ok attrs = true →
  appendAttrs Format formatValue groups (own (negb (bool_decide (groups = []))) attrs)
    = plainAttrs (own (negb (bool_decide (groups = []))) attrs).
Proof.
  destruct groups as [|g groups]; [|intros _; apply appendAttrs_inside].
  rewrite bool_decide_eq_true_2 by done. simpl. intros Hok.
  unfold appendAttrs, plainAttrs. induction attrs as [|a attrs IH]; [done|].
  cbn in Hok. apply andb_true_iff in Hok as [Ha Hok]. cbn. f_equal; [|by apply IH].
  apply appendAttr_top; [apply renameReserved_free|by apply renameReserved_ok].
Qed.

Lemma appendNonBuiltIns_calls calls groups attrs :
  forallb call_ok calls = true → forallb attr_ok attrs = true →
  appendNonBuiltIns Format formatValue groups (ops_of (negb (bool_decide (groups = []))) calls)
    (own (negb (bool_decide (groups = [])) || existsb opens_group calls) attrs)
    = callMembers (negb (bool_decide (groups = []))) calls attrs.
Proof.
  intros Hcalls Hattrs. revert groups Hcalls.
  induction calls as [|c calls IH]; intros groups Hcalls.
  { simpl. rewrite orb_false_r. by apply appendAttrs_own. }
  cbn in Hcalls. apply andb_true_iff in Hcalls as [Hc Hcalls].
  destruct c as [handed|name]; cbn [ops_of callMembers existsb opens_group].
  - rewrite orb_false_l. destruct handed as [|a handed].
    + replace (plainAttrs (own (negb (bool_decide (groups = []))) [])) with ([] : list member)
        by by destruct (negb (bool_decide (groups = []))).
      by apply IH.
    + cbn [appendNonBuiltIns op_group op_attrs]. rewrite decide_False by tauto.
      rewrite IH by done. f_equal. rewrite <-appendAttrs_own by done. f_equal. unfold own.
      destruct (bool_decide (groups = [])); simpl; [|done]. apply renameReservedAttrs_eq.
  - destruct (decide (name = "")) as [->|Hn].
    + rewrite (bool_decide_eq_true_2 ("" = "")) by done. simpl. by apply IH.
    + cbn [appendNonBuiltIns op_group]. destruct (decide (name ≠ "")) as [_|]; [|done]. f_equal.
      rewrite (bool_decide_eq_false_2 (name = "")) by done. simpl. rewrite orb_true_r.
      specialize (IH (groups ++ [name]) Hcalls).
      rewrite (bool_decide_eq_false_2 (groups ++ [name] = [])) in IH by by destruct groups.
      exact IH.
Qed.

Lemma builtIns_eq o r : builtIns Format formatValue o r = entryMembers Format o r.
Proof.
  unfold builtIns, entryMembers. destruct (rec_Source r) as [[file line] function].
  by destruct (time_is_zero _), (opt_AddSource o).
Qed.

Lemma Handle_eq o calls sc r :
  forallb call_ok calls = true → forallb attr_ok (rec_Attrs r) = true →
  Handle Format formatValue (derive (NewHandler o) calls) sc r
    = entryMembers Format o r ++ traceMembers o sc ++ callMembers false calls (rec_Attrs r).
Proof.
  intros Hcalls Hattrs.
  destruct (derive_spec (NewHandler o) calls) as ((Heq & Hos) & Hb & Hp & Ho & Hg); [done|].
  assert (∀ members h,
    json_Options h = o → json_Ops h = members ++ ops_of false calls →
    (∀ op, op ∈ members → op_group op = "") →
    json_Handle Format formatValue h
      (if negb (grouped (derive (NewHandler o) calls)) then renameReservedRecord r else r)
      = entryMembers Format o r
        ++ concat ((λ op, appendAttrs Format formatValue [] (op_attrs op)) <$> members)
        ++ callMembers false calls (rec_Attrs r)) as Hjson.
  { intros members h Hopts Hops Hmembers. unfold json_Handle. rewrite Hopts, Hops, Hg.
    cbn [grouped NewHandler newTraceHandler foldl]. rewrite orb_false_l.
    assert ((if negb (existsb opens_group calls) then renameReservedRecord r else r)
      = {| rec_Time := rec_Time r; rec_Level := rec_Level r; rec_Message := rec_Message r;
           rec_Source := rec_Source r;
           rec_Attrs := own (existsb opens_group calls) (rec_Attrs r) |}) as ->.
    { unfold own. destruct (existsb opens_group calls); simpl; [by destruct r|].
      apply renameReservedRecord_eq. }
    rewrite builtIns_eq. apply (f_equal (app (entryMembers Format o r))). cbn [rec_Attrs].
    clear Hops. induction members as [|op members IH]; cbn.
    - exact (appendNonBuiltIns_calls calls [] (rec_Attrs r) Hcalls Hattrs).
    - rewrite decide_False by (rewrite (Hmembers op) by (by left); tauto).
      rewrite <-app_assoc. f_equal. apply IH. intros op' Hop'. apply Hmembers. by right. }
  unfold Handle.
  destruct sc as [sc|].
  - rewrite apply_all_json, Hb by done.
    rewrite (Hjson [ {| op_attrs := [(keyTrace, StringValue (traceResourceName
        (derive (NewHandler o) calls) (TraceID sc))); (keySpanID, StringValue (SpanID sc));
        (keyTraceSampled, BoolValue (IsSampled sc))]; op_group := "" |} ]).
    + f_equal. unfold traceResourceName. rewrite Hp. cbn. by case_decide.
    + done.
    + simpl. by rewrite Ho.
    + intros op Hop%list_elem_of_singleton. by subst.
  - assert (inner (derive (NewHandler o) calls)
      = apply_all (ops (derive (NewHandler o) calls)) (base (derive (NewHandler o) calls))) as ->
      by (rewrite Heq at 1; done).
    rewrite apply_all_json, Hb by done. apply (Hjson []); simpl; [done|by rewrite Ho|].
    intros op Hop%elem_of_nil. done.
Qed.
End entries.

Lemma plainAttr_key key v m :
  attr_ok (key, v) = true → m ∈ plainAttr key v → m.1 = key.
Proof.
  intros Hok. destruct v as [s|b|t|l|file line function|text|attrs];
    try (intros ->%list_elem_of_singleton; done).
  - cbn. destruct text; [intros ->%list_elem_of_singleton; done|].
    case_decide; [by intros ?%elem_of_nil|by intros ->%list_elem_of_singleton].
  - rewrite plainAttr_group. unfold attr_ok in Hok. simpl in Hok.
    apply negb_true_iff, bool_decide_eq_false_1 in Hok.
    unfold grouped_. destruct (plainAttrs attrs); [by intros ?%elem_of_nil|].
    rewrite decide_False by done. by intros ->%list_elem_of_singleton.
Qed.

Lemma plainAttrs_free attrs :
  forallb attr_ok attrs = true →
  Forall (λ m, isReserved m.1 = false) (plainAttrs (renameReserved <$> attrs)).
Proof.
  intros Hok. unfold plainAttrs. apply Forall_concat, Forall_fmap, Forall_fmap, Forall_forall.
  intros a Ha. simpl. apply Forall_forall. intros m Hm.
  rewrite forallb_forall in Hok. apply list_elem_of_In in Ha. apply Hok, renameReserved_ok in Ha.
  destruct (renameReserved a) as [key v] eqn:He. apply plainAttr_key in Hm as ->; [|done].
  by rewrite <-(renameReserved_free a), He.
Qed.

Lemma callMembers_free calls attrs :
  forallb call_ok calls = true → forallb attr_ok attrs = true →
  Forall (λ m, isReserved m.1 = false) (callMembers false calls attrs).
Proof.
  intros Hcalls Hattrs. induction calls as [|c calls IH]; [by apply plainAttrs_free|].
  cbn in Hcalls. apply andb_true_iff in Hcalls as [Hc Hcalls]. destruct c as [handed|name]; cbn.
  - apply Forall_app. split; [by apply plainAttrs_free|by apply IH].
  - case_decide; [by apply IH|]. unfold grouped_. destruct (callMembers true _ _); [done|].
    rewrite decide_False by done. constructor; [|done]. simpl in *. by apply negb_true_iff.
Qed.

Lemma handler_keys Format o sc r :
  NoDup (entryMembers Format o r ++ traceMembers o sc).*1 ∧
  Forall (λ m, isReserved m.1 = true) (entryMembers Format o r ++ traceMembers o sc).
Proof.
  unfold entryMembers. destruct (rec_Source r) as [[file line] function].
  destruct (time_is_zero (rec_Time r)), (opt_AddSource o), sc as [sc|]; cbn; split;
    first [by apply (bool_decide_unpack _) | by repeat constructor].
Qed.

(** A level parses back from the severity it is written under. *)
Lemma ParseLevel_severityOf level :
  ∃ level', ParseLevel (severityOf level) = Ok level' ∧ severityOf level' = severityOf level.
Proof.
  unfold severityOf at 1 3.
  destruct (level <? LevelInfo); [by exists LevelDebug|].
  destruct (level <? LevelWarn); [by exists LevelInfo|].
  destruct (level <? LevelError); [by exists LevelWarn|].
  destruct (level <? LevelCritical); [by exists LevelError|]. by exists LevelCritical.
Qed.

(** ** Names that are not moved

    The two ways left for a caller's name to stand next to the handler's own: a
    group without a key, whose attributes slog writes in its place, and an open
    group with a reserved name. *)

Lemma inlined_attribute_not_renamed Format formatValue o r s :
  rec_Attrs r = [("", GroupValue [(keyMessage, StringValue s)])] →
  Handle Format formatValue (NewHandler o) None r
    = entryMembers Format o r ++ [(keyMessage, JLeaf (StringValue s))].
Proof.
  intros Hattrs. unfold Handle. cbn [grouped NewHandler newTraceHandler foldl negb].
  rewrite renameReservedRecord_eq, Hattrs. unfold json_Handle. rewrite builtIns_eq. done.
Qed.

Lemma group_name_not_renamed Format formatValue o r s :
  rec_Attrs r = [("key", StringValue s)] →
  Handle Format formatValue (WithGroup (NewHandler o) keyMessage) None r
    = entryMembers Format o r ++ [(keyMessage, JObject [("key", JLeaf (StringValue s))])].
Proof.
  intros Hattrs.
  replace (Handle Format formatValue (WithGroup (NewHandler o) keyMessage) None r)
    with (builtIns Format formatValue o r ++ grouped_ keyMessage
            (appendAttrs Format formatValue [keyMessage] (rec_Attrs r))) by done.
  rewrite builtIns_eq, Hattrs. done.
Qed.

(** ** Properties *)

(** C27. What an entry of a logger derived from [NewHandler] holds, on two
    conditions: no attribute that the logger or the record is given is itself a
    group without a key ([attr_ok]), and no group that the logger opens has a
    reserved name ([call_ok]).  It holds the record's time, severity, source and
    message under the keys Cloud Logging reads, the trace of the request at the top
    level whatever group is open, then the attributes in their groups.  A name of a
    caller that is reserved is written with a prefix at the top level and as it is
    inside a group, so the members under the reserved keys are exactly the
    handler's own, each once.  Without the conditions this fails
    ([inlined_attribute_not_renamed], [group_name_not_renamed]). *)
Theorem log_entry_spec Format formatValue o calls sc r :
  forallb call_ok calls = true → forallb attr_ok (rec_Attrs r) = true →
  let own_members := entryMembers Format o r ++ traceMembers o sc in
  let entry := Handle Format formatValue (derive (NewHandler o) calls) sc r in
  entry = own_members ++ callMembers false calls (rec_Attrs r) ∧
  (∀ m, isReserved m.1 = true → m ∈ entry ↔ m ∈ own_members) ∧
  Forall (λ m, isReserved m.1 = true) own_members ∧ NoDup own_members.*1.
Proof.
  intros Hcalls Hattrs own_members entry.
  destruct (handler_keys Format o sc r) as [Hnodup Hreserved].
  assert (entry = own_members ++ callMembers false calls (rec_Attrs r)) as Heq.
  { unfold entry, own_members. rewrite Handle_eq by done. by rewrite app_assoc. }
  split_and!; try done.
  intros m Hm. rewrite Heq, elem_of_app. split; [|by left]. intros [Hin|Hin]; [done|].
  pose proof (callMembers_free _ _ Hcalls Hattrs) as Hfree.
  rewrite Forall_forall in Hfree. apply Hfree in Hin. congruence.
Qed.

Definition example_record : LogRecord :=
  {| rec_Time := 5; rec_Level := LevelWarn; rec_Message := "rejected"; rec_Source := ("a.go", 7, "f");
     rec_Attrs := [("severity", StringValue "mine"); ("rpc", StringValue "Get")] |}.

Definition example_calls : list call :=
  [CallAttrs [("msg", StringValue "boot")]; CallGroup "request"; CallAttrs [("time", BoolValue true)]].

Lemma log_entry_spec_witness :
  let o := {| opt_Level := LevelInfo; opt_AddSource := false; opt_ProjectID := "p" |} in
  let sc := Some {| TraceID := "t"; SpanID := "s"; IsSampled := true |} in
  let own_members := entryMembers (λ _, "now") o example_record ++ traceMembers o sc in
  let entry := Handle (λ _, "now") (λ _, "") (derive (NewHandler o) example_calls) sc example_record in
  entry = own_members ++ callMembers false example_calls (rec_Attrs example_record) ∧
  (∀ m, isReserved m.1 = true → m ∈ entry ↔ m ∈ own_members) ∧
  Forall (λ m, isReserved m.1 = true) own_members ∧ NoDup own_members.*1.
Proof. intros o sc. apply log_entry_spec; reflexivity. Defined.
