(* ===== verification/Mux.v ===== *)
(** * The request multiplexer ([net/http]'s ServeMux)

    The listeners of the gateway register literal patterns with a [ServeMux]:
    ["GET /healthz"], ["/tolo.guest.v1.GuestPageService/"], ["/"].  This file
    models the mux for such patterns (an optional method, no host, no wildcard):
    their syntax, when two of them conflict, which one serves a request and when
    the mux redirects instead. *)

From S2P Require Import Prelude GoStd.

(** A pattern: its method (empty for every method), the segments of its path
    and whether it ends in a slash and so matches everything below. *)
Record pattern : Type := {
  pat_Method : string;
  pat_Segments : list string;
  pat_Subtree : bool;
}.

#[export] Instance pattern_eq_dec : EqDecision pattern.
Proof. solve_decision. Defined.

(** The segments of a path that starts with a slash: those of ["/a/b"] are
    ["a"] and ["b"], those of ["/a/"] are ["a"] and [""]. *)
Definition segments (path : string) : list string := tail (Split path "/").

(** ** Clean paths *)

(** [path.Clean] on a rooted path: the segments that remain, last first. *)
Definition clean_step (stack : list string) (segment : string) : list string :=
  if decide (segment = "" ∨ segment = ".") then stack
  else if decide (segment = "..") then tail stack
  else segment :: stack.

Definition ends_in_slash (path : string) : bool :=
  match last (Split path "/") with Some "" => true | _ => false end.

Definition cleanPath (path : string) : string :=
  if decide (path = "") then "/"
  else
    let rooted := if HasPrefix path "/" then path else "/" +:+ path in
    let kept := rev (foldl clean_step [] (segments rooted)) in
    let np := "/" +:+ Join kept "/" in
    if ends_in_slash path && negb (bool_decide (np = "/")) then np +:+ "/" else np.

(** ** Parsing and conflicts *)

(** [parsePattern] on the patterns described above; [None] where it fails. *)
Definition parsePattern (s : string) : option pattern :=
  let '(method, path) :=
    match Cut s " " with Some (method, rest) => (method, rest) | None => ("", s) end in
  if negb (HasPrefix path "/") || has_byte "{" path || (has_byte " " s && bool_decide (method = ""))
  then None
  else if negb (bool_decide (method = "")) && negb (bool_decide (cleanPath path = path)) then None
  else
    let segs := segments path in
    if ends_in_slash path then
      Some {| pat_Method := method; pat_Segments := removelast segs; pat_Subtree := true |}
    else Some {| pat_Method := method; pat_Segments := segs; pat_Subtree := false |}.

Inductive relationship : Type := equivalent | moreGeneral | moreSpecific | disjoint | overlaps.

#[export] Instance relationship_eq_dec : EqDecision relationship.
Proof. solve_decision. Defined.

Definition compareMethods (p q : pattern) : relationship :=
  if decide (pat_Method p = pat_Method q) then equivalent
  else if decide (pat_Method p = "") then moreGeneral
  else if decide (pat_Method q = "") then moreSpecific
  else if decide (pat_Method p = "GET" ∧ pat_Method q = "HEAD") then moreGeneral
  else if decide (pat_Method q = "GET" ∧ pat_Method p = "HEAD") then moreSpecific
  else disjoint.

(** Whether a list starts with another. *)
Fixpoint starts_with (l prefix : list string) : bool :=
  match prefix, l with
  | [], _ => true
  | _ :: _, [] => false
  | b :: prefix, a :: l => bool_decide (a = b) && starts_with l prefix
  end.

(** The paths of [p] among those of the subtree pattern [q]. *)
Definition below (p q : pattern) : bool :=
  pat_Subtree q && starts_with (pat_Segments p) (pat_Segments q)
  && (pat_Subtree p || negb (length (pat_Segments p) =? length (pat_Segments q))%nat).

Definition comparePaths (p q : pattern) : relationship :=
  if bool_decide (pat_Segments p = pat_Segments q)
     && Bool.eqb (pat_Subtree p) (pat_Subtree q) then equivalent
  else if below p q then moreSpecific
  else if below q p then moreGeneral
  else disjoint.

Definition combine_ (r1 r2 : relationship) : relationship :=
  match r1, r2 with
  | disjoint, _ | _, disjoint => disjoint
  | equivalent, r | r, equivalent => r
  | overlaps, _ | _, overlaps => overlaps
  | moreGeneral, moreGeneral => moreGeneral
  | moreSpecific, moreSpecific => moreSpecific
  | _, _ => overlaps
  end.

(** [conflictsWith] *)
Definition conflictsWith (p q : pattern) : bool :=
  match combine_ (compareMethods p q) (comparePaths p q) with
  | equivalent | overlaps => true
  | _ => false
  end.

(** ** Registering and matching *)

Section mux.
Context {H : Type}.

Definition ServeMux : Type := list (pattern * H).

(** [mux.Handle]: [None] is its panic. *)
Definition Handle (mux : ServeMux) (s : string) (handler : H) : option ServeMux :=
  match parsePattern s with
  | None => None
  | Some p =>
      if existsb (λ q, conflictsWith p q.1) mux then None else Some (mux ++ [(p, handler)])
  end.

Fixpoint HandleAll (mux : ServeMux) (routes : list (string * H)) : option ServeMux :=
  match routes with
  | [] => Some mux
  | (s, handler) :: rest =>
      match Handle mux s handler with
      | None => None
      | Some mux => HandleAll mux rest
      end
  end.

(** A pattern serves the segments of a path. *)
Definition matches_path (p : pattern) (segs : list string) : bool :=
  if pat_Subtree p then
    starts_with segs (pat_Segments p) && (length (pat_Segments p) <? length segs)%nat
  else bool_decide (segs = pat_Segments p).

(** The most specific of the patterns of a method: the one with the longest
    path. *)
Fixpoint longest (candidates : ServeMux) : option (pattern * H) :=
  match candidates with
  | [] => None
  | c :: rest =>
      match longest rest with
      | None => Some c
      | Some d =>
          if (length (pat_Segments d.1) <? length (pat_Segments c.1))%nat
             || ((length (pat_Segments d.1) =? length (pat_Segments c.1))%nat && pat_Subtree d.1)
          then Some c else Some d
      end
  end.

Definition match_method (mux : ServeMux) (method : string) (segs : list string) :
    option (pattern * H) :=
  longest (List.filter (λ c, bool_decide (pat_Method c.1 = method) && matches_path c.1 segs) mux).

(** The routing tree: the patterns of the method, those of GET for a HEAD
    request, then those without a method. *)
Definition match_ (mux : ServeMux) (method : string) (segs : list string) : option (pattern * H) :=
  match (if decide (method = "") then None else match_method mux method segs) with
  | Some c => Some c
  | None =>
      match (if decide (method = "HEAD") then match_method mux "GET" segs else None) with
      | Some c => Some c
      | None => match_method mux "" segs
      end
  end.

(** [exactMatch]: a subtree pattern matches exactly only the path that ends
    where the pattern does. *)
Definition exactMatch (c : option (pattern * H)) (segs : list string) : bool :=
  match c with
  | None => false
  | Some (p, _) =>
      if pat_Subtree p then
        bool_decide (last segs = Some "") && (length segs =? S (length (pat_Segments p)))%nat
      else true
  end.

Inductive Routed : Type :=
| Handled (handler : H)
| Redirected (path : string)
| NotFound_.

(** What [findHandler] answers: [escapedPath] is the path of the request as it
    was sent, and [unescape] decodes the escapes of a path or of a segment.  The
    redirect that adds a slash goes to the decoded path, cleaned. *)
Definition findHandler (unescape : string → string) (mux : ServeMux) (method escapedPath : string) :
    Routed :=
  let path := if decide (method = "CONNECT") then escapedPath else cleanPath escapedPath in
  let segs := unescape <$> segments path in
  let found := match_ mux method segs in
  if negb (exactMatch found segs) && negb (ends_in_slash path) && negb (bool_decide (path = ""))
     && exactMatch (match_ mux method (segs ++ [""])) (segs ++ [""])
  then Redirected (cleanPath (unescape escapedPath) +:+ "/")
  else if negb (bool_decide (path = escapedPath)) then Redirected path
  else match found with Some (_, handler) => Handled handler | None => NotFound_ end.
End mux.

Arguments ServeMux : clear implicits.
Arguments Routed : clear implicits.

(** ** Registering patterns that do not conflict *)

Section registering.
Context {H : Type}.
Implicit Types (mux : ServeMux H).

(** An earlier pattern does not conflict with a later one. *)
Definition compatible (earlier later : pattern * H) : Prop :=
  conflictsWith later.1 earlier.1 = false.

Lemma Handle_compatible mux s p handler :
  parsePattern s = Some p → Forall (λ q, compatible q (p, handler)) mux →
  Handle mux s handler = Some (mux ++ [(p, handler)]).
Proof.
  intros Hp Hmux. unfold Handle. rewrite Hp.
  replace (existsb (λ q, conflictsWith p q.1) mux) with false; [done|].
  symmetry. apply not_true_iff_false. intros (q & Hq & Hc)%existsb_exists.
  rewrite Forall_forall in Hmux. apply list_elem_of_In, Hmux in Hq. unfold compatible in Hq.
  simpl in Hq. congruence.
Qed.

Lemma HandleAll_compatible mux (routes : list (string * (pattern * H))) :
  Forall (λ r, parsePattern r.1 = Some r.2.1) routes →
  StronglySorted compatible (mux ++ routes.*2) →
  HandleAll mux ((λ r, (r.1, r.2.2)) <$> routes) = Some (mux ++ routes.*2).
Proof.
  intros Hp. revert mux. induction Hp as [|[s [p handler]] routes Hp _ IH]; intros mux Hs.
  { simpl. by rewrite app_nil_r. }
  cbn in Hp, Hs |- *. rewrite (Handle_compatible _ _ p).
  - rewrite IH; rewrite <-app_assoc; done.
  - done.
  - apply StronglySorted_app in Hs as (Hs & _ & _). apply Forall_forall. intros q Hq.
    apply Hs; [done|by left].
Qed.
End registering.

(** ** Service paths *)

(** A service name, as a segment of a literal pattern. *)
Definition plain_segment (s : string) : bool :=
  negb (bool_decide (s = "")) && negb (has_byte "/" s) && negb (has_byte "{" s)
  && negb (has_byte " " s).

Lemma plain_segment_true s :
  plain_segment s = true ↔
  s ≠ "" ∧ has_byte "/" s = false ∧ has_byte "{" s = false ∧ has_byte " " s = false.
Proof.
  unfold plain_segment. rewrite !andb_true_iff, !negb_true_iff, bool_decide_eq_false. tauto.
Qed.

Lemma Cut_no_sep s sep : has_byte sep s = false → Cut s sep = None.
Proof.
  induction s as [|a s IH]; [done|]. cbn [has_byte Cut]. intros [Ha Hs]%orb_false_iff.
  apply bool_decide_eq_false_1 in Ha. rewrite IH by done. by rewrite decide_False by congruence.
Qed.

Definition subtree_of (service : string) : pattern :=
  {| pat_Method := ""; pat_Segments := [service]; pat_Subtree := true |}.

Definition root : pattern := {| pat_Method := ""; pat_Segments := []; pat_Subtree := true |}.

Lemma rooted_HasPrefix t : HasPrefix ("/" +:+ t) "/" = true.
Proof. by destruct t. Qed.

Lemma Split_service s :
  has_byte "/" s = false → Split ("/" +:+ s +:+ "/") "/" = [""; s; ""].
Proof.
  intros Hs. change ("/" +:+ s +:+ "/") with ("" +:+ String "/" (s +:+ String "/" "")).
  rewrite !Split_app_sep, (Split_no_sep s) by done. done.
Qed.

Lemma parsePattern_service s :
  plain_segment s = true → parsePattern ("/" +:+ s +:+ "/") = Some (subtree_of s).
Proof.
  intros (Hne & Hslash & Hbrace & Hspace)%plain_segment_true. unfold parsePattern.
  assert (∀ a, has_byte a s = false → a ≠ "/"%char → has_byte a ("/" +:+ s +:+ "/") = false) as Hno.
  { intros a Ha Hn. rewrite !has_byte_app, Ha. cbn. by rewrite !bool_decide_eq_false_2. }
  rewrite (Cut_no_sep ("/" +:+ s +:+ "/") " ") by (by apply Hno).
  rewrite (Hno "{"%char), (Hno " "%char) by done. cbn [HasPrefix negb orb andb bool_decide].
  rewrite rooted_HasPrefix. unfold ends_in_slash, segments. by rewrite Split_service.
Qed.

(** Only paths below a subtree pattern with one segment are its own. *)
Lemma matches_subtree_of s segs :
  matches_path (subtree_of s) segs = true ↔ ∃ m rest, segs = s :: m :: rest.
Proof.
  unfold matches_path. simpl. destruct segs as [|a [|m rest]]; simpl.
  - split; [done|]. by intros (? & ? & ?).
  - rewrite andb_false_r. split; [done|]. by intros (? & ? & ?).
  - rewrite !andb_true_r, bool_decide_eq_true. split; [intros ->; eauto|]. by intros (? & ? & [= -> _]).
Qed.

Lemma matches_root segs : segs ≠ [] → matches_path root segs = true.
Proof. by destruct segs. Qed.

Lemma compatible_services {H} s t (h h' : H) : s ≠ t → compatible (subtree_of s, h) (subtree_of t, h').
Proof.
  intros Hne. unfold compatible, conflictsWith, comparePaths, below, compareMethods. simpl.
  rewrite !bool_decide_eq_false_2 by (intros [=]; congruence). done.
Qed.

Lemma compatible_root {H} s (h h' : H) : compatible (subtree_of s, h) (root, h').
Proof. done. Qed.

(** A mux over literal GET patterns, service paths and the root. *)
Section service_mux.
Context {H : Type}.
Context (exact : ServeMux H) (services : list (string * H)) (fallback : H).

Definition service_mux : ServeMux H :=
  exact ++ ((λ s, (subtree_of s.1, s.2)) <$> services) ++ [(root, fallback)].

Hypothesis Hexact : Forall (λ c, pat_Method c.1 = "GET" ∧ pat_Subtree c.1 = false) exact.
Hypothesis Hservices : NoDup services.*1.

Lemma filter_nil {A} (P : A → bool) (l : list A) : Forall (λ a, P a = false) l → List.filter P l = [].
Proof. induction 1 as [|a l Ha _ IH]; [done|]. simpl. by rewrite Ha. Qed.

Lemma filter_services segs :
  List.filter (λ c, bool_decide (pat_Method c.1 = "") && matches_path c.1 segs)
    ((λ s, (subtree_of s.1, s.2)) <$> services)
  = match segs with
    | s :: _ :: _ =>
        match list_find (λ p, p.1 = s) services with
        | Some (_, p) => [(subtree_of p.1, p.2)]
        | None => []
        end
    | _ => []
    end.
Proof.
  induction services as [|[t h] l IH]; [by destruct segs as [|? [|? ?]]|].
  apply NoDup_cons in Hservices as [Ht Hl]. specialize (IH Hl).
  rewrite fmap_cons. cbn [List.filter fst snd]. rewrite bool_decide_eq_true_2 by done. simpl andb.
  destruct (matches_path (subtree_of t) segs) eqn:Hm.
  - apply matches_subtree_of in Hm as (m & rest & ->). simpl list_find. rewrite decide_True by done.
    rewrite IH. destruct (list_find (λ p, p.1 = t) l) as [[i p]|] eqn:Hf; [|done].
    apply list_find_Some in Hf as (Hi & Hp & _). exfalso. apply Ht.
    apply list_elem_of_fmap. exists p. split; [by symmetry|]. by eapply list_elem_of_lookup_2.
  - rewrite IH. destruct segs as [|s [|m rest]]; try done. simpl list_find.
    rewrite decide_False.
    + by destruct (list_find (λ p, p.1 = s) l) as [[i p]|].
    + simpl. intros ->. apply not_true_iff_false in Hm. apply Hm, matches_subtree_of. eauto.
Qed.

(** What serves a path when no literal pattern does. *)
Definition below_services (segs : list string) : pattern * H :=
  match segs with
  | s :: _ :: _ =>
      match list_find (λ p, p.1 = s) services with
      | Some (_, p) => (subtree_of p.1, p.2)
      | None => (root, fallback)
      end
  | _ => (root, fallback)
  end.

Lemma match_any_method segs :
  segs ≠ [] → match_method service_mux "" segs = Some (below_services segs).
Proof.
  intros Hsegs. unfold match_method, service_mux. rewrite !List.filter_app, filter_services.
  rewrite (filter_nil _ exact).
  2: { apply (Forall_impl _ _ _ Hexact). intros c [Hc _]. by rewrite Hc. }
  cbn [List.filter fst]. rewrite bool_decide_eq_true_2, matches_root by done.
  unfold below_services. destruct segs as [|s [|m rest]]; [done|done|].
  by destruct (list_find (λ p, p.1 = s) services) as [[i p]|].
Qed.

Lemma match_other_method method segs :
  method ≠ "" → method ≠ "GET" → match_method service_mux method segs = None.
Proof.
  intros Hne Hget. unfold match_method. rewrite filter_nil; [done|].
  unfold service_mux. rewrite !Forall_app, Forall_fmap. split_and!.
  - apply (Forall_impl _ _ _ Hexact). intros c [Hc _]. rewrite Hc.
    by rewrite bool_decide_eq_false_2.
  - apply Forall_forall. intros s _. simpl. by rewrite bool_decide_eq_false_2.
  - constructor; [|done]. simpl. by rewrite bool_decide_eq_false_2.
Qed.

Lemma match_get segs :
  match_method service_mux "GET" segs
    = longest (List.filter (λ c, bool_decide (segs = pat_Segments c.1)) exact).
Proof.
  unfold match_method. f_equal. unfold service_mux. rewrite !List.filter_app.
  rewrite (filter_nil _ (_ <$> services)), (filter_nil _ [_]), !app_nil_r.
  - clear Hservices. induction exact as [|c l IH]; [done|].
    apply Forall_cons in Hexact as [[Hm Hs] Hl]. specialize (IH Hl). cbn [List.filter].
    rewrite Hm, IH. unfold matches_path. by rewrite Hs.
  - by repeat constructor.
  - apply Forall_fmap, Forall_forall. intros s _. done.
Qed.
End service_mux.

(** ** Clean request paths *)

Lemma clean_rooted path : cleanPath path = path → ∃ t, path = "/" +:+ t.
Proof.
  intros Hp. rewrite <-Hp. unfold cleanPath. destruct (decide (path = "")); [by exists ""|].
  cbv zeta. destruct (_ && _); eauto.
Qed.

Lemma clean_segments path : cleanPath path = path → segments path ≠ [].
Proof.
  intros [t ->]%clean_rooted. change ("/" +:+ t) with ("" +:+ String "/" t).
  unfold segments. rewrite Split_app_sep. apply Split_nonempty.
Qed.

Lemma ends_in_slash_single path s : segments path = [s] → s ≠ "" → ends_in_slash path = false.
Proof.
  unfold segments, ends_in_slash. intros Hs Hne.
  pose proof (Split_nonempty path "/") as Hnil.
  destruct (Split path "/") as [|a [|b l]]; try done. simpl in Hs. injection Hs as -> ->. simpl.
  by destruct s.
Qed.

Section serving.
Context {H : Type}.
Context (exact : ServeMux H) (services : list (string * H)) (fallback : H).

Hypothesis Hexact : Forall (λ c, pat_Method c.1 = "GET" ∧ pat_Subtree c.1 = false) exact.
Hypothesis Hlast : Forall (λ c, last (pat_Segments c.1) ≠ Some "") exact.
Hypothesis Hservices : NoDup services.*1.
Hypothesis Hnames : "" ∉ services.*1.

Local Abbreviation mux := (service_mux exact services fallback).

(** The literal pattern that serves a request. *)
Definition literal (method : string) (segs : list string) : option (pattern * H) :=
  if decide (method = "GET" ∨ method = "HEAD") then
    longest (List.filter (λ c, bool_decide (segs = pat_Segments c.1)) exact)
  else None.

Lemma match_service_mux method segs :
  method ≠ "" → segs ≠ [] →
  match_ mux method segs
    = match literal method segs with
      | Some c => Some c
      | None => Some (below_services services fallback segs)
      end.
Proof.
  intros Hm Hsegs. unfold match_, literal. rewrite decide_False by done.
  rewrite match_any_method by done.
  destruct (decide (method = "GET")) as [->|Hget].
  - rewrite match_get by done. rewrite (decide_True (P := "GET" = "GET" ∨ "GET" = "HEAD")) by (by left). by destruct (longest _).
  - rewrite match_other_method by done. destruct (decide (method = "HEAD")) as [->|Hhead].
    + rewrite match_get by done.
      rewrite (decide_True (P := "HEAD" = "GET" ∨ "HEAD" = "HEAD")) by (by right). by destruct (longest _).
    + by rewrite decide_False by tauto.
Qed.

Lemma longest_elem (candidates : ServeMux H) c : longest candidates = Some c → c ∈ candidates.
Proof.
  revert c. induction candidates as [|d l IH]; intros c; [done|]. cbn [longest].
  destruct (longest l) as [e|]; [|intros [= ->]; by left].
  destruct (_ || _); intros [= ->]; [by left|right; by apply IH].
Qed.

Lemma literal_exact method segs c :
  literal method segs = Some c → c ∈ exact ∧ segs = pat_Segments c.1.
Proof.
  unfold literal. case_decide; [|done]. intros Hc%longest_elem.
  apply list_elem_of_In, filter_In in Hc as [Hc Heq].
  apply bool_decide_eq_true_1 in Heq. by apply list_elem_of_In in Hc.
Qed.

Lemma literal_slash method segs : literal method (segs ++ [""]) = None.
Proof.
  destruct (literal method (segs ++ [""])) as [c|] eqn:Hc; [|done].
  apply literal_exact in Hc as [Hc Hs]. rewrite Forall_forall in Hlast. apply Hlast in Hc.
  by rewrite <-Hs, last_snoc in Hc.
Qed.

Lemma list_find_service s :
  s ∉ services.*1 → list_find (λ p, p.1 = s) services = None.
Proof.
  intros Hs. apply list_find_None, Forall_forall. intros p Hp <-. apply Hs.
  by apply list_elem_of_fmap_2.
Qed.

Lemma list_find_service_Some s h :
  (s, h) ∈ services → ∃ i, list_find (λ p, p.1 = s) services = Some (i, (s, h)).
Proof.
  intros Hin. destruct (list_find_elem_of (λ p, p.1 = s) services (s, h)) as [[i p] Hp]; [done..|].
  exists i. rewrite Hp. do 2 f_equal. apply list_find_Some in Hp as (Hi & Hps & _).
  apply list_elem_of_lookup_2 in Hi. destruct p as [s' h']. simpl in Hps. subst s'. f_equal.
  apply list_elem_of_lookup in Hi as [j Hj], Hin as [k Hk].
  assert (j = k) as -> by
    (apply (NoDup_lookup services.*1 j k s Hservices); rewrite list_lookup_fmap; [by rewrite Hj|by rewrite Hk]).
  congruence.
Qed.

(** What answers a clean path: a literal pattern, the service whose name is the
    first of several segments, a redirect to the path of a service that lacks
    its slash ([path] is the decoded path, cleaned), and otherwise the fallback. *)
Definition route (method path : string) (segs : list string) : Routed H :=
  match literal method segs with
  | Some c => Handled c.2
  | None =>
      match segs with
      | [s] => if decide (s ∈ services.*1) then Redirected (path +:+ "/") else Handled fallback
      | _ => Handled (below_services services fallback segs).2
      end
  end.

Lemma exactMatch_subtree s m rest h :
  exactMatch (Some (subtree_of s, h : H)) (s :: m :: rest) = true → m = "" ∧ rest = [].
Proof.
  unfold exactMatch. cbn -[last]. destruct rest as [|? ?].
  - rewrite andb_true_r, bool_decide_eq_true. simpl. intros [= ->]. done.
  - by rewrite andb_false_r.
Qed.

Lemma findHandler_service_mux unescape method path :
  unescape "" = "" → method ≠ "" → method ≠ "CONNECT" → cleanPath path = path →
  findHandler unescape mux method path = route method (cleanPath (unescape path)) (unescape <$> segments path).
Proof.
  intros Hun Hm Hconnect Hclean. unfold findHandler, route. rewrite decide_False, Hclean by done.
  cbv zeta. set (segs := unescape <$> segments path).
  assert (segs ≠ []) as Hsegs.
  { unfold segs. intros Hnil%fmap_nil_inv. by apply (clean_segments path). }
  rewrite match_service_mux by done. rewrite (match_service_mux method (segs ++ [""])), literal_slash
    by (done || by destruct segs).
  rewrite (bool_decide_eq_true_2 (path = path)) by done. cbn [negb].
  destruct (literal method segs) as [c|] eqn:Hl.
  { apply literal_exact in Hl as [Hc _]. rewrite Forall_forall in Hexact.
    destruct c as [p h]. apply Hexact in Hc as [_ Hsub]. simpl in Hsub. cbn [exactMatch].
    rewrite Hsub. done. }
  destruct segs as [|s [|m rest]] eqn:Hs; [done| |].
  - assert (∃ x, segments path = [x] ∧ unescape x = s) as (x & Hx & Hxs).
    { unfold segs in Hs. destruct (segments path) as [|x [|? ?]]; try done.
      injection Hs as <-. by exists x. }
    cbn [below_services app]. destruct (decide (s ∈ services.*1)) as [Hin|Hnin].
    + assert (s ≠ "") as Hne by (intros ->; done).
      rewrite (ends_in_slash_single path x); [|done|intros ->; by subst].
      assert (path ≠ "") as Hpath by (intros ->; done).
      rewrite (bool_decide_eq_false_2 (path = "")) by done.
      apply list_elem_of_fmap in Hin as ([s' h] & -> & Hin). cbn [fst] in *.
      destruct (list_find_service_Some s' h Hin) as [i ->]. cbn [fst snd].
      cbn [exactMatch pat_Subtree root subtree_of pat_Segments length last Nat.eqb].
      rewrite (bool_decide_eq_false_2 (Some s' = Some "")) by congruence. done.
    + rewrite list_find_service by done. cbn [exactMatch pat_Subtree root pat_Segments length Nat.eqb].
      by rewrite !andb_false_r.
  - cbn [below_services app].
    destruct (list_find (λ p, p.1 = s) services) as [[i [s' h]]|] eqn:Hf.
    + apply list_find_Some in Hf as (_ & Hs' & _). simpl in Hs'. subst s'. cbn [fst snd].
      replace (exactMatch (Some (subtree_of s, h)) (s :: m :: rest ++ [""])) with false.
      { by rewrite andb_false_r. }
      symmetry. apply not_true_iff_false. intros [_ Hnil]%exactMatch_subtree. by destruct rest.
    + cbn [exactMatch pat_Subtree root pat_Segments length Nat.eqb]. by rewrite !andb_false_r.
Qed.
End serving.

(** ** Procedure paths *)

(** A segment that cleaning keeps. *)
Definition clean_segment (s : string) : bool :=
  plain_segment s && negb (bool_decide (s = ".")) && negb (bool_decide (s = "..")).

Lemma clean_segment_true s :
  clean_segment s = true ↔ plain_segment s = true ∧ s ≠ "." ∧ s ≠ "..".
Proof. unfold clean_segment. rewrite !andb_true_iff, !negb_true_iff, !bool_decide_eq_false. tauto. Qed.

Lemma clean_step_keep stack s : clean_segment s = true → clean_step stack s = s :: stack.
Proof.
  intros ((Hne & _)%plain_segment_true & ? & ?)%clean_segment_true. unfold clean_step.
  rewrite decide_False by tauto. by rewrite decide_False.
Qed.

Lemma procedure_path s m :
  clean_segment s = true → clean_segment m = true →
  let path := "/" +:+ s +:+ "/" +:+ m in cleanPath path = path ∧ segments path = [s; m].
Proof.
  intros Hs Hm path. pose proof Hs as ((_ & Hslash & _)%plain_segment_true & _)%clean_segment_true.
  pose proof Hm as ((Hne & Hmslash & _)%plain_segment_true & _)%clean_segment_true.
  assert (Split path "/" = [""; s; m]) as Hsplit.
  { unfold path. change ("/" +:+ s +:+ "/" +:+ m) with ("" +:+ String "/" (s +:+ String "/" m)).
    by rewrite !Split_app_sep, (Split_no_sep s), (Split_no_sep m). }
  assert (segments path = [s; m]) as Hsegs by (unfold segments; by rewrite Hsplit).
  split; [|done]. unfold cleanPath. rewrite decide_False by done.
  assert (HasPrefix path "/" = true) as -> by apply rooted_HasPrefix.
  cbv zeta. rewrite Hsegs. cbn [foldl].
  rewrite !clean_step_keep by done. unfold ends_in_slash. rewrite Hsplit. cbn.
  by destruct m.
Qed.
