(* ===== verification/Token.v ===== *)
(** * The internal token keys ([internal/token])

    The gateway signs internal tokens with a key it reads from files and accepts
    context tokens signed with any key it publishes.  The key provider, the
    issuer and the context verifier are those of internal-jwt-handling; this
    file models how the gateway builds them from its key files (issuer.go,
    context.go) and how it resolves a key ID (resolver.go). *)

From S2P Require Import Prelude GoStd GoErrors.

(** [issuer.KeyFile] and [FileKeys] *)
Record KeyFile : Type := { Path : string; KeyID : string }.

#[export] Instance KeyFile_eq_dec : EqDecision KeyFile.
Proof. solve_decision. Defined.

Record FileKeys : Type := { Signing : KeyFile; Published : list KeyFile }.

(** [issuer.FileKeyProviderConfig] *)
Record FileKeyProviderConfig : Type := {
  provider_Signing : KeyFile;
  provider_Published : list KeyFile;
  provider_RefreshInterval : Duration;
}.

(** [issuer.KeySet]: the public half of the signing key ([None] for a nil key)
    and the keys that are published next to it. *)
Record SigningKey {Key : Type} : Type := { signing_KeyID : string; signing_Key : option Key }.
Arguments SigningKey : clear implicits.

Record PublishedKey {Key : Type} : Type := { published_KeyID : string; published_Key : Key }.
Arguments PublishedKey : clear implicits.

Record KeySet {Key : Type} : Type := {
  set_Signing : SigningKey Key;
  set_Published : list (PublishedKey Key);
}.
Arguments KeySet : clear implicits.

(** [issuer.KeyProvider] *)
Record KeyProvider (W Key : Type) : Type := { Current : M W (result error (KeySet Key)) }.
Arguments Current {W Key}.

(** The sentinel [internaljwt.ErrUnknownKeyID] and [verifier.ErrMissingKeyResolver],
    by the texts of their library. *)
Class KeyErrors : Type := { ErrUnknownKeyID : string; ErrMissingKeyResolver : string }.

Section token.
Context {W Key Issuer ContextVerifier : Type} `{!KeyErrors}.

(** [issuer.NewFileKeyProvider], [issuer.New] and [verifier.NewContextVerifier] *)
Context (NewFileKeyProvider : FileKeyProviderConfig → result error (KeyProvider W Key)).
Context (issuer_New : string → KeyProvider W Key → result error Issuer).
Context (verifier_NewContextVerifier :
  string → (string → M W (result error Key)) → result error ContextVerifier).

Definition NewIssuerFromFiles (issuerID : string) (keys : FileKeys) :
    result error (Issuer * KeyProvider W Key) :=
  match NewFileKeyProvider
          {| provider_Signing := Signing keys; provider_Published := Published keys;
             provider_RefreshInterval := 0 |} with
  | Err err => Err (Errorf "read internal JWT key files: %w" [err] [])
  | Ok provider =>
      match issuer_New issuerID provider with
      | Err err => Err (Errorf "create internal JWT issuer: %w" [err] [])
      | Ok internalIssuer => Ok (internalIssuer, provider)
      end
  end.

(** [LocalKeyResolver] *)
Record LocalKeyResolver : Type := { keys : KeyProvider W Key }.

Definition NewLocalKeyResolver (keys : KeyProvider W Key) : LocalKeyResolver := {| keys := keys |}.

Fixpoint findPublished (keyID : string) (published : list (PublishedKey Key)) : option Key :=
  match published with
  | [] => None
  | k :: rest =>
      if decide (published_KeyID k = keyID) then Some (published_Key k)
      else findPublished keyID rest
  end.

(** [LocalKeyResolver.Key] *)
Definition resolver_Key (r : LocalKeyResolver) (keyID : string) : M W (result error Key) :=
  let! current := Current (keys r) in
  mret_ (match current with
         | Err err => Err (Errorf "load internal JWT keys: %w" [err] [])
         | Ok keySet =>
             let published :=
               match findPublished keyID (set_Published keySet) with
               | Some key => Ok key
               | None => Err (Errorf "%w: %q" [ErrorNew ErrUnknownKeyID] [keyID])
               end in
             match signing_Key (set_Signing keySet) with
             | Some key =>
                 if decide (signing_KeyID (set_Signing keySet) = keyID) then Ok key else published
             | None => published
             end
         end).

Definition NewContextVerifier (issuerID : string) (keys : option (KeyProvider W Key)) :
    result error ContextVerifier :=
  match keys with
  | None => Err (ErrorNew ErrMissingKeyResolver)
  | Some keys =>
      match verifier_NewContextVerifier issuerID (resolver_Key (NewLocalKeyResolver keys)) with
      | Err err => Err (Errorf "create context token verifier: %w" [err] [])
      | Ok contextVerifier => Ok contextVerifier
      end
  end.
End token.

Arguments LocalKeyResolver : clear implicits.

(** ** Resolution *)

(** The keys a key set holds, under their IDs. *)
Definition holds {Key} (keySet : KeySet Key) (keyID : string) (key : Key) : Prop :=
  (signing_KeyID (set_Signing keySet) = keyID ∧ signing_Key (set_Signing keySet) = Some key) ∨
  {| published_KeyID := keyID; published_Key := key |} ∈ set_Published keySet.

(** Its key IDs are distinct, as the configuration demands of the files. *)
Definition distinct {Key} (keySet : KeySet Key) : Prop :=
  NoDup (signing_KeyID (set_Signing keySet) :: (published_KeyID <$> set_Published keySet)).

Lemma findPublished_Some {Key} keyID (published : list (PublishedKey Key)) key :
  NoDup (published_KeyID <$> published) →
  findPublished keyID published = Some key ↔
  {| published_KeyID := keyID; published_Key := key |} ∈ published.
Proof.
  induction published as [|[id k] l IH]; cbn [findPublished published_KeyID published_Key].
  { intros _. split; [done|]. by intros ?%not_elem_of_nil. }
  rewrite fmap_cons, NoDup_cons. intros [Hid Hl]. cbn [published_KeyID] in Hid.
  rewrite elem_of_cons. destruct (decide (id = keyID)) as [->|Hne].
  - split; [intros [= ->]; by left|]. intros [[= ->]|Hin]; [done|]. exfalso. apply Hid.
    by apply (list_elem_of_fmap_2 published_KeyID) in Hin.
  - rewrite IH by done. split; [by right|]. by intros [[= -> ->]|].
Qed.

Lemma findPublished_None {Key} keyID (published : list (PublishedKey Key)) :
  findPublished keyID published = None ↔ keyID ∉ published_KeyID <$> published.
Proof.
  induction published as [|[id k] l IH]; cbn [findPublished published_KeyID published_Key].
  { split; [intros _; apply not_elem_of_nil|done]. }
  rewrite fmap_cons, not_elem_of_cons. cbn [published_KeyID]. case_decide; [|rewrite IH]; naive_solver.
Qed.

(** An answer that is right about a key ID. *)
Definition resolves {Key} `{!KeyErrors} (keySet : KeySet Key) (keyID : string)
    (answer : result error Key) : Prop :=
  (∀ key, answer = Ok key ↔ holds keySet keyID key) ∧
  ((∀ key, ¬ holds keySet keyID key) → ∃ err, answer = Err err ∧ Is err ErrUnknownKeyID = true).

Lemma published_resolves {Key} `{!KeyErrors} (keySet : KeySet Key) keyID :
  NoDup (published_KeyID <$> set_Published keySet) →
  (∀ key, signing_KeyID (set_Signing keySet) = keyID → signing_Key (set_Signing keySet) ≠ Some key) →
  resolves keySet keyID
    match findPublished keyID (set_Published keySet) with
    | Some key => Ok key
    | None => Err (Errorf "%w: %q" [ErrorNew ErrUnknownKeyID] [keyID])
    end.
Proof.
  intros Hp Hns. pose proof (λ key, findPublished_Some keyID _ key Hp) as Hfind.
  unfold resolves, holds. split.
  - intros key. rewrite <-Hfind. destruct (findPublished _ _) as [k|].
    + split; [intros [= ->]; by right|]. intros [[Hk Hk']|[= ->]]; [by apply Hns in Hk'|done].
    + split; [done|]. intros [[Hk Hk']|?]; [by apply Hns in Hk'|done].
  - intros Hno. destruct (findPublished _ _) as [k|].
    + exfalso. apply (Hno k). right. by apply Hfind.
    + eexists. split; [done|]. simpl. by rewrite bool_decide_eq_true_2.
Qed.

(** ** Properties *)

(** A key ID resolves to exactly the key the current key set holds under it,
    the signing key or a published one; an ID it does not hold is reported with
    the sentinel callers test for, and a key set that cannot be read is an error
    of its own.  Nothing is remembered between calls: every call reads the key
    set, so a rotated file takes effect at once. *)
Theorem resolver_key_spec {W Key} `{!KeyErrors} (provider : KeyProvider W Key) keyID w current w' :
  Current provider w = (current, w') →
  ∃ answer, resolver_Key (NewLocalKeyResolver provider) keyID w = (answer, w') ∧
  match current with
  | Err err => answer = Err (Errorf "load internal JWT keys: %w" [err] [])
  | Ok keySet => distinct keySet → resolves keySet keyID answer
  end.
Proof.
  intros Hc. unfold resolver_Key, mbind_, mret_. cbn [keys NewLocalKeyResolver]. rewrite Hc.
  eexists. split; [done|]. destruct current as [keySet|err]; [|done].
  intros [Hs Hp]%NoDup_cons. cbv zeta.
  destruct (signing_Key (set_Signing keySet)) as [key|] eqn:Hk; [|apply published_resolves; congruence].
  destruct (decide (signing_KeyID (set_Signing keySet) = keyID)) as [Hid|];
    [|by apply published_resolves].
  split; [|intros Hno; exfalso; apply (Hno key); by left].
  intros key'. split; [intros [= ->]; by left|]. intros [[_ Hk']|Hin]; [congruence|].
  exfalso. apply Hs. rewrite Hid. by apply (list_elem_of_fmap_2 published_KeyID) in Hin.
Qed.

Definition example_errors : KeyErrors :=
  {| ErrUnknownKeyID := "unknown key ID"; ErrMissingKeyResolver := "missing key resolver" |}.

Definition example_keySet : KeySet Z :=
  {| set_Signing := {| signing_KeyID := "a"; signing_Key := Some 1 |};
     set_Published := [{| published_KeyID := "b"; published_Key := 2 |}] |}.

Lemma resolver_key_spec_witness :
  ∃ answer,
    resolver_Key (H := example_errors)
      (NewLocalKeyResolver {| Current := λ w : nat, (Ok example_keySet, S w) |}) "b" 0%nat
      = (answer, 1%nat) ∧
    (distinct example_keySet → resolves (H := example_errors) example_keySet "b" answer).
Proof.
  apply (resolver_key_spec (H := example_errors)
           {| Current := λ w : nat, (Ok example_keySet, S w) |} "b" 0%nat (Ok example_keySet) 1%nat).
  reflexivity.
Defined.
