(* ===== verification/Telemetry.v ===== *)
(** * Tracing ([internal/telemetry])

    Which tracing pipeline [Setup] installs: the environment decides whether
    spans are exported.  The OpenTelemetry calls that can fail are parameters. *)

From S2P Require Import Prelude GoStd GoErrors.

Definition DefaultServiceName : string := "tolo-service-gateway".
Definition envServiceName : string := "OTEL_SERVICE_NAME".
Definition envOTLPEndpoint : string := "OTEL_EXPORTER_OTLP_ENDPOINT".
Definition envOTLPTracesPoint : string := "OTEL_EXPORTER_OTLP_TRACES_ENDPOINT".

(** What [Setup] installs: the service name of its resource, and whether the
    provider has a batching exporter. *)
Record Pipeline : Type := { resource_ServiceName : string; exports : bool }.

#[export] Instance Pipeline_eq_dec : EqDecision Pipeline.
Proof. solve_decision. Defined.

Section telemetry.
Context (Getenv : string → string).
(** [resource.Merge] of the default resource with the one of a service name, and
    [otlptracehttp.New]; [Some] is their error. *)
Context (Merge : string → option error) (otlptracehttp_New : option error).

Fixpoint anySet (keys : list string) : bool :=
  match keys with
  | [] => false
  | key :: rest => if decide (Getenv key ≠ "") then true else anySet rest
  end.

Definition endpointConfigured : bool := anySet [envOTLPTracesPoint; envOTLPEndpoint].

Definition Enabled : bool := endpointConfigured.

Definition ServiceName : string :=
  let name := Getenv envServiceName in if decide (name ≠ "") then name else DefaultServiceName.

Definition newResource : result error string :=
  match Merge ServiceName with
  | Some err => Err (Errorf "build telemetry resource: %w" [err] [])
  | None => Ok ServiceName
  end.

Definition Setup : result error Pipeline :=
  let? res := newResource in
  if endpointConfigured then
    match otlptracehttp_New with
    | Some err => Err (Errorf "create OTLP trace exporter: %w" [err] [])
    | None => Ok {| resource_ServiceName := res; exports := true |}
    end
  else Ok {| resource_ServiceName := res; exports := false |}.

(** ** What [Setup] changes in the process *)

Inductive Propagator : Type := TraceContext | Baggage.

(** The globals of OpenTelemetry.  Its logger is the handler of the default
    logger at the time of the call; its error handler looks the default logger up
    when it is called. *)
Inductive Global : Type :=
| SetLogger
| SetErrorHandler
| SetTextMapPropagator (propagators : list Propagator)
| SetTracerProvider (pipeline : Pipeline).

Definition setupInternalLogging : list Global := [SetLogger; SetErrorHandler].

(** The statements of [Setup] in order; a failure ends them. *)
Definition installs : list Global :=
  setupInternalLogging ++ SetTextMapPropagator [TraceContext; Baggage]
    :: match Setup with Err _ => [] | Ok pipeline => [SetTracerProvider pipeline] end.

(** A process that goes on propagates the trace context and has a provider: no
    request is without trace and span IDs, exporting or not. *)
Lemma installs_ok p :
  Setup = Ok p →
  installs = [SetLogger; SetErrorHandler; SetTextMapPropagator [TraceContext; Baggage]; SetTracerProvider p].
Proof. unfold installs. by intros ->. Qed.

(** The pipeline exports exactly when an endpoint is set, and without one no
    exporter can fail. *)
Lemma Setup_ok p :
  Setup = Ok p ↔
  Merge ServiceName = None ∧ (Enabled = true → otlptracehttp_New = None) ∧
  p = {| resource_ServiceName := ServiceName; exports := Enabled |}.
Proof.
  unfold Setup, newResource, Enabled. destruct (Merge ServiceName) as [err|]; simpl.
  { split; [done|]. by intros [? _]. }
  destruct endpointConfigured; [destruct otlptracehttp_New as [err|]|].
  - split; [done|]. intros (_ & Hnew & _). by specialize (Hnew eq_refl).
  - split; [by intros [= <-]|]. by intros (_ & _ & ->).
  - split; [by intros [= <-]|]. by intros (_ & _ & ->).
Qed.

Lemma Enabled_true :
  Enabled = true ↔ Getenv envOTLPTracesPoint ≠ "" ∨ Getenv envOTLPEndpoint ≠ "".
Proof.
  unfold Enabled, endpointConfigured. cbn [anySet]. repeat case_decide; split; intros; tauto || done.
Qed.
End telemetry.
