(* ===== verification/Httpapi.v ===== *)
(** * The HTTP endpoints of a listener ([internal/infra/httpapi])

    Liveness and readiness (health.go), the JWKS endpoint (jwks.go) and the
    handler of a listener (httpapi.go).  An endpoint's answer is the headers it
    sets and the calls it makes on the [ResponseWriter]; for the JWKS document it
    is what the endpoint hands to [http.ServeContent], which then answers range
    and conditional requests by itself. *)

From S2P Require Import Prelude GoStd GoErrors Mux.
From S2P Require Base64 Gateway.

(** ** Readiness *)

(** [ReadinessCheck] *)
Definition ReadinessCheck (W : Type) : Type := M W (option error).

Record readinessEntry {W : Type} : Type := { name : string; check : ReadinessCheck W }.
Arguments readinessEntry : clear implicits.

(** [Readiness]: the entries the mutex guards. *)
Definition Readiness (W : Type) : Type := list (readinessEntry W).

Definition NewReadiness {W} : Readiness W := [].

Definition Register {W} (r : Readiness W) (name : string) (check : ReadinessCheck W) :
    Readiness W :=
  r ++ [{| name := name; check := check |}].

(** The entries as they are when the request arrives. *)
Definition snapshot {W} (r : Readiness W) : list (readinessEntry W) := r.

Definition StatusServiceUnavailable : Z := 503.

(** An answer: the headers set and the calls on the response writer. *)
Record Answer : Type := {
  answer_header : list (string * string);
  answer_events : list Gateway.ResponseEvent;
}.

Definition handleHealthz : Answer :=
  {| answer_header := [];
     answer_events := [Gateway.WriteHeader Gateway.StatusOK; Gateway.Write "ok"] |}.

(** The loop of [handleReadyz]: every check runs, also after one failed. *)
Fixpoint runChecks {W} (entries : list (readinessEntry W)) (status : Z) (body : string) :
    M W (Z * string) :=
  match entries with
  | [] => mret_ (status, body)
  | entry :: rest =>
      let! failed := check entry in
      match failed with
      | Some _ => runChecks rest StatusServiceUnavailable "not ready"
      | None => runChecks rest status body
      end
  end.

Definition handleReadyz {W} (readiness : Readiness W) : M W Answer :=
  let! outcome := runChecks (snapshot readiness) Gateway.StatusOK "ok" in
  let '(status, body) := outcome in
  mret_ {| answer_header := [];
           answer_events := [Gateway.WriteHeader status; Gateway.Write body] |}.

(** ** The JWKS document *)

Definition JWKSPath : string := "/.well-known/jwks.json".
Definition jwksCacheControl : string := "public, max-age=300".
Definition jwksContentType : string := "application/json".
Definition jwksUnavailableMsg : string := "jwks unavailable".

(** What the endpoint does: it serves content, or it answers by itself. *)
Inductive JWKSAnswer : Type :=
| ServeContent (header : list (string * string)) (body : string)
| AnswerUnavailable (answer : Answer).

Section jwks.
Context {W Document : Type}.

(** The interface [JWKSSource], [json.Marshal] and [sha256.Sum256]. *)
Context (JWKS : M W (result error Document)).
Context (Marshal : Document → result error string) (Sum256 : string → list Z).

Definition encodeJWKS : M W (result error string) :=
  let! document := JWKS in
  mret_ (match document with
         | Err err => Err (Errorf "read the internal JWT verification keys: %w" [err] [])
         | Ok document =>
             match Marshal document with
             | Err err => Err (Errorf "encode the JWKS document: %w" [err] [])
             | Ok encoded => Ok encoded
             end
         end).

Definition quote : string := String "034" "".

Definition jwksETag (body : string) : string :=
  quote +:+ Base64.EncodeToString (Sum256 body) +:+ quote.

Definition writeJWKSUnavailable : Answer :=
  {| answer_header := [("Cache-Control", "no-store"); ("Content-Type", "text/plain; charset=utf-8")];
     answer_events :=
       [Gateway.WriteHeader StatusServiceUnavailable; Gateway.Write jwksUnavailableMsg] |}.

Definition JWKSHandler : M W JWKSAnswer :=
  let! encoded := encodeJWKS in
  mret_ (match encoded with
         | Err _ => AnswerUnavailable writeJWKSUnavailable
         | Ok body =>
             ServeContent [("Content-Type", jwksContentType); ("Cache-Control", jwksCacheControl);
                           ("ETag", jwksETag body)] body
         end).
End jwks.

(** ** The handler of a listener *)

(** The handlers a listener registers. *)
Inductive Endpoint {W : Type} : Type :=
| HealthzEndpoint
| ReadyzEndpoint
| JWKSEndpoint
| RPCEndpoint (handler : Gateway.HTTPHandler W).
Arguments Endpoint : clear implicits.

(** [Routes]: the registrations a component makes with the mux. *)
Definition Routes (W : Type) : Type := list (string * Endpoint W).

Definition HealthRoutes {W} : Routes W :=
  [("GET /healthz", HealthzEndpoint); ("GET /readyz", ReadyzEndpoint)].

Definition PublicRoutes {W} : Routes W := [("GET " +:+ JWKSPath, JWKSEndpoint)].

(** [NewHandler]: [None] when the mux panics over a pattern. *)
Definition NewHandler {W} (routes : list (Routes W)) : option (ServeMux (Endpoint W)) :=
  HandleAll [] (concat routes).

(** ** The mux of a listener *)

(** The literal patterns a listener registers. *)
Definition get (path : list string) : pattern :=
  {| pat_Method := "GET"; pat_Segments := path; pat_Subtree := false |}.

Definition literals {W} (public : bool) : ServeMux (Endpoint W) :=
  [(get ["healthz"], HealthzEndpoint); (get ["readyz"], ReadyzEndpoint)]
  ++ (if public then [(get [".well-known"; "jwks.json"], JWKSEndpoint)] else []).

Section listener.
Context {W : Type}.
Context (public : bool) (services : list (string * Endpoint W)) (fallback : Endpoint W).

Hypothesis Hnames : Forall (λ s, plain_segment s = true) services.*1.
Hypothesis Hservices : NoDup services.*1.

Definition listenerRoutes : list (Routes W) :=
  [HealthRoutes] ++ (if public then [PublicRoutes] else [])
  ++ [((λ s, ("/" +:+ s.1 +:+ "/", s.2)) <$> services) ++ [("/", fallback)]].

Lemma compatible_literal (p : pattern) (h h' : Endpoint W) s :
  pat_Method p = "GET" → pat_Subtree p = false → compatible (p, h) (subtree_of s, h').
Proof.
  intros Hm Hs. destruct p as [method segs subtree]. simpl in *. subst.
  unfold compatible, conflictsWith, comparePaths, below, compareMethods. cbn -[bool_decide].
  rewrite !andb_false_r. cbn -[bool_decide].
  destruct segs as [|a [|b segs]]; cbn -[bool_decide]; try done;
    destruct (bool_decide (a = s)); done.
Qed.

Lemma services_compatible :
  StronglySorted compatible ((λ s : string * Endpoint W, (subtree_of s.1, s.2)) <$> services).
Proof.
  clear Hnames. induction services as [|[s h] l IH]; [constructor|].
  apply NoDup_cons in Hservices as [Hs Hl]. rewrite fmap_cons. constructor; [by apply IH|].
  apply Forall_fmap, Forall_forall. intros [t h'] Ht. simpl. apply compatible_services.
  intros ->. apply Hs. by apply (list_elem_of_fmap_2 fst) in Ht.
Qed.

Lemma NewHandler_services : NewHandler listenerRoutes = Some (service_mux (literals public) services fallback).
Proof.
  set (routes := ((λ c : pattern * Endpoint W,
      ("GET /" +:+ Join (pat_Segments c.1) "/", c)) <$> literals public)
    ++ ((λ s : string * Endpoint W, ("/" +:+ s.1 +:+ "/", (subtree_of s.1, s.2))) <$> services)
    ++ [("/", (root, fallback))]).
  assert (concat listenerRoutes = (λ r, (r.1, r.2.2)) <$> routes) as Hroutes.
  { unfold listenerRoutes, routes. rewrite !fmap_app, <-!list_fmap_compose.
    destruct public; cbn; rewrite ?app_nil_r; done. }
  assert (routes.*2 = service_mux (literals public) services fallback) as Hpatterns.
  { unfold routes, service_mux. rewrite !fmap_app, <-!list_fmap_compose. f_equal.
    apply list_fmap_id. }
  unfold NewHandler. rewrite Hroutes, <-Hpatterns. apply (HandleAll_compatible []).
  - unfold routes. rewrite !Forall_app, !Forall_fmap. split_and!.
    + destruct public; repeat constructor.
    + apply Forall_forall. intros [s h] Hs. simpl. apply parsePattern_service.
      rewrite Forall_forall in Hnames. apply Hnames. by apply (list_elem_of_fmap_2 fst) in Hs.
    + by repeat constructor.
  - cbn [app]. rewrite Hpatterns. unfold service_mux. apply StronglySorted_app. split_and!.
    + intros c d Hc [(s & -> & _)%list_elem_of_fmap|Hd%list_elem_of_singleton]%elem_of_app; [|subst d].
      * destruct c as [p h]. apply compatible_literal; unfold literals in Hc; destruct public;
          repeat apply elem_of_cons in Hc as [[= -> ->]|Hc]; done || by apply elem_of_nil in Hc.
      * destruct c as [p h]. unfold literals in Hc; destruct public;
          repeat apply elem_of_cons in Hc as [[= -> ->]|Hc]; done || by apply elem_of_nil in Hc.
    + destruct public; repeat constructor.
    + apply StronglySorted_app. split_and!; [|apply services_compatible|by repeat constructor].
      intros c d (s & -> & _)%list_elem_of_fmap Hd%list_elem_of_singleton. subst d.
      apply compatible_root.
Qed.

(** Who answers a request for a clean path; [path] is its decoded form. *)
Definition served (method path : string) (segs : list string) : Routed (Endpoint W) :=
  let reads := bool_decide (method = "GET" ∨ method = "HEAD") in
  if reads && bool_decide (segs = ["healthz"]) then Handled HealthzEndpoint
  else if reads && bool_decide (segs = ["readyz"]) then Handled ReadyzEndpoint
  else if reads && bool_decide (segs = [".well-known"; "jwks.json"]) && public then Handled JWKSEndpoint
  else
    match segs with
    | [service] => if decide (service ∈ services.*1) then Redirected (path +:+ "/") else Handled fallback
    | service :: _ :: _ => Handled (default fallback ((list_to_map services : gmap _ _) !! service))
    | [] => Handled fallback
    end.

Lemma literal_served method segs :
  match literal (literals public) method segs with
  | Some c => Handled (H := Endpoint W) c.2
  | None => NotFound_
  end = (let reads := bool_decide (method = "GET" ∨ method = "HEAD") in
    if reads && bool_decide (segs = ["healthz"]) then Handled HealthzEndpoint
    else if reads && bool_decide (segs = ["readyz"]) then Handled ReadyzEndpoint
    else if reads && bool_decide (segs = [".well-known"; "jwks.json"]) && public then Handled JWKSEndpoint
    else NotFound_).
Proof.
  unfold literal. destruct (decide (method = "GET" ∨ method = "HEAD")) as [Hm|Hm].
  2: { by rewrite bool_decide_eq_false_2. }
  rewrite bool_decide_eq_true_2 by done. cbn [andb]. cbv zeta. unfold literals.
  destruct (decide (segs = ["healthz"])) as [->|H1]; [by destruct public|].
  destruct (decide (segs = ["readyz"])) as [->|H2]; [by destruct public|].
  rewrite (bool_decide_eq_false_2 (segs = ["healthz"])), (bool_decide_eq_false_2 (segs = ["readyz"])) by done.
  destruct (decide (segs = [".well-known"; "jwks.json"])) as [->|H3]; [by destruct public|].
  rewrite (bool_decide_eq_false_2 (segs = [".well-known"; "jwks.json"])) by done.
  destruct public; cbn [app List.filter fst pat_Segments get];
    rewrite ?(bool_decide_eq_false_2 (segs = ["healthz"])), ?(bool_decide_eq_false_2 (segs = ["readyz"])),
      ?(bool_decide_eq_false_2 (segs = [".well-known"; "jwks.json"])) by done; done.
Qed.

Lemma findHandler_served unescape method path :
  unescape "" = "" → method ≠ "" → method ≠ "CONNECT" → cleanPath path = path →
  findHandler unescape (service_mux (literals public) services fallback) method path
    = served method (cleanPath (unescape path)) (unescape <$> segments path).
Proof.
  intros Hun Hm Hconnect Hclean.
  rewrite findHandler_service_mux; try done.
  - set (segs := unescape <$> segments path). unfold route, served.
    pose proof (literal_served method segs) as Hl. cbv zeta in Hl |- *.
    destruct (literal (literals public) method segs) as [c|].
    + destruct (_ && _); [done|]. destruct (_ && _); [done|]. destruct (_ && _ && _); done.
    + destruct (_ && _); [done|]. destruct (_ && _); [done|]. destruct (_ && _ && _); [done|].
      destruct segs as [|s [|m rest]]; [done|done|]. unfold below_services. f_equal.
      destruct (list_find (λ p, p.1 = s) services) as [[i [s' h]]|] eqn:Hf.
      * apply list_find_Some in Hf as (Hi & Hs & _). simpl in Hs. subst s'. simpl.
        by rewrite (proj1 (elem_of_list_to_map services s h Hservices)
                     (list_elem_of_lookup_2 _ _ _ Hi)).
      * rewrite not_elem_of_list_to_map_1; [done|]. intros ([s' h] & -> & Hin)%list_elem_of_fmap.
        apply list_find_None in Hf. rewrite Forall_forall in Hf. by apply (Hf _ Hin).
  - unfold literals. destruct public; repeat constructor.
  - unfold literals. destruct public; repeat constructor; done.
  - intros Hin. rewrite Forall_forall in Hnames. apply Hnames in Hin. done.
Qed.
End listener.

(** ** Readiness *)

(** Every check in turn. *)
Fixpoint probe {W} (entries : list (readinessEntry W)) : M W (list (option error)) :=
  match entries with
  | [] => mret_ []
  | entry :: rest => let! o := check entry in let! os := probe rest in mret_ (o :: os)
  end.

Definition passes (outcomes : list (option error)) : bool :=
  forallb (λ o, bool_decide (o = None)) outcomes.

Lemma runChecks_probe {W} (entries : list (readinessEntry W)) status body w :
  runChecks entries status body w
    = ((if passes (probe entries w).1 then (status, body) else (StatusServiceUnavailable, "not ready")),
       (probe entries w).2).
Proof.
  revert status body w. induction entries as [|entry rest IH]; intros status body w; [done|].
  cbn [runChecks probe]. run_monad. destruct (check entry w) as [[err|] w1]; rewrite IH;
    destruct (probe rest w1) as [os w2]; unfold passes; cbn; destruct (forallb _ os); done.
Qed.

(** ** Properties *)

(** [/readyz] answers 200 exactly when every registered check passes and 503
    otherwise; each check runs once per request, in the order of registration,
    also after one has failed. *)
Theorem readyz_spec {W} (readiness : Readiness W) w outcomes w' :
  probe readiness w = (outcomes, w') →
  ∃ answer, handleReadyz readiness w = (answer, w') ∧
    length outcomes = length readiness ∧
    Gateway.response_status (answer_events answer)
      = (if passes outcomes then Gateway.StatusOK else StatusServiceUnavailable) ∧
    answer_events answer
      = (if passes outcomes then answer_events handleHealthz
         else [Gateway.WriteHeader StatusServiceUnavailable; Gateway.Write "not ready"]).
Proof.
  intros Hp. unfold handleReadyz, mbind_, snapshot. rewrite runChecks_probe, Hp. cbn [fst snd].
  assert (length outcomes = length readiness) as Hlen.
  { revert w outcomes w' Hp. induction readiness as [|entry rest IH]; intros w outcomes w' Hp.
    { by injection Hp as <- _. }
    cbn [probe] in Hp. unfold mbind_, mret_ in Hp. destruct (check entry w) as [o w1].
    destruct (probe rest w1) as [os w2] eqn:Hos. injection Hp as <- _. cbn. f_equal. by eapply IH. }
  by destruct (passes outcomes); eexists.
Qed.

Definition example_readiness : Readiness nat :=
  Register (Register NewReadiness "down" (λ w, (Some (ErrorNew "no key"), S w))) "up"
    (λ w, (None, S w)).

Lemma readyz_spec_witness :
  ∃ answer, handleReadyz example_readiness 0%nat = (answer, 2%nat) ∧ 2%nat = 2%nat ∧
    Gateway.response_status (answer_events answer) = 503 ∧
    answer_events answer = [Gateway.WriteHeader 503; Gateway.Write "not ready"].
Proof.
  apply (readyz_spec example_readiness 0%nat [Some (ErrorNew "no key"); None] 2%nat). reflexivity.
Defined.

(** ** The HTTP server of a listener ([server.go]) *)

Definition readHeaderTimeout : Duration := 10 * Second.

(** The fields of [http.Server] that are set, the error log apart. *)
Record http_Server (H : Type) : Type := {
  server_Addr : string;
  server_Handler : H;
  server_HTTP1 : bool;
  server_UnencryptedHTTP2 : bool;
  server_ReadHeaderTimeout : Duration;
}.
Arguments Build_http_Server {H}.

Definition NewServer {H} (addr : string) (handler : H) : http_Server H :=
  {| server_Addr := addr; server_Handler := handler; server_HTTP1 := true;
     server_UnencryptedHTTP2 := true; server_ReadHeaderTimeout := readHeaderTimeout |}.
