(* ===== verification/FakeIdp.v ===== *)
(** * The fake identity provider ([internal/fakeidp], [cmd/fakeidp])

    A development stand-in for the IdP: it signs tokens on request, publishes
    its key, introspects and revokes.  It is the other end of the gateway's own
    IdP code, so it is where that code's expectations can be met: the theorems
    put the documents it serves and the claims it signs through the gateway's
    key set and verifier. *)

From S2P Require Import Prelude GoStd GoErrors Base64 GoUrl.
From Stdlib Require Import DecimalString DecimalPos DecimalZ.
From S2P Require Mux Verifier KeySet Discovery Config Logging.

Import Verifier (json, JNull, JBool, JNumber, JString, JArray, JObject).

Abbreviation MapClaims := (gmap string json).

Definition JWKSPath : string := "/oauth2/jwks".
Definition IntrospectionPath : string := "/oauth2/introspect".
Definition TokenPath : string := "/token".
Definition RevokePath : string := "/revoke".
Definition openIDConfigurationPath : string := "/.well-known/openid-configuration".
Definition authorizationServerPath : string := "/.well-known/oauth-authorization-server".

Definition keyID : string := "fake-idp-1".
Definition keySize : Z := 2048.
Definition defaultTTL : Duration := 5 * Minute.
Definition maxRequestSize : Z := 2 ^ 16.
Definition tokenIDByteLength : nat := 16.

Definition ErrInvalidConfig : string := "fakeidp: the config is invalid".
Definition ErrUnknownToken : string := "fakeidp: this IdP did not issue a usable token with this value".

Record Config : Type := {
  config_Issuer : string;
  config_Audience : string;
  config_IntrospectionClientID : string;
  config_IntrospectionClientSecret : string;
}.

Record tokenRequest : Type := {
  TokenUse : string;
  Subject : string;
  ClientID : string;
  Scope : string;
  TenantID : string;
  EventID : string;
  TTLSeconds : Z;
  ExtraClaims : gmap string json;
}.

Definition reservedTokenClaims : list string :=
  ["iss"; "aud"; "jti"; "iat"; "nbf"; "exp"; "token_use"; "sub"; "client_id"; "scope"; "tenant_id";
   "event_id"].

Record revokeRequest : Type := { revoke_JTI : string; revoke_Token : string }.

(** [provider]; its revocations are the state of the handlers. *)
Record provider {K : Type} : Type := {
  issuer : string;
  audience : string;
  key : K;
  clientID : string;
  clientSecret : string;
}.
Arguments provider : clear implicits.

(** An answer of a handler: a JSON object, or [http.Error] after the headers set. *)
Inductive Response : Type :=
| WriteJSON (body : list (string * json))
| HTTPError (header : list (string * string)) (text : string) (status : Z).

Definition StatusBadRequest : Z := 400.
Definition StatusUnauthorized : Z := 401.
Definition StatusInternalServerError : Z := 500.

(** ** Machine integers and times *)

(** A conversion to [int64]. *)
Definition int64 (n : Z) : Z := (n + 2 ^ 63) mod 2 ^ 64 - 2 ^ 63.

(** [Time.Unix]: seconds since 1970, where a time counts from the year 1. *)
Definition Unix (t : Time) : Z := t / Second - 62135596800.

(** ** What the provider is built on

    [W] is the world of the random source, the clock and the JWT library; a
    private key shows its public half. *)
Class Library (W K : Type) : Type := {
  GenerateKey : result error K;
  key_N : K → Z;
  key_E : K → Z;
  rand_Read : nat → M W (result error (list Z));
  Now : M W Time;
  (** [SignedString] of an RS256 token with a [kid] header *)
  SignedString : K → string → MapClaims → result error string;
  (** [jwt.ParseWithClaims] with the key, the issuer and the audience, RS256
      alone and the expiry required; [None] for an error or an invalid token *)
  ParseWithClaims : K → string → string → string → M W (option MapClaims);
  url_Parse : string → result error URL;
  (** a JSON decoder behind [http.MaxBytesReader] of a size *)
  DecodeToken : Z → string → result error (gmap string json);
  DecodeRevoke : Z → string → result error revokeRequest;
  (** [json.Unmarshal] of a value into an [any] *)
  UnmarshalAny : json → result error json;
  (** [ParseForm] of a body of a content type behind [http.MaxBytesReader], and
      then [PostFormValue] *)
  ParseForm : Z → string → string → result error (string → string);
}.

Section fakeidp.
Context {W K : Type} `{!Library W K}.

(** ** Construction *)

Definition checkIssuer (issuer : string) : option error :=
  match url_Parse issuer with
  | Err err => Some (Errorf "%w: issuer %q: %w" [ErrorNew ErrInvalidConfig; err] [issuer])
  | Ok parsed =>
      if (negb (bool_decide (URL_Scheme parsed = "http"))
          && negb (bool_decide (URL_Scheme parsed = "https")))
         || bool_decide (URL_Host parsed = "")
      then Some (Errorf "%w: issuer %q is not an absolute HTTP URL" [ErrorNew ErrInvalidConfig] [issuer])
      else None
  end.

Inductive Endpoint : Type :=
| MetadataEndpoint | JWKSEndpoint | TokenEndpoint | IntrospectionEndpoint | RevokeEndpoint.

Definition routes : list (string * Endpoint) :=
  [("GET " +:+ openIDConfigurationPath, MetadataEndpoint);
   ("GET " +:+ authorizationServerPath, MetadataEndpoint);
   ("GET " +:+ JWKSPath, JWKSEndpoint);
   ("POST " +:+ TokenPath, TokenEndpoint);
   ("POST " +:+ IntrospectionPath, IntrospectionEndpoint);
   ("POST " +:+ RevokePath, RevokeEndpoint)].

(** [NewHandler]: the provider behind the handlers of [routes]. *)
Definition NewHandler (config : Config) : result error (provider K) :=
  match checkIssuer (config_Issuer config) with
  | Some err => Err err
  | None =>
      if decide (config_Audience config = "") then
        Err (Errorf "%w: audience is required" [ErrorNew ErrInvalidConfig] [])
      else
        match GenerateKey with
        | Err err => Err (Errorf "generate the signing key: %w" [err] [])
        | Ok k =>
            if negb (Bool.eqb (bool_decide (config_IntrospectionClientID config = ""))
                       (bool_decide (config_IntrospectionClientSecret config = ""))) then
              Err (Errorf "%w: the introspection client ID and its secret are set together or not at all"
                     [ErrorNew ErrInvalidConfig] [])
            else
              Ok {| issuer := config_Issuer config; audience := config_Audience config; key := k;
                    clientID := config_IntrospectionClientID config;
                    clientSecret := config_IntrospectionClientSecret config |}
        end
  end.

Definition handleMetadata (p : provider K) : Response :=
  WriteJSON
    [("issuer", JString (issuer p)); ("jwks_uri", JString (issuer p +:+ JWKSPath));
     ("introspection_endpoint", JString (issuer p +:+ IntrospectionPath));
     ("token_endpoint", JString (issuer p +:+ TokenPath));
     ("response_types_supported", JArray [JString "code"]);
     ("id_token_signing_alg_values_supported", JArray [JString Verifier.RS256])].

Definition handleJWKS (p : provider K) : Response :=
  WriteJSON
    [("keys", JArray [JObject
        [("kty", JString "RSA"); ("kid", JString keyID); ("use", JString "sig");
         ("alg", JString Verifier.RS256);
         ("n", JString (EncodeToString (Bytes (key_N (key p)))));
         ("e", JString (EncodeToString (Bytes (key_E (key p)))))]])].

(** ** Token requests *)

(** [json.Unmarshal] into a string and into an int: null changes nothing. *)
Definition unmarshal_string (old : string) (value : json) : result error string :=
  match value with
  | JString s => Ok s
  | JNull => Ok old
  | _ => Err (ErrorNew "json: cannot unmarshal into a string")
  end.

Definition unmarshal_int (old : Z) (value : json) : result error Z :=
  match value with
  | JNumber literal =>
      match Atoi literal with
      | Some n => Ok n
      | None => Err (ErrorNew "json: cannot unmarshal into an int")
      end
  | JNull => Ok old
  | _ => Err (ErrorNew "json: cannot unmarshal into an int")
  end.

Definition zeroRequest : tokenRequest :=
  {| TokenUse := ""; Subject := ""; ClientID := ""; Scope := ""; TenantID := ""; EventID := "";
     TTLSeconds := 0; ExtraClaims := ∅ |}.

Definition decodeClaim (value : json) : result error json := UnmarshalAny value.

(** One turn of the loop of [tokenRequestFrom]. *)
Definition readMember (name : string) (value : json) (r : tokenRequest) : result error tokenRequest :=
  let '{| TokenUse := tokenUse; Subject := subject; ClientID := client; Scope := scope;
          TenantID := tenant; EventID := event; TTLSeconds := ttl; ExtraClaims := extra |} := r in
  if decide (name = "token_use") then
    let? s := unmarshal_string tokenUse value in Ok (Build_tokenRequest s subject client scope tenant event ttl extra)
  else if decide (name = "sub") then
    let? s := unmarshal_string subject value in Ok (Build_tokenRequest tokenUse s client scope tenant event ttl extra)
  else if decide (name = "client_id") then
    let? s := unmarshal_string client value in Ok (Build_tokenRequest tokenUse subject s scope tenant event ttl extra)
  else if decide (name = "scope") then
    let? s := unmarshal_string scope value in Ok (Build_tokenRequest tokenUse subject client s tenant event ttl extra)
  else if decide (name = "tenant_id") then
    let? s := unmarshal_string tenant value in Ok (Build_tokenRequest tokenUse subject client scope s event ttl extra)
  else if decide (name = "event_id") then
    let? s := unmarshal_string event value in Ok (Build_tokenRequest tokenUse subject client scope tenant s ttl extra)
  else if decide (name = "ttl_seconds") then
    let? n := unmarshal_int ttl value in Ok (Build_tokenRequest tokenUse subject client scope tenant event n extra)
  else if bool_decide (name ∈ reservedTokenClaims) then Ok r
  else
    let? claim := decodeClaim value in
    Ok (Build_tokenRequest tokenUse subject client scope tenant event ttl (<[name := claim]> extra)).

(** The members in the order the map is iterated in. *)
Fixpoint readMembers (members : list (string * json)) (r : tokenRequest) : result error tokenRequest :=
  match members with
  | [] => Ok r
  | (name, value) :: rest => let? r := readMember name value r in readMembers rest r
  end.

Definition tokenRequestFrom (members : list (string * json)) : result error tokenRequest :=
  readMembers members zeroRequest.

(** ** Signing *)

(** [hex.EncodeToString] *)
Definition hex_digit (n : Z) : ascii :=
  if n <? 10 then ascii_of_N (Z.to_N (n + 48)) else ascii_of_N (Z.to_N (n + 87)).

Fixpoint hex (bs : list Z) : string :=
  match bs with
  | [] => ""
  | b :: bs => String (hex_digit (b / 16)) (String (hex_digit (b mod 16)) (hex bs))
  end.

Definition newTokenID : M W (result error string) :=
  let! raw := rand_Read tokenIDByteLength in
  mret_ (match raw with
         | Err err => Err (Errorf "read random bytes: %w" [err] [])
         | Ok raw => Ok (hex raw)
         end).

(** The lifetime asked for, as a [time.Duration]. *)
Definition ttlOf (request : tokenRequest) : Duration :=
  if 0 <? TTLSeconds request then int64 (TTLSeconds request * Second) else defaultTTL.

Definition optionalClaim (name value : string) (claims : MapClaims) : MapClaims :=
  if decide (value ≠ "") then <[name := JString value]> claims else claims.

(** The claims [sign] signs: the extra ones are set last. *)
Definition claimsOf (p : provider K) (request : tokenRequest) (tokenID : string) (now : Time) :
    MapClaims :=
  let claims : MapClaims := list_to_map
    [("iss", JString (issuer p)); ("aud", JString (audience p)); ("sub", JString (Subject request));
     ("client_id", JString (ClientID request)); ("token_use", JString (TokenUse request));
     ("scope", JString (Scope request)); ("jti", JString tokenID);
     ("iat", JNumber (Itoa (Unix now))); ("nbf", JNumber (Itoa (Unix now)));
     ("exp", JNumber (Itoa (Unix (time_add now (ttlOf request)))))] in
  ExtraClaims request
    ∪ optionalClaim "event_id" (EventID request) (optionalClaim "tenant_id" (TenantID request) claims).

Definition sign (p : provider K) (request : tokenRequest) : M W (result error string) :=
  let! tokenID := newTokenID in
  match tokenID with
  | Err err => mret_ (Err err)
  | Ok tokenID =>
      let! now := Now in
      mret_ (match SignedString (key p) keyID (claimsOf p request tokenID now) with
             | Err err => Err (Errorf "sign the token: %w" [err] [])
             | Ok signed => Ok signed
             end)
  end.

Definition badToken : Response :=
  HTTPError [] "the request body is not a token request" StatusBadRequest.

(** [iterate] is the order Go ranges over the decoded map in. *)
Definition handleToken (iterate : gmap string json → list (string * json)) (p : provider K)
    (body : string) : M W Response :=
  match DecodeToken maxRequestSize body with
  | Err _ => mret_ badToken
  | Ok members =>
      match tokenRequestFrom (iterate members) with
      | Err _ => mret_ badToken
      | Ok request =>
          let! signed := sign p request in
          mret_ (match signed with
                 | Err _ => HTTPError [] "signing the token failed" StatusInternalServerError
                 | Ok signed =>
                     WriteJSON [("access_token", JString signed); ("token_type", JString "Bearer")]
                 end)
      end
  end.

(** ** Introspection and revocation *)

(** The request of a client: its Basic credentials, its content type and its body. *)
Record FormRequest : Type := {
  BasicAuth : option (string * string);
  ContentType : string;
  Body : string;
}.

Definition authenticated (p : provider K) (r : FormRequest) : bool :=
  if decide (clientID p = "") then false
  else
    match BasicAuth r with
    | None => false
    | Some (id, secret) =>
        match QueryUnescape id with
        | None => false
        | Some decodedID =>
            match QueryUnescape secret with
            | None => false
            | Some decodedSecret =>
                bool_decide (decodedID = clientID p) && bool_decide (decodedSecret = clientSecret p)
            end
        end
    end.

(** [parse]: the claims and the ID of a token this provider issued. *)
Definition parse (p : provider K) (token : string) : M W (result error (MapClaims * string)) :=
  if decide (token = "") then mret_ (Err (ErrorNew ErrUnknownToken))
  else
    let! parsed := ParseWithClaims (key p) (issuer p) (audience p) token in
    mret_ (match parsed with
           | None => Err (ErrorNew ErrUnknownToken)
           | Some claims =>
               match claims !! "jti" with
               | Some (JString tokenID) =>
                   if decide (tokenID = "") then Err (ErrorNew ErrUnknownToken)
                   else Ok (claims, tokenID)
               | _ => Err (ErrorNew ErrUnknownToken)
               end
           end).

(** Indexing the claims: nil for a missing one. *)
Definition claim (claims : MapClaims) (name : string) : json := default JNull (claims !! name).

Definition State : Type := gset string.

Definition revokedJTI (revoked : State) (tokenID : string) : bool := bool_decide (tokenID ∈ revoked).

Definition lift {A} (m : M W A) : M (State * W) A := λ '(s, w), let '(a, w') := m w in (a, (s, w')).

Definition handleIntrospection (p : provider K) (r : FormRequest) : M (State * W) Response :=
  if negb (authenticated p r) then
    mret_ (HTTPError [("WWW-Authenticate", "Basic")] "the introspection client is not authenticated"
             StatusUnauthorized)
  else
    match ParseForm maxRequestSize (ContentType r) (Body r) with
    | Err _ => mret_ (HTTPError [] "the request body is not a form" StatusBadRequest)
    | Ok form =>
        let! parsed := lift (parse p (form "token")) in
        λ '(revoked, w),
          (match parsed with
           | Err _ => WriteJSON [("active", JBool false)]
           | Ok (claims, tokenID) =>
               if revokedJTI revoked tokenID then WriteJSON [("active", JBool false)]
               else
                 WriteJSON
                   [("active", JBool true); ("jti", JString tokenID); ("sub", claim claims "sub");
                    ("client_id", claim claims "client_id"); ("scope", claim claims "scope");
                    ("token_use", claim claims "token_use"); ("exp", claim claims "exp")]
           end, (revoked, w))
    end.

Definition revoke (tokenID : string) : M (State * W) Response := λ '(revoked, w),
  (WriteJSON [("jti", JString tokenID); ("revoked", JBool true)], ({[tokenID]} ∪ revoked, w)).

Definition handleRevoke (p : provider K) (body : string) : M (State * W) Response :=
  match DecodeRevoke maxRequestSize body with
  | Err _ => mret_ (HTTPError [] "the request body is not a revoke request" StatusBadRequest)
  | Ok request =>
      if decide (revoke_JTI request ≠ "") then revoke (revoke_JTI request)
      else
        let! parsed := lift (parse p (revoke_Token request)) in
        match parsed with
        | Err _ =>
            mret_ (HTTPError [] "the request names neither a jti nor a token this IdP issued"
                     StatusBadRequest)
        | Ok (_, tokenID) => revoke tokenID
        end
  end.
End fakeidp.

(** ** The published key *)

(** A member of a JSON object, unmarshalled into a string field. *)
Definition text_of (members : list (string * json)) (name : string) : option string :=
  match Verifier.member_of members name with
  | JString s => Some s
  | JNull => Some ""
  | _ => None
  end.

(** A JSON object, unmarshalled into the gateway's [jwk]. *)
Definition jwk_of (value : json) : option KeySet.jwk :=
  match value with
  | JObject members =>
      match text_of members "kty", text_of members "kid", text_of members "use", text_of members "crv",
            text_of members "n", text_of members "e", text_of members "x", text_of members "y" with
      | Some kty, Some kid, Some use, Some crv, Some n, Some e, Some x, Some y =>
          Some (KeySet.Build_jwk kty kid use crv n e x y)
      | _, _, _, _, _, _, _, _ => None
      end
  | _ => None
  end.

Definition keys_of (response : Response) : option (list KeySet.jwk) :=
  match response with
  | WriteJSON body =>
      match Verifier.member_of body "keys" with
      | JArray values => mapM jwk_of values
      | _ => None
      end
  | HTTPError _ _ _ => None
  end.

Lemma member_Bytes value name n :
  0 < n → KeySet.integer value name (EncodeToString (Bytes n)) = Ok n.
Proof.
  intros Hn. unfold KeySet.integer, KeySet.member.
  destruct (decide (EncodeToString (Bytes n) = "")) as [H%EncodeToString_empty|_].
  { assert (SetBytes (Bytes n) = 0) as H0 by by rewrite H. rewrite SetBytes_Bytes in H0; lia. }
  rewrite Decode_Encode by (apply Bytes_octets; lia). cbn [result_bind].
  by rewrite SetBytes_Bytes by lia.
Qed.

Lemma rsaKey_published value n e :
  KeySet.Modulus value = EncodeToString (Bytes n) → KeySet.Exponent value = EncodeToString (Bytes e) →
  0 < n → KeySet.minimumRSAKeySize ≤ BitLen n → 3 ≤ e ≤ KeySet.MaxInt32 →
  KeySet.rsaKey value = Ok (Verifier.RSAKey n e).
Proof.
  intros Hn He Hpos Hlen Hrange. unfold KeySet.rsaKey. rewrite Hn, He.
  rewrite !member_Bytes by lia. cbn [result_bind].
  rewrite (proj2 (Z.ltb_ge _ _)) by lia.
  rewrite (proj2 (Z.ltb_ge max_int e)) by (unfold max_int, KeySet.MaxInt32 in *; lia).
  by rewrite (proj2 (Z.ltb_ge e 3)), (proj2 (Z.ltb_ge KeySet.MaxInt32 e)) by lia.
Qed.

Section published.
Context {W K : Type} `{!Library W K}.

(** What the key set of the gateway makes of the document. *)
Lemma published_keys (p : provider K) :
  0 < key_N (key p) → keySize ≤ BitLen (key_N (key p)) →
  3 ≤ key_E (key p) ≤ KeySet.MaxInt32 →
  ∃ values, keys_of (handleJWKS p) = Some values ∧
    KeySet.parseKeys values ∅
      = Ok {[keyID := Verifier.RSAKey (key_N (key p)) (key_E (key p))]}.
Proof.
  intros Hpos Hlen Hrange. eexists. split; [reflexivity|]. cbn [KeySet.parseKeys].
  unfold KeySet.publicKey. cbn [KeySet.Use KeySet.KeyType].
  rewrite (rsaKey_published _ (key_N (key p)) (key_E (key p))) by (reflexivity || done).
  reflexivity.
Qed.

(** The key set of the gateway reads from the document the provider serves
    exactly the provider's public key, under the key ID its tokens carry. *)
Theorem published_key_read_back (p : provider K) :
  0 < key_N (key p) → keySize ≤ BitLen (key_N (key p)) →
  3 ≤ key_E (key p) ≤ KeySet.MaxInt32 →
  ∃ values, keys_of (handleJWKS p) = Some values ∧
    KeySet.parseKeys values ∅
      = Ok {[keyID := Verifier.RSAKey (key_N (key p)) (key_E (key p))]}.
Proof. apply published_keys. Qed.
End published.

(** ** Token requests *)

(** No extra claim has a reserved name or the name of a field. *)
Definition extra_ok (r : tokenRequest) : Prop :=
  ∀ name : string, is_Some (ExtraClaims r !! name) →
    (name ∉ reservedTokenClaims) ∧ (name ≠ "ttl_seconds").

Section requests.
Context {W K : Type} `{!Library W K}.

(** One turn of the loop: the field the name stands for, and what it is set to. *)
Ltac read_member :=
  repeat match goal with
  | |- context [decide ?P] => destruct (decide P)
  | |- context [bool_decide ?P] => destruct (bool_decide_reflect P)
  | |- context [unmarshal_string ?a ?v] => destruct (unmarshal_string a v) eqn:?
  | |- context [unmarshal_int ?a ?v] => destruct (unmarshal_int a v) eqn:?
  | |- context [decodeClaim ?v] => destruct (decodeClaim v) eqn:?
  | |- _ => progress cbn [result_bind]
  end.

Lemma readMember_extra name value r r' :
  readMember name value r = Ok r' → extra_ok r → extra_ok r'.
Proof.
  unfold readMember. destruct r as [a b c d e f t extra].
  read_member; try done; intros [= <-] Hr; try exact Hr.
  intros n' [x Hx]. cbn [ExtraClaims] in Hx. apply lookup_insert_Some in Hx as [[<- _]|[_ Hx]]; [done|].
  apply Hr. by exists x.
Qed.

Lemma readMembers_extra members r r' :
  readMembers members r = Ok r' → extra_ok r → extra_ok r'.
Proof.
  revert r. induction members as [|[name value] members IH]; intros r; cbn [readMembers].
  { by intros [= <-]. }
  destruct (readMember name value r) as [r1|] eqn:H1; [|done]. cbn [result_bind].
  eauto using readMember_extra.
Qed.

Lemma tokenRequestFrom_extra members r : tokenRequestFrom members = Ok r → extra_ok r.
Proof. intros H. apply (readMembers_extra _ _ _ H). intros n [x Hx]. by cbn [zeroRequest ExtraClaims] in Hx; rewrite lookup_empty in Hx. Qed.

(** Members of different names are read in either order. *)
Lemma readMember_swap n1 v1 n2 v2 r r' :
  n1 ≠ n2 →
  result_bind (readMember n1 v1 r) (readMember n2 v2) = Ok r' →
  result_bind (readMember n2 v2 r) (readMember n1 v1) = Ok r'.
Proof.
  intros Hne. destruct r as [a b c d e f t extra]. unfold readMember.
  read_member; try congruence. intros [= <-]. rewrite insert_insert_ne by done. congruence.
Qed.

Lemma readMembers_order members members' r r' :
  Permutation members members' → NoDup members.*1 →
  readMembers members r = Ok r' → readMembers members' r = Ok r'.
Proof.
  intros Hperm. revert r. induction Hperm as [|[n v] l l' _ IH|[n1 v1] [n2 v2] l|l l' l'' H1 IH1 _ IH2];
    intros r Hnd; cbn [readMembers].
  - done.
  - apply NoDup_cons in Hnd as [_ Hnd]. destruct (readMember n v r); cbn [result_bind]; [auto|done].
  - apply NoDup_cons in Hnd as [Hin _].
    assert (n2 ≠ n1) as Hne by (intros ->; apply Hin; left).
    pose proof (readMember_swap n2 v2 n1 v1 r) as Hswap.
    destruct (readMember n2 v2 r) as [r2|] eqn:H2; cbn [result_bind] in *; [|done].
    destruct (readMember n1 v1 r2) as [r21|] eqn:H21; cbn [result_bind] in *; [|done].
    specialize (Hswap r21 Hne eq_refl).
    destruct (readMember n1 v1 r) as [r1|]; cbn [result_bind] in *; [|done].
    rewrite Hswap. done.
  - intros H. apply IH2, IH1; [|done..]. by rewrite <-H1.
Qed.
End requests.

(** ** Signed claims *)

(** An optional text claim: absent when empty. *)
Definition optional_claim (value : string) : option json :=
  if decide (value = "") then None else Some (JString value).

(** What [claims] holds under the names [sign] sets itself. *)
Record signed_claims {K} (p : provider K) (r : tokenRequest) (tokenID : string) (now : Time)
    (claims : MapClaims) : Prop := {
  signed_iss : claims !! "iss" = Some (JString (issuer p));
  signed_aud : claims !! "aud" = Some (JString (audience p));
  signed_sub : claims !! "sub" = Some (JString (Subject r));
  signed_client_id : claims !! "client_id" = Some (JString (ClientID r));
  signed_token_use : claims !! "token_use" = Some (JString (TokenUse r));
  signed_scope : claims !! "scope" = Some (JString (Scope r));
  signed_jti : claims !! "jti" = Some (JString tokenID);
  signed_iat : claims !! "iat" = Some (JNumber (Itoa (Unix now)));
  signed_nbf : claims !! "nbf" = Some (JNumber (Itoa (Unix now)));
  signed_exp : claims !! "exp" = Some (JNumber (Itoa (Unix (time_add now (ttlOf r)))));
  signed_tenant_id : claims !! "tenant_id" = optional_claim (TenantID r);
  signed_event_id : claims !! "event_id" = optional_claim (EventID r);
}.

Lemma claimsOf_signed {K} (p : provider K) r id now :
  extra_ok r → signed_claims p r id now (claimsOf p r id now).
Proof.
  intros Hextra.
  assert (∀ name, name ∈ reservedTokenClaims → ExtraClaims r !! name = None) as Hnone.
  { intros name Hin. destruct (ExtraClaims r !! name) eqn:H; [|done].
    by destruct (Hextra name) as [Hn _]; [eexists|]. }
  unfold claimsOf, optionalClaim.
  split; (rewrite lookup_union_r;
    [unfold optional_claim; repeat case_decide; try congruence; reflexivity
    |apply Hnone; by_computation]).
Qed.

Lemma claimsOf_extra {K} (p : provider K) r id now name :
  name ∉ reservedTokenClaims → claimsOf p r id now !! name = ExtraClaims r !! name.
Proof.
  intros Hin. unfold claimsOf. unfold reservedTokenClaims in Hin.
  rewrite !not_elem_of_cons in Hin. destruct_and!.
  apply lookup_union_l. unfold optionalClaim.
  repeat case_decide; rewrite ?lookup_insert_ne by congruence;
    apply not_elem_of_list_to_map_1; cbn [fmap list_fmap fst];
    rewrite !not_elem_of_cons; split_and!; try done; apply not_elem_of_nil.
Qed.

Lemma holds_text_claim (claims : MapClaims) name value text :
  claims !! name = Some (JString value) →
  Verifier.holds_text claims name text ↔ text = value ∧ text ≠ "".
Proof. intros H. unfold Verifier.holds_text. rewrite H. naive_solver. Qed.

Lemma holds_publicID_claim (claims : MapClaims) name value id :
  claims !! name = optional_claim value →
  Verifier.holds_publicID claims name id ↔
    id = value ∧ (value = "" ∨ Verifier.publicIDPattern value = true).
Proof.
  intros H. unfold Verifier.holds_publicID, optional_claim in *. rewrite H.
  case_decide; naive_solver.
Qed.

(** ** Lifetimes *)

Lemma int64_range n : - 2 ^ 63 ≤ int64 n < 2 ^ 63.
Proof. unfold int64. pose proof (Z.mod_pos_bound (n + 2 ^ 63) (2 ^ 64)). lia. Qed.

Lemma int64_id n : - 2 ^ 63 ≤ n < 2 ^ 63 → int64 n = n.
Proof. intros H. unfold int64. rewrite Z.mod_small; lia. Qed.

(** The seconds between two times a duration apart. *)
Lemma Unix_add now d : d / Second ≤ Unix (time_add now d) - Unix now ≤ d / Second + 1.
Proof. unfold Unix, time_add. change Second with 1000000000. div_lia. Qed.

Lemma Unix_add_seconds now n : Unix (time_add now (n * Second)) - Unix now = n.
Proof. unfold Unix, time_add. rewrite Z.div_add by done. lia. Qed.

(** The lifetime in seconds a request asks for: the [ttl_seconds] of the request
    when they are positive, five minutes otherwise. *)
Definition lifetime (r : tokenRequest) : Z :=
  if 0 <? TTLSeconds r then TTLSeconds r else 300.

(** The lifetime of a token: five minutes unless a positive number of
    seconds is asked for, and then that number exactly as long as a duration
    holds it; beyond 9223372036 seconds the product overflows and the token
    never lives as long as it was asked to. *)
Theorem token_lifetime (r : tokenRequest) (now : Time) :
  Unix (time_add now (ttlOf r)) - Unix now = lifetime r ↔ TTLSeconds r ≤ 9223372036.
Proof.
  unfold ttlOf, lifetime. destruct (0 <? TTLSeconds r) eqn:Hpos.
  - apply Z.ltb_lt in Hpos. split; intros H.
    + destruct (Z.le_gt_cases (TTLSeconds r) 9223372036) as [|Hgt]; [done|].
      destruct (decide (TTLSeconds r = 9223372037)) as [E|Hne].
      * rewrite E in H. pose proof (Unix_add now (int64 (9223372037 * Second))) as [_ Hle].
        rewrite H in Hle. exfalso. apply Hle. vm_compute. reflexivity.
      * pose proof (Unix_add now (int64 (TTLSeconds r * Second))) as [_ Hle]. rewrite H in Hle.
        pose proof (int64_range (TTLSeconds r * Second)) as [_ Hlt].
        assert (int64 (TTLSeconds r * Second) / Second ≤ 9223372036); [|lia].
        change Second with 1000000000 in *. change (2 ^ 63) with 9223372036854775808 in Hlt.
        div_lia.
    + rewrite int64_id; [apply Unix_add_seconds|]. change Second with 1000000000. lia.
  - apply Z.ltb_ge in Hpos. replace defaultTTL with (300 * Second) by done.
    rewrite Unix_add_seconds. lia.
Qed.

(** An expiry that is signed as it was asked for and that golang-jwt reads back:
    no overflow of the duration, and a positive number of seconds that a [float64]
    holds exactly (an [exp] of 0 counts as absent). *)
Record expiry_readable (r : tokenRequest) (now : Time) : Prop := {
  readable_TTL : TTLSeconds r ≤ 9223372036;
  readable_exp : 0 < Unix now + lifetime r ≤ 2 ^ 53;
}.

Lemma lifetime_pos r : 0 < lifetime r.
Proof. unfold lifetime. destruct (Z.ltb_spec 0 (TTLSeconds r)); lia. Qed.

Lemma signed_expiry r now :
  expiry_readable r now → Unix (time_add now (ttlOf r)) = Unix now + lifetime r.
Proof. intros [Ht%(token_lifetime r now) _]. lia. Qed.

(** The claims the gateway reads from a token of the provider: those of the
    request, and the expiry its lifetime gives. *)
Definition received (r : tokenRequest) (tokenID : string) (now : Time) (confirmation : string) :
    Verifier.Claims :=
  {| Verifier.Subject := Subject r; Verifier.ClientID := ClientID r; Verifier.TokenUse := TokenUse r;
     Verifier.Scope := Scope r; Verifier.JTI := tokenID; Verifier.TenantID := TenantID r;
     Verifier.EventID := EventID r;
     Verifier.ExpiresAt := (Unix now + lifetime r + 62135596800) * Second;
     Verifier.Confirmation := confirmation |}.

(** A request whose token the gateway accepts. *)
Record acceptable (ValidateBinding : Verifier.BindingValidator) (r : tokenRequest) (tokenID : string)
    (confirmation : string) : Prop := {
  acceptable_Subject : Subject r ≠ "";
  acceptable_ClientID : ClientID r ≠ "";
  acceptable_Scope : Scope r ≠ "";
  acceptable_JTI : tokenID ≠ "";
  acceptable_TokenUse : TokenUse r ∈ Verifier.externalTokenUses;
  acceptable_TenantID : TenantID r = "" ∨ Verifier.publicIDPattern (TenantID r) = true;
  acceptable_EventID : EventID r = "" ∨ Verifier.publicIDPattern (EventID r) = true;
  acceptable_binding : ValidateBinding (TokenUse r) (TenantID r) (EventID r) = None;
  acceptable_Confirmation : Verifier.holds_confirmation (ExtraClaims r) confirmation;
}.

Lemma holds_confirmation_claims {K} (p : provider K) r id now value :
  Verifier.holds_confirmation (claimsOf p r id now) value
    ↔ Verifier.holds_confirmation (ExtraClaims r) value.
Proof.
  unfold Verifier.holds_confirmation. rewrite claimsOf_extra; [done|].
  by_computation.
Qed.

Lemma externalTokenUses_nonempty use : use ∈ Verifier.externalTokenUses → use ≠ "".
Proof.
  intros Hin ->. revert Hin. apply (bool_decide_unpack ("" ∉ Verifier.externalTokenUses)). reflexivity.
Qed.

(** How golang-jwt reads the two registered claims the verifier asks it for. *)
Definition reads_audience (V : Type) `{!Verifier.JWT V} : Prop :=
  ∀ (claims : MapClaims) s,
    claims !! "aud" = Some (JString s) → Verifier.GetAudience (W := V) claims = Ok [s].
Definition reads_expiry (V : Type) `{!Verifier.JWT V} : Prop :=
  ∀ (claims : MapClaims) t,
    0 < t ≤ 2 ^ 53 → claims !! "exp" = Some (JNumber (Itoa t)) →
    Verifier.GetExpirationTime (W := V) claims = Ok (Some ((t + 62135596800) * Second)).

(** What the verifier of the gateway makes of the claims of a token. *)
Lemma claims_read_back {K V} `{!Verifier.JWT V} ValidateBinding (v : Verifier.Verifier V)
    (p : provider K) (r : tokenRequest) id now c :
  reads_audience V → reads_expiry V → extra_ok r → expiry_readable r now →
  (Verifier.checkAudience v (claimsOf p r id now) = None ↔ audience p = Verifier.audience v) ∧
  (Verifier.readClaims (W := V) ValidateBinding (claimsOf p r id now) = Ok c ↔
     ∃ confirmation, c = received r id now confirmation ∧ acceptable ValidateBinding r id confirmation).
Proof.
  intros Haud Hexp Hextra Hread.
  pose proof (claimsOf_signed p r id now Hextra) as [_ Ha Hs Hc Hu Hsc Hj _ _ He Ht Hev].
  rewrite (signed_expiry _ _ Hread) in He. apply (Hexp _ _ (readable_exp _ _ Hread)) in He.
  split.
  - rewrite Verifier.checkAudience_None, (Haud _ _ Ha). split; [by intros [= Heq]|by intros ->].
  - rewrite Verifier.readClaims_ok. split.
    + intros [H1 H2 H3 H4 H5 H6 H7 H8 H9 H10 H11].
      rewrite He in H11. injection H11 as H11.
      apply (holds_text_claim _ _ _ _ Hs) in H1 as [E1 ?].
      apply (holds_text_claim _ _ _ _ Hc) in H2 as [E2 ?].
      apply (holds_text_claim _ _ _ _ Hsc) in H3 as [E3 ?].
      apply (holds_text_claim _ _ _ _ Hj) in H4 as [E4 ?].
      apply (holds_text_claim _ _ _ _ Hu) in H5 as [E5 ?].
      apply (holds_publicID_claim _ _ _ _ Ht) in H7 as [E7 ?].
      apply (holds_publicID_claim _ _ _ _ Hev) in H8 as [E8 ?].
      apply holds_confirmation_claims in H10. destruct c; cbn in *. subst.
      by exists Confirmation.
    + intros (confirmation & -> & [H1 H2 H3 H4 H5 H6 H7 H8 H9]). split; cbn.
      * by apply (holds_text_claim _ _ _ _ Hs).
      * by apply (holds_text_claim _ _ _ _ Hc).
      * by apply (holds_text_claim _ _ _ _ Hsc).
      * by apply (holds_text_claim _ _ _ _ Hj).
      * apply (holds_text_claim _ _ _ _ Hu). split; [done|]. by apply externalTokenUses_nonempty.
      * done.
      * by apply (holds_publicID_claim _ _ _ _ Ht).
      * by apply (holds_publicID_claim _ _ _ _ Hev).
      * done.
      * by apply holds_confirmation_claims.
      * done.
Qed.

(** C34. The gateway reads from the claims of a token the provider signs what the
    token was requested with: for a request of at most 9223372036 seconds whose
    expiry is a positive number of seconds up to 2^53, the audience is the
    provider's, and the claims are accepted exactly when the request is
    [acceptable], as the request's own values with the expiry at the second of
    issue plus the seconds asked for, or 300 when none are.  The JWT library reads
    a text as the audience and a whole number in that range as the expiry; the
    extra claims of the request name none of the provider's own. *)
Theorem signed_claims_read_back {K V} `{!Verifier.JWT V} ValidateBinding (v : Verifier.Verifier V)
    (p : provider K) (r : tokenRequest) id now c :
  reads_audience V → reads_expiry V → extra_ok r → expiry_readable r now →
  (Verifier.checkAudience v (claimsOf p r id now) = None ↔ audience p = Verifier.audience v) ∧
  (Verifier.readClaims (W := V) ValidateBinding (claimsOf p r id now) = Ok c ↔
     ∃ confirmation, c = received r id now confirmation ∧ acceptable ValidateBinding r id confirmation).
Proof. apply claims_read_back. Qed.

(** ** Sequences of requests *)

Inductive Call : Type :=
| CallMetadata | CallJWKS | CallToken (body : string) | CallIntrospection (r : FormRequest)
| CallRevoke (body : string).

(** A field that a list of fields does not hold. *)
Ltac absent H :=
  repeat (apply elem_of_cons in H as [H|H]; [simplify_eq/=; done|]); by apply not_elem_of_nil in H.

Section calls.
Context {W K : Type} `{!Library W K}.
(** An answer that reports the token of an ID active. *)
Definition reports_active (tokenID : string) (answer : Response) : Prop :=
  match answer with
  | WriteJSON body => ("active", JBool true) ∈ body ∧ ("jti", JString tokenID) ∈ body
  | HTTPError _ _ _ => False
  end.

Definition reports_revoked (tokenID : string) (answer : Response) : Prop :=
  answer = WriteJSON [("jti", JString tokenID); ("revoked", JBool true)].

Lemma handleIntrospection_revoked p r tokenID s (w : W) answer s' w' :
  handleIntrospection p r (s, w) = (answer, (s', w')) → tokenID ∈ s →
  s' = s ∧ ¬ reports_active tokenID answer.
Proof.
  unfold handleIntrospection, mbind_, mret_, lift. intros H Hin.
  destruct (authenticated p r); cbn [negb] in H; [|injection H as <- <- <-; by split; [|intros []]].
  destruct (ParseForm maxRequestSize (ContentType r) (Body r)) as [form|]; [|injection H as <- <- <-; by split; [|intros []]].
  destruct (parse p (form "token") w) as [[[claims id]|] w1]; injection H as <- <- <-; split; try done.
  - unfold revokedJTI. case_bool_decide as Hid; intros [Ha Hj].
    + absent Ha.
    + absent Hj.
  - intros [Ha _]. absent Ha.
Qed.

Lemma handleRevoke_revokes p body s (w : W) answer s' w' :
  handleRevoke p body (s, w) = (answer, (s', w')) →
  s ⊆ s' ∧ ∀ tokenID, ¬ reports_active tokenID answer ∧ (reports_revoked tokenID answer → tokenID ∈ s').
Proof.
  unfold handleRevoke, mbind_, mret_, lift, revoke, reports_revoked. intros H.
  destruct (DecodeRevoke maxRequestSize body) as [request|]; [|injection H as <- <- <-; naive_solver].
  assert (∀ id tokenID, ¬ reports_active tokenID
    (WriteJSON [("jti", JString id); ("revoked", JBool true)])) as Hactive.
  { intros id tokenID [Ha _]. absent Ha. }
  destruct (decide _); [injection H as <- <- <-; split; [set_solver|split; [auto|intros [= ->]; set_solver]]|].
  destruct (parse p (revoke_Token request) w) as [[[claims id]|] w1]; injection H as <- <- <-.
  - split; [set_solver|split; [auto|intros [= ->]; set_solver]].
  - naive_solver.
Qed.

Context (iterate : gmap string json → list (string * json)).

Definition step (p : provider K) (call : Call) : M (State * W) Response :=
  match call with
  | CallMetadata => mret_ (handleMetadata p)
  | CallJWKS => mret_ (handleJWKS p)
  | CallToken body => lift (handleToken iterate p body)
  | CallIntrospection r => handleIntrospection p r
  | CallRevoke body => handleRevoke p body
  end.

(** The answers to calls handled one after the other. *)
Fixpoint run (p : provider K) (calls : list Call) : M (State * W) (list Response) :=
  match calls with
  | [] => mret_ []
  | call :: rest =>
      let! answer := step p call in
      let! answers := run p rest in
      mret_ (answer :: answers)
  end.

Lemma handleToken_not_active p body (w : W) answer w' tokenID :
  handleToken iterate p body w = (answer, w') → ¬ reports_active tokenID answer.
Proof.
  unfold handleToken, mbind_, mret_. intros H.
  destruct (DecodeToken maxRequestSize body) as [members|]; [|injection H as <- _; by intros []].
  destruct (tokenRequestFrom (iterate members)) as [request|]; [|injection H as <- _; by intros []].
  destruct (sign p request w) as [[signed|] w1]; injection H as <- _; [|by intros []].
  intros [Ha _]. absent Ha.
Qed.

Lemma step_revoked p call s (w : W) answer s' w' tokenID :
  step p call (s, w) = (answer, (s', w')) → tokenID ∈ s →
  tokenID ∈ s' ∧ ¬ reports_active tokenID answer.
Proof.
  destruct call; cbn [step]; intros H Hin.
  - injection H as <- <- <-. split; [done|]. intros [Ha _]. unfold handleMetadata in Ha.
    absent Ha.
  - injection H as <- <- <-. split; [done|]. intros [Ha _].
    absent Ha.
  - unfold lift in H. destruct (handleToken iterate p body w) as [a w1] eqn:Ht. injection H as <- <- <-.
    split; [done|]. by apply (handleToken_not_active _ _ _ _ _ _ Ht).
  - by apply (handleIntrospection_revoked _ _ tokenID) in H as [-> ?].
  - apply handleRevoke_revokes in H as [Hsub Ha]. split; [by apply Hsub|]. by apply Ha.
Qed.

Lemma run_revoked p calls s (w : W) answers s' w' tokenID :
  run p calls (s, w) = (answers, (s', w')) → tokenID ∈ s →
  tokenID ∈ s' ∧ Forall (λ answer, ¬ reports_active tokenID answer) answers.
Proof.
  revert s w answers. induction calls as [|call calls IH]; intros s w answers; cbn [run].
  { unfold mret_. intros [= <- <- <-] ?. by split. }
  run_monad. destruct (step p call (s, w)) as [a [s1 w1]] eqn:Hs.
  destruct (run p calls (s1, w1)) as [rest [s2 w2]] eqn:Hr. intros [= <- <- <-] Hin.
  apply (step_revoked _ _ _ _ _ _ _ tokenID) in Hs as [Hin1 ?]; [|done].
  apply IH in Hr as [??]; [|done]. split; [done|]. by constructor.
Qed.
End calls.

(** ** Properties *)

(** The token endpoint: it answers with a token exactly when the body is a
    token request that can be signed, and the token it answers with is signed
    with the published key ID over claims with the provider's issuer and
    audience, a fresh ID, the texts and the lifetime asked for, and the extra
    claims as they were sent, none of which can replace a claim the provider
    sets.  The order in which the decoded members are visited does not
    matter. *)
Theorem token_endpoint_spec {W K} `{!Library W K} iterate iterate' (p : provider K) body (w : W)
    signed w' :
  (∀ members, Permutation (iterate members) (map_to_list members)) →
  (∀ members, Permutation (iterate' members) (map_to_list members)) →
  let answer :=
    WriteJSON [("access_token", JString signed); ("token_type", JString "Bearer")] in
  handleToken iterate p body w = (answer, w') →
  handleToken iterate' p body w = (answer, w') ∧
  ∃ members r raw w1 now,
    DecodeToken maxRequestSize body = Ok members ∧
    tokenRequestFrom (iterate members) = Ok r ∧
    rand_Read tokenIDByteLength w = (Ok raw, w1) ∧ Now w1 = (now, w') ∧
    SignedString (key p) keyID (claimsOf p r (hex raw) now) = Ok signed ∧
    signed_claims p r (hex raw) now (claimsOf p r (hex raw) now) ∧
    ∀ name, name ∉ reservedTokenClaims → claimsOf p r (hex raw) now !! name = ExtraClaims r !! name.
Proof.
  intros Hi Hi' answer. unfold handleToken.
  destruct (DecodeToken maxRequestSize body) as [members|]; [|done].
  destruct (tokenRequestFrom (iterate members)) as [r|] eqn:Hr; [|done]. intros H.
  assert (tokenRequestFrom (iterate' members) = Ok r) as ->.
  { apply (readMembers_order (iterate members)); [by rewrite Hi, Hi'| |done].
    rewrite Hi. apply NoDup_fst_map_to_list. }
  split; [done|]. revert H. unfold sign, newTokenID, mbind_, mret_.
  destruct (rand_Read tokenIDByteLength w) as [[raw|] w1] eqn:Hraw; [|done].
  destruct (Now w1) as [now w2] eqn:Hnow.
  destruct (SignedString _ _ _) as [s|] eqn:Hs; [|done]. intros [= -> ->].
  exists members, r, raw, w1, now. split_and!; try done.
  - by apply claimsOf_signed, (tokenRequestFrom_extra (iterate members)).
  - intros name Hname. by apply claimsOf_extra.
Qed.

(** C33. Revocation is permanent: once the provider has answered that it revoked
    an ID, no introspection it answers later, after any requests, reports a
    token with this ID active. *)
Theorem revoked_stays_inactive {W K} `{!Library W K} iterate (p : provider K) body s (w : W) tokenID
    answer s1 w1 calls answers s2 w2 :
  handleRevoke p body (s, w) = (answer, (s1, w1)) → reports_revoked tokenID answer →
  run iterate p calls (s1, w1) = (answers, (s2, w2)) →
  Forall (λ answer, ¬ reports_active tokenID answer) answers.
Proof.
  intros Hrev Hans Hrun. apply handleRevoke_revokes in Hrev as [_ Hrev].
  destruct (Hrev tokenID) as [_ Hin].
  by destruct (run_revoked _ _ _ _ _ _ _ _ tokenID Hrun (Hin Hans)).
Qed.

(** ** An example provider *)

Definition example_body : gmap string json :=
  list_to_map [("sub", JString "user"); ("client_id", JString "web"); ("scope", JString "a.read");
               ("token_use", JString Registry.TokenUseRegistration); ("iss", JString "forged");
               ("role", JString "admin")].

Definition example_claims (token : string) : MapClaims :=
  list_to_map [("jti", JString token); ("sub", JString "user")].

Definition formType : string := "application/x-www-form-urlencoded".

Definition example_form (size : Z) (contentType body : string) : result error (string → string) :=
  if size <? Z.of_nat (String.length body) then Err (ErrorNew "http: request body too large")
  else
    match ParseQuery body with
    | Some v => Ok (λ name, if decide (contentType = formType) then Values_Get v name else "")
    | None => Err (ErrorNew "invalid form")
    end.

(** Tokens are their IDs. *)
#[local] Instance example_library : Library nat (Z * Z) :=
  {| GenerateKey := Ok (2 ^ 2048 + 1, 65537); key_N := fst; key_E := snd;
     rand_Read := λ n w, (Ok (repeat (Z.of_nat w) n), S w);
     Now := λ w, ((62135596800 + 1000) * Second, w);
     SignedString := λ _ _ claims,
       match claims !! "jti" with Some (JString id) => Ok id | _ => Err (ErrorNew "no jti") end;
     ParseWithClaims := λ _ _ _ token w, (Some (example_claims token), w);
     url_Parse := λ _, Err (ErrorNew "unused");
     DecodeToken := λ _ _, Ok example_body;
     DecodeRevoke := λ _ body, Ok {| revoke_JTI := ""; revoke_Token := body |};
     UnmarshalAny := Ok; ParseForm := example_form |}.

Definition example_provider : provider (Z * Z) :=
  {| issuer := "http://idp"; audience := "gateway"; key := (2 ^ 2048 + 1, 65537); clientID := "gateway";
     clientSecret := "secret" |}.

Lemma published_key_read_back_witness :
  ∃ values, keys_of (handleJWKS example_provider) = Some values ∧
    KeySet.parseKeys values ∅
      = Ok {[keyID := Verifier.RSAKey (key_N (key example_provider)) (key_E (key example_provider))]}.
Proof.
  apply (published_key_read_back example_provider); [vm_compute; reflexivity| |by vm_compute].
  apply Z.leb_le. vm_compute. reflexivity.
Defined.

Definition example_signed : string := "07070707070707070707070707070707".

Lemma token_endpoint_spec_witness :
  ∃ members r raw w1 now,
    DecodeToken maxRequestSize "" = Ok members ∧ tokenRequestFrom (map_to_list members) = Ok r ∧
    rand_Read tokenIDByteLength 7%nat = (Ok raw, w1) ∧ Now w1 = (now, 8%nat) ∧
    SignedString (key example_provider) keyID (claimsOf example_provider r (hex raw) now)
      = Ok example_signed ∧
    signed_claims example_provider r (hex raw) now (claimsOf example_provider r (hex raw) now) ∧
    ∀ name, name ∉ reservedTokenClaims →
      claimsOf example_provider r (hex raw) now !! name = ExtraClaims r !! name.
Proof.
  apply (token_endpoint_spec map_to_list map_to_list example_provider "" 7%nat example_signed 8%nat);
    [reflexivity|reflexivity|vm_compute; reflexivity].
Defined.

Definition example_introspection (token : string) : FormRequest :=
  {| BasicAuth := Some ("gateway", "secret"); ContentType := formType; Body := Encode {["token" := [token]]} |}.

Lemma revoked_stays_inactive_witness :
  Forall (λ answer, ¬ reports_active "id-1" answer)
    [WriteJSON [("active", JBool false)];
     WriteJSON [("access_token", JString "00000000000000000000000000000000"); ("token_type", JString "Bearer")];
     WriteJSON [("active", JBool false)]].
Proof.
  apply (revoked_stays_inactive map_to_list example_provider "id-1" ∅ 0%nat "id-1"
           (WriteJSON [("jti", JString "id-1"); ("revoked", JBool true)]) {["id-1"]} 0%nat
           [CallIntrospection (example_introspection "id-1"); CallToken "";
            CallIntrospection (example_introspection "id-1")] _ {["id-1"]} 1%nat);
    [vm_compute; reflexivity|reflexivity|vm_compute; reflexivity].
Defined.

(** Another ID stays active. *)
Example other_id_active :
  (handleIntrospection example_provider (example_introspection "id-2") ({["id-1"]}, 0%nat)).1
    = WriteJSON [("active", JBool true); ("jti", JString "id-2"); ("sub", JString "user");
                 ("client_id", JNull); ("scope", JNull); ("token_use", JNull); ("exp", JNull)].
Proof. vm_compute. reflexivity. Qed.

Example routes_register : Mux.HandleAll [] routes ≠ None.
Proof. vm_compute. discriminate. Qed.

(** A JWT library that reads the audience and the expiry from the claims. *)

Definition read_integer (s : string) : option Z :=
  Z.of_int <$> NilZero.int_of_string s.

Lemma read_integer_Itoa n : read_integer (Itoa n) = Some n.
Proof.
  unfold read_integer, Itoa. rewrite NilZero.isi.
  - cbn. by rewrite DecimalZ.of_to.
  - destruct n; [done| |done]. intros [= H]. by apply DecimalPos.Unsigned.to_uint_nonnil in H.
  - destruct n; [done..|]. intros [= H]. by apply DecimalPos.Unsigned.to_uint_nonnil in H.
Qed.

Definition example_audience (claims : MapClaims) : result error (list string) :=
  match claims !! "aud" with Some (JString s) => Ok [s] | _ => Ok [] end.

Definition example_expiry (claims : MapClaims) : result error (option Time) :=
  match claims !! "exp" with
  | Some (JNumber n) => Ok ((λ t, (t + 62135596800) * Second) <$> read_integer n)
  | _ => Ok None
  end.

#[local] Program Instance example_jwt : Verifier.JWT unit :=
  {| Verifier.ParseWithClaims := λ _ _ _ w, (Err (ErrorNew "no token"), w);
     Verifier.GetAudience := example_audience; Verifier.GetExpirationTime := example_expiry;
     Verifier.header := λ _, None; Verifier.signs := λ _ _ _, False |}.
Next Obligation. intros. discriminate. Qed.

Definition example_request : tokenRequest :=
  {| TokenUse := Registry.TokenUseRegistration; Subject := "user"; ClientID := "web";
     Scope := "a.read"; TenantID := ""; EventID := ""; TTLSeconds := 60; ExtraClaims := ∅ |}.

(** A second of the year 2023. *)
Definition example_now : Time := (1700000000 + 62135596800) * Second.

Lemma example_readable : expiry_readable example_request example_now.
Proof. split; vm_compute; [discriminate|split; [reflexivity|discriminate]]. Qed.

Lemma signed_claims_read_back_witness :
  Verifier.readClaims (W := unit) (λ _ _ _, None)
    (claimsOf example_provider example_request "id-1" example_now)
    = Ok (received example_request "id-1" example_now "").
Proof.
  refine (proj2 (proj2 (signed_claims_read_back (V := unit) (λ _ _ _, None)
    {| Verifier.parser := {| Verifier.ValidMethods := []; Verifier.ParserIssuer := "";
                             Verifier.ParserLeeway := 0 |};
       Verifier.keys := {| Verifier.Key := λ _ w, (Err (ErrorNew "none"), w) |};
       Verifier.audience := "gateway" |} example_provider example_request "id-1" example_now _ _ _ _ _)) _).
  - intros claims s H. cbn. unfold example_audience. by rewrite H.
  - intros claims t _ H. cbn. unfold example_expiry. by rewrite H, read_integer_Itoa.
  - intros name [x Hx]. cbn [example_request ExtraClaims] in Hx. by rewrite lookup_empty in Hx.
  - exact example_readable.
  - exists "". split; [done|]. split; try done.
    + by_computation.
    + by left.
    + by left.
    + by left.
Defined.
