(* ===== verification/EndToEnd.v ===== *)
(** * The gateway against the fake IdP

    The two ends of the OAuth exchanges together: the introspector of the gateway
    ([internal/externaltoken]) asks the introspection endpoint of the fake
    provider ([internal/fakeidp]), whose revocations change what it answers.  The
    network between them, which may fail, and the encoding of a body are
    parameters; that the gateway's decoder reads an object as it was written is
    the one law. *)

From S2P Require Import Prelude GoStd GoErrors GoUrl Discovery.
From S2P Require Verifier KeySet Introspection SingleFlight IntrospectionFlight FakeIdp.

Import Verifier (json, JNull, JBool, JNumber, JString, JArray, JObject).

(** A JSON object, unmarshalled into the gateway's [introspectionDocument]. *)
Definition introspection_of (body : list (string * json)) :
    result error Introspection.introspectionDocument :=
  let active :=
    match Verifier.member_of body "active" with
    | JBool b => Some (Some b)
    | JNull => Some None
    | _ => None
    end in
  match active, FakeIdp.text_of body "jti" with
  | Some active, Some jti =>
      Ok {| Introspection.document_Active := active; Introspection.document_JTI := jti |}
  | _, _ => Err (ErrorNew "json: cannot unmarshal")
  end.

(** What the provider's server reads of a request of the gateway's client. *)
Definition received_request (r : Introspection.ClientRequest) : FakeIdp.FormRequest :=
  let value name := default "" (head (header_values (Introspection.request_Header r) name)) in
  {| FakeIdp.BasicAuth := parseBasicAuth (value "Authorization");
     FakeIdp.ContentType := value "Content-Type";
     FakeIdp.Body := Introspection.request_Body r |}.

(** The connection between the two: the faults of the network, the gateway's clock,
    the requests its client refuses and the JSON codec. *)
Class Link (W : Type) : Type := {
  clock : M W Time;
  fault : M W (option error);
  request_fails : string → string → option error;
  encode : list (string * json) → string;
  decode : string → result error Introspection.introspectionDocument;
  decode_encode body : decode (encode body) = introspection_of body;
}.

Definition response_of `{!Link W} (answer : FakeIdp.Response) : Response :=
  match answer with
  | FakeIdp.WriteJSON body => {| StatusCode := 200; Status := "200 OK"; Body := λ _, Ok (encode body) |}
  | FakeIdp.HTTPError _ text status =>
      {| StatusCode := status; Status := Itoa status; Body := λ _, Ok text |}
  end.

Section end_to_end.
Context {W K : Type} `{!FakeIdp.Library W K} `{!Link W} (p : FakeIdp.provider K).

Abbreviation World := (FakeIdp.State * W)%type.

(** The introspector's world is the provider with its revocations. *)
#[local] Instance idp_world : Introspection.IntrospectionWorld World :=
  {| Introspection.now := FakeIdp.lift clock;
     Introspection.NewRequest := request_fails;
     Introspection.Do := λ request,
       let! err := FakeIdp.lift fault in
       match err with
       | Some err => mret_ (Err err)
       | None =>
           let! answer := FakeIdp.handleIntrospection p (received_request request) in
           mret_ (Ok (response_of answer))
       end;
     Introspection.Unmarshal := decode |}.

Context (iterate : Introspection.Results → list string) (i : Introspection.Introspector).
Context (iterate_members : gmap string json → list (string * json)).

(** What happens after a revocation: the gateway introspects, or somebody calls
    the provider. *)
Inductive Event : Type :=
| Introspects (token jti : string) (expiresAt : Time)
| Calls (call : FakeIdp.Call).

Definition happens (event : Event) : M (Introspection.Results * World) unit := λ '(results, world),
  match event with
  | Introspects token jti expiresAt =>
      let '(_, s) := Introspection.Active iterate i token jti expiresAt (results, world) in (tt, s)
  | Calls call =>
      let '(_, world) := FakeIdp.step iterate_members p call world in (tt, (results, world))
  end.

Fixpoint happen (events : list Event) : M (Introspection.Results * World) unit :=
  match events with
  | [] => mret_ tt
  | event :: rest => let! _ := happens event in happen rest
  end.

(** ** The provider does not report a revoked token active *)

Inductive introspected (revoked : FakeIdp.State) : FakeIdp.Response → Prop :=
| introspected_refused header text status :
    status ≠ 200 → introspected revoked (FakeIdp.HTTPError header text status)
| introspected_inactive : introspected revoked (FakeIdp.WriteJSON [("active", JBool false)])
| introspected_active tokenID rest :
    tokenID ≠ "" → tokenID ∉ revoked →
    introspected revoked
      (FakeIdp.WriteJSON (("active", JBool true) :: ("jti", JString tokenID) :: rest)).

Lemma handleIntrospection_introspected r s (w : W) answer s' w' :
  FakeIdp.handleIntrospection p r (s, w) = (answer, (s', w')) → s' = s ∧ introspected s answer.
Proof.
  unfold FakeIdp.handleIntrospection, FakeIdp.lift, FakeIdp.parse. run_monad.
  destruct (FakeIdp.authenticated p r); cbn [negb]; [|intros [= <- <- <-]; split; [done|by constructor]].
  destruct (FakeIdp.ParseForm _ _ _) as [form|]; [|intros [= <- <- <-]; split; [done|by constructor]].
  destruct (decide (form "token" = "")); [intros [= <- <- <-]; split; [done|constructor]|].
  destruct (FakeIdp.ParseWithClaims _ _ _ _ _) as [[claims|] w1]; [|intros [= <- <- <-]; split; [done|constructor]].
  destruct (claims !! "jti") as [[]|]; try (intros [= <- <- <-]; split; [done|constructor]).
  case_decide; [intros [= <- <- <-]; split; [done|constructor]|].
  unfold FakeIdp.revokedJTI. case_bool_decide; intros [= <- <- <-]; (split; [done|]); by constructor.
Qed.

(** The gateway does not read a revoked ID as active. *)
Lemma answers_not_revoked revoked answer jti :
  introspected revoked answer → Introspection.answers jti (response_of answer) true → jti ∉ revoked.
Proof.
  intros Hans [Hstatus (encoded & document & Hbody & _ & Hd & Ha & Hj)].
  specialize (Hj eq_refl). destruct Hans as [header text status Hne| |tokenID rest Hid Hr]; cbn in *; [done| |].
  - injection Hbody as <-. rewrite decode_encode in Hd. by injection Hd as <-.
  - injection Hbody as <-. rewrite decode_encode in Hd. injection Hd as <-. cbn in Hj. set_solver.
Qed.

(** ** The request is read as it was meant *)

(** [ParseForm] and [PostFormValue] of [net/http] for a form within the size limit. *)
Definition reads_forms (W K : Type) `{!FakeIdp.Library W K} : Prop :=
  ∀ size body v,
    Z.of_nat (String.length body) ≤ size → ParseQuery body = Some v →
    ∃ form, FakeIdp.ParseForm size "application/x-www-form-urlencoded" body = Ok form ∧
      ∀ name, form name = Values_Get v name.

Lemma form_parses token :
  ParseQuery (Introspection.request_Body (Introspection.introspectionRequest i token))
    = Some (Introspection.introspectionForm token).
Proof.
  apply Parse_Encode. unfold Introspection.introspectionForm.
  apply map_Forall_insert_2; [done|]. by apply map_Forall_singleton.
Qed.

Lemma request_credentials token :
  FakeIdp.BasicAuth (received_request (Introspection.introspectionRequest i token))
    = Some (QueryEscape (Introspection.clientID i), QueryEscape (Introspection.clientSecret i)).
Proof. cbn. apply parse_basicAuth, QueryEscape_structural. by apply (bool_decide_unpack _). Qed.

Lemma request_authenticated token :
  FakeIdp.clientID p ≠ "" →
  FakeIdp.authenticated p (received_request (Introspection.introspectionRequest i token))
    = bool_decide (Introspection.clientID i = FakeIdp.clientID p) &&
      bool_decide (Introspection.clientSecret i = FakeIdp.clientSecret p).
Proof.
  intros Hid. unfold FakeIdp.authenticated. destruct (decide (FakeIdp.clientID p = "")); [done|].
  by rewrite request_credentials, !Unescape_Escape.
Qed.

(** ** What a call of the introspector does *)

Lemma Do_revoked request (revoked : FakeIdp.State) (w : W) r s' w' :
  Introspection.Do request (revoked, w) = (r, (s', w')) →
  s' = revoked ∧ ∀ response jti, r = Ok response → Introspection.answers jti response true → jti ∉ revoked.
Proof.
  cbn. unfold FakeIdp.lift. run_monad. destruct (fault w) as [[err|] w1]; [by intros [= <- <- _]|].
  destruct (FakeIdp.handleIntrospection _ _ _) as [answer [s1 w2]] eqn:Hh.
  apply handleIntrospection_introspected in Hh as [-> Hans]. intros [= <- <- _]. split; [done|].
  intros response jti [= <-]. by apply answers_not_revoked.
Qed.

(** A call leaves the revocations alone, and the cache too or for one store; it
    does not learn that a revoked token is active. *)
Lemma Active_revoked token jti expiresAt results revoked (w : W) r results' s' w' :
  Introspection.Active iterate i token jti expiresAt (results, (revoked, w)) = (r, (results', (s', w'))) →
  s' = revoked ∧
  (results' = results ∨
   ∃ t answer, (answer = true → jti ∉ revoked) ∧
     results' = Introspection.store_step iterate i results
       {| Introspection.stored_at := t; Introspection.stored_jti := jti;
          Introspection.stored_answer := answer; Introspection.stored_expiresAt := expiresAt |}).
Proof.
  intros Hcall. assert (s' = revoked) as ->.
  { apply (Introspection.Active_world iterate (λ world, world.1 = revoked)) in Hcall; [done| | |done].
    - intros [s1 w1] t world. cbn. unfold FakeIdp.lift. destruct (clock w1). by intros [= _ <-].
    - intros token' [s1 w1] r' [s2 w2] [-> _]%Do_revoked. done. }
  split; [done|]. destruct r as [answer|err].
  - apply Introspection.Active_ok in Hcall as (_ & _ & Hans).
    inversion Hans as [| |? ? ? w1 ? w2 w3 t4 ? ? response Hn1 _ Hn2 _ _ HD Ha]; subst; [by left..|right].
    exists t4, answer. split; [intros ->|done]. destruct w2 as [s2 w2], w3 as [s3 w3].
    assert (s2 = revoked) as ->.
    { cbn in Hn1, Hn2. unfold FakeIdp.lift in Hn1, Hn2. destruct w1 as [s1 w1].
      destruct (clock w) as [? w5]. injection Hn1 as _ -> _. destruct (clock w1). by injection Hn2. }
    apply Do_revoked in HD as [_ HD]. by eapply HD.
  - left. by eapply Introspection.Active_err.
Qed.

(** ** After a revocation *)

(** The answers remembered since are not about an active token with this ID. *)
Definition since_revoked (tokenID : string) (history : list Introspection.Stored)
    (state : Introspection.Results * World) : Prop :=
  tokenID ∈ state.2.1 ∧
  ∃ later, state.1 = Introspection.cache_after iterate i (history ++ later) ∧
    Forall (λ x, Introspection.stored_jti x = tokenID → Introspection.stored_answer x = false) later.

Lemma happens_since_revoked tokenID history event state u state' :
  happens event state = (u, state') → since_revoked tokenID history state →
  since_revoked tokenID history state'.
Proof.
  destruct state as [results [revoked w]], event as [token jti expiresAt|call]; cbn [happens].
  - destruct (Introspection.Active iterate i token jti expiresAt (results, (revoked, w)))
      as [r [results' [s' w']]] eqn:Hc.
    apply Active_revoked in Hc as [-> Hresults]. intros Hstate Hs.
    destruct Hs as [Hin (later & Hr & Hl)]. simplify_eq/=. split; [done|].
    destruct Hresults as [->|(t & answer & Ha & ->)]. { by exists later. }
    eexists (later ++ [_]). split.
    { unfold Introspection.cache_after. by rewrite app_assoc, foldl_snoc. }
    apply Forall_app. split; [done|]. apply Forall_singleton.
    cbn. intros ->. destruct answer; [|done]. by destruct Ha.
  - destruct (FakeIdp.step iterate_members p call (revoked, w)) as [answer [s' w']] eqn:Hc.
    intros Hstate Hs. destruct Hs as [Hin Hl]. simplify_eq/=. split; [|done]. cbn in *.
    by apply (FakeIdp.step_revoked iterate_members p call revoked w answer s' w' tokenID).
Qed.

Lemma happen_since_revoked tokenID history events state u state' :
  happen events state = (u, state') → since_revoked tokenID history state →
  since_revoked tokenID history state'.
Proof.
  revert state. induction events as [|event events IH]; intros state; cbn [happen]; run_monad.
  { intros. by simplify_eq. }
  destruct (happens event state) as [[] state1] eqn:He. intros Hrest Hs.
  eapply IH; [exact Hrest|]. by eapply happens_since_revoked.
Qed.

(** A cached answer that the token is active is older than the revocation. *)
Lemma cached_since_revoked tokenID history results world t0 t :
  since_revoked tokenID history (results, world) →
  Forall (λ x, Introspection.stored_at x ≤ t0) history →
  Introspection.cached results t tokenID = Some true → t < t0 + Introspection.cacheTTL i.
Proof.
  intros [_ (later & Hr & Hl)] Hh Hc. cbn in Hr. rewrite Hr in Hc.
  apply Introspection.cached_fresh in Hc as (x & (before & after & Happ & Hj & _) & Ha & Ht & _).
  assert (x ∈ history ++ later) as Hx by (rewrite Happ; set_solver).
  apply elem_of_app in Hx as [Hx|Hx].
  - rewrite Forall_forall in Hh. apply Hh in Hx. lia.
  - rewrite Forall_forall in Hl. rewrite (Hl x Hx Hj) in Ha. done.
Qed.

Lemma Active_since_revoked token tokenID expiresAt history results world t0 t w r s' :
  (∀ w t w1 t2 w2, clock w = (t, w1) → clock w1 = (t2, w2) → t ≤ t2) →
  since_revoked tokenID history (results, world) →
  Forall (λ x, Introspection.stored_at x ≤ t0) history →
  clock world.2 = (t, w) → t0 + Introspection.cacheTTL i ≤ t →
  Introspection.Active iterate i token tokenID expiresAt (results, world) = (r, s') → r ≠ Ok true.
Proof.
  intros Hclock Hs Hh Ht Hold Hcall ->. destruct world as [revoked w0], s' as [results' world'].
  assert (∀ t, Introspection.cached results t tokenID = Some true → t0 + Introspection.cacheTTL i ≤ t → False)
    as Hcached.
  { intros t' Hc Hge. pose proof (cached_since_revoked _ _ _ _ t0 t' Hs Hh Hc). lia. }
  apply Introspection.Active_ok in Hcall as (_ & _ & Hans).
  inversion Hans as [? ? t1 w1 ? Hn1 Hc|? ? t1 w1 t2 w2 ? Hn1 _ Hn2 Hc|? ? t1 w1 t2 w2 w3 ? ? ? ? Hn1 _ Hn2 _ _ HD Ha _];
    subst; cbn in Hn1; unfold FakeIdp.lift in Hn1; cbn in Ht; rewrite Ht in Hn1; injection Hn1 as <- <-.
  - by eapply Hcached.
  - cbn in Hn2. unfold FakeIdp.lift in Hn2. destruct (clock w) as [t3 w3] eqn:Ht3.
    injection Hn2 as -> _. eapply Hclock in Ht3; [|exact Ht]. eapply Hcached; [exact Hc|lia].
  - cbn in Hn2. unfold FakeIdp.lift in Hn2. destruct (clock w) as [t3 w4]. injection Hn2 as _ <-.
    destruct w3 as [s3 w3]. apply Do_revoked in HD as [_ HD]. destruct Hs as [Hin _]. exact (HD _ _ eq_refl Ha Hin).
Qed.
End end_to_end.

(** ** Properties *)

(** A revocation reaches the gateway within the time an answer is cached:
    once the fake provider has answered that it revoked an ID, at a time [t0] that
    no answer in the cache is younger than, then after any further introspections
    and any calls of the provider, and whatever the network does, a call of
    [Active] for this ID at least [cacheTTL] after [t0] never says the token is
    active. *)
Theorem revocation_takes_effect {W K} `{!FakeIdp.Library W K} `{!Link W} (p : FakeIdp.provider K)
    iterate iterate_members i history t0 body (s0 : FakeIdp.State) (w0 : W) answer s1 w1 tokenID
    events u results s2 w2 t w3 token expiresAt r state :
  (∀ w t w1 t2 w2, clock (W := W) w = (t, w1) → clock w1 = (t2, w2) → t ≤ t2) →
  Forall (λ x, Introspection.stored_at x ≤ t0) history →
  FakeIdp.handleRevoke p body (s0, w0) = (answer, (s1, w1)) → FakeIdp.reports_revoked tokenID answer →
  happen p iterate i iterate_members events (Introspection.cache_after iterate i history, (s1, w1))
    = (u, (results, (s2, w2))) →
  clock w2 = (t, w3) → t0 + Introspection.cacheTTL i ≤ t →
  Introspection.Active (IntrospectionWorld0 := idp_world p) iterate i token tokenID expiresAt
    (results, (s2, w2)) = (r, state) →
  r ≠ Ok true.
Proof.
  intros Hclock Hh Hrev Hans Hhappen Ht Hold.
  apply Active_since_revoked with (history := history) (t0 := t0) (t := t) (w := w3); try done.
  eapply happen_since_revoked; [exact Hhappen|]. split; cbn.
  - apply FakeIdp.handleRevoke_revokes in Hrev as [_ Hrev]. by apply (Hrev tokenID).
  - exists []. by rewrite app_nil_r.
Qed.

(** ** An example *)

(** Documents are written as what the gateway reads of them. *)
Definition example_encode (body : list (string * json)) : string :=
  match introspection_of body with
  | Ok d =>
      match Introspection.document_Active d with
      | Some true => "t" | Some false => "f" | None => "n"
      end +:+ Introspection.document_JTI d
  | Err _ => ""
  end.

Definition example_decode (encoded : string) : result error Introspection.introspectionDocument :=
  match encoded with
  | String "t" jti =>
      Ok {| Introspection.document_Active := Some true; Introspection.document_JTI := jti |}
  | String "f" jti =>
      Ok {| Introspection.document_Active := Some false; Introspection.document_JTI := jti |}
  | String "n" jti => Ok {| Introspection.document_Active := None; Introspection.document_JTI := jti |}
  | _ => Err (ErrorNew "json: cannot unmarshal")
  end.

Lemma example_decode_encode body : example_decode (example_encode body) = introspection_of body.
Proof.
  unfold example_encode. destruct (introspection_of body) as [[[[]|] jti]|err] eqn:Hb; try done.
  unfold introspection_of in Hb. repeat case_match; try done; by injection Hb as <-.
Qed.

(** Every look at the clock takes 30 units. *)
#[local] Instance example_link : Link nat :=
  {| clock := λ w, (30 * Z.of_nat w, S w); fault := λ w, (None, w);
     request_fails := λ _ _, None;
     encode := example_encode; decode := example_decode; decode_encode := example_decode_encode |}.

Definition example_history : list Introspection.Stored :=
  [{| Introspection.stored_at := 5; Introspection.stored_jti := "id-1"; Introspection.stored_answer := true;
      Introspection.stored_expiresAt := 0 |}].

Definition example_cache : Introspection.Results :=
  Introspection.cache_after Introspection.example_iterate Introspection.example_introspector example_history.

(** The ID is revoked at time 5.  A call at time 30 still answers from the cache,
    one at time 90 does not. *)
Lemma revocation_takes_effect_witness :
  let ask := Introspection.Active
    (IntrospectionWorld0 := idp_world (H := FakeIdp.example_library) FakeIdp.example_provider)
    Introspection.example_iterate Introspection.example_introspector "id-1" "id-1" 0 in
  (ask (example_cache, ({["id-1"]}, 1%nat))).1 = Ok true ∧
  (ask (example_cache, ({["id-1"]}, 3%nat))).1 ≠ Ok true.
Proof.
  split; [vm_compute; reflexivity|].
  eapply (revocation_takes_effect (H := FakeIdp.example_library) FakeIdp.example_provider
    Introspection.example_iterate map_to_list Introspection.example_introspector example_history 5
    "id-1" ∅ 1%nat (FakeIdp.WriteJSON [("jti", JString "id-1"); ("revoked", JBool true)]) {["id-1"]} 1%nat
    "id-1" [Introspects "id-1" "id-1" 0; Introspects "id-1" "id-1" 0] tt example_cache {["id-1"]} 3%nat 90 4%nat).
  - intros w t w1 t2 w2 [= <- <-] [= <- _]. lia.
  - by repeat constructor.
  - vm_compute. reflexivity.
  - reflexivity.
  - vm_compute. reflexivity.
  - reflexivity.
  - by vm_compute.
  - apply surjective_pairing.
Defined.

(** ** Concurrent calls after a revocation *)

Section concurrent.
Import SingleFlight IntrospectionFlight.
Context {W K : Type} `{!FakeIdp.Library W K} `{!Link W} (p : FakeIdp.provider K).
Context (i : Introspection.Introspector).

#[local] Instance provider_world : Introspection.IntrospectionWorld (FakeIdp.State * W) := idp_world p.

(** The response to a request about a token while these IDs are revoked. *)
Definition idp_responds (revoked : FakeIdp.State) (token : string) (response : Response) : Prop :=
  ∃ answer w w',
    FakeIdp.handleIntrospection p (received_request (Introspection.introspectionRequest i token))
      (revoked, w) = (answer, (revoked, w')) ∧
    response = response_of answer.

(** The introspector against the provider, whose revocations only grow. *)
Definition idp_protocol :
    Protocol Ask string (result error bool) (result error bool) (Shared FakeIdp.State) Flight :=
  active_protocol (W := FakeIdp.State * W) i (⊆) idp_responds.

Lemma idp_responds_not_revoked revoked token response jti :
  idp_responds revoked token response → Introspection.answers (W := FakeIdp.State * W) jti response true →
  jti ∉ revoked.
Proof.
  intros (answer & w & w' & Hh & ->). apply handleIntrospection_introspected in Hh as [_ Hans].
  by apply answers_not_revoked.
Qed.

(** What a revocation leaves: the answers that say the token is active expire by
    [T], and no flight has learnt one since.  Once [T] is past ([late]), nothing
    says the token is active. *)
Section revoked.
Context (tokenID : string) (T : Time) (late : bool).

Definition says_active (jti : string) (r : result error bool) : Prop :=
  late = true → jti = tokenID → r ≠ Ok true.

Definition revoked_shared (s : Shared FakeIdp.State) : Prop :=
  tokenID ∈ idp s ∧
  (∀ r, results s !! tokenID = Some r → Introspection.active r = true → Introspection.expiry r ≤ T) ∧
  (late = true → T ≤ clock s).

Definition revoked_flight (g : string) (f : Flight) : Prop :=
  match f with
  | Rechecking a | Asking a => jti a = g
  | Storing a answer => jti a = g ∧ (g = tokenID → answer = false)
  | Landed outcome => says_active g outcome
  end.

Lemma cached_says_active s jti answer :
  revoked_shared s → Introspection.cached (results s) (clock s) jti = Some answer → says_active jti (Ok answer).
Proof.
  intros (_ & Hexp & Hlate) Hc Hl -> [= ->]. revert Hc. unfold Introspection.cached.
  destruct (results s !! tokenID) as [r|]; [|done]. specialize (Hexp r eq_refl). specialize (Hlate Hl).
  unfold time_before. destruct (Z.ltb_spec (clock s) (Introspection.expiry r)); [|done].
  cbn. intros [= Ha]. specialize (Hexp Ha). lia.
Qed.

Lemma revoked_invariant :
  invariant idp_protocol revoked_shared (λ g f _, revoked_flight g f) says_active
    (λ a r, says_active (jti a) r).
Proof.
  split; cbn.
  - intros s s' (Hr & Ht & Hidp) (Hin & Hexp & Hlate). split; [|done]. split_and!.
    + destruct Hidp as [->|Hsub]; [done|]. by apply Hsub.
    + by rewrite Hr.
    + intros Hl. specialize (Hlate Hl). lia.
  - done.
  - intros g f s f' s' Hfly Hs Hf.
    destruct Hfly as [a s answer Hc|a s Hc|a s response answer Hresp Ha|a s err He|iterate a s answer Hit];
      cbn in *; split_and!; auto; try done.
    + subst g. by eapply cached_says_active.
    + intros Hg. destruct answer; [|done]. exfalso.
      apply (idp_responds_not_revoked _ _ _ _ Hresp Ha). rewrite Hf, Hg. apply Hs.
    + destruct Hs as (Hin & Hexp & Hlate), Hf as [Hg Hans]. split_and!; [done| |done]. cbn.
      intros r [[Hj ->]|[_ Hr]]%Introspection.store_lookup; [|by apply Hexp]. cbn.
      intros Ha. rewrite Hans in Ha; [done|congruence].
    + destruct Hf as [_ Hans]. intros Hl -> [= ->]. by specialize (Hans eq_refl).
  - intros g [] s o; cbn; try done. by intros [= <-].
  - intros a s r Hc Hs. pose proof (check_active_spec a s) as Hsp. rewrite Hc in Hsp.
    destruct r as [answer|err]; [|by intros ? ? [=]]. destruct Hsp as (_ & _ & Hcached).
    by eapply cached_says_active.
  - done.
Qed.
End revoked.

(** No answer is kept longer than [cacheTTL]. *)
Lemma ttl_invariant :
  invariant idp_protocol
    (λ s, ∀ jti r, results s !! jti = Some r → Introspection.expiry r ≤ clock s + Introspection.cacheTTL i)
    (λ _ _ _, True) (λ _ _, True) (λ _ _, True).
Proof.
  split; cbn; try done.
  - intros s s' (Hr & Ht & _) Hs. split; [|done]. rewrite Hr. intros jti r Hj. specialize (Hs jti r Hj). lia.
  - intros g f s f' s' Hfly Hs _. split; [|done]. destruct Hfly; try exact Hs. cbn.
    intros jti' r [[_ ->]|[_ Hr]]%Introspection.store_lookup; [|by eapply Hs]. cbn.
    apply Introspection.expiryOf_bound.
Qed.

(** A flight is about the token of its group key. *)
Definition flight_about (g : string) (f : Flight) : Prop :=
  match f with Rechecking a | Asking a | Storing a _ => jti a = g | Landed _ => True end.

Lemma arrivals_after_revocation tokenID c0 c1 c2 a r :
  config_ok idp_protocol
    (λ s, ∀ jti r, results s !! jti = Some r → Introspection.expiry r ≤ clock s + Introspection.cacheTTL i)
    (λ _ _ _, True) (λ _ _, True) (λ _ _, True) c0 →
  (∀ g f, flights c0 !! g = Some f → flight_about g f) →
  tokenID ∈ idp (shared c0) → flights c0 !! tokenID = None →
  rtc (step idp_protocol) c0 c1 →
  clock (shared c0) + Introspection.cacheTTL i ≤ clock (shared c1) → flights c1 !! tokenID = None →
  rtc (step idp_protocol) {| shared := shared c1; flights := flights c1; calls := [] |} c2 →
  Returned a r ∈ calls c2 → jti a = tokenID → r ≠ Ok true.
Proof.
  intros [Httl _ Hcalls] Habout Hin Hno0 H01 Hlate Hno1 H12 Hret Hj.
  set (T := clock (shared c0) + Introspection.cacheTTL i) in *.
  destruct (steps_ok _ _ _ _ _ _ _ (revoked_invariant tokenID T false) H01) as [(Hin1 & Hexp1 & _) HJ1 _].
  { split; [split; [done|split; [|done]]| |].
    - intros e He _. by apply Httl in He.
    - intros g f Hf. pose proof (Habout g f Hf). destruct f; cbn in *; try done. split; [done|].
      intros ->. congruence.
    - eapply Forall_impl; [exact Hcalls|]. intros [] Hok; cbn in *; try exact Hok; [split; [apply Hok|]|]; by intros [=]. }
  destruct (steps_ok _ _ _ _ _ _ _ (revoked_invariant tokenID T true) H12) as [_ _ Hcs].
  { split; [by split| |constructor].
    intros g f Hf. pose proof (HJ1 g f Hf). destruct f; cbn in *; try done. intros _ ->. congruence. }
  rewrite Forall_forall in Hcs. by apply (Hcs _ Hret).
Qed.
End concurrent.

(** The provider's revocations only grow, whatever it is called for. *)
Lemma step_grows {W K} `{!FakeIdp.Library W K} iterate (p : FakeIdp.provider K) call s (w : W) answer s' w' :
  FakeIdp.step iterate p call (s, w) = (answer, (s', w')) → s ⊆ s'.
Proof. intros Hstep tokenID Hin. by eapply FakeIdp.step_revoked in Hstep as [? _]. Qed.

(** C12. A revocation reaches concurrent calls too, under two conditions on the
    single-flight group.  Let the provider have revoked an ID, and take two moments
    after that, at least [cacheTTL] apart, at each of which no flight for this ID is
    under way: then no call that arrives after the second moment says the token is
    active, whatever other calls, flights, failures of the network and revocations
    are interleaved before, between and after.  Without the first condition a
    flight that learnt its answer before the revocation could still store it, with
    a fresh expiry; without the second, a call could join a flight that found the
    old answer in the cache before it expired. *)
Theorem revocation_reaches_concurrent_calls {W K} `{!FakeIdp.Library W K} `{!Link W} (p : FakeIdp.provider K)
    i t revoked c0 tokenID c1 c2 a r :
  let P := idp_protocol p i in
  0 ≤ Introspection.maxEntries i →
  SingleFlight.reachable P
    {| IntrospectionFlight.results := ∅; IntrospectionFlight.clock := t; IntrospectionFlight.idp := revoked |} c0 →
  tokenID ∈ IntrospectionFlight.idp (SingleFlight.shared c0) →
  SingleFlight.flights c0 !! tokenID = None →
  rtc (SingleFlight.step P) c0 c1 →
  IntrospectionFlight.clock (SingleFlight.shared c0) + Introspection.cacheTTL i
    ≤ IntrospectionFlight.clock (SingleFlight.shared c1) →
  SingleFlight.flights c1 !! tokenID = None →
  rtc (SingleFlight.step P)
    {| SingleFlight.shared := SingleFlight.shared c1; SingleFlight.flights := SingleFlight.flights c1;
       SingleFlight.calls := [] |} c2 →
  SingleFlight.Returned a r ∈ SingleFlight.calls c2 → IntrospectionFlight.jti a = tokenID → r ≠ Ok true.
Proof.
  intros P Hmax H0 Hin Hno0 H01 Hlate Hno1 H12 Hret Hj.
  apply (arrivals_after_revocation p i tokenID c0 c1 c2 a r); try done.
  - eapply SingleFlight.reachable_ok; [apply ttl_invariant| |exact H0].
    intros jti e He. cbn in He. by rewrite lookup_empty in He.
  - intros g f Hf. eapply IntrospectionFlight.reachable_introspection in H0 as [_ HJ _]; [|done].
    apply HJ in Hf. by destruct f; [|destruct Hf..|].
Qed.

(** C13. The provider reads the gateway's introspection request as it was meant,
    whatever bytes are in the client's name, its secret and the token: a request
    with other credentials than the provider's is refused, and with the same ones
    the provider answers for exactly this token, that it is inactive when it is
    none of its own or revoked, and otherwise active with its ID.  (The form is
    within the provider's size limit, and [net/http] parses forms as [net/url]
    parses queries.) *)
Theorem introspection_request_understood {W K} `{!FakeIdp.Library W K} (p : FakeIdp.provider K)
    i token (revoked : FakeIdp.State) (w : W) parsed w' :
  reads_forms W K → FakeIdp.clientID p ≠ "" →
  let request := Introspection.introspectionRequest i token in
  Z.of_nat (String.length (Introspection.request_Body request)) ≤ FakeIdp.maxRequestSize →
  FakeIdp.parse p token w = (parsed, w') →
  if decide (Introspection.clientID i = FakeIdp.clientID p ∧
             Introspection.clientSecret i = FakeIdp.clientSecret p) then
    ∃ body, FakeIdp.handleIntrospection p (received_request request) (revoked, w)
        = (FakeIdp.WriteJSON body, (revoked, w')) ∧
      match parsed with
      | Ok (_, tokenID) =>
          if decide (tokenID ∈ revoked) then body = [("active", JBool false)]
          else ∃ rest, body = ("active", JBool true) :: ("jti", JString tokenID) :: rest
      | Err _ => body = [("active", JBool false)]
      end
  else
    ∃ header text, FakeIdp.handleIntrospection p (received_request request) (revoked, w)
      = (FakeIdp.HTTPError header text 401, (revoked, w)).
Proof.
  intros Hforms Hid request Hsize Hparse. unfold FakeIdp.handleIntrospection, FakeIdp.lift. run_monad.
  unfold request in *. clear request. rewrite (request_authenticated p i token Hid).
  case_decide as Hcred.
  - destruct Hcred as [-> ->]. rewrite !bool_decide_eq_true_2 by done. cbn [andb negb].
    destruct (Hforms _ _ _ Hsize (form_parses i token)) as (form & Hform & Hget).
    change (FakeIdp.ContentType _) with "application/x-www-form-urlencoded".
    change (FakeIdp.Body _) with (Introspection.request_Body (Introspection.introspectionRequest i token)).
    rewrite Hform, Hget. change (Values_Get _ "token") with token. rewrite Hparse.
    unfold FakeIdp.revokedJTI.
    destruct parsed as [[claims tokenID]|err]; [|by eexists].
    case_bool_decide; case_decide; try done; eexists; split; try done. by eexists.
  - assert (bool_decide (Introspection.clientID i = FakeIdp.clientID p) &&
      bool_decide (Introspection.clientSecret i = FakeIdp.clientSecret p) = false) as ->.
    { apply andb_false_iff. rewrite !bool_decide_eq_false. destruct (decide (Introspection.clientID i = FakeIdp.clientID p)); tauto. }
    by eexists _, _.
Qed.

(** The same with the steps of the concurrent model: the token is introspected and
    then revoked, and a call that arrives 60 units later learns it. *)
Section example.
Import SingleFlight IntrospectionFlight.
#[local] Existing Instance FakeIdp.example_library.
#[local] Instance example_provider_world : Introspection.IntrospectionWorld (FakeIdp.State * nat) :=
  idp_world FakeIdp.example_provider.

Lemma example_reads_forms : reads_forms nat (Z * Z).
Proof.
  intros size body v Hsize Hv. cbn. unfold FakeIdp.example_form.
  rewrite (proj2 (Z.ltb_ge _ _)) by done. rewrite Hv. eexists. split; [done|]. intros name.
  by destruct (decide _).
Qed.

(** Credentials and a token with bytes that forms and credentials are built of. *)
Definition example_odd_introspector : Introspection.Introspector :=
  {| Introspection.endpoint := "https://idp/introspect"; Introspection.clientID := "a:b&c";
     Introspection.clientSecret := "100% = +"; Introspection.cacheTTL := 60; Introspection.timeout := 5;
     Introspection.maxEntries := 2 |}.

Definition example_odd_provider : FakeIdp.provider (Z * Z) :=
  {| FakeIdp.issuer := "http://idp"; FakeIdp.audience := "gateway"; FakeIdp.key := (2 ^ 2048 + 1, 65537);
     FakeIdp.clientID := "a:b&c"; FakeIdp.clientSecret := "100% = +" |}.

Lemma introspection_request_understood_witness :
  ∃ body, FakeIdp.handleIntrospection example_odd_provider
      (received_request (Introspection.introspectionRequest example_odd_introspector "x&token=y"))
      ({["z"]}, 0%nat) = (FakeIdp.WriteJSON body, ({["z"]}, 0%nat)) ∧
    ∃ rest, body = ("active", JBool true) :: ("jti", JString "x&token=y") :: rest.
Proof.
  assert (Z.of_nat (String.length (Introspection.request_Body
    (Introspection.introspectionRequest example_odd_introspector "x&token=y"))) ≤ FakeIdp.maxRequestSize) as Hsize
    by (apply Z.leb_le; vm_compute; reflexivity).
  pose proof (introspection_request_understood example_odd_provider example_odd_introspector "x&token=y" {["z"]}
    0%nat (Ok (FakeIdp.example_claims "x&token=y", "x&token=y")) 0%nat example_reads_forms ltac:(done) Hsize
    eq_refl) as H.
  destruct (decide _) as [_|[]]; [|done]. destruct (decide _) as [?|_]; [set_solver|exact H].
Defined.

Definition example_ask : Ask := {| token := "id-1"; jti := "id-1"; expiresAt := 0 |}.

Definition example_protocol := idp_protocol FakeIdp.example_provider Introspection.example_introspector.

Definition example_state (cache : Introspection.Results) (t : Time) (revoked : FakeIdp.State) :
    Shared FakeIdp.State :=
  {| results := cache; clock := t; idp := revoked |}.

Definition example_response (revoked : FakeIdp.State) : Response :=
  response_of (FakeIdp.handleIntrospection FakeIdp.example_provider
                 (received_request
                    (Introspection.introspectionRequest Introspection.example_introspector "id-1"))
                 (revoked, 0%nat)).1.

Lemma example_answers :
  Introspection.answers (W := FakeIdp.State * nat) "id-1" (example_response ∅) true ∧
  Introspection.answers (W := FakeIdp.State * nat) "id-1" (example_response {["id-1"]}) false.
Proof.
  split; (split; [vm_compute; reflexivity|]).
  - exists "tid-1", {| Introspection.document_Active := Some true; Introspection.document_JTI := "id-1" |}.
    split_and!; [vm_compute; reflexivity|by vm_compute|vm_compute; reflexivity|done|right; left].
  - exists "f", {| Introspection.document_Active := Some false; Introspection.document_JTI := "" |}.
    split_and!; [vm_compute; reflexivity|by vm_compute|vm_compute; reflexivity|done|done].
Qed.

Lemma example_flight cache t revoked answer :
  Introspection.answers (W := FakeIdp.State * nat) "id-1" (example_response revoked) answer →
  Introspection.cached cache t "id-1" = None →
  rtc (step example_protocol)
    {| shared := example_state cache t revoked; flights := ∅; calls := [] |}
    {| shared := example_state (Introspection.store Introspection.example_iterate
         Introspection.example_introspector cache t "id-1" answer 0) t revoked;
       flights := ∅; calls := [Returned example_ask (Ok answer)] |}.
Proof.
  intros Hans Hc. eapply rtc_l; [right; apply (step_call _ _ _ [] example_ask)|].
  eapply (undisturbed_flight example_protocol _ _ (Landed (Ok answer)) _ (Ok answer)); [| |done].
  { cbn. unfold check_active. cbn. by rewrite Hc. }
  apply (rtc_l _ _ (Asking example_ask, example_state cache t revoked));
    [left; split; [done|by apply fly_ask]|].
  apply (rtc_l _ _ (Storing example_ask answer, example_state cache t revoked)); [left; split; [done|]|].
  { apply (fly_answered _ _ example_ask _ (example_response revoked)); [|exact Hans].
    eexists _, 0%nat, 0%nat. split; [|reflexivity]. reflexivity. }
  apply rtc_once. left. split; [done|].
  apply (fly_store _ _ Introspection.example_iterate example_ask (example_state cache t revoked)). done.
Qed.

Definition example_remembered : Introspection.Results :=
  Introspection.store Introspection.example_iterate Introspection.example_introspector ∅ 5 "id-1" true 0.

Lemma revocation_reaches_concurrent_calls_witness :
  ∃ c, rtc (step example_protocol)
         {| shared := example_state example_remembered 65 {["id-1"]}; flights := ∅; calls := [] |} c ∧
       ∀ a r, Returned a r ∈ calls c → jti a = "id-1" → r ≠ Ok true.
Proof.
  eexists. split; [apply (example_flight _ _ _ false); [apply example_answers|by vm_compute]|]. intros a r.
  set (cs := [Returned example_ask (Ok true)] : list (phase Ask (result error bool) (result error bool))).
  refine (revocation_reaches_concurrent_calls FakeIdp.example_provider Introspection.example_introspector 5 ∅
    {| shared := example_state example_remembered 5 {["id-1"]}; flights := ∅; calls := cs |} "id-1"
    {| shared := example_state example_remembered 65 {["id-1"]}; flights := ∅; calls := cs |} _ a r _ _ _ _ _ _ _ _).
  - done.
  - unfold reachable, initial. etrans; [apply (example_flight _ _ _ true); [apply example_answers|done]|]. apply rtc_once. right.
    apply step_tick. split_and!; [done|done|]. right. cbn. set_solver.
  - cbn. set_solver.
  - apply lookup_empty.
  - apply rtc_once. right. apply step_tick. split_and!; [done|by vm_compute|by left].
  - by vm_compute.
  - apply lookup_empty.
  - apply (example_flight _ _ _ false); [apply example_answers|by vm_compute].
Defined.
End example.
