(* ===== verification/EndToEndTokens.v ===== *)
(** * The tokens of the fake IdP at the gateway

    A token that the fake provider ([internal/fakeidp]) signs for a request, put
    through the provider of the gateway ([internal/idp]) and, below it, the key
    set and the verifier of [internal/externaltoken], when the gateway downloads
    the keys from the document the fake provider publishes.  golang-jwt is on
    both sides; its laws are that a token parses to the claims it was signed with
    when the key function returns the signer's public key, and how it reads the
    registered claims. *)

From S2P Require Import Prelude GoStd GoErrors Base64 Discovery.
From S2P Require Registry Verifier KeySet Introspection Authn Idp FakeIdp.

Import Verifier (json, JNull, JBool, JNumber, JString, JArray, JObject).

Section tokens.
Context {W V K : Type} `{!FakeIdp.Library V K} `{!KeySet.KeySetWorld W} `{!Verifier.JWT (Idp.World W)}.
Context (p : FakeIdp.provider K).

(** The public half of the provider's key. *)
Definition publicKey : Verifier.PublicKey :=
  Verifier.RSAKey (FakeIdp.key_N (FakeIdp.key p)) (FakeIdp.key_E (FakeIdp.key p)).

(** Its key is one the gateway takes, as [GenerateKey] makes them. *)
Record key_ok : Prop := {
  key_positive : 0 < FakeIdp.key_N (FakeIdp.key p);
  key_size : FakeIdp.keySize ≤ BitLen (FakeIdp.key_N (FakeIdp.key p));
  key_exponent : 3 ≤ FakeIdp.key_E (FakeIdp.key p) ≤ KeySet.MaxInt32;
}.

(** The JSON document of the keys, as the gateway decodes it. *)
Definition serves_keys (encoded : string) : Prop :=
  ∃ values, FakeIdp.keys_of (FakeIdp.handleJWKS p) = Some values ∧
    KeySet.UnmarshalJWKS encoded = Ok values.

(** The time a whole number of seconds of the Unix epoch stands for. *)
Definition date (seconds : Z) : Time := (seconds + 62135596800) * Second.

(** golang-jwt; [jwt_now] is the clock its parser reads.  A signed token parses to
    its claims when the key function returns the signer's public key for its
    header, RS256 is allowed, the issuer is the expected one, and the clock is
    between [nbf] and [exp], give or take the leeway; the two are numbers of
    seconds that a [float64] holds, and not 0, which counts as absent. *)
Record jwt_laws (jwt_now : Idp.World W → Time) : Prop := {
  parse_signed options keyID claims nbf exp raw keyfunc w w' :
    FakeIdp.SignedString (FakeIdp.key p) keyID claims = Ok raw →
    keyfunc {| Verifier.token_kid := JString keyID; Verifier.token_Alg := Verifier.RS256 |} w
      = (Ok publicKey, w') →
    Verifier.RS256 ∈ Verifier.ValidMethods options →
    claims !! "iss" = Some (JString (Verifier.ParserIssuer options)) →
    claims !! "nbf" = Some (JNumber (Itoa nbf)) → 0 < nbf ≤ 2 ^ 53 →
    claims !! "exp" = Some (JNumber (Itoa exp)) → 0 < exp ≤ 2 ^ 53 →
    date nbf - Verifier.ParserLeeway options ≤ jwt_now w'
      < date exp + Verifier.ParserLeeway options →
    Verifier.ParseWithClaims options raw keyfunc w = (Ok claims, w');
  audience_text : FakeIdp.reads_audience (Idp.World W);
  expiry_number : FakeIdp.reads_expiry (Idp.World W);
}.

(** A request whose token is read while it is valid: it was issued after the
    epoch, its expiry is [expiry_readable], and the clock of the reader is in its
    lifetime, give or take the leeway. *)
Record in_lifetime (r : FakeIdp.tokenRequest) (issued : Time) (leeway : Duration) (read : Time) : Prop := {
  lifetime_issued : 0 < FakeIdp.Unix issued;
  lifetime_readable : FakeIdp.expiry_readable r issued;
  lifetime_now :
    date (FakeIdp.Unix issued) - leeway ≤ read
      < date (FakeIdp.Unix issued + FakeIdp.lifetime r) + leeway;
}.

(** The key set learns the provider's key with one download. *)
Lemma key_downloaded k w t w1 encoded w2 t' w3 :
  key_ok → 0 ≤ t → KeySet.now w = (t, w1) →
  KeySet.Fetch (KeySet.fetchTimeout k) (KeySet.url k) (KeySet.maxDocumentSize k) w1 = (Ok encoded, w2) →
  serves_keys encoded → KeySet.now w2 = (t', w3) →
  KeySet.KeySet_Key k FakeIdp.keyID (KeySet.newState, w)
    = (Ok publicKey, (KeySet.store k t' {[FakeIdp.keyID := publicKey]}, w3)).
Proof.
  intros [Hpos Hlen Hexp] Ht Hn Hf (values & Hvalues & Hu) Hn'.
  destruct (FakeIdp.published_keys p Hpos Hlen Hexp) as (values' & Hvalues' & Hparse).
  rewrite Hvalues in Hvalues'. injection Hvalues' as <-.
  apply KeySet.Key_recovers with t w1 w2; try done; [by left| |].
  - cbn. lia.
  - apply KeySet.recovers_now. unfold KeySet.load. run_monad. rewrite Hf. cbn [result_bind].
    unfold KeySet.parseJWKS. by rewrite Hu, Hparse.
Qed.

Lemma issued_parses jwt_now (v : Verifier.Verifier (Idp.World W)) r id now raw w w' :
  jwt_laws jwt_now → FakeIdp.extra_ok r →
  FakeIdp.SignedString (FakeIdp.key p) FakeIdp.keyID (FakeIdp.claimsOf p r id now) = Ok raw →
  Verifier.Key (Verifier.keys v) FakeIdp.keyID w = (Ok publicKey, w') →
  Verifier.RS256 ∈ Verifier.ValidMethods (Verifier.parser v) →
  Verifier.ParserIssuer (Verifier.parser v) = FakeIdp.issuer p →
  in_lifetime r now (Verifier.ParserLeeway (Verifier.parser v)) (jwt_now w') →
  Verifier.ParseWithClaims (Verifier.parser v) raw (Verifier.keyFunc v) w
    = (Ok (FakeIdp.claimsOf p r id now), w').
Proof.
  intros Hlaws Hextra Hsign Hkey Halg Hiss [Hpos Hread Hnow].
  pose proof (FakeIdp.readable_exp _ _ Hread) as He. pose proof (FakeIdp.lifetime_pos r) as Hlife.
  destruct (FakeIdp.claimsOf_signed p r id now Hextra) as [Hs _ _ _ _ _ _ _ Hn Hx _ _].
  rewrite (FakeIdp.signed_expiry _ _ Hread) in Hx.
  apply (parse_signed _ Hlaws _ FakeIdp.keyID _ (FakeIdp.Unix now)
           (FakeIdp.Unix now + FakeIdp.lifetime r)); try done; [|by rewrite Hiss|lia].
  unfold Verifier.keyFunc. run_monad. cbn [Verifier.token_kid].
  destruct (decide (FakeIdp.keyID = "")) as [|_]; [done|]. by rewrite Hkey.
Qed.
End tokens.

(** ** Properties *)

(** C11. A token of the fake provider is accepted by a gateway that is configured
    for it: with the provider's issuer and audience, RS256 allowed, an acceptable
    key, and a key set that has not downloaded anything yet, the first token of an
    acceptable request makes the gateway download the published keys once.  Read
    while it is valid ([in_lifetime]: between the second of issue and the expiry,
    give or take the verifier's leeway, for a request of at most 9223372036
    seconds whose expiry is a second of the epoch up to 2^53), it is accepted with
    the subject, client, scope, IDs and token use it was requested with and the
    expiry at the second of issue plus the seconds asked for, or 300 when none
    are; the legacy scope is rewritten if the gateway says so.  Afterwards the key
    set holds the provider's key alone. *)
Theorem issued_token_accepted {W V K} `{!FakeIdp.Library V K} `{!KeySet.KeySetWorld W}
    `{!Verifier.JWT (Idp.World W)} (p : FakeIdp.provider K) jwt_now url_Parse ValidateBinding
    (g : Idp.Provider) md current r id issued confirmation raw (w : Idp.World W) t w1 encoded w2 t' w3 :
  jwt_laws p jwt_now → key_ok p →
  Idp.resolve url_Parse g md = Ok current →
  Idp.issuer g = FakeIdp.issuer p → Idp.audience g = FakeIdp.audience p →
  (Idp.algorithms g = [] ∨ Verifier.RS256 ∈ Idp.algorithms g) →
  FakeIdp.extra_ok r → FakeIdp.acceptable ValidateBinding r id confirmation →
  FakeIdp.SignedString (FakeIdp.key p) FakeIdp.keyID (FakeIdp.claimsOf p r id issued) = Ok raw →
  Idp.key_state w = KeySet.newState → KeySet.now (Idp.outer w) = (t, w1) → 0 ≤ t →
  KeySet.Fetch (KeySet.fetchTimeout (Idp.keySet current)) (Discovery.JWKSURI md)
    (KeySet.maxDocumentSize (Idp.keySet current)) w1 = (Ok encoded, w2) →
  serves_keys p encoded → KeySet.now w2 = (t', w3) →
  let w' := {| Idp.key_state := KeySet.store (Idp.keySet current) t' {[FakeIdp.keyID := publicKey p]};
               Idp.cache := Idp.cache w; Idp.outer := w3 |} in
  in_lifetime r issued (Verifier.ParserLeeway (Verifier.parser (Idp.verifier current))) (jwt_now w') →
  Idp.Verify ValidateBinding g (Some current) raw w
    = (Ok (Idp.external_token g (FakeIdp.received r id issued confirmation)), w').
Proof.
  intros Hlaws Hkey [_ Hurl Hkeys Haud Hiss _ Halg _]%Idp.resolve_ok Hi Ha Hrs Hextra Hacc Hsign Hw Hn Ht
    Hf Hserves Hn' w' Htime.
  apply Idp.provider_Verify_ok. eexists _, _. split; [done|]. split; [|done].
  apply Verifier.Verify_ok. exists (FakeIdp.claimsOf p r id issued). split_and!.
  - apply (issued_parses p jwt_now); try done.
    + rewrite Hkeys. cbn. unfold Idp.lift_keys. rewrite Hw, <-Hurl in *.
      by rewrite (key_downloaded p _ _ t w1 encoded w2 t' w3).
    + rewrite Halg. case_decide; [by left|]. by destruct Hrs.
    + by rewrite Hiss.
  - apply Verifier.checkAudience_None.
    apply (FakeIdp.claims_read_back ValidateBinding _ p r id issued
      (FakeIdp.received r id issued confirmation)); try done; [apply Hlaws..|apply Htime|].
    by rewrite Haud.
  - apply Verifier.readClaims_ok.
    apply (FakeIdp.claims_read_back ValidateBinding (Idp.verifier current) p r id issued); try done; [apply Hlaws..|apply Htime|].
    by exists confirmation.
Qed.

(** ** An example *)

Definition leaf (value : json) : option (string + string) :=
  match value with JString s => Some (inl s) | JNumber s => Some (inr s) | _ => None end.

Lemma leaf_inj a b l : leaf a = Some l → leaf b = Some l → a = b.
Proof. destruct a, b; cbn; intros; simplify_eq; done. Qed.

Definition example_issued : Verifier.MapClaims :=
  FakeIdp.claimsOf FakeIdp.example_provider FakeIdp.example_request "id-1" FakeIdp.example_now.

Lemma example_issued_leaves (claims : Verifier.MapClaims) :
  leaf <$> claims = leaf <$> example_issued → claims = example_issued.
Proof.
  intros Heq. apply map_eq. intros name. apply (f_equal (.!! name)) in Heq. rewrite !lookup_fmap in Heq.
  assert (map_Forall (λ _ v, is_Some (leaf v)) example_issued) as Hleaf.
  { apply (bool_decide_unpack _). vm_compute. exact I. }
  destruct (claims !! name) as [a|], (example_issued !! name) as [b|] eqn:Hb; try done. f_equal.
  destruct (Hleaf name b Hb) as [l Hl]. injection Heq as Heq. by apply (leaf_inj a b l); [rewrite Heq|].
Qed.

(** The fake provider, whose library signs one set of claims. *)
#[local] Instance example_signer : FakeIdp.Library nat (Z * Z) :=
  {| FakeIdp.GenerateKey := Ok (2 ^ 2048 + 1, 65537); FakeIdp.key_N := fst; FakeIdp.key_E := snd;
     FakeIdp.rand_Read := λ n w, (Ok [], w); FakeIdp.Now := λ w, (0, w);
     FakeIdp.SignedString := λ _ kid claims,
       if decide (kid = FakeIdp.keyID ∧ leaf <$> claims = leaf <$> example_issued) then Ok "token" else Err (ErrorNew "not signed");
     FakeIdp.ParseWithClaims := λ _ _ _ _ w, (None, w);
     FakeIdp.url_Parse := λ _, Err (ErrorNew "unused");
     FakeIdp.DecodeToken := λ _ _, Ok ∅;
     FakeIdp.DecodeRevoke := λ _ body, Ok {| FakeIdp.revoke_JTI := ""; FakeIdp.revoke_Token := body |};
     FakeIdp.UnmarshalAny := Ok; FakeIdp.ParseForm := FakeIdp.example_form |}.

(** The gateway's world is its clock; the IdP serves the keys of the provider. *)
#[local] Instance example_keys : KeySet.KeySetWorld Z :=
  {| KeySet.now := λ t, (t, t); KeySet.Cancelled := λ t, (false, t); KeySet.Fires := λ _ t, (true, t);
     KeySet.Fetch := λ _ _ _ t, (Ok "keys", t);
     KeySet.UnmarshalJWKS := λ _,
       default (Err (ErrorNew "no keys")) (Ok <$> FakeIdp.keys_of (FakeIdp.handleJWKS FakeIdp.example_provider)) |}.

#[local] Existing Instance Verifier.PublicKey_eq_dec.

(** golang-jwt for that token; its clock is the gateway's, in seconds of 2023. *)
Definition example_header : Verifier.Token :=
  {| Verifier.token_kid := JString FakeIdp.keyID; Verifier.token_Alg := Verifier.RS256 |}.

Definition example_jwt_now (w : Idp.World Z) : Time := FakeIdp.example_now + Idp.outer w * Second.

Definition example_parse (options : Verifier.ParserOptions) (raw : string)
    (keyfunc : Verifier.Keyfunc (Idp.World Z)) : M (Idp.World Z) (result error Verifier.MapClaims) := λ w,
  match keyfunc example_header w with
  | (Err err, w) => (Err err, w)
  | (Ok key, w) =>
      (if decide (key = publicKey (V := nat) FakeIdp.example_provider ∧ Verifier.RS256 ∈ Verifier.ValidMethods options
                  ∧ raw = "token" ∧ Verifier.ParserIssuer options = FakeIdp.issuer FakeIdp.example_provider)
       then Ok example_issued else Err (ErrorNew "bad signature"), w)
  end.

#[local] Program Instance example_jwt : Verifier.JWT (Idp.World Z) :=
  {| Verifier.ParseWithClaims := example_parse;
     Verifier.GetAudience := FakeIdp.example_audience; Verifier.GetExpirationTime := FakeIdp.example_expiry;
     Verifier.header := λ raw, if decide (raw = "token") then Some example_header else None;
     Verifier.signs := λ alg key raw, alg = Verifier.RS256 ∧ key = publicKey (V := nat) FakeIdp.example_provider ∧ raw = "token" |}.
Next Obligation.
  intros options raw keyfunc w claims w'. unfold example_parse.
  destruct (keyfunc _ w) as [[key|err] w1] eqn:Hk; [|done].
  destruct (decide _) as [(-> & Hin & -> & Hiss)|]; [|done]. intros [= <- <-].
  eexists _, _. split; [done|]. split; [exact Hk|]. split; [exact Hin|]. split; [done|]. by rewrite Hiss.
Qed.

Lemma example_laws : jwt_laws (V := nat) FakeIdp.example_provider example_jwt_now.
Proof.
  split.
  - intros options kid claims nbf exp raw keyfunc w w'. cbn [FakeIdp.SignedString example_signer].
    destruct (decide _) as [[-> ->%example_issued_leaves]|]; [|done]. intros [= <-] Hk Hin Hiss _ _ _ _ _.
    cbn. unfold example_parse, example_header. rewrite Hk. rewrite decide_True; [done|]. split_and!; try done.
    revert Hiss. intros [= Hiss]. done.
  - intros claims s H. cbn. unfold FakeIdp.example_audience. by rewrite H.
  - intros claims t _ H. cbn. unfold FakeIdp.example_expiry. by rewrite H, FakeIdp.read_integer_Itoa.
Qed.

Definition example_gateway : Idp.Provider :=
  {| Idp.issuer := "http://idp"; Idp.audience := "gateway"; Idp.algorithms := [];
     Idp.introspectionClientID := ""; Idp.introspectionClientSecret := "";
     Idp.legacyEventsWriteScope := false; Idp.retryDelay := 1 |}.

Definition example_metadata : Discovery.Metadata :=
  {| Discovery.Issuer := "http://idp"; Discovery.JWKSURI := "http://idp/oauth2/jwks";
     Discovery.IntrospectionEndpoint := "" |}.

Definition example_resolution : Idp.resolution Z :=
  match Idp.resolve Idp.example_url_parse example_gateway example_metadata with
  | Ok current => current
  | Err _ => {| Idp.metadata := example_metadata; Idp.keySet := KeySet.example_keyset;
                Idp.verifier := {| Verifier.parser := {| Verifier.ValidMethods := [];
                                     Verifier.ParserIssuer := ""; Verifier.ParserLeeway := 0 |};
                                   Verifier.keys := Idp.keyResolver KeySet.example_keyset;
                                   Verifier.audience := "" |};
                Idp.introspector := None |}
  end.

Definition example_world : Idp.World Z :=
  {| Idp.key_state := KeySet.newState; Idp.cache := ∅; Idp.outer := 7 |}.

Lemma issued_token_accepted_witness :
  (Idp.Verify (λ _ _ _, None) example_gateway (Some example_resolution) "token" example_world).1
    = Ok {| Authn.Subject := "user"; Authn.ClientID := "web"; Authn.TokenUse := Registry.TokenUseRegistration;
            Authn.Scope := "a.read"; Authn.JTI := "id-1"; Authn.TenantID := ""; Authn.EventID := "";
            Authn.ExpiresAt := date 1700000060; Authn.SenderConstrained := false |}.
Proof.
  etransitivity; [apply (f_equal fst), (issued_token_accepted (V := nat) FakeIdp.example_provider example_jwt_now Idp.example_url_parse
    (λ _ _ _, None) example_gateway example_metadata example_resolution FakeIdp.example_request "id-1" FakeIdp.example_now ""
    "token" example_world 7 7 "keys" 7 7 7)|];
    try reflexivity.
  - apply example_laws.
  - split; [vm_compute; reflexivity|apply Z.leb_le; vm_compute; reflexivity|by vm_compute].
  - by left.
  - intros name [x Hx]. cbn [FakeIdp.example_request FakeIdp.ExtraClaims] in Hx. by rewrite lookup_empty in Hx.
  - split; try done; [by_computation|by left..].
  - done.
  - eexists. split; reflexivity.
  - split; [reflexivity|exact FakeIdp.example_readable|].
    split; [apply Z.leb_le|apply Z.ltb_lt]; vm_compute; reflexivity.
Defined.
