(* ===== verification/DevTools.v ===== *)
(** * What the development servers share ([cmd/fakeidp], [cmd/testbackend])

    Two commands for local runs, a fake identity provider and a service that
    answers greetings.  Each reads its configuration from the environment, builds
    a handler and serves it until the process is told to stop; both have the same
    logger, defaults and end.  FakeIdpMain.v and TestBackend.v hold the rest. *)

From S2P Require Import Prelude GoStd GoErrors.
From S2P Require Logging.

Definition defaultLogLevel : string := "info".
Definition defaultListenAddr : string := ":8080".
Definition envListenAddr : string := "SERVER_ADDR".

Definition missingEnvError (key : string) : error :=
  Errorf "%s is required but not set" [] [key].

Definition getenv (Getenv : string → string) (key fallback : string) : string :=
  let v := Getenv key in if decide (v ≠ "") then v else fallback.

Definition newLogger (Getenv : string → string) : result error Logging.traceHandler :=
  match Logging.ParseLevel (getenv Getenv "LOG_LEVEL" defaultLogLevel) with
  | Err err => Err (Errorf "read LOG_LEVEL: %w" [err] [])
  | Ok level =>
      Ok (Logging.NewHandler
            {| Logging.opt_Level := level; Logging.opt_AddSource := false;
               Logging.opt_ProjectID := Getenv "GOOGLE_CLOUD_PROJECT" |})
  end.

(** [if key == "" { errs = append(errs, missingEnvError(key)) }] *)
Definition required (key value : string) : list error :=
  if decide (value = "") then [missingEnvError key] else [].

Lemma required_nil key value : required key value = [] ↔ value ≠ "".
Proof. unfold required. case_decide; naive_solver. Qed.

(** What ends a server: [ListenAndServe] returns, or a signal arrives and
    [Shutdown] returns. *)
Inductive Event : Type :=
| Returned (err : error)
| Signalled (shutdown : option error).

Definition ErrServerClosed : string := "http: Server closed".

(** The goroutine and the [select] of [run]. *)
Definition serve (event : Event) : option error :=
  match event with
  | Returned err => if Is err ErrServerClosed then None else Some err
  | Signalled shutdown => shutdown
  end.

(** The end of [run] in both commands: no server, or the served handler's
    address and how it ended. *)
Record Outcome (H : Type) : Type := {
  outcome_Server : option (string * H);
  outcome_Err : option error;
}.
Arguments outcome_Server {H}.
Arguments outcome_Err {H}.

Definition failed {H} (err : error) : Outcome H :=
  {| outcome_Server := None; outcome_Err := Some err |}.

Definition served {H} (addr : string) (handler : H) (event : Event) : Outcome H :=
  {| outcome_Server := Some (addr, handler); outcome_Err := serve event |}.

(** [main]: the status the process exits with. *)
Definition exit_status {H} (outcome : Outcome H) : Z :=
  match outcome_Err outcome with Some _ => 1 | None => 0 end.
