(* ===== verification/FakeIdpMain.v ===== *)
(** * The fake identity provider's command ([cmd/fakeidp])

    The configuration of the provider of FakeIdp.v and the process that serves
    it. *)

From S2P Require Import Prelude GoStd GoErrors DevTools.
From S2P Require FakeIdp.

Definition envIssuer : string := "FAKE_IDP_ISSUER".
Definition envAudience : string := "FAKE_IDP_AUDIENCE".
Definition envIntrospectionClientID : string := "FAKE_IDP_INTROSPECTION_CLIENT_ID".
Definition envIntrospectionSecretFile : string := "FAKE_IDP_INTROSPECTION_CLIENT_SECRET_FILE".

Record config : Type := {
  ListenAddr : string;
  Issuer : string;
  Audience : string;
  IntrospectionClientID : string;
  IntrospectionClientSecret : string;
}.

Section main.
Context (Getenv : string → string) (ReadFile : string → result error string).

Definition loadIntrospectionSecret (clientID secretFile : string) : result error string :=
  if decide (clientID = "" ∧ secretFile = "") then Ok ""
  else if decide (clientID = "" ∨ secretFile = "") then
    Err (Errorf "%s and %s are set together or not at all" []
           [envIntrospectionClientID; envIntrospectionSecretFile])
  else
    match ReadFile secretFile with
    | Err err => Err (Errorf "%s: read %s: %w" [err] [envIntrospectionSecretFile; secretFile])
    | Ok raw =>
        let secret := TrimRight raw ["013"; "010"]%char in
        if decide (secret = "") then
          Err (Errorf "%s: %s holds no secret" [] [envIntrospectionSecretFile; secretFile])
        else Ok secret
    end.

Definition loadConfig : result error config :=
  let listenAddr := Getenv envListenAddr in
  let listenAddr := if decide (listenAddr = "") then defaultListenAddr else listenAddr in
  let issuer := Getenv envIssuer in
  let audience := Getenv envAudience in
  let clientID := Getenv envIntrospectionClientID in
  let secretFile := Getenv envIntrospectionSecretFile in
  let '(secret, secretErrs) :=
    match loadIntrospectionSecret clientID secretFile with
    | Ok secret => (secret, [])
    | Err err => ("", [err])
    end in
  join_errors (required envIssuer issuer ++ required envAudience audience ++ secretErrs)
    {| ListenAddr := listenAddr; Issuer := issuer; Audience := audience;
       IntrospectionClientID := clientID; IntrospectionClientSecret := secret |}.

Definition run {W K} `{!FakeIdp.Library W K} (event : Event) : Outcome (FakeIdp.provider K) :=
  match newLogger Getenv with
  | Err err => failed err
  | Ok _ =>
      match loadConfig with
      | Err err => failed (Errorf "load config: %w" [err] [])
      | Ok cfg =>
          match FakeIdp.NewHandler (W := W)
                  {| FakeIdp.config_Issuer := Issuer cfg; FakeIdp.config_Audience := Audience cfg;
                     FakeIdp.config_IntrospectionClientID := IntrospectionClientID cfg;
                     FakeIdp.config_IntrospectionClientSecret := IntrospectionClientSecret cfg |} with
          | Err err => failed (Errorf "build the fake idp handler: %w" [err] [])
          | Ok handler => served (ListenAddr cfg) handler event
          end
      end
  end.

(** The secret of the introspection client: none without a client, else the
    content of its file without the line ends behind it. *)
Definition secret_of (clientID secretFile secret : string) : Prop :=
  (clientID = "" ∧ secretFile = "" ∧ secret = "") ∨
  (clientID ≠ "" ∧ secretFile ≠ "" ∧ secret ≠ "" ∧
   ∃ raw, ReadFile secretFile = Ok raw ∧ secret = TrimRight raw ["013"; "010"]%char).

Lemma fake_secret_ok clientID secretFile secret :
  loadIntrospectionSecret clientID secretFile = Ok secret ↔ secret_of clientID secretFile secret.
Proof.
  unfold loadIntrospectionSecret, secret_of. destruct (decide (clientID = "" ∧ _)) as [[-> ->]|Hn].
  { naive_solver. }
  destruct (decide (clientID = "" ∨ _)); [split; [done|naive_solver]|].
  destruct (ReadFile secretFile) as [raw|]; [|split; [done|naive_solver]].
  case_decide; naive_solver.
Qed.

(** What [loadConfig] accepts. *)
Lemma fake_loadConfig_ok cfg :
  loadConfig = Ok cfg ↔
  Issuer cfg = Getenv envIssuer ∧ Issuer cfg ≠ "" ∧
  Audience cfg = Getenv envAudience ∧ Audience cfg ≠ "" ∧
  IntrospectionClientID cfg = Getenv envIntrospectionClientID ∧
  secret_of (Getenv envIntrospectionClientID) (Getenv envIntrospectionSecretFile)
    (IntrospectionClientSecret cfg) ∧
  ListenAddr cfg
    = (if decide (Getenv envListenAddr = "") then defaultListenAddr else Getenv envListenAddr).
Proof.
  unfold loadConfig. setoid_rewrite <-fake_secret_ok.
  destruct (loadIntrospectionSecret _ _) as [secret|err]; rewrite join_errors_ok, !app_nil, !required_nil;
    destruct cfg; cbn; naive_solver congruence.
Qed.

(** A loaded configuration has the client and its secret together, so
    [NewHandler] never refuses them. *)
Lemma fake_loadConfig_secret cfg :
  loadConfig = Ok cfg → IntrospectionClientID cfg = "" ↔ IntrospectionClientSecret cfg = "".
Proof. rewrite fake_loadConfig_ok. unfold secret_of. naive_solver congruence. Qed.

(** A provider is served exactly when the log level parses, the configuration
    loads, its issuer is an absolute HTTP URL and a key is generated; it is the
    provider of that configuration. *)
Lemma run_fake_idp_serves {W K} `{!FakeIdp.Library W K} event addr handler :
  outcome_Server (run (W := W) (K := K) event) = Some (addr, handler) ↔
  is_ok (newLogger Getenv) = true ∧
  ∃ cfg key, loadConfig = Ok cfg ∧ FakeIdp.checkIssuer (W := W) (K := K) (Issuer cfg) = None ∧
    FakeIdp.GenerateKey (W := W) = Ok key ∧ addr = ListenAddr cfg ∧
    handler = {| FakeIdp.issuer := Issuer cfg; FakeIdp.audience := Audience cfg; FakeIdp.key := key;
                 FakeIdp.clientID := IntrospectionClientID cfg;
                 FakeIdp.clientSecret := IntrospectionClientSecret cfg |}.
Proof.
  unfold run. destruct (newLogger Getenv) as [logger|]; [|split; [done|by intros [? _]]].
  destruct loadConfig as [cfg|] eqn:Hcfg; [|split; [done|by intros (_ & ? & ? & ? & _)]].
  pose proof (fake_loadConfig_secret cfg Hcfg) as Hsecret.
  apply fake_loadConfig_ok in Hcfg as (_ & _ & _ & Ha & _).
  unfold FakeIdp.NewHandler; cbn [FakeIdp.config_Issuer FakeIdp.config_Audience
    FakeIdp.config_IntrospectionClientID FakeIdp.config_IntrospectionClientSecret].
  destruct (FakeIdp.checkIssuer (Issuer cfg)) as [err|] eqn:Hi.
  { split; [done|]. intros (_ & ? & ? & [= <-] & ? & _). congruence. }
  destruct (decide (Audience cfg = "")); [done|].
  destruct FakeIdp.GenerateKey as [key|]; [|split; [done|naive_solver]].
  assert (bool_decide (IntrospectionClientID cfg = "") = bool_decide (IntrospectionClientSecret cfg = ""))
    as -> by by apply bool_decide_ext.
  rewrite eqb_reflx. cbn. naive_solver.
Qed.
End main.
