(* ===== verification/TestBackend.v ===== *)
(** * The test backend ([internal/testbackend], [cmd/testbackend])

    A service that answers the greeting calls the gateway forwards, behind the
    verification of internal tokens, and its command. *)

From S2P Require Import Prelude GoStd GoErrors DevTools.

Definition envJWKSURL : string := "INTERNAL_JWKS_URL".
Definition envIssuerID : string := "INTERNAL_JWT_ISSUER".
Definition envAudience : string := "INTERNAL_JWT_AUDIENCE".

Record config : Type := { ListenAddr : string; JWKSURL : string; IssuerID : string; Audience : string }.

Definition loadConfig (Getenv : string → string) : result error config :=
  let listenAddr := Getenv envListenAddr in
  let listenAddr := if decide (listenAddr = "") then defaultListenAddr else listenAddr in
  let jwksURL := Getenv envJWKSURL in
  let issuerID := Getenv envIssuerID in
  let audience := Getenv envAudience in
  join_errors (required envJWKSURL jwksURL ++ required envIssuerID issuerID ++ required envAudience audience)
    {| ListenAddr := listenAddr; JWKSURL := jwksURL; IssuerID := issuerID; Audience := audience |}.

(** The libraries: the JWKS cache, the verifier of internal tokens and the
    authentication interceptor of internal-jwt-handling. *)
Record Library (Cache TokenVerifier Interceptor : Type) : Type := {
  jwks_New : string → result error Cache;
  verifier_New : string → string → Cache → result error TokenVerifier;
  interceptor_New : TokenVerifier → result error Interceptor;
}.
Arguments jwks_New {Cache TokenVerifier Interceptor}.
Arguments verifier_New {Cache TokenVerifier Interceptor}.
Arguments interceptor_New {Cache TokenVerifier Interceptor}.

(** ** The service ([internal/testbackend]) *)

Definition messageGreetingNameRequired : string := "name is required".

Definition Greet (name : string) : result error string :=
  if decide (name = "") then
    Err (ConnectError CodeInvalidArgument messageGreetingNameRequired [] false [])
  else Ok ("Hello, " +:+ name +:+ "!").

Definition Ping : result error string := Ok "pong".

Section backend.
Context {Cache TokenVerifier Interceptor : Type} (library : Library Cache TokenVerifier Interceptor).

Definition newTokenVerifier (cfg : config) : result error TokenVerifier :=
  match jwks_New library (JWKSURL cfg) with
  | Err err => Err (Errorf "create the JWKS cache: %w" [err] [])
  | Ok cache =>
      match verifier_New library (IssuerID cfg) (Audience cfg) cache with
      | Err err => Err (Errorf "create the internal JWT verifier: %w" [err] [])
      | Ok tokenVerifier => Ok tokenVerifier
      end
  end.

(** [NewHandler]: the greeting service behind the interceptor. *)
Definition NewHandler (tokenVerifier : TokenVerifier) : result error Interceptor :=
  match interceptor_New library tokenVerifier with
  | Err err => Err (Errorf "create GreetService authentication interceptor: %w" [err] [])
  | Ok auth => Ok auth
  end.

Definition run (Getenv : string → string) (event : Event) : Outcome Interceptor :=
  match newLogger Getenv with
  | Err err => failed err
  | Ok _ =>
      match loadConfig Getenv with
      | Err err => failed (Errorf "load config: %w" [err] [])
      | Ok cfg =>
          match newTokenVerifier cfg with
          | Err err => failed err
          | Ok tokenVerifier =>
              match NewHandler tokenVerifier with
              | Err err => failed (Errorf "build the test backend handler: %w" [err] [])
              | Ok handler => served (ListenAddr cfg) handler event
              end
          end
      end
  end.

(** A handler is served exactly with a complete environment whose parts are all
    built, behind a verifier for its issuer and audience. *)
Lemma run_backend_serves Getenv event addr handler :
  outcome_Server (run Getenv event) = Some (addr, handler) ↔
  is_ok (newLogger Getenv) = true ∧
  Getenv envJWKSURL ≠ "" ∧ Getenv envIssuerID ≠ "" ∧ Getenv envAudience ≠ "" ∧
  addr = (if decide (Getenv envListenAddr = "") then defaultListenAddr else Getenv envListenAddr) ∧
  ∃ cache tokenVerifier,
    jwks_New library (Getenv envJWKSURL) = Ok cache ∧
    verifier_New library (Getenv envIssuerID) (Getenv envAudience) cache = Ok tokenVerifier ∧
    interceptor_New library tokenVerifier = Ok handler.
Proof.
  unfold run. destruct (newLogger Getenv) as [logger|]; [|split; [done|by intros [? _]]].
  destruct (loadConfig Getenv) as [cfg|err] eqn:Hcfg; unfold loadConfig in Hcfg.
  - apply join_errors_ok in Hcfg as [Herrs <-]. rewrite !app_nil, !required_nil in Herrs.
    unfold newTokenVerifier, NewHandler. cbn [JWKSURL IssuerID Audience ListenAddr].
    destruct (jwks_New _ _) as [cache|]; [|split; [done|naive_solver]].
    destruct (verifier_New _ _ _ _) as [tv|] eqn:Hv;
      [|split; [done|intros (_ & _ & _ & _ & _ & ? & ? & [= <-] & ? & _); congruence]].
    destruct (interceptor_New _ tv) as [auth|] eqn:Hi.
    + cbn. split.
      * intros [= <- <-]. split_and!; eauto; naive_solver.
      * intros (_ & _ & _ & _ & -> & ? & ? & [= <-] & Hv' & Hi'). congruence.
    + split; [done|]. intros (_ & _ & _ & _ & _ & ? & ? & [= <-] & Hv' & Hi'). congruence.
  - apply join_errors_err in Hcfg as [Herrs _]. rewrite !app_nil, !required_nil in Herrs.
    split; [done|]. intros (_ & ? & ? & ? & _). by destruct Herrs.
Qed.
End backend.
