(* ===== verification/Greet.v ===== *)
(** * The greeting service, generated and forwarded
      ([gen/greet/v1/greetv1connect], [internal/infra/connect/forwardgen/greet_v1_greet.forward.go])

    The generated client, the generated adapters of a service and their
    registration, the generated forwarder of the gateway, and the greeting
    service of the test backend behind them.  The Connect runtime is a
    parameter: what a stream of a server and a client do are classes, and
    [responds_from] is the one thing required of a client of a server with unary
    methods: a response comes from the method of the procedure.  The other services of the catalog have generated code of the same
    shape; the forwarders of all of them are the text of ForwardFiles.v. *)

From S2P Require Import Prelude GoStd GoErrors Forward.
From S2P Require AuditLog Gateway Connecterr TestBackend.

(** ** Messages ([gen/greet/v1]) *)

Record GreetRequest : Type := { Name : string }.
Record GreetResponse : Type := { Greeting : string }.
Record PingRequest : Type := {}.
Record PingResponse : Type := { Message_ : string }.

(** Marshalling, by the protobuf runtime. *)
Class Message (A : Type) : Type := {
  encode : A → string;
  decode : string → result error A;
}.

(** What a message is after the wire is what it was before. *)
Class MessageLaws (A : Type) `{!Message A} : Prop := decode_encode (a : A) : decode (encode a) = Ok a.

(** ** Specs *)

Definition GreetServiceName : string := "greet.v1.GreetService".
Definition GreetServiceGreetProcedure : string := "/greet.v1.GreetService/Greet".
Definition GreetServicePingProcedure : string := "/greet.v1.GreetService/Ping".

Inductive StreamType_ : Type := StreamTypeUnary | StreamTypeClient | StreamTypeServer | StreamTypeBidi.

(** [connect.Spec]; the schema is the full name of a method descriptor. *)
Record Spec : Type := { StreamType : StreamType_; Schema : string; Procedure : string }.

Definition greetServiceGreetSpec : Spec :=
  {| StreamType := StreamTypeUnary; Schema := "greet.v1.GreetService.Greet";
     Procedure := GreetServiceGreetProcedure |}.

Definition greetServicePingSpec : Spec :=
  {| StreamType := StreamTypeUnary; Schema := "greet.v1.GreetService.Ping";
     Procedure := GreetServicePingProcedure |}.

(** ** The Connect runtime *)

(** [connect.ServerStream] and [connect.Client]. *)
Class ServerStream (W Stream : Type) : Type := {
  Receive {A} `{!Message A} : Stream → M W (result error A);
  Send {A} `{!Message A} : Stream → A → M W (option error);
}.

Class ConnectClient (W Client : Type) : Type := {
  CallUnary {Req Res} `{!Message Req} `{!Message Res} :
    Client → Context_ → Spec → Req → M W (result error Res);
}.

(** [connect.Method] *)
Record Method (W Stream : Type) : Type := {
  method_Spec : Spec;
  method_Handler : Context_ → Spec → Stream → M W (option error);
}.
Arguments method_Spec {W Stream}.
Arguments method_Handler {W Stream}.

(** ** The generated service *)

(** [GreetServiceHandler] and [GreetServiceClient], two interfaces with the same
    methods. *)
Record GreetService (W : Type) : Type := {
  Greet : Context_ → GreetRequest → M W (result error GreetResponse);
  Ping : Context_ → PingRequest → M W (result error PingResponse);
}.
Arguments Greet {W}.
Arguments Ping {W}.

Section generated.
Context `{!Message GreetRequest} `{!Message GreetResponse} `{!Message PingRequest} `{!Message PingResponse}.

Section client.
Context {W Client : Type} `{!ConnectClient W Client}.

Definition client_Greet (c : Client) (ctx : Context_) (req : GreetRequest) : M W (result error GreetResponse) :=
  let! res := CallUnary c ctx greetServiceGreetSpec req in
  mret_ (match res with Err err => Err err | Ok res => Ok res end).

Definition client_Ping (c : Client) (ctx : Context_) (req : PingRequest) : M W (result error PingResponse) :=
  let! res := CallUnary c ctx greetServicePingSpec req in
  mret_ (match res with Err err => Err err | Ok res => Ok res end).

Definition NewGreetServiceClient (c : Client) : GreetService W :=
  {| Greet := client_Greet c; Ping := client_Ping c |}.
End client.

Section handler.
Context {W Stream : Type} `{!ServerStream W Stream}.

Definition handler_greet (svc : GreetService W) (ctx : Context_) (spec : Spec) (stream : Stream) :
    M W (option error) :=
  let! req := Receive stream in
  match req with
  | Err err => mret_ (Some err)
  | Ok req =>
      let! res := Greet svc ctx req in
      match res with
      | Err err => mret_ (Some err)
      | Ok res => Send stream res
      end
  end.

Definition handler_ping (svc : GreetService W) (ctx : Context_) (spec : Spec) (stream : Stream) :
    M W (option error) :=
  let! req := Receive stream in
  match req with
  | Err err => mret_ (Some err)
  | Ok req =>
      let! res := Ping svc ctx req in
      match res with
      | Err err => mret_ (Some err)
      | Ok res => Send stream res
      end
  end.

(** A server is the list of its methods. *)
Definition RegisterGreetServiceHandler (server : list (Method W Stream)) (svc : GreetService W) :
    list (Method W Stream) :=
  server ++ [{| method_Spec := greetServiceGreetSpec; method_Handler := handler_greet svc |};
             {| method_Spec := greetServicePingSpec; method_Handler := handler_ping svc |}].
End handler.

Definition UnimplementedGreetServiceHandler {W} : GreetService W :=
  {| Greet := λ _ _, mret_ (Err (ConnectError CodeUnimplemented
                 "greet.v1.GreetService.Greet is not implemented" [] false []));
     Ping := λ _ _, mret_ (Err (ConnectError CodeUnimplemented
                "greet.v1.GreetService.Ping is not implemented" [] false [])) |}.

(** ** The forwarder of the gateway *)

(** The record the context points to. *)
Definition with_record (ctx : Context_) (record : option AuditLog.Record_) : Context_ :=
  {| ctx_Deadline := ctx_Deadline ctx; ctx_InternalToken := ctx_InternalToken ctx; ctx_Record := record |}.

(** [forward.Unary], which writes to the record of its context. *)
Definition forwarded {W Req Res} (now : Time) (call : Context_ → Req → M W (result error Res))
    (ctx : Context_) (req : Req) : M (W * option AuditLog.Record_) (result error Res) := λ '(w, record),
  let '((res, record), w) := Unary now (with_record ctx record) req call w in (res, (w, record)).

Definition greetV1GreetServiceForwarder {W} (now : Time) (client : GreetService W) :
    GreetService (W * option AuditLog.Record_) :=
  {| Greet := forwarded now (Greet client); Ping := forwarded now (Ping client) |}.

(** ** A client of a server *)

(** What a server sees of a unary call: it receives the request, and what it
    sends is kept. *)
#[global] Instance unary_stream {W} : ServerStream (W * list string) string :=
  {| Receive := λ A _ request w, (decode request, w);
     Send := λ A _ _ a '(w, sent), (None, (w, sent ++ [encode a])) |}.

Definition lift {W S A} (m : M W A) : M (W * S) A := λ '(w, s),
  let '(a, w) := m w in (a, (w, s)).

Definition lift_service {W S} (svc : GreetService W) : GreetService (W * S) :=
  {| Greet := λ ctx req, lift (Greet svc ctx req); Ping := λ ctx req, lift (Ping svc ctx req) |}.

(** The [Register] function of the mount; [S] is what a server keeps of a call
    besides. *)
Definition Register {W Client Stream S} `{!ConnectClient W Client}
    `{!ServerStream (W * option AuditLog.Record_ * S) Stream} (now : Time)
    (server : list (Method (W * option AuditLog.Record_ * S) Stream)) (client : Client) :
    list (Method (W * option AuditLog.Record_ * S) Stream) :=
  RegisterGreetServiceHandler server
    (lift_service (greetV1GreetServiceForwarder now (NewGreetServiceClient client))).

Definition method_of {W Stream} (methods : list (Method W Stream)) (procedure : string) :
    option (Method W Stream) :=
  snd <$> list_find (λ m, Procedure (method_Spec m) = procedure) methods.

(** What the Connect runtime guarantees of a response: when a unary call of a
    procedure succeeds, the method of this procedure ran on the request that was
    sent, in some context and at some time, ended without an error and had sent
    one message, and this message is the response.  Nothing is required of calls
    that fail: a deadline, a cancellation, the network or a size limit can end any
    call at any point. *)
Record responds_from {W Client} `{!ConnectClient W Client} (client : Client)
    (methods : list (Method (W * list string) string)) : Prop := {
  response_of {Req Res} `{!Message Req} `{!Message Res} ctx spec (req : Req) (res : Res) w w' :
    CallUnary client ctx spec req w = (Ok res, w') →
    ∃ m ctx' v v' reply,
      method_of methods (Procedure spec) = Some m ∧
      method_Handler m ctx' (method_Spec m) (encode req) (v, []) = (None, (v', [reply])) ∧
      decode reply = Ok res;
}.

(** ** Correctness *)

Section correct.
Context `{!MessageLaws GreetRequest} `{!MessageLaws GreetResponse}.
Context `{!MessageLaws PingRequest} `{!MessageLaws PingResponse}.
Context {W Client : Type} `{!ConnectClient W Client}.

(** The adapters of the two methods have one shape. *)
Definition adapter {W' Req Res Stream} `{!ServerStream W' Stream} `{!Message Req} `{!Message Res}
    (call : Context_ → Req → M W' (result error Res)) (ctx : Context_) (spec : Spec) (stream : Stream) :
    M W' (option error) :=
  let! req := Receive stream in
  match req with
  | Err err => mret_ (Some err)
  | Ok req =>
      let! res := call ctx req in
      match res with
      | Err err => mret_ (Some err)
      | Ok res => Send stream res
      end
  end.

Lemma adapter_responds {Req Res} `{!Message Req} `{!MessageLaws Req} `{!Message Res} `{!MessageLaws Res}
    (client : Client) methods (call : Context_ → Req → M W (result error Res)) ctx spec req res w w' m :
  responds_from client methods → method_of methods (Procedure spec) = Some m →
  method_Handler m = adapter (λ ctx req, lift (call ctx req)) →
  CallUnary client ctx spec req w = (Ok res, w') → ∃ ctx' v v', call ctx' req v = (Ok res, v').
Proof.
  intros Hs Hm Ha Hcall.
  destruct (response_of _ _ Hs _ _ _ _ _ _ Hcall) as (m' & ctx' & v & v' & reply & Hm' & Hrun & Hd).
  assert (m' = m) as -> by congruence. rewrite Ha in Hrun. unfold adapter in Hrun. revert Hrun. run_monad.
  cbn. rewrite decode_encode. cbn. destruct (call ctx' req v) as [[res'|err] v1] eqn:Hc; [|done].
  intros [= <- <-]. rewrite decode_encode in Hd. injection Hd as ->. by exists ctx', v, v1.
Qed.

(** The generated client of a registered service gets the service's responses. *)
Lemma client_responds client (svc : GreetService W) :
  responds_from client (RegisterGreetServiceHandler [] (lift_service svc)) →
  (∀ ctx req res w w', Greet (NewGreetServiceClient client) ctx req w = (Ok res, w') →
     ∃ ctx' v v', Greet svc ctx' req v = (Ok res, v')) ∧
  (∀ ctx req res w w', Ping (NewGreetServiceClient client) ctx req w = (Ok res, w') →
     ∃ ctx' v v', Ping svc ctx' req v = (Ok res, v')).
Proof.
  intros Hs. split; intros ctx req res w w' H; cbn [Greet Ping NewGreetServiceClient] in H.
  - assert (CallUnary (Res := GreetResponse) client ctx greetServiceGreetSpec req w = (Ok res, w')) as Hc.
    { rewrite <-H. unfold client_Greet. run_monad. by destruct (CallUnary _ _ _ _ _) as [[] ?]. }
    exact (adapter_responds client _ (Greet svc) ctx greetServiceGreetSpec req res w w' _ Hs eq_refl eq_refl Hc).
  - assert (CallUnary (Res := PingResponse) client ctx greetServicePingSpec req w = (Ok res, w')) as Hc.
    { rewrite <-H. unfold client_Ping. run_monad. by destruct (CallUnary _ _ _ _ _) as [[] ?]. }
    exact (adapter_responds client _ (Ping svc) ctx greetServicePingSpec req res w w' _ Hs eq_refl eq_refl Hc).
Qed.
End correct.

(** A forwarded call that succeeds is a call of the service's client, under a
    deadline; its record stays as it was. *)
Lemma forwarded_ok {W Req Res} now (call : Context_ → Req → M W (result error Res)) ctx req res w record v :
  forwarded now call ctx req (w, record) = (Ok res, v) →
  v.2 = record ∧ ∃ ctx', is_Some (ctx_Deadline ctx') ∧ call ctx' req w = (Ok res, v.1).
Proof.
  unfold forwarded, Unary. run_monad. set (ctx' := withUpstreamDeadline _ _).
  destruct (withUpstreamDeadline_spec now (with_record ctx record)) as (Hd & _ & Hr). fold ctx' in Hd, Hr.
  destruct (call ctx' req w) as [[res'|err] w'] eqn:Hc.
  - intros [= -> <-]. split; [exact Hr|]. exists ctx'. rewrite Hd. by split; [eexists|].
  - by destruct (translateError ctx' err).
Qed.
End generated.

(** ** The greeting service of the test backend *)

Definition greetService {W} : GreetService W :=
  {| Greet := λ _ req, mret_ (match TestBackend.Greet (Name req) with
                             | Err err => Err err
                             | Ok greeting => Ok {| Greeting := greeting |}
                             end);
     Ping := λ _ _, mret_ (match TestBackend.Ping with
                          | Err err => Err err
                          | Ok message => Ok {| Message_ := message |}
                          end) |}.

(** ** Properties *)

(** C31. A client of the gateway gets a forwarded service's own responses: with the
    greeting service registered behind the gateway, and the gateway's forwarder
    registered for its clients, a response that a call of the client's generated
    method returns is one that the gateway's generated client returned to the
    forwarder, for the same request and under a deadline, and that the service
    itself gave for this request; of every method, and for any implementation of
    the service.  Nothing is said about calls that fail, of which deadlines,
    cancellations, size limits and the network can make any call one; the
    admission of the gateway and the service's interceptor are not part of this
    path. *)
Theorem forwarding_transparent
    `{!Message GreetRequest} `{!Message GreetResponse} `{!Message PingRequest} `{!Message PingResponse}
    `{!MessageLaws GreetRequest} `{!MessageLaws GreetResponse}
    `{!MessageLaws PingRequest} `{!MessageLaws PingResponse}
    {W Inner Outer} `{!ConnectClient W Inner} `{!ConnectClient (W * option AuditLog.Record_) Outer}
    now (svc : GreetService W) (inner : Inner) (outer : Outer) :
  responds_from inner (RegisterGreetServiceHandler [] (lift_service svc)) →
  responds_from outer (Register now [] inner) →
  (∀ ctx req res w w', Greet (NewGreetServiceClient outer) ctx req w = (Ok res, w') →
     (∃ ctx' v v', is_Some (ctx_Deadline ctx') ∧
        Greet (NewGreetServiceClient inner) ctx' req v = (Ok res, v')) ∧
     ∃ ctx' v v', Greet svc ctx' req v = (Ok res, v')) ∧
  (∀ ctx req res w w', Ping (NewGreetServiceClient outer) ctx req w = (Ok res, w') →
     (∃ ctx' v v', is_Some (ctx_Deadline ctx') ∧
        Ping (NewGreetServiceClient inner) ctx' req v = (Ok res, v')) ∧
     ∃ ctx' v v', Ping svc ctx' req v = (Ok res, v')).
Proof.
  intros [Hg Hp]%client_responds [Hg' Hp']%client_responds. split; intros ctx req res w w' H.
  - apply Hg' in H as (ctx1 & [v record] & v' & [_ (ctx2 & Hd & Hc)]%forwarded_ok).
    split; [by exists ctx2, v, v'.1|]. by eapply Hg.
  - apply Hp' in H as (ctx1 & [v record] & v' & [_ (ctx2 & Hd & Hc)]%forwarded_ok).
    split; [by exists ctx2, v, v'.1|]. by eapply Hp.
Qed.

(** Messages of one field are their field; a client that runs the methods of its
    server. *)

#[local] Instance greet_request_message : Message GreetRequest :=
  {| encode := Name; decode := λ s, Ok {| Name := s |} |}.
#[local] Instance greet_response_message : Message GreetResponse :=
  {| encode := Greeting; decode := λ s, Ok {| Greeting := s |} |}.
#[local] Instance ping_request_message : Message PingRequest :=
  {| encode := λ _, ""; decode := λ _, Ok Build_PingRequest |}.
#[local] Instance ping_response_message : Message PingResponse :=
  {| encode := Message_; decode := λ s, Ok {| Message_ := s |} |}.

Definition example_wire (err : error) : error :=
  match AsConnectError err with
  | Some c => ConnectError (connect_code c) (connect_message c) (connect_details c) true []
  | None => ConnectError CodeUnknown "" [] true []
  end.

#[local] Instance example_client {W} : ConnectClient W (list (Method (W * list string) string)) :=
  {| CallUnary := λ Req Res _ _ methods ctx spec req w,
       match method_of methods (Procedure spec) with
       | None => (Err (ConnectError CodeUnimplemented "" [] true []), w)
       | Some m =>
           let '(err, (w, sent)) := method_Handler m ctx (method_Spec m) (encode req) (w, []) in
           (match err, sent with
            | Some err, _ => Err (example_wire err)
            | None, [reply] => decode reply
            | None, _ => Err (ConnectError CodeInternal "" [] true [])
            end, w)
       end |}.

Lemma example_responds {W} (methods : list (Method (W * list string) string)) :
  responds_from methods methods.
Proof.
  split. intros Req Res ? ? ctx spec req res w w'. cbn.
  destruct (method_of methods (Procedure spec)) as [m|] eqn:Hm; [|done].
  destruct (method_Handler m ctx (method_Spec m) (encode req) (w, [])) as [[err|] [w1 sent]] eqn:Hr; [done|].
  destruct sent as [|reply [|? ?]]; [done| |done]. intros [= Hd <-].
  by exists m, ctx, w, w1, reply.
Qed.

Definition example_inner : list (Method (nat * list string) string) :=
  RegisterGreetServiceHandler [] (lift_service greetService).

Definition example_outer : list (Method (nat * option AuditLog.Record_ * list string) string) :=
  Register 7 [] example_inner.

(** A greeting through the gateway, and one that the service refuses. *)
Example example_greeting :
  Greet (NewGreetServiceClient example_outer) example_context {| Name := "Tolo" |} (0%nat, None)
    = (Ok {| Greeting := "Hello, Tolo!" |}, (0%nat, None)) ∧
  Greet (NewGreetServiceClient example_outer) example_context {| Name := "" |} (0%nat, None)
    = (Err (ConnectError CodeInvalidArgument "name is required" [] true []), (0%nat, None)).
Proof. split; reflexivity. Qed.

Lemma forwarding_transparent_witness :
  ∃ ctx' v v', Greet (W := nat) greetService ctx' {| Name := "Tolo" |} v
    = (Ok {| Greeting := "Hello, Tolo!" |}, v').
Proof.
  refine (proj2 (proj1 (forwarding_transparent (MessageLaws0 := ltac:(by intros [])) (MessageLaws1 := ltac:(by intros []))
    (MessageLaws2 := ltac:(by intros [])) (MessageLaws3 := ltac:(by intros []))
    7 greetService example_inner example_outer
    (example_responds example_inner) (example_responds example_outer)) example_context {| Name := "Tolo" |}
    {| Greeting := "Hello, Tolo!" |} (0%nat, None) (0%nat, None) _)).
  reflexivity.
Defined.
