(* ===== verification/GenForward.v ===== *)
(** * The forwarder generator ([internal/cmd/genforward])

    A build-time command that writes the files of
    [internal/infra/connect/forwardgen]: a forwarder per bound service and the
    table of mounts.  protogen is the code under it: its parsed descriptors are
    the data the generator starts from, a generated file keeps the pieces of its
    lines, and the local name protogen gives an import in a file is a parameter
    of the rendering. *)

From S2P Require Import Prelude GoStd GoErrors.
From S2P Require Mux Catalog Registry Forward Forwardgen.

Definition forwardgenPackage : string := "forwardgen".
Definition forwardgenImportPath : string :=
  "github.com/pj-hoakari/tolo-service-gateway/internal/infra/connect/forwardgen".
Definition forwardImportPath : string :=
  "github.com/pj-hoakari/tolo-service-gateway/internal/infra/connect/forward".
Definition connectImportPath : string := "connectrpc.com/connect".
Definition connectV2ImportPath : string := "connectrpc.com/connect/v2".
Definition contextImportPath : string := "context".

Definition generatedHeader : string := "// Code generated by genforward. DO NOT EDIT.".
Definition fileSuffix : string := ".forward.go".
Definition mountsFile : string := "mounts" +:+ fileSuffix.

Definition ErrStreamingMethod : string := "genforward: streaming method".
Definition ErrUnknownService : string := "genforward: unknown service".
Definition errServiceDescriptor : string := "genforward: service descriptor".
Definition errGeneration : string := "genforward: generation".

(** ** What protogen gives the generator *)

Record GoIdent : Type := { GoImportPath : string; ident_GoName : string }.

Record Method : Type := {
  method_FullName : string;
  method_GoName : string;
  IsStreamingClient : bool;
  IsStreamingServer : bool;
  Input : GoIdent;
  Output : GoIdent;
}.

Record Service : Type := {
  FullName : string;
  service_GoName : string;
  Methods : list Method;
}.

Record File : Type := {
  Path : string;
  Generate_ : bool;
  file_GoImportPath : string;
  file_GoPackageName : string;
  Services : list Service;
}.

(** An argument of [g.P]: text, or an identifier [QualifiedGoIdent] qualifies. *)
Inductive piece : Type := Text (s : string) | Ident (i : GoIdent).

Coercion Text : string >-> piece.

Definition line : Type := list piece.

Record GeneratedFile : Type := { Name : string; Lines : list line }.

(** [forwarder] *)
Record forwarder : Type := { fwd_file : File; fwd_service : Service }.

(** ** Names *)

Definition rewriteConnectImport (importPath : string) : string :=
  if decide (importPath = connectImportPath) then connectV2ImportPath else importPath.

(** [strings.NewReplacer("/", "_", ".", "_", "-", "_").Replace] *)
Fixpoint replace_separators (s : string) : string :=
  match s with
  | "" => ""
  | String a s =>
      String (if bool_decide (a ∈ ["/"; "."; "-"]%char) then "_"%char else a) (replace_separators s)
  end.

Definition fileNameOf (file : File) : string :=
  replace_separators (TrimSuffix (Path file) ".proto") +:+ fileSuffix.

(** [path.Clean] and [path.Join] *)
Definition clean_relative (stack : list string) (segment : string) : list string :=
  if decide (segment = "" ∨ segment = ".") then stack
  else if decide (segment = "..") then
    match stack with
    | [] => [".."]
    | top :: rest => if decide (top = "..") then ".." :: stack else rest
    end
  else segment :: stack.

Definition path_Clean (p : string) : string :=
  if decide (p = "") then "."
  else if HasPrefix p "/" then "/" +:+ Join (rev (foldl Mux.clean_step [] (Split p "/"))) "/"
  else
    match rev (foldl clean_relative [] (Split p "/")) with
    | [] => "."
    | kept => Join kept "/"
    end.

Definition path_Join (elems : list string) : string :=
  match filter (λ e, e ≠ "") elems with
  | [] => ""
  | elems => path_Clean (Join elems "/")
  end.

Definition connectImportPathOf (file : File) : string :=
  path_Join [file_GoImportPath file; file_GoPackageName file +:+ "connect"].

(** The first letter of a word: names in descriptors are ASCII. *)
Definition lower_first (word : string) : string :=
  match word with "" => "" | String a r => String (to_lower a) r end.

Definition upper_first (word : string) : string :=
  match word with "" => "" | String a r => String (to_upper a) r end.

(** The loop body of [forwarderNameOf]. *)
Definition addWord (words : list string) (word : string) : list string :=
  if decide (word = "") then words
  else if decide (words = []) then [lower_first word] else words ++ [upper_first word].

Definition forwarderNameOf (service : Service) : string :=
  Join (foldl (λ words part, foldl addWord words (Split part "_")) [] (Split (FullName service) ".")) ""
    +:+ "Forwarder".

(** ** The generated files *)

Definition ident (importPath name : string) : piece :=
  Ident {| GoImportPath := importPath; ident_GoName := name |}.

Definition newGeneratedFile (name : string) (lines : list line) : GeneratedFile :=
  {| Name := name;
     Lines := [[Text generatedHeader]; []; [Text "package "; Text forwardgenPackage]; []] ++ lines |}.

Definition methodLines (name : string) (method : Method) : list line :=
  [[Text "func (f *"; Text name; Text ") "; Text (method_GoName method); Text "(";
    Text "ctx "; ident contextImportPath "Context"; Text ", ";
    Text "req *"; Ident (Input method); Text ",";
    Text ") (*"; Ident (Output method); Text ", error) {"];
   [Text "return "; ident forwardImportPath "Unary"; Text "(ctx, req, f.client.";
    Text (method_GoName method); Text ")"];
   [Text "}"];
   []].

Definition forwarderLines (each : forwarder) : list line :=
  let connect := connectImportPathOf (fwd_file each) in
  let name := forwarderNameOf (fwd_service each) in
  [[Text "type "; Text name; Text " struct {"];
   [Text "client "; ident connect (service_GoName (fwd_service each) +:+ "Client")];
   [Text "}"];
   []] ++ concat (methodLines name <$> Methods (fwd_service each)).

Definition generateForwarders (file : File) (forwarders : list forwarder) : GeneratedFile :=
  newGeneratedFile (fileNameOf file) (concat (forwarderLines <$> forwarders)).

Definition mountLines (each : forwarder) : list line :=
  let connect := connectImportPathOf (fwd_file each) in
  let service := fwd_service each in
  [[Text "{"];
   [Text "Service: "; ident connect (service_GoName service +:+ "Name"); Text ","];
   [Text "Register: func("; Text "server *"; ident connectImportPath "Server"; Text ", ";
    Text "client *"; ident connectImportPath "Client"; Text ","; Text ") {"];
   [ident connect ("Register" +:+ service_GoName service +:+ "Handler"); Text "("];
   [Text "server,"];
   [Text "&"; Text (forwarderNameOf service); Text "{client: ";
    ident connect ("New" +:+ service_GoName service +:+ "Client"); Text "(client)},"];
   [Text ")"];
   [Text "},"];
   [Text "},"]].

Definition generateMounts (forwarders : list forwarder) : GeneratedFile :=
  let mount := ident forwardImportPath "Mount" in
  newGeneratedFile mountsFile
    ([[Text "func Mounts() []"; mount; Text " {"];
      [Text "return []"; mount; Text "{"]]
     ++ concat (mountLines <$> forwarders)
     ++ [[Text "}"]; [Text "}"]]).

(** ** Generation *)

Definition boundForwarders (file : File) (services : gset string) : list forwarder :=
  (λ service, {| fwd_file := file; fwd_service := service |})
    <$> filter (λ service, FullName service ∈ services) (Services file).

Definition streams (method : Method) : bool := IsStreamingClient method || IsStreamingServer method.

Definition checkUnary (forwarders : list forwarder) : option error :=
  errors_Join
    ((λ method, Errorf "%w: %s cannot be forwarded" [ErrorNew ErrStreamingMethod] [method_FullName method])
       <$> filter streams (forwarders ≫= (λ each, Methods (fwd_service each)))).

Definition fullName (each : forwarder) : string := FullName (fwd_service each).

Definition checkComplete (forwarders : list forwarder) (services : gset string) : option error :=
  let generated : gset string := list_to_set (fullName <$> forwarders) in
  errors_Join
    ((λ service, Errorf "%w: %s is not declared by any file to generate" [ErrorNew ErrUnknownService]
                   [service])
       <$> filter (.∉ generated) (sorted_set services)).

(** The order of [slices.SortFunc] over full names. *)
Definition fullName_le (left right : forwarder) : Prop := String.le (fullName left) (fullName right).

#[export] Instance fullName_le_dec : RelDecision fullName_le.
Proof. intros left right. unfold fullName_le. apply _. Defined.

(** The loop over the plugin's files: the files generated so far, and the
    forwarders. *)
Fixpoint generateLoop (files : list File) (services : gset string) (generated : list GeneratedFile)
    (forwarders : list forwarder) : result error (list GeneratedFile * list forwarder) :=
  match files with
  | [] => Ok (generated, forwarders)
  | file :: files =>
      if negb (Generate_ file) then generateLoop files services generated forwarders
      else
        let bound := boundForwarders file services in
        if decide (length bound = 0%nat) then generateLoop files services generated forwarders
        else
          match checkUnary bound with
          | Some err => Err err
          | None =>
              generateLoop files services (generated ++ [generateForwarders file bound])
                (forwarders ++ bound)
          end
  end.

(** [Generate]: the files the plugin holds after it. *)
Definition Generate (files : list File) (services : gset string) : result error (list GeneratedFile) :=
  let? ' (generated, forwarders) := generateLoop files services [] [] in
  match checkComplete forwarders services with
  | Some err => Err err
  | None => Ok (generated ++ [generateMounts (merge_sort fullName_le forwarders)])
  end.

(** ** Rendering *)

(** [local] is the name an import path has in the file. *)
Definition render_piece (local : string → string) (p : piece) : string :=
  match p with
  | Text s => s
  | Ident i =>
      if decide (GoImportPath i = forwardgenImportPath) then ident_GoName i
      else local (rewriteConnectImport (GoImportPath i)) +:+ "." +:+ ident_GoName i
  end.

Definition render_line (local : string → string) (l : line) : string :=
  foldr (λ p rest, render_piece local p +:+ rest) "" l.

(** The import paths of a file. *)
Definition imports (g : GeneratedFile) : gset string :=
  list_to_set (concat (Lines g) ≫= (λ p, match p with
    | Text _ => []
    | Ident i =>
        if decide (GoImportPath i = forwardgenImportPath) then []
        else [rewriteConnectImport (GoImportPath i)]
    end)).

(** ** The command ([main.go]) *)

Definition boundServiceNames (policiesOf : string → gmap string Registry.Policy) : gset string :=
  list_to_set (Registry.Service <$> Catalog.Bindings policiesOf).

(** A file descriptor with the files it imports. *)
#[warnings="-register-all"]
Inductive FileDescriptor : Type := FileDesc (path : string) (imported : list FileDescriptor).

Definition file_path (file : FileDescriptor) : string := let 'FileDesc path _ := file in path.
Definition Imports (file : FileDescriptor) : list FileDescriptor :=
  let 'FileDesc _ imported := file in imported.

(** What a name is registered as: a service with its file, or something else. *)
Inductive Descriptor : Type := ServiceDescriptor (parent : FileDescriptor) | OtherDescriptor.

(** [protoregistry.GlobalFiles.FindDescriptorByName] *)
Definition Finder : Type := string → result error Descriptor.

Definition serviceFile (FindDescriptorByName : Finder) (service : string) :
    result error FileDescriptor :=
  match FindDescriptorByName service with
  | Err err =>
      Err (Errorf "%w: %s cannot be resolved: %w" [ErrorNew errServiceDescriptor; err] [service])
  | Ok (ServiceDescriptor parent) => Ok parent
  | Ok OtherDescriptor =>
      Err (Errorf "%w: %s is not a service" [ErrorNew errServiceDescriptor] [service])
  end.

(** [appendFileAndImports]: the files appended so far and the paths seen. *)
Definition Appended : Type := list FileDescriptor * gset string.

Fixpoint appendFileAndImports (file : FileDescriptor) (state : Appended) : Appended :=
  let 'FileDesc path imported := file in
  let '(protos, seen) := state in
  if decide (path ∈ seen) then (protos, seen)
  else
    let '(protos, seen) :=
      (fix each (imported : list FileDescriptor) (state : Appended) : Appended :=
         match imported with
         | [] => state
         | imported_file :: rest => each rest (appendFileAndImports imported_file state)
         end) imported (protos, {[path]} ∪ seen) in
    (protos ++ [file], seen).

(** The loop that finds the files of the services. *)
Fixpoint rootsLoop (FindDescriptorByName : Finder) (services : list string)
    (roots : gmap string FileDescriptor) : result error (gmap string FileDescriptor) :=
  match services with
  | [] => Ok roots
  | service :: services =>
      let? file := serviceFile FindDescriptorByName service in
      rootsLoop FindDescriptorByName services (<[file_path file := file]> roots)
  end.

(** [CodeGeneratorRequest] *)
Record Request : Type := { FileToGenerate : list string; ProtoFile : list FileDescriptor }.

(** The last loop: over the paths of the roots, in order. *)
Fixpoint appendRoots (roots : list FileDescriptor) (state : Appended) : Appended :=
  match roots with
  | [] => state
  | root :: roots => appendRoots roots (appendFileAndImports root state)
  end.

Definition codeGeneratorRequest (FindDescriptorByName : Finder) (services : gset string) :
    result error Request :=
  let? roots := rootsLoop FindDescriptorByName (sorted_set services) ∅ in
  let paths := sorted_keys roots in
  Ok {| FileToGenerate := paths;
        ProtoFile := (appendRoots (omap (λ path, roots !! path) paths) ([], ∅)).1 |}.

(** ** The output directory *)

(** A directory: its files' contents by name, and what fails in it. *)
Abbreviation Directory := (gmap string string).

Record Disk : Type := {
  WriteFails : string → option error;
  RemoveFails : string → option error;
  (** [filepath.Glob] only fails for a malformed pattern. *)
  GlobFails : option error;
}.

(** [filepath.Base] *)
Fixpoint trim_slashes (segments : list string) : list string :=
  match segments with "" :: rest => trim_slashes rest | _ => segments end.

Definition filepath_Base (path : string) : string :=
  if decide (path = "") then "."
  else match trim_slashes (rev (Split path "/")) with [] => "/" | base :: _ => base end.

(** The names that match [*.forward.go]. *)
Fixpoint HasSuffix (s suffix : string) : bool :=
  if decide (s = suffix) then true
  else match s with "" => false | String _ s => HasSuffix s suffix end.

Definition Glob (directory : Directory) : list string :=
  filter (λ name, HasSuffix name fileSuffix = true) (sorted_keys directory).

(** A file of the plugin's response. *)
Record ResponseFile : Type := { GetName : string; GetContent : string }.

Fixpoint removeLoop (disk : Disk) (written : gset string) (matches : list string) (directory : Directory) :
    option error * Directory :=
  match matches with
  | [] => (None, directory)
  | name :: matches =>
      if decide (name ∈ written) then removeLoop disk written matches directory
      else
        match RemoveFails disk name with
        | Some err => (Some (Errorf "remove %s: %w" [err] [name]), directory)
        | None => removeLoop disk written matches (delete name directory)
        end
  end.

Definition removeStaleFiles (disk : Disk) (written : gset string) (directory : Directory) :
    option error * Directory :=
  match GlobFails disk with
  | Some err => (Some (Errorf "list the generated files in %s: %w" [err] []), directory)
  | None => removeLoop disk written (Glob directory) directory
  end.

Fixpoint writeLoop (disk : Disk) (files : list ResponseFile) (written : gset string)
    (directory : Directory) : result (error * Directory) (gset string * Directory) :=
  match files with
  | [] => Ok (written, directory)
  | file :: files =>
      let name := filepath_Base (GetName file) in
      match WriteFails disk name with
      | Some err => Err (Errorf "write %s: %w" [err] [name], directory)
      | None => writeLoop disk files ({[name]} ∪ written) (<[name := GetContent file]> directory)
      end
  end.

(** [writeResponse]; the response is the error the plugin reports or its files. *)
Definition writeResponse (disk : Disk) (response : result string (list ResponseFile))
    (directory : Directory) : option error * Directory :=
  match response with
  | Err message => (Some (Errorf "%w: %s" [ErrorNew errGeneration] [message]), directory)
  | Ok files =>
      match writeLoop disk files ∅ directory with
      | Err (err, directory) => (Some err, directory)
      | Ok (written, directory) => removeStaleFiles disk written directory
      end
  end.

(** [options.New]: the files of a request, and [plugin.Response]: the contents
    of the generated files, or an error. *)
Class Protogen : Type := {
  New : Request → result error (list File);
  Response : list GeneratedFile → result string (list ResponseFile);
}.

Definition run `{!Protogen} (policiesOf : string → gmap string Registry.Policy)
    (FindDescriptorByName : Finder) (disk : Disk) (directory : Directory) : option error * Directory :=
  let services := boundServiceNames policiesOf in
  match codeGeneratorRequest FindDescriptorByName services with
  | Err err => (Some err, directory)
  | Ok request =>
      match New request with
      | Err err => (Some (Errorf "start protogen: %w" [err] []), directory)
      | Ok files =>
          match Generate files services with
          | Err err => (Some err, directory)
          | Ok generated => writeResponse disk (Response generated) directory
          end
      end
  end.

(** ** Generation, declaratively *)

(** The bound services the files to generate declare, in the order of the files. *)
Definition declared (files : list File) (services : gset string) : list forwarder :=
  filter Generate_ files ≫= (λ file, boundForwarders file services).

Definition unary (each : forwarder) : Prop :=
  Forall (λ method, streams method = false) (Methods (fwd_service each)).

(** One file of forwarders for each file that declares a bound service. *)
Definition forwarder_files (files : list File) (services : gset string) : list GeneratedFile :=
  (λ file, generateForwarders file (boundForwarders file services))
    <$> filter (λ file, Generate_ file ∧ boundForwarders file services ≠ []) files.

Lemma filter_nil_iff {A} (P : A → Prop) `{!∀ x, Decision (P x)} (l : list A) :
  filter P l = [] ↔ Forall (λ x, ¬ P x) l.
Proof.
  induction l as [|x l IH]; [done|]. rewrite filter_cons, Forall_cons. case_decide; naive_solver.
Qed.

Lemma not_streams method : ¬ streams method ↔ streams method = false.
Proof. destruct (streams method); naive_solver. Qed.

Lemma checkUnary_None forwarders : checkUnary forwarders = None ↔ Forall unary forwarders.
Proof.
  unfold checkUnary, unary. autorewrite with no_errors. rewrite filter_nil_iff, Forall_bind.
  apply Forall_iff. intros each. apply Forall_iff. intros method. apply not_streams.
Qed.

Lemma checkComplete_None forwarders services :
  checkComplete forwarders services = None ↔ ∀ s, s ∈ services → s ∈ fullName <$> forwarders.
Proof.
  unfold checkComplete. autorewrite with no_errors. rewrite filter_nil_iff, Forall_forall.
  setoid_rewrite elem_of_list_to_set. setoid_rewrite elem_of_sorted_set.
  split; intros H s Hs; specialize (H s Hs); [by apply dec_stable|auto].
Qed.

Lemma generateLoop_ok files services generated forwarders generated' forwarders' :
  generateLoop files services generated forwarders = Ok (generated', forwarders') ↔
  Forall unary (declared files services) ∧
  generated' = generated ++ forwarder_files files services ∧
  forwarders' = forwarders ++ declared files services.
Proof.
  revert generated forwarders. induction files as [|file files IH]; intros generated forwarders.
  { cbn. rewrite !app_nil_r. naive_solver. }
  cbn [generateLoop]. unfold declared, forwarder_files in *. rewrite !filter_cons.
  destruct (Generate_ file) eqn:Hg; cbn [negb].
  - destruct (decide (length (boundForwarders file services) = 0%nat)) as [Hl|Hl].
    + apply length_zero_iff_nil in Hl. rewrite IH.
      rewrite decide_True by done. rewrite decide_False by naive_solver.
      cbn [mbind list_bind]. by rewrite Hl.
    + rewrite decide_True by done.
      rewrite decide_True by (split; [done|]; intros H; by rewrite H in Hl).
      cbn [mbind list_bind fmap list_fmap]. rewrite Forall_app.
      pose proof (checkUnary_None (boundForwarders file services)) as Hc.
      destruct (checkUnary _).
      * split; [done|]. intros ((Hun & _) & _). by apply Hc in Hun.
      * rewrite IH, <-!(assoc_L (++)). naive_solver.
  - rewrite IH. rewrite decide_False by (intros []). by rewrite decide_False by (intros [[] _]).
Qed.

#[export] Instance fullName_le_trans : Transitive fullName_le.
Proof. intros a b c. unfold fullName_le. apply transitivity. Qed.

#[export] Instance fullName_le_total : Total fullName_le.
Proof. intros a b. unfold fullName_le. apply total. apply _. Qed.

Lemma fullName_le_sorted forwarders :
  StronglySorted String.le (fullName <$> merge_sort fullName_le forwarders).
Proof.
  assert (StronglySorted fullName_le (merge_sort fullName_le forwarders)) as H.
  { apply (StronglySorted_merge_sort _). }
  induction H as [|each rest _ IH Hle]; [constructor|]. cbn. constructor; [done|].
  by apply Forall_fmap.
Qed.

Lemma declared_bound files services each :
  each ∈ declared files services →
  fullName each ∈ services ∧ fwd_file each ∈ files ∧ fwd_service each ∈ Services (fwd_file each).
Proof.
  unfold declared, boundForwarders.
  intros (file & (service & -> & [Hs Hin]%list_elem_of_filter)%list_elem_of_fmap &
    [_ Hf]%list_elem_of_filter)%list_elem_of_bind. done.
Qed.

(** The outcome of [Generate]. *)
Lemma Generate_ok files services generated :
  Generate files services = Ok generated ↔
  ∃ mounted,
    Permutation mounted (declared files services) ∧ StronglySorted String.le (fullName <$> mounted) ∧
    Forall unary mounted ∧ (∀ s, s ∈ fullName <$> mounted ↔ s ∈ services) ∧
    mounted = merge_sort fullName_le (declared files services) ∧
    generated = forwarder_files files services ++ [generateMounts mounted].
Proof.
  unfold Generate.
  pose proof (merge_sort_Permutation fullName_le (declared files services)) as Hperm.
  assert (∀ s, s ∈ fullName <$> declared files services → s ∈ services) as Hsub.
  { intros s (each & -> & Heach)%list_elem_of_fmap. by apply (declared_bound files). }
  split.
  - destruct (generateLoop files services [] []) as [[g f]|] eqn:Hl; [|done].
    apply generateLoop_ok in Hl as (Hun & -> & ->). cbn [result_bind].
    rewrite !app_nil_l. destruct (checkComplete _ _) eqn:Hc; [done|]. intros [= <-].
    rewrite checkComplete_None in Hc.
    exists (merge_sort fullName_le (declared files services)).
    split_and!; [done|apply fullName_le_sorted|by rewrite Hperm| |done|done].
    intros s. rewrite Hperm. split; auto.
  - intros (mounted & Hp & _ & Hun & Hall & -> & ->).
    rewrite (proj2 (generateLoop_ok files services [] [] (forwarder_files files services)
      (declared files services))) by (rewrite Hp in Hun; by split_and!).
    cbn [result_bind].
    rewrite (proj2 (checkComplete_None _ _)); [done|]. intros s Hs. rewrite <-Hperm. by apply Hall.
Qed.

(** What [Generate] makes: it succeeds exactly when every bound service the
    files to generate declare is unary and every service asked for is declared,
    and then it has made one file of forwarders for each file that declares some
    of them, in the order of the files, and last the table of mounts, which has
    the declared services in the order of their names: those asked for, and no
    others. *)
Theorem generate_spec files services generated :
  Generate files services = Ok generated ↔
  ∃ mounted,
    Permutation mounted (declared files services) ∧ StronglySorted String.le (fullName <$> mounted) ∧
    Forall unary mounted ∧ (∀ s, s ∈ fullName <$> mounted ↔ s ∈ services) ∧
    mounted = merge_sort fullName_le (declared files services) ∧
    generated = forwarder_files files services ++ [generateMounts mounted].
Proof. apply Generate_ok. Qed.

(** ** The files of a request *)

(** An induction principle that reaches the imported files. *)
Fixpoint FileDescriptor_tree_ind (P : FileDescriptor → Prop)
    (Hfile : ∀ path imported, Forall P imported → P (FileDesc path imported)) (file : FileDescriptor) :
    P file :=
  let 'FileDesc path imported := file in
  Hfile path imported
    ((fix all (l : list FileDescriptor) : Forall P l :=
        match l with
        | [] => @List.Forall_nil _ P
        | f :: l => @List.Forall_cons _ P f l (FileDescriptor_tree_ind P Hfile f) (all l)
        end) imported).

Fixpoint file_size (file : FileDescriptor) : nat :=
  let 'FileDesc _ imported := file in
  S ((fix all (l : list FileDescriptor) : nat :=
        match l with [] => O | f :: l => (file_size f + all l)%nat end) imported).

Lemma imported_smaller file f : f ∈ Imports file → (file_size f < file_size file)%nat.
Proof.
  destruct file as [path imported]. cbn [Imports file_size].
  induction imported as [|g imported IH]; [intros []%not_elem_of_nil|].
  intros [->|Hin]%elem_of_cons; [lia|]. apply IH in Hin. lia.
Qed.

(** [file] imports [f], directly or not, or is [f]. *)
Inductive reaches : FileDescriptor → FileDescriptor → Prop :=
| reaches_refl f : reaches f f
| reaches_import file f g : f ∈ Imports file → reaches f g → reaches file g.

Lemma reaches_smaller file f : reaches file f → (file_size f ≤ file_size file)%nat.
Proof. induction 1 as [|file f g Hin _ IH]; [done|]. apply imported_smaller in Hin. lia. Qed.

(** Every file stands behind those it imports. *)
Definition imports_first (protos : list FileDescriptor) : Prop :=
  ∀ before file after, protos = before ++ file :: after → ∀ f, f ∈ Imports file → f ∈ before.

Lemma imports_first_snoc protos file :
  imports_first protos → (∀ f, f ∈ Imports file → f ∈ protos) → imports_first (protos ++ [file]).
Proof.
  intros Hp Hf before g after Heq f Hin.
  destruct after as [|a after _] using rev_ind.
  - apply app_inj_tail in Heq as [-> ->]. auto.
  - rewrite app_comm_cons, (assoc_L (++)) in Heq. apply app_inj_tail in Heq as [-> _].
    by apply (Hp before g after).
Qed.

Section appended.
(** Files of the registry: a path names one file. *)
Context (known : FileDescriptor → Prop).
Context (Himports : ∀ file f, known file → f ∈ Imports file → known f).
Context (Hpaths : ∀ f g, known f → known g → file_path f = file_path g → f = g).

Lemma known_reaches file f : known file → reaches file f → known f.
Proof. intros Hk Hr. revert Hk. induction Hr; eauto. Qed.

(** The files appended and the paths seen while the files of [open] are being
    appended. *)
Record appended (open : gset string) (state : Appended) : Prop := {
  appended_known : ∀ f, f ∈ state.1 → known f;
  appended_distinct : NoDup (file_path <$> state.1);
  appended_first : imports_first state.1;
  appended_seen : ∀ path, path ∈ state.2 ↔ path ∈ file_path <$> state.1 ∨ path ∈ open;
  appended_open : ∀ path, path ∈ open → path ∉ file_path <$> state.1;
}.

(** What appending [files] does to a state. *)
Record appends (open : gset string) (files : list FileDescriptor) (state state' : Appended) : Prop := {
  appends_ok : appended open state';
  appends_all : ∀ f, f ∈ files → f ∈ state'.1;
  appends_keeps : ∀ f, f ∈ state.1 → f ∈ state'.1;
  appends_only : ∀ f, f ∈ state'.1 → f ∈ state.1 ∨ ∃ file, file ∈ files ∧ reaches file f;
}.

Definition apart (open : gset string) (file : FileDescriptor) : Prop :=
  ∀ f, reaches file f → file_path f ∉ open.

Lemma appendFileAndImports_unfold path imported protos seen :
  appendFileAndImports (FileDesc path imported) (protos, seen)
    = if decide (path ∈ seen) then (protos, seen)
      else
        let '(protos, seen) := appendRoots imported (protos, {[path]} ∪ seen) in
        (protos ++ [FileDesc path imported], seen).
Proof.
  cbn. case_decide; [done|].
  assert (∀ state, (fix each (imported : list FileDescriptor) (state : Appended) : Appended :=
    match imported with
    | [] => state
    | imported_file :: rest => each rest (appendFileAndImports imported_file state)
    end) imported state = appendRoots imported state) as ->; [|done].
  induction imported as [|f imported IH]; intros state; [done|]. exact (IH _).
Qed.

Lemma appendRoots_appends open files :
  Forall (λ file, ∀ open state, known file → apart open file → appended open state →
    appends open [file] state (appendFileAndImports file state)) files →
  ∀ state, (∀ f, f ∈ files → known f ∧ apart open f) → appended open state →
  appends open files state (appendRoots files state).
Proof.
  induction 1 as [|file files Hfile _ IH]; intros state Hf Hs; cbn [appendRoots].
  { split; [done|by intros ? []%not_elem_of_nil|done|auto]. }
  destruct (Hf file) as [Hk Ha]; [left|].
  destruct (Hfile open state Hk Ha Hs) as [H1 H2 H3 H4].
  destruct (IH _ (λ f Hin, Hf f (list_elem_of_further f file files Hin)) H1) as [H5 H6 H7 H8]. split; [done| | |].
  - intros f [->|Hin]%elem_of_cons; [|auto]. apply H7, H2. left.
  - auto.
  - intros f [Hin|(g & Hg & Hr)]%H8.
    + apply H4 in Hin as [|(g & Hg%list_elem_of_singleton & Hr)]; [auto|subst g].
      right. exists file. split; [left|done].
    + right. exists g. split; [by right|done].
Qed.

Lemma appendFileAndImports_appends file open state :
  known file → apart open file → appended open state →
  appends open [file] state (appendFileAndImports file state).
Proof.
  revert open state. induction file as [path imported IH] using FileDescriptor_tree_ind.
  intros open [protos seen] Hk Ha Hs. rewrite appendFileAndImports_unfold.
  destruct Hs as [Hs1 Hs2 Hs3 Hs4 Hs5]. cbn [fst snd] in *.
  pose proof (Ha _ (reaches_refl _)) as Hpath. cbn [file_path] in Hpath. case_decide as Hseen.
  - split; [by split| | |auto]; [|done].
    intros f ->%list_elem_of_singleton. apply Hs4 in Hseen as [(g & Hg & Hin)%list_elem_of_fmap|]; [|done].
    by rewrite (Hpaths (FileDesc path imported) g) by auto.
  - pose proof (appendRoots_appends ({[path]} ∪ open) imported IH (protos, {[path]} ∪ seen))
      as Happ. destruct (appendRoots imported (protos, {[path]} ∪ seen)) as [protos' seen'].
    destruct Happ as [[H1 H2 H3 H4 H5] H6 H7 H8]; cbn [fst snd] in *.
    + intros f Hin. split; [by apply (Himports (FileDesc path imported))|].
      intros g Hr [Heq%elem_of_singleton|Ho]%elem_of_union.
      * pose proof (reaches_import (FileDesc path imported) f g Hin Hr) as Hr'.
        assert (g = FileDesc path imported) as ->.
        { apply Hpaths; [by apply (known_reaches (FileDesc path imported))|done..]. }
        apply reaches_smaller in Hr. pose proof (imported_smaller (FileDesc path imported) f Hin). lia.
      * apply (Ha g); [|done]. by apply (reaches_import _ f).
    + split; cbn [fst snd]; [done..| |].
      * intros p. rewrite !elem_of_union, elem_of_singleton, Hs4. tauto.
      * intros p [->%elem_of_singleton|Ho]%elem_of_union; [|by apply Hs5].
        intros Hin. apply Hseen, Hs4. by left.
    + split; [split|..]; cbn [fst snd].
      * intros f [Hin| ->%list_elem_of_singleton]%elem_of_app; auto.
      * rewrite fmap_app, NoDup_app. split_and!; [done| |apply NoDup_singleton].
        intros p Hp ->%list_elem_of_singleton. apply (H5 path); [set_solver|done].
      * apply imports_first_snoc; [done|]. exact H6.
      * intros p. rewrite H4, fmap_app, elem_of_app, elem_of_union, elem_of_singleton.
        cbn. rewrite list_elem_of_singleton. tauto.
      * intros p Ho. rewrite fmap_app. intros [Hin|Heq%list_elem_of_singleton]%elem_of_app.
        -- apply (H5 p); [set_solver|done].
        -- by subst p.
      * intros f ->%list_elem_of_singleton. apply elem_of_app. right. by apply list_elem_of_singleton.
      * intros f Hin. apply elem_of_app. auto.
      * intros f [Hin|Heq%list_elem_of_singleton]%elem_of_app.
        -- apply H8 in Hin as [|(g & Hg & Hr)]; [auto|]. right. exists (FileDesc path imported).
           split; [by apply list_elem_of_singleton|]. by apply (reaches_import _ g).
        -- right. exists f. split; [by apply list_elem_of_singleton|constructor].
Qed.
End appended.

Lemma imports_first_closed protos file f :
  imports_first protos → file ∈ protos → reaches file f → f ∈ protos.
Proof.
  intros Hp Hin Hr. induction Hr as [|file f g Hf _ IH]; [done|]. apply IH.
  apply list_elem_of_split in Hin as (before & after & ->).
  apply elem_of_app. left. by apply (Hp before file after).
Qed.

Lemma serviceFile_ok find service file :
  serviceFile find service = Ok file ↔ find service = Ok (ServiceDescriptor file).
Proof. unfold serviceFile. destruct (find service) as [[]|]; naive_solver. Qed.

(** The file of a service among [services]. *)
Definition root_of (find : Finder) (services : list string) (file : FileDescriptor) : Prop :=
  ∃ service, service ∈ services ∧ find service = Ok (ServiceDescriptor file).

Lemma rootsLoop_ok find services roots roots' :
  rootsLoop find services roots = Ok roots' →
  (∀ service, service ∈ services → ∃ file, find service = Ok (ServiceDescriptor file)) ∧
  (∀ path, is_Some (roots' !! path) ↔
     is_Some (roots !! path) ∨ ∃ file, root_of find services file ∧ file_path file = path) ∧
  (∀ path file, roots' !! path = Some file →
     roots !! path = Some file ∨ (root_of find services file ∧ file_path file = path)).
Proof.
  revert roots. induction services as [|service services IH]; intros roots; cbn [rootsLoop].
  { intros [= ->]. split_and!; [by intros ? []%not_elem_of_nil| |auto].
    intros path. split; [auto|]. by intros [|(? & (? & []%not_elem_of_nil & _) & _)]. }
  destruct (serviceFile find service) as [file|] eqn:Hf; [|done]. cbn [result_bind].
  apply serviceFile_ok in Hf. intros (H1 & H2 & H3)%IH.
  assert (root_of find (service :: services) file) as Hroot by (exists service; split; [left|done]).
  assert (∀ f, root_of find services f → root_of find (service :: services) f) as Hmore.
  { intros f (s & ? & ?). exists s. split; [by right|done]. }
  split_and!.
  - intros s [->|Hs]%elem_of_cons; eauto.
  - intros path. rewrite H2, lookup_insert_is_Some'. split.
    + intros [[Heq|]|(f & ? & ?)]; [right|by left|right]; eauto.
    + intros [|(f & (s & [->|Hs]%elem_of_cons & Hfind) & <-)]; [auto| |].
      * left. left. congruence.
      * right. exists f. split; [by exists s|done].
  - intros path f [Hl|[? ?]]%H3; [|auto].
    apply lookup_insert_Some in Hl as [[<- <-]|[_ ?]]; auto.
Qed.

Lemma rootsLoop_total find services roots :
  (∀ service, service ∈ services → ∃ file, find service = Ok (ServiceDescriptor file)) →
  ∃ roots', rootsLoop find services roots = Ok roots'.
Proof.
  revert roots. induction services as [|service services IH]; intros roots H; cbn [rootsLoop]; [eauto|].
  destruct (H service) as [file Hf]; [left|]. rewrite (proj2 (serviceFile_ok _ _ _) Hf).
  cbn [result_bind]. apply IH. intros s Hs. apply H. by right.
Qed.

(** The request the generator is started with: it is made exactly when every
    bound service resolves to a service; its files to generate are the files
    of the bound services, each once and in order, and its descriptors are
    exactly these and all they import, each once and behind the files it
    imports. *)
Theorem request_spec (known : FileDescriptor → Prop) (find : Finder) (services : gset string) :
  (∀ file f, known file → f ∈ Imports file → known f) →
  (∀ f g, known f → known g → file_path f = file_path g → f = g) →
  (∀ service file, find service = Ok (ServiceDescriptor file) → known file) →
  (is_ok (codeGeneratorRequest find services) = true ↔
     ∀ service, service ∈ services → ∃ file, find service = Ok (ServiceDescriptor file)) ∧
  ∀ request, codeGeneratorRequest find services = Ok request →
    NoDup (FileToGenerate request) ∧ StronglySorted String.le (FileToGenerate request) ∧
    (∀ path, path ∈ FileToGenerate request ↔
       ∃ file, root_of find (elements services) file ∧ file_path file = path) ∧
    NoDup (file_path <$> ProtoFile request) ∧ imports_first (ProtoFile request) ∧
    (∀ f, f ∈ ProtoFile request ↔ ∃ file, root_of find (elements services) file ∧ reaches file f).
Proof.
  intros Himports Hpaths Hfind. unfold codeGeneratorRequest.
  assert (∀ file, root_of find (sorted_set services) file ↔ root_of find (elements services) file) as Hroots.
  { intros file. unfold root_of. by setoid_rewrite elem_of_sorted_set; setoid_rewrite elem_of_elements. }
  split.
  { split.
    - destruct (rootsLoop _ _ _) as [roots|] eqn:Hl; [|done]. intros _ service Hs.
      apply rootsLoop_ok in Hl as [Hl _]. by apply Hl, elem_of_sorted_set.
    - intros H. destruct (rootsLoop_total find (sorted_set services) ∅) as [roots ->]; [|done].
      intros service Hs%elem_of_sorted_set. auto. }
  intros request. destruct (rootsLoop _ _ _) as [roots|] eqn:Hl; [|done]. cbn [result_bind].
  intros [= <-]. cbn [FileToGenerate ProtoFile]. apply rootsLoop_ok in Hl as (_ & Hdom & Hval).
  setoid_rewrite Hroots in Hdom. setoid_rewrite Hroots in Hval.
  assert (∀ path file, roots !! path = Some file → root_of find (elements services) file ∧
    file_path file = path) as Hval'.
  { intros path file [Hn|?]%Hval; [by rewrite lookup_empty in Hn|done]. }
  set (files := omap (λ path, roots !! path) (sorted_keys roots)).
  assert (∀ file, file ∈ files ↔ root_of find (elements services) file) as Hfiles.
  { intros file. unfold files. rewrite list_elem_of_omap. split.
    - by intros (path & _ & [? _]%Hval').
    - intros Hroot. destruct (Hdom (file_path file)) as [_ [f Hf]]; [eauto|].
      exists (file_path file). rewrite elem_of_sorted_keys, Hf. split; [done|]. f_equal.
      apply Hval' in Hf as [(s1 & _ & Hs1) Heq]. destruct Hroot as (s2 & _ & Hs2). eauto. }
  assert (∀ file, root_of find (elements services) file → known file) as Hknown.
  { intros file (s & _ & Hs). by apply (Hfind s). }
  destruct (appendRoots_appends known ∅ files) with (state := ([] : list FileDescriptor, ∅ : gset string))
    as [[H1 H2 H3 H4 H5] H6 H7 H8].
  - rewrite Forall_forall. intros file _ open state. by apply appendFileAndImports_appends.
  - intros f Hf%Hfiles. split; [auto|]. intros g _. set_solver.
  - split; cbn [fst snd]; [by intros ? []%not_elem_of_nil|constructor| |set_solver|set_solver].
    intros before g after Heq. by destruct before.
  - split_and!; [auto with go|auto with go| |done|done|].
    + intros path. rewrite elem_of_sorted_keys, Hdom, lookup_empty, is_Some_alt. naive_solver.
    + intros f. split.
      * intros [[]%not_elem_of_nil|(file & Hf%Hfiles & ?)]%H8. eauto.
      * intros (file & Hf%Hfiles%H6 & Hr). by apply (imports_first_closed _ file).
Qed.

(** ** The directory after a run *)

Definition putFile (directory : Directory) (file : ResponseFile) : Directory :=
  <[filepath_Base (GetName file) := GetContent file]> directory.

(** The files of a response by name; a later one replaces an earlier one. *)
Definition response_files (files : list ResponseFile) : Directory := foldl putFile ∅ files.

Lemma putFiles_union files directory :
  foldl putFile directory files = response_files files ∪ directory.
Proof.
  unfold response_files. induction files as [|file files IH] using rev_ind.
  { cbn [foldl]. by rewrite (left_id_L ∅ (∪)). }
  rewrite !foldl_app. cbn. rewrite IH. apply insert_union_l.
Qed.

Lemma writeLoop_ok disk files written directory written' directory' :
  writeLoop disk files written directory = Ok (written', directory') →
  directory' = foldl putFile directory files ∧
  ∀ name, name ∈ written' ↔ name ∈ written ∨ is_Some (response_files files !! name).
Proof.
  revert written directory. induction files as [|file files IH]; intros written directory; cbn [writeLoop].
  { intros [= <- <-]. split; [done|]. intros name. unfold response_files. cbn.
    rewrite lookup_empty, is_Some_alt. naive_solver. }
  destruct (WriteFails _ _); [done|]. intros [-> Hw]%IH. split; [done|]. intros name. rewrite Hw.
  unfold response_files at 2. cbn [foldl]. rewrite putFiles_union, lookup_union_is_Some.
  unfold putFile. rewrite lookup_insert_is_Some', lookup_empty. rewrite elem_of_union, elem_of_singleton.
  split; [|intros [|[|[<-|[? [=]]]]]]; tauto || naive_solver.
Qed.

Lemma removeLoop_ok disk written matches directory directory' :
  removeLoop disk written matches directory = (None, directory') →
  ∀ name, directory' !! name
    = if decide (name ∈ matches ∧ name ∉ written) then None else directory !! name.
Proof.
  revert directory. induction matches as [|found matches IH]; intros directory; cbn [removeLoop].
  { intros [= <-] name. rewrite decide_False; [done|]. by intros [[]%not_elem_of_nil _]. }
  destruct (decide (found ∈ written)) as [Hw|Hw].
  - intros H name. rewrite (IH _ H). apply decide_ext. rewrite elem_of_cons. naive_solver.
  - destruct (RemoveFails _ _); [done|]. intros H name. rewrite (IH _ H).
    destruct (decide (name = found)) as [->|Hne].
    + rewrite lookup_delete_eq. rewrite (decide_True (P := _ ∈ found :: _ ∧ _)) by (split; [left|done]).
      by case_decide.
    + rewrite lookup_delete_ne by done. apply decide_ext. rewrite elem_of_cons. naive_solver.
Qed.

Lemma HasSuffix_Glob directory name :
  name ∈ Glob directory ↔ is_Some (directory !! name) ∧ HasSuffix name fileSuffix = true.
Proof. unfold Glob. rewrite list_elem_of_filter, elem_of_sorted_keys. naive_solver. Qed.

(** The directory with the files of a response and no other generated files. *)
Definition regenerated (files : list ResponseFile) (directory : Directory) (name : string) :
    option string :=
  match response_files files !! name with
  | Some content => Some content
  | None => if HasSuffix name fileSuffix then None else directory !! name
  end.

Lemma writeResponse_ok disk response directory directory' :
  writeResponse disk response directory = (None, directory') →
  ∃ files, response = Ok files ∧ ∀ name, directory' !! name = regenerated files directory name.
Proof.
  unfold writeResponse. destruct response as [files|]; [|done].
  destruct (writeLoop disk files ∅ directory) as [[written d]|[err d]] eqn:Hl; [|done].
  apply writeLoop_ok in Hl as [-> Hw]. unfold removeStaleFiles. destruct (GlobFails disk); [done|].
  intros H. exists files. split; [done|]. intros name. rewrite (removeLoop_ok _ _ _ _ _ H).
  unfold regenerated. rewrite putFiles_union.
  assert (name ∈ Glob (response_files files ∪ directory) ∧ name ∉ written ↔
    response_files files !! name = None ∧ is_Some (directory !! name) ∧
    HasSuffix name fileSuffix = true) as Hc.
  { rewrite HasSuffix_Glob, Hw, lookup_union_is_Some, eq_None_not_Some. set_solver. }
  rewrite (decide_ext _ _ _ _ Hc), lookup_union.
  destruct (response_files files !! name), (directory !! name), (HasSuffix name fileSuffix);
    case_decide; naive_solver.
Qed.

(** ** An example request *)

Definition example_common : FileDescriptor := FileDesc "common.proto" [].
Definition example_first : FileDescriptor := FileDesc "a.proto" [example_common].
Definition example_second : FileDescriptor := FileDesc "b.proto" [example_common; example_first].

Definition example_known (f : FileDescriptor) : Prop :=
  f = example_common ∨ f = example_first ∨ f = example_second.

Definition example_find (service : string) : result error Descriptor :=
  if decide (service = "second") then Ok (ServiceDescriptor example_second)
  else Ok (ServiceDescriptor example_first).

Definition example_request : Request :=
  {| FileToGenerate := ["a.proto"; "b.proto"];
     ProtoFile := [example_common; example_first; example_second] |}.

Lemma example_known_imports file f : example_known file → f ∈ Imports file → example_known f.
Proof.
  unfold example_known. intros [-> | [-> | ->]]; cbn; rewrite ?elem_of_cons, elem_of_nil; tauto.
Qed.

Lemma example_known_paths f g :
  example_known f → example_known g → file_path f = file_path g → f = g.
Proof. unfold example_known. intros [-> | [-> | ->]] [-> | [-> | ->]]; done. Qed.

Lemma example_find_known service file :
  example_find service = Ok (ServiceDescriptor file) → example_known file.
Proof. unfold example_find, example_known. case_decide; intros [= <-]; auto. Qed.

Lemma request_spec_witness :
  imports_first (ProtoFile example_request) ∧ NoDup (file_path <$> ProtoFile example_request).
Proof.
  pose proof (request_spec example_known example_find {["first"; "second"]} example_known_imports
    example_known_paths example_find_known) as [_ H].
  destruct (H example_request) as (_ & _ & _ & Hd & Hf & _); [vm_compute; reflexivity|]. by split.
Defined.
