(* ===== verification/ForwardFiles.v ===== *)
(** * The committed forwarders ([internal/infra/connect/forwardgen])

    The files genforward wrote, line by line without their indentation, and the
    check that they are what the generator writes for the services of the
    catalog today: nobody edited them, and none is stale. *)

From S2P Require Import Prelude GoStd GoErrors.
From S2P Require Registry Catalog Forward Forwardgen.
From S2P Require Import GenForward.

(** A committed file: its import declaration (local names and paths) and its
    other lines. *)
Record GoFile : Type := {
  go_Name : string;
  go_Imports : list (string * string);
  go_Body : list string;
}.

Definition greet_v1_greet_forward_go : GoFile :=
  {| go_Name := "greet_v1_greet.forward.go";
     go_Imports :=
       [("context",
         "context");
        ("v1",
         "github.com/pj-hoakari/tolo-service-gateway/gen/greet/v1");
        ("greetv1connect",
         "github.com/pj-hoakari/tolo-service-gateway/gen/greet/v1/greetv1connect");
        ("forward",
         "github.com/pj-hoakari/tolo-service-gateway/internal/infra/connect/forward")];
     go_Body :=
       ["// Code generated by genforward. DO NOT EDIT.";
        "";
        "package forwardgen";
        "";
        "";
        "type greetV1GreetServiceForwarder struct {";
        "client greetv1connect.GreetServiceClient";
        "}";
        "";
        "func (f *greetV1GreetServiceForwarder) Greet(ctx context.Context, req *v1.GreetRequest) (*v1.GreetResponse, error) {";
        "return forward.Unary(ctx, req, f.client.Greet)";
        "}";
        "";
        "func (f *greetV1GreetServiceForwarder) Ping(ctx context.Context, req *v1.PingRequest) (*v1.PingResponse, error) {";
        "return forward.Unary(ctx, req, f.client.Ping)";
        "}"] |}.

Definition tolo_graph_v1_graph_forward_go : GoFile :=
  {| go_Name := "tolo_graph_v1_graph.forward.go";
     go_Imports :=
       [("context",
         "context");
        ("v1",
         "github.com/pj-hoakari/tolo-graph-authoring/gen/tolo/graph/v1");
        ("graphv1connect",
         "github.com/pj-hoakari/tolo-graph-authoring/gen/tolo/graph/v1/graphv1connect");
        ("v11",
         "github.com/pj-hoakari/tolo-kernel-proto/gen/tolo/kernel/v1");
        ("forward",
         "github.com/pj-hoakari/tolo-service-gateway/internal/infra/connect/forward")];
     go_Body :=
       ["// Code generated by genforward. DO NOT EDIT.";
        "";
        "package forwardgen";
        "";
        "";
        "type toloGraphV1GraphAuthoringServiceForwarder struct {";
        "client graphv1connect.GraphAuthoringServiceClient";
        "}";
        "";
        "func (f *toloGraphV1GraphAuthoringServiceForwarder) SaveGraph(ctx context.Context, req *v1.SaveGraphRequest) (*v1.GraphMeta, error) {";
        "return forward.Unary(ctx, req, f.client.SaveGraph)";
        "}";
        "";
        "func (f *toloGraphV1GraphAuthoringServiceForwarder) MapObservationPoint(ctx context.Context, req *v1.MapObservationPointRequest) (*v1.MapObservationPointResponse, error) {";
        "return forward.Unary(ctx, req, f.client.MapObservationPoint)";
        "}";
        "";
        "func (f *toloGraphV1GraphAuthoringServiceForwarder) AddQrLocation(ctx context.Context, req *v1.AddQrLocationRequest) (*v1.AddQrLocationResponse, error) {";
        "return forward.Unary(ctx, req, f.client.AddQrLocation)";
        "}";
        "";
        "func (f *toloGraphV1GraphAuthoringServiceForwarder) UpdateQrLocation(ctx context.Context, req *v1.UpdateQrLocationRequest) (*v1.UpdateQrLocationResponse, error) {";
        "return forward.Unary(ctx, req, f.client.UpdateQrLocation)";
        "}";
        "";
        "func (f *toloGraphV1GraphAuthoringServiceForwarder) RemoveQrLocation(ctx context.Context, req *v1.RemoveQrLocationRequest) (*v1.RemoveQrLocationResponse, error) {";
        "return forward.Unary(ctx, req, f.client.RemoveQrLocation)";
        "}";
        "";
        "func (f *toloGraphV1GraphAuthoringServiceForwarder) SaveGuideMapLayout(ctx context.Context, req *v1.SaveGuideMapLayoutRequest) (*v1.GraphMeta, error) {";
        "return forward.Unary(ctx, req, f.client.SaveGuideMapLayout)";
        "}";
        "";
        "func (f *toloGraphV1GraphAuthoringServiceForwarder) GetGraph(ctx context.Context, req *v1.GetGraphRequest) (*v1.GetGraphResponse, error) {";
        "return forward.Unary(ctx, req, f.client.GetGraph)";
        "}";
        "";
        "func (f *toloGraphV1GraphAuthoringServiceForwarder) PublishRevision(ctx context.Context, req *v1.PublishRevisionRequest) (*v1.GraphMeta, error) {";
        "return forward.Unary(ctx, req, f.client.PublishRevision)";
        "}";
        "";
        "type toloGraphV1GraphSupplyServiceForwarder struct {";
        "client graphv1connect.GraphSupplyServiceClient";
        "}";
        "";
        "func (f *toloGraphV1GraphSupplyServiceForwarder) GetCurrentRevision(ctx context.Context, req *v1.GetCurrentRevisionRequest) (*v11.Graph, error) {";
        "return forward.Unary(ctx, req, f.client.GetCurrentRevision)";
        "}";
        "";
        "func (f *toloGraphV1GraphSupplyServiceForwarder) GetObservationPointMappings(ctx context.Context, req *v1.GetMappingsRequest) (*v1.GetMappingsResponse, error) {";
        "return forward.Unary(ctx, req, f.client.GetObservationPointMappings)";
        "}";
        "";
        "func (f *toloGraphV1GraphSupplyServiceForwarder) GetDisplayNames(ctx context.Context, req *v1.GetDisplayNamesRequest) (*v1.GetDisplayNamesResponse, error) {";
        "return forward.Unary(ctx, req, f.client.GetDisplayNames)";
        "}";
        "";
        "func (f *toloGraphV1GraphSupplyServiceForwarder) GetGatePoints(ctx context.Context, req *v1.GetGatePointsRequest) (*v1.GetGatePointsResponse, error) {";
        "return forward.Unary(ctx, req, f.client.GetGatePoints)";
        "}";
        "";
        "func (f *toloGraphV1GraphSupplyServiceForwarder) GetQrLocations(ctx context.Context, req *v1.GetQrLocationsRequest) (*v1.GetQrLocationsResponse, error) {";
        "return forward.Unary(ctx, req, f.client.GetQrLocations)";
        "}";
        "";
        "func (f *toloGraphV1GraphSupplyServiceForwarder) GetGuideMapLayout(ctx context.Context, req *v1.GetGuideMapLayoutRequest) (*v1.GetGuideMapLayoutResponse, error) {";
        "return forward.Unary(ctx, req, f.client.GetGuideMapLayout)";
        "}"] |}.

Definition tolo_guest_v1_guest_forward_go : GoFile :=
  {| go_Name := "tolo_guest_v1_guest.forward.go";
     go_Imports :=
       [("context",
         "context");
        ("v1",
         "github.com/pj-hoakari/tolo-guest/gen/tolo/guest/v1");
        ("guestv1connect",
         "github.com/pj-hoakari/tolo-guest/gen/tolo/guest/v1/guestv1connect");
        ("forward",
         "github.com/pj-hoakari/tolo-service-gateway/internal/infra/connect/forward")];
     go_Body :=
       ["// Code generated by genforward. DO NOT EDIT.";
        "";
        "package forwardgen";
        "";
        "";
        "type toloGuestV1GuestPageServiceForwarder struct {";
        "client guestv1connect.GuestPageServiceClient";
        "}";
        "";
        "func (f *toloGuestV1GuestPageServiceForwarder) OpenGuestPage(ctx context.Context, req *v1.OpenGuestPageRequest) (*v1.OpenGuestPageResponse, error) {";
        "return forward.Unary(ctx, req, f.client.OpenGuestPage)";
        "}";
        "";
        "func (f *toloGuestV1GuestPageServiceForwarder) GetCrowd(ctx context.Context, req *v1.GetCrowdRequest) (*v1.GetCrowdResponse, error) {";
        "return forward.Unary(ctx, req, f.client.GetCrowd)";
        "}";
        "";
        "func (f *toloGuestV1GuestPageServiceForwarder) GetQueues(ctx context.Context, req *v1.GetQueuesRequest) (*v1.GetQueuesResponse, error) {";
        "return forward.Unary(ctx, req, f.client.GetQueues)";
        "}";
        "";
        "func (f *toloGuestV1GuestPageServiceForwarder) ListGuestMessages(ctx context.Context, req *v1.ListGuestMessagesRequest) (*v1.ListGuestMessagesResponse, error) {";
        "return forward.Unary(ctx, req, f.client.ListGuestMessages)";
        "}";
        "";
        "func (f *toloGuestV1GuestPageServiceForwarder) GetGuideMap(ctx context.Context, req *v1.GetGuideMapRequest) (*v1.GetGuideMapResponse, error) {";
        "return forward.Unary(ctx, req, f.client.GetGuideMap)";
        "}";
        "";
        "type toloGuestV1GuestSettingsServiceForwarder struct {";
        "client guestv1connect.GuestSettingsServiceClient";
        "}";
        "";
        "func (f *toloGuestV1GuestSettingsServiceForwarder) GetGuestSettings(ctx context.Context, req *v1.GetGuestSettingsRequest) (*v1.GuestSettings, error) {";
        "return forward.Unary(ctx, req, f.client.GetGuestSettings)";
        "}";
        "";
        "func (f *toloGuestV1GuestSettingsServiceForwarder) UpdateGuestSettings(ctx context.Context, req *v1.UpdateGuestSettingsRequest) (*v1.GuestSettings, error) {";
        "return forward.Unary(ctx, req, f.client.UpdateGuestSettings)";
        "}";
        "";
        "func (f *toloGuestV1GuestSettingsServiceForwarder) ListIssuedUrls(ctx context.Context, req *v1.ListIssuedUrlsRequest) (*v1.ListIssuedUrlsResponse, error) {";
        "return forward.Unary(ctx, req, f.client.ListIssuedUrls)";
        "}"] |}.

Definition tolo_observation_v1_observation_forward_go : GoFile :=
  {| go_Name := "tolo_observation_v1_observation.forward.go";
     go_Imports :=
       [("context",
         "context");
        ("v1",
         "github.com/pj-hoakari/tolo-observation/gen/tolo/observation/v1");
        ("observationv1connect",
         "github.com/pj-hoakari/tolo-observation/gen/tolo/observation/v1/observationv1connect");
        ("forward",
         "github.com/pj-hoakari/tolo-service-gateway/internal/infra/connect/forward")];
     go_Body :=
       ["// Code generated by genforward. DO NOT EDIT.";
        "";
        "package forwardgen";
        "";
        "";
        "type toloObservationV1MeasurementIngestServiceForwarder struct {";
        "client observationv1connect.MeasurementIngestServiceClient";
        "}";
        "";
        "func (f *toloObservationV1MeasurementIngestServiceForwarder) ReportMeasurements(ctx context.Context, req *v1.ReportMeasurementsRequest) (*v1.ReportMeasurementsResponse, error) {";
        "return forward.Unary(ctx, req, f.client.ReportMeasurements)";
        "}";
        "";
        "type toloObservationV1EdgeDeviceServiceForwarder struct {";
        "client observationv1connect.EdgeDeviceServiceClient";
        "}";
        "";
        "func (f *toloObservationV1EdgeDeviceServiceForwarder) RegisterEdgeDevice(ctx context.Context, req *v1.RegisterEdgeDeviceRequest) (*v1.RegisterEdgeDeviceResponse, error) {";
        "return forward.Unary(ctx, req, f.client.RegisterEdgeDevice)";
        "}";
        "";
        "func (f *toloObservationV1EdgeDeviceServiceForwarder) UnregisterEdgeDevice(ctx context.Context, req *v1.UnregisterEdgeDeviceRequest) (*v1.UnregisterEdgeDeviceResponse, error) {";
        "return forward.Unary(ctx, req, f.client.UnregisterEdgeDevice)";
        "}";
        "";
        "func (f *toloObservationV1EdgeDeviceServiceForwarder) ListEdgeDevices(ctx context.Context, req *v1.ListEdgeDevicesRequest) (*v1.ListEdgeDevicesResponse, error) {";
        "return forward.Unary(ctx, req, f.client.ListEdgeDevices)";
        "}";
        "";
        "func (f *toloObservationV1EdgeDeviceServiceForwarder) ListEdgeDeviceObservationPoints(ctx context.Context, req *v1.ListEdgeDeviceObservationPointsRequest) (*v1.ListEdgeDeviceObservationPointsResponse, error) {";
        "return forward.Unary(ctx, req, f.client.ListEdgeDeviceObservationPoints)";
        "}";
        "";
        "func (f *toloObservationV1EdgeDeviceServiceForwarder) Heartbeat(ctx context.Context, req *v1.HeartbeatRequest) (*v1.HeartbeatResponse, error) {";
        "return forward.Unary(ctx, req, f.client.Heartbeat)";
        "}";
        "";
        "func (f *toloObservationV1EdgeDeviceServiceForwarder) UpdateObservationPointConfig(ctx context.Context, req *v1.UpdateObservationPointConfigRequest) (*v1.UpdateObservationPointConfigResponse, error) {";
        "return forward.Unary(ctx, req, f.client.UpdateObservationPointConfig)";
        "}";
        "";
        "type toloObservationV1StatusQueryServiceForwarder struct {";
        "client observationv1connect.StatusQueryServiceClient";
        "}";
        "";
        "func (f *toloObservationV1StatusQueryServiceForwarder) GetGuestSnapshot(ctx context.Context, req *v1.GetGuestSnapshotRequest) (*v1.GetGuestSnapshotResponse, error) {";
        "return forward.Unary(ctx, req, f.client.GetGuestSnapshot)";
        "}";
        "";
        "func (f *toloObservationV1StatusQueryServiceForwarder) GetEventOverview(ctx context.Context, req *v1.GetEventOverviewRequest) (*v1.GetEventOverviewResponse, error) {";
        "return forward.Unary(ctx, req, f.client.GetEventOverview)";
        "}";
        "";
        "type toloObservationV1ObservationSettingsServiceForwarder struct {";
        "client observationv1connect.ObservationSettingsServiceClient";
        "}";
        "";
        "func (f *toloObservationV1ObservationSettingsServiceForwarder) GetObservationSettings(ctx context.Context, req *v1.GetObservationSettingsRequest) (*v1.GetObservationSettingsResponse, error) {";
        "return forward.Unary(ctx, req, f.client.GetObservationSettings)";
        "}";
        "";
        "func (f *toloObservationV1ObservationSettingsServiceForwarder) UpdateObservationSettings(ctx context.Context, req *v1.UpdateObservationSettingsRequest) (*v1.UpdateObservationSettingsResponse, error) {";
        "return forward.Unary(ctx, req, f.client.UpdateObservationSettings)";
        "}"] |}.

Definition tolo_operation_v1_operation_forward_go : GoFile :=
  {| go_Name := "tolo_operation_v1_operation.forward.go";
     go_Imports :=
       [("context",
         "context");
        ("v1",
         "github.com/pj-hoakari/tolo-operation/gen/tolo/operation/v1");
        ("operationv1connect",
         "github.com/pj-hoakari/tolo-operation/gen/tolo/operation/v1/operationv1connect");
        ("forward",
         "github.com/pj-hoakari/tolo-service-gateway/internal/infra/connect/forward")];
     go_Body :=
       ["// Code generated by genforward. DO NOT EDIT.";
        "";
        "package forwardgen";
        "";
        "";
        "type toloOperationV1StaffCommunicationServiceForwarder struct {";
        "client operationv1connect.StaffCommunicationServiceClient";
        "}";
        "";
        "func (f *toloOperationV1StaffCommunicationServiceForwarder) SendStaffMessage(ctx context.Context, req *v1.SendStaffMessageRequest) (*v1.StaffMessage, error) {";
        "return forward.Unary(ctx, req, f.client.SendStaffMessage)";
        "}";
        "";
        "func (f *toloOperationV1StaffCommunicationServiceForwarder) RevokeStaffMessage(ctx context.Context, req *v1.RevokeStaffMessageRequest) (*v1.RevokeStaffMessageResponse, error) {";
        "return forward.Unary(ctx, req, f.client.RevokeStaffMessage)";
        "}";
        "";
        "func (f *toloOperationV1StaffCommunicationServiceForwarder) ShareGuidanceInfo(ctx context.Context, req *v1.ShareGuidanceInfoRequest) (*v1.StaffMessage, error) {";
        "return forward.Unary(ctx, req, f.client.ShareGuidanceInfo)";
        "}";
        "";
        "func (f *toloOperationV1StaffCommunicationServiceForwarder) ListStaffMessages(ctx context.Context, req *v1.ListStaffMessagesRequest) (*v1.ListStaffMessagesResponse, error) {";
        "return forward.Unary(ctx, req, f.client.ListStaffMessages)";
        "}";
        "";
        "type toloOperationV1OperationControlServiceForwarder struct {";
        "client operationv1connect.OperationControlServiceClient";
        "}";
        "";
        "func (f *toloOperationV1OperationControlServiceForwarder) DirectReassignment(ctx context.Context, req *v1.DirectReassignmentRequest) (*v1.Reassignment, error) {";
        "return forward.Unary(ctx, req, f.client.DirectReassignment)";
        "}";
        "";
        "func (f *toloOperationV1OperationControlServiceForwarder) ApplyReassignment(ctx context.Context, req *v1.ApplyReassignmentRequest) (*v1.Reassignment, error) {";
        "return forward.Unary(ctx, req, f.client.ApplyReassignment)";
        "}";
        "";
        "func (f *toloOperationV1OperationControlServiceForwarder) ListReassignments(ctx context.Context, req *v1.ListReassignmentsRequest) (*v1.ListReassignmentsResponse, error) {";
        "return forward.Unary(ctx, req, f.client.ListReassignments)";
        "}";
        "";
        "type toloOperationV1DeliveryCoordinationServiceForwarder struct {";
        "client operationv1connect.DeliveryCoordinationServiceClient";
        "}";
        "";
        "func (f *toloOperationV1DeliveryCoordinationServiceForwarder) RequestProposalDelivery(ctx context.Context, req *v1.RequestProposalDeliveryRequest) (*v1.RequestProposalDeliveryResponse, error) {";
        "return forward.Unary(ctx, req, f.client.RequestProposalDelivery)";
        "}";
        "";
        "func (f *toloOperationV1DeliveryCoordinationServiceForwarder) RecordFeedbackValues(ctx context.Context, req *v1.RecordFeedbackValuesRequest) (*v1.RecordFeedbackValuesResponse, error) {";
        "return forward.Unary(ctx, req, f.client.RecordFeedbackValues)";
        "}";
        "";
        "func (f *toloOperationV1DeliveryCoordinationServiceForwarder) UpdateConnectionState(ctx context.Context, req *v1.UpdateConnectionStateRequest) (*v1.UpdateConnectionStateResponse, error) {";
        "return forward.Unary(ctx, req, f.client.UpdateConnectionState)";
        "}";
        "";
        "type toloOperationV1DigestServiceForwarder struct {";
        "client operationv1connect.DigestServiceClient";
        "}";
        "";
        "func (f *toloOperationV1DigestServiceForwarder) GetHistoryDigest(ctx context.Context, req *v1.GetHistoryDigestRequest) (*v1.HistoryDigest, error) {";
        "return forward.Unary(ctx, req, f.client.GetHistoryDigest)";
        "}"] |}.

Definition tolo_realtime_v1_realtime_forward_go : GoFile :=
  {| go_Name := "tolo_realtime_v1_realtime.forward.go";
     go_Imports :=
       [("context",
         "context");
        ("v1",
         "github.com/pj-hoakari/tolo-realtime/gen/tolo/realtime/v1");
        ("realtimev1connect",
         "github.com/pj-hoakari/tolo-realtime/gen/tolo/realtime/v1/realtimev1connect");
        ("forward",
         "github.com/pj-hoakari/tolo-service-gateway/internal/infra/connect/forward")];
     go_Body :=
       ["// Code generated by genforward. DO NOT EDIT.";
        "";
        "package forwardgen";
        "";
        "";
        "type toloRealtimeV1RealtimeFetchServiceForwarder struct {";
        "client realtimev1connect.RealtimeFetchServiceClient";
        "}";
        "";
        "func (f *toloRealtimeV1RealtimeFetchServiceForwarder) FetchDeliveries(ctx context.Context, req *v1.FetchDeliveriesRequest) (*v1.FetchDeliveriesResponse, error) {";
        "return forward.Unary(ctx, req, f.client.FetchDeliveries)";
        "}";
        "";
        "func (f *toloRealtimeV1RealtimeFetchServiceForwarder) IssueFirestoreToken(ctx context.Context, req *v1.IssueFirestoreTokenRequest) (*v1.IssueFirestoreTokenResponse, error) {";
        "return forward.Unary(ctx, req, f.client.IssueFirestoreToken)";
        "}"] |}.

Definition tolo_relation_v1_relation_forward_go : GoFile :=
  {| go_Name := "tolo_relation_v1_relation.forward.go";
     go_Imports :=
       [("context",
         "context");
        ("forward",
         "github.com/pj-hoakari/tolo-service-gateway/internal/infra/connect/forward");
        ("v1",
         "github.com/pj-hoakari/tolo-tenant-management/gen/tolo/relation/v1");
        ("relationv1connect",
         "github.com/pj-hoakari/tolo-tenant-management/gen/tolo/relation/v1/relationv1connect")];
     go_Body :=
       ["// Code generated by genforward. DO NOT EDIT.";
        "";
        "package forwardgen";
        "";
        "";
        "type toloRelationV1RelationAdminServiceForwarder struct {";
        "client relationv1connect.RelationAdminServiceClient";
        "}";
        "";
        "func (f *toloRelationV1RelationAdminServiceForwarder) CreateTenantInvitation(ctx context.Context, req *v1.CreateTenantInvitationRequest) (*v1.CreateTenantInvitationResponse, error) {";
        "return forward.Unary(ctx, req, f.client.CreateTenantInvitation)";
        "}";
        "";
        "func (f *toloRelationV1RelationAdminServiceForwarder) ListTenantInvitations(ctx context.Context, req *v1.ListTenantInvitationsRequest) (*v1.ListTenantInvitationsResponse, error) {";
        "return forward.Unary(ctx, req, f.client.ListTenantInvitations)";
        "}";
        "";
        "func (f *toloRelationV1RelationAdminServiceForwarder) RevokeTenantInvitation(ctx context.Context, req *v1.RevokeTenantInvitationRequest) (*v1.RevokeTenantInvitationResponse, error) {";
        "return forward.Unary(ctx, req, f.client.RevokeTenantInvitation)";
        "}";
        "";
        "func (f *toloRelationV1RelationAdminServiceForwarder) AcceptTenantInvitation(ctx context.Context, req *v1.AcceptTenantInvitationRequest) (*v1.AcceptTenantInvitationResponse, error) {";
        "return forward.Unary(ctx, req, f.client.AcceptTenantInvitation)";
        "}";
        "";
        "func (f *toloRelationV1RelationAdminServiceForwarder) AddTenantMember(ctx context.Context, req *v1.AddTenantMemberRequest) (*v1.AddTenantMemberResponse, error) {";
        "return forward.Unary(ctx, req, f.client.AddTenantMember)";
        "}";
        "";
        "func (f *toloRelationV1RelationAdminServiceForwarder) ChangeTenantRole(ctx context.Context, req *v1.ChangeTenantRoleRequest) (*v1.ChangeTenantRoleResponse, error) {";
        "return forward.Unary(ctx, req, f.client.ChangeTenantRole)";
        "}";
        "";
        "func (f *toloRelationV1RelationAdminServiceForwarder) GrantEventRole(ctx context.Context, req *v1.GrantEventRoleRequest) (*v1.GrantEventRoleResponse, error) {";
        "return forward.Unary(ctx, req, f.client.GrantEventRole)";
        "}";
        "";
        "func (f *toloRelationV1RelationAdminServiceForwarder) RevokeRole(ctx context.Context, req *v1.RevokeRoleRequest) (*v1.RevokeRoleResponse, error) {";
        "return forward.Unary(ctx, req, f.client.RevokeRole)";
        "}";
        "";
        "func (f *toloRelationV1RelationAdminServiceForwarder) ListMemberships(ctx context.Context, req *v1.ListMembershipsRequest) (*v1.ListMembershipsResponse, error) {";
        "return forward.Unary(ctx, req, f.client.ListMemberships)";
        "}"] |}.

Definition tolo_tenant_v1_tenant_forward_go : GoFile :=
  {| go_Name := "tolo_tenant_v1_tenant.forward.go";
     go_Imports :=
       [("context",
         "context");
        ("forward",
         "github.com/pj-hoakari/tolo-service-gateway/internal/infra/connect/forward");
        ("v1",
         "github.com/pj-hoakari/tolo-tenant-management/gen/tolo/tenant/v1");
        ("tenantv1connect",
         "github.com/pj-hoakari/tolo-tenant-management/gen/tolo/tenant/v1/tenantv1connect")];
     go_Body :=
       ["// Code generated by genforward. DO NOT EDIT.";
        "";
        "package forwardgen";
        "";
        "";
        "type toloTenantV1TenantServiceForwarder struct {";
        "client tenantv1connect.TenantServiceClient";
        "}";
        "";
        "func (f *toloTenantV1TenantServiceForwarder) StartTenantRegistration(ctx context.Context, req *v1.StartTenantRegistrationRequest) (*v1.StartTenantRegistrationResponse, error) {";
        "return forward.Unary(ctx, req, f.client.StartTenantRegistration)";
        "}";
        "";
        "func (f *toloTenantV1TenantServiceForwarder) ClaimTenantOwnership(ctx context.Context, req *v1.ClaimTenantOwnershipRequest) (*v1.ClaimTenantOwnershipResponse, error) {";
        "return forward.Unary(ctx, req, f.client.ClaimTenantOwnership)";
        "}";
        "";
        "func (f *toloTenantV1TenantServiceForwarder) ResolveTenantSubdomain(ctx context.Context, req *v1.ResolveTenantSubdomainRequest) (*v1.ResolveTenantSubdomainResponse, error) {";
        "return forward.Unary(ctx, req, f.client.ResolveTenantSubdomain)";
        "}";
        "";
        "func (f *toloTenantV1TenantServiceForwarder) ChangeTenantContract(ctx context.Context, req *v1.ChangeTenantContractRequest) (*v1.ChangeTenantContractResponse, error) {";
        "return forward.Unary(ctx, req, f.client.ChangeTenantContract)";
        "}";
        "";
        "func (f *toloTenantV1TenantServiceForwarder) ArchiveTenant(ctx context.Context, req *v1.ArchiveTenantRequest) (*v1.ArchiveTenantResponse, error) {";
        "return forward.Unary(ctx, req, f.client.ArchiveTenant)";
        "}";
        "";
        "func (f *toloTenantV1TenantServiceForwarder) CreateEvent(ctx context.Context, req *v1.CreateEventRequest) (*v1.CreateEventResponse, error) {";
        "return forward.Unary(ctx, req, f.client.CreateEvent)";
        "}";
        "";
        "func (f *toloTenantV1TenantServiceForwarder) TransitionEventStatus(ctx context.Context, req *v1.TransitionEventStatusRequest) (*v1.TransitionEventStatusResponse, error) {";
        "return forward.Unary(ctx, req, f.client.TransitionEventStatus)";
        "}";
        "";
        "func (f *toloTenantV1TenantServiceForwarder) GetEvent(ctx context.Context, req *v1.GetEventRequest) (*v1.GetEventResponse, error) {";
        "return forward.Unary(ctx, req, f.client.GetEvent)";
        "}";
        "";
        "func (f *toloTenantV1TenantServiceForwarder) ListEvents(ctx context.Context, req *v1.ListEventsRequest) (*v1.ListEventsResponse, error) {";
        "return forward.Unary(ctx, req, f.client.ListEvents)";
        "}"] |}.

Definition mounts_forward_go : GoFile :=
  {| go_Name := "mounts.forward.go";
     go_Imports :=
       [("connect",
         "connectrpc.com/connect/v2");
        ("graphv1connect",
         "github.com/pj-hoakari/tolo-graph-authoring/gen/tolo/graph/v1/graphv1connect");
        ("guestv1connect",
         "github.com/pj-hoakari/tolo-guest/gen/tolo/guest/v1/guestv1connect");
        ("observationv1connect",
         "github.com/pj-hoakari/tolo-observation/gen/tolo/observation/v1/observationv1connect");
        ("operationv1connect",
         "github.com/pj-hoakari/tolo-operation/gen/tolo/operation/v1/operationv1connect");
        ("realtimev1connect",
         "github.com/pj-hoakari/tolo-realtime/gen/tolo/realtime/v1/realtimev1connect");
        ("greetv1connect",
         "github.com/pj-hoakari/tolo-service-gateway/gen/greet/v1/greetv1connect");
        ("forward",
         "github.com/pj-hoakari/tolo-service-gateway/internal/infra/connect/forward");
        ("relationv1connect",
         "github.com/pj-hoakari/tolo-tenant-management/gen/tolo/relation/v1/relationv1connect");
        ("tenantv1connect",
         "github.com/pj-hoakari/tolo-tenant-management/gen/tolo/tenant/v1/tenantv1connect")];
     go_Body :=
       ["// Code generated by genforward. DO NOT EDIT.";
        "";
        "package forwardgen";
        "";
        "";
        "func Mounts() []forward.Mount {";
        "return []forward.Mount{";
        "{";
        "Service: greetv1connect.GreetServiceName,";
        "Register: func(server *connect.Server, client *connect.Client) {";
        "greetv1connect.RegisterGreetServiceHandler(";
        "server,";
        "&greetV1GreetServiceForwarder{client: greetv1connect.NewGreetServiceClient(client)},";
        ")";
        "},";
        "},";
        "{";
        "Service: graphv1connect.GraphAuthoringServiceName,";
        "Register: func(server *connect.Server, client *connect.Client) {";
        "graphv1connect.RegisterGraphAuthoringServiceHandler(";
        "server,";
        "&toloGraphV1GraphAuthoringServiceForwarder{client: graphv1connect.NewGraphAuthoringServiceClient(client)},";
        ")";
        "},";
        "},";
        "{";
        "Service: graphv1connect.GraphSupplyServiceName,";
        "Register: func(server *connect.Server, client *connect.Client) {";
        "graphv1connect.RegisterGraphSupplyServiceHandler(";
        "server,";
        "&toloGraphV1GraphSupplyServiceForwarder{client: graphv1connect.NewGraphSupplyServiceClient(client)},";
        ")";
        "},";
        "},";
        "{";
        "Service: guestv1connect.GuestPageServiceName,";
        "Register: func(server *connect.Server, client *connect.Client) {";
        "guestv1connect.RegisterGuestPageServiceHandler(";
        "server,";
        "&toloGuestV1GuestPageServiceForwarder{client: guestv1connect.NewGuestPageServiceClient(client)},";
        ")";
        "},";
        "},";
        "{";
        "Service: guestv1connect.GuestSettingsServiceName,";
        "Register: func(server *connect.Server, client *connect.Client) {";
        "guestv1connect.RegisterGuestSettingsServiceHandler(";
        "server,";
        "&toloGuestV1GuestSettingsServiceForwarder{client: guestv1connect.NewGuestSettingsServiceClient(client)},";
        ")";
        "},";
        "},";
        "{";
        "Service: observationv1connect.EdgeDeviceServiceName,";
        "Register: func(server *connect.Server, client *connect.Client) {";
        "observationv1connect.RegisterEdgeDeviceServiceHandler(";
        "server,";
        "&toloObservationV1EdgeDeviceServiceForwarder{client: observationv1connect.NewEdgeDeviceServiceClient(client)},";
        ")";
        "},";
        "},";
        "{";
        "Service: observationv1connect.MeasurementIngestServiceName,";
        "Register: func(server *connect.Server, client *connect.Client) {";
        "observationv1connect.RegisterMeasurementIngestServiceHandler(";
        "server,";
        "&toloObservationV1MeasurementIngestServiceForwarder{client: observationv1connect.NewMeasurementIngestServiceClient(client)},";
        ")";
        "},";
        "},";
        "{";
        "Service: observationv1connect.ObservationSettingsServiceName,";
        "Register: func(server *connect.Server, client *connect.Client) {";
        "observationv1connect.RegisterObservationSettingsServiceHandler(";
        "server,";
        "&toloObservationV1ObservationSettingsServiceForwarder{client: observationv1connect.NewObservationSettingsServiceClient(client)},";
        ")";
        "},";
        "},";
        "{";
        "Service: observationv1connect.StatusQueryServiceName,";
        "Register: func(server *connect.Server, client *connect.Client) {";
        "observationv1connect.RegisterStatusQueryServiceHandler(";
        "server,";
        "&toloObservationV1StatusQueryServiceForwarder{client: observationv1connect.NewStatusQueryServiceClient(client)},";
        ")";
        "},";
        "},";
        "{";
        "Service: operationv1connect.DeliveryCoordinationServiceName,";
        "Register: func(server *connect.Server, client *connect.Client) {";
        "operationv1connect.RegisterDeliveryCoordinationServiceHandler(";
        "server,";
        "&toloOperationV1DeliveryCoordinationServiceForwarder{client: operationv1connect.NewDeliveryCoordinationServiceClient(client)},";
        ")";
        "},";
        "},";
        "{";
        "Service: operationv1connect.DigestServiceName,";
        "Register: func(server *connect.Server, client *connect.Client) {";
        "operationv1connect.RegisterDigestServiceHandler(";
        "server,";
        "&toloOperationV1DigestServiceForwarder{client: operationv1connect.NewDigestServiceClient(client)},";
        ")";
        "},";
        "},";
        "{";
        "Service: operationv1connect.OperationControlServiceName,";
        "Register: func(server *connect.Server, client *connect.Client) {";
        "operationv1connect.RegisterOperationControlServiceHandler(";
        "server,";
        "&toloOperationV1OperationControlServiceForwarder{client: operationv1connect.NewOperationControlServiceClient(client)},";
        ")";
        "},";
        "},";
        "{";
        "Service: operationv1connect.StaffCommunicationServiceName,";
        "Register: func(server *connect.Server, client *connect.Client) {";
        "operationv1connect.RegisterStaffCommunicationServiceHandler(";
        "server,";
        "&toloOperationV1StaffCommunicationServiceForwarder{client: operationv1connect.NewStaffCommunicationServiceClient(client)},";
        ")";
        "},";
        "},";
        "{";
        "Service: realtimev1connect.RealtimeFetchServiceName,";
        "Register: func(server *connect.Server, client *connect.Client) {";
        "realtimev1connect.RegisterRealtimeFetchServiceHandler(";
        "server,";
        "&toloRealtimeV1RealtimeFetchServiceForwarder{client: realtimev1connect.NewRealtimeFetchServiceClient(client)},";
        ")";
        "},";
        "},";
        "{";
        "Service: relationv1connect.RelationAdminServiceName,";
        "Register: func(server *connect.Server, client *connect.Client) {";
        "relationv1connect.RegisterRelationAdminServiceHandler(";
        "server,";
        "&toloRelationV1RelationAdminServiceForwarder{client: relationv1connect.NewRelationAdminServiceClient(client)},";
        ")";
        "},";
        "},";
        "{";
        "Service: tenantv1connect.TenantServiceName,";
        "Register: func(server *connect.Server, client *connect.Client) {";
        "tenantv1connect.RegisterTenantServiceHandler(";
        "server,";
        "&toloTenantV1TenantServiceForwarder{client: tenantv1connect.NewTenantServiceClient(client)},";
        ")";
        "},";
        "},";
        "}";
        "}"] |}.

Definition committed : list GoFile :=
  [greet_v1_greet_forward_go; tolo_graph_v1_graph_forward_go; tolo_guest_v1_guest_forward_go;
   tolo_observation_v1_observation_forward_go; tolo_operation_v1_operation_forward_go;
   tolo_realtime_v1_realtime_forward_go; tolo_relation_v1_relation_forward_go;
   tolo_tenant_v1_tenant_forward_go; mounts_forward_go].

(** ** Comparing generated lines with formatted ones *)

(** A line without blanks, and without the comma gofmt drops before a closing
    parenthesis. *)
Fixpoint squeeze (s : string) : string :=
  match s with
  | "" => ""
  | String a s =>
      let rest := squeeze s in
      if bool_decide (a ∈ [" "; "009"]%char) then rest
      else if bool_decide (a = ","%char) && HasPrefix rest ")" then rest
      else String a rest
  end.

(** The lines that are not empty. *)
Definition normalize (lines : list string) : list string :=
  filter (λ l, l ≠ "") (squeeze <$> lines).

(** The local name of an import. *)
Definition local_name (file : GoFile) (path : string) : string :=
  match List.find (λ i, bool_decide (i.2 = path)) (go_Imports file) with
  | Some (name, _) => name
  | None => "?"
  end.

(** [file] is what protogen and gofmt make of [generated]. *)
Record formats (generated : GeneratedFile) (file : GoFile) : Prop := {
  formats_name : Name generated = go_Name file;
  formats_imports : sorted_set (imports generated) = (go_Imports file).*2;
  formats_body :
    normalize (render_line (local_name file) <$> Lines generated) = normalize (go_Body file);
}.

(** ** Descriptors *)

Definition unaryMethod (service name : string) (input output : string * string) : Method :=
  {| method_FullName := service +:+ "." +:+ name; method_GoName := name;
     IsStreamingClient := false; IsStreamingServer := false;
     Input := {| GoImportPath := input.1; ident_GoName := input.2 |};
     Output := {| GoImportPath := output.1; ident_GoName := output.2 |} |}.

(** The file of the greeting service, the one whose source is in the repository
    ([proto/greet/v1/greet.proto]). *)
Definition greet_v1_greet_proto : File :=
  let v1 := "github.com/pj-hoakari/tolo-service-gateway/gen/greet/v1" in
  {| Path := "greet/v1/greet.proto"; Generate_ := true; file_GoImportPath := v1; file_GoPackageName := "greetv1";
     Services :=
       [{| FullName := Catalog.GreetServiceName; service_GoName := "GreetService";
          Methods :=
          [unaryMethod Catalog.GreetServiceName "Greet" (v1, "GreetRequest") (v1, "GreetResponse");
           unaryMethod Catalog.GreetServiceName "Ping" (v1, "PingRequest") (v1, "PingResponse")] |}] |}.

(** Descriptors for an example: the sources of these files are in other
    repositories, and what is here is read off the committed forwarders. *)
Definition tolo_graph_v1_graph_proto : File :=
  let v1 := "github.com/pj-hoakari/tolo-graph-authoring/gen/tolo/graph/v1" in
  let v11 := "github.com/pj-hoakari/tolo-kernel-proto/gen/tolo/kernel/v1" in
  {| Path := "tolo/graph/v1/graph.proto"; Generate_ := true; file_GoImportPath := v1; file_GoPackageName := "graphv1";
     Services :=
       [{| FullName := Catalog.GraphAuthoringServiceName; service_GoName := "GraphAuthoringService";
          Methods :=
          [unaryMethod Catalog.GraphAuthoringServiceName "SaveGraph" (v1, "SaveGraphRequest") (v1, "GraphMeta");
           unaryMethod Catalog.GraphAuthoringServiceName "MapObservationPoint" (v1, "MapObservationPointRequest") (v1, "MapObservationPointResponse");
           unaryMethod Catalog.GraphAuthoringServiceName "AddQrLocation" (v1, "AddQrLocationRequest") (v1, "AddQrLocationResponse");
           unaryMethod Catalog.GraphAuthoringServiceName "UpdateQrLocation" (v1, "UpdateQrLocationRequest") (v1, "UpdateQrLocationResponse");
           unaryMethod Catalog.GraphAuthoringServiceName "RemoveQrLocation" (v1, "RemoveQrLocationRequest") (v1, "RemoveQrLocationResponse");
           unaryMethod Catalog.GraphAuthoringServiceName "SaveGuideMapLayout" (v1, "SaveGuideMapLayoutRequest") (v1, "GraphMeta");
           unaryMethod Catalog.GraphAuthoringServiceName "GetGraph" (v1, "GetGraphRequest") (v1, "GetGraphResponse");
           unaryMethod Catalog.GraphAuthoringServiceName "PublishRevision" (v1, "PublishRevisionRequest") (v1, "GraphMeta")] |};
        {| FullName := Catalog.GraphSupplyServiceName; service_GoName := "GraphSupplyService";
          Methods :=
          [unaryMethod Catalog.GraphSupplyServiceName "GetCurrentRevision" (v1, "GetCurrentRevisionRequest") (v11, "Graph");
           unaryMethod Catalog.GraphSupplyServiceName "GetObservationPointMappings" (v1, "GetMappingsRequest") (v1, "GetMappingsResponse");
           unaryMethod Catalog.GraphSupplyServiceName "GetDisplayNames" (v1, "GetDisplayNamesRequest") (v1, "GetDisplayNamesResponse");
           unaryMethod Catalog.GraphSupplyServiceName "GetGatePoints" (v1, "GetGatePointsRequest") (v1, "GetGatePointsResponse");
           unaryMethod Catalog.GraphSupplyServiceName "GetQrLocations" (v1, "GetQrLocationsRequest") (v1, "GetQrLocationsResponse");
           unaryMethod Catalog.GraphSupplyServiceName "GetGuideMapLayout" (v1, "GetGuideMapLayoutRequest") (v1, "GetGuideMapLayoutResponse")] |}] |}.

Definition tolo_guest_v1_guest_proto : File :=
  let v1 := "github.com/pj-hoakari/tolo-guest/gen/tolo/guest/v1" in
  {| Path := "tolo/guest/v1/guest.proto"; Generate_ := true; file_GoImportPath := v1; file_GoPackageName := "guestv1";
     Services :=
       [{| FullName := Catalog.GuestPageServiceName; service_GoName := "GuestPageService";
          Methods :=
          [unaryMethod Catalog.GuestPageServiceName "OpenGuestPage" (v1, "OpenGuestPageRequest") (v1, "OpenGuestPageResponse");
           unaryMethod Catalog.GuestPageServiceName "GetCrowd" (v1, "GetCrowdRequest") (v1, "GetCrowdResponse");
           unaryMethod Catalog.GuestPageServiceName "GetQueues" (v1, "GetQueuesRequest") (v1, "GetQueuesResponse");
           unaryMethod Catalog.GuestPageServiceName "ListGuestMessages" (v1, "ListGuestMessagesRequest") (v1, "ListGuestMessagesResponse");
           unaryMethod Catalog.GuestPageServiceName "GetGuideMap" (v1, "GetGuideMapRequest") (v1, "GetGuideMapResponse")] |};
        {| FullName := Catalog.GuestSettingsServiceName; service_GoName := "GuestSettingsService";
          Methods :=
          [unaryMethod Catalog.GuestSettingsServiceName "GetGuestSettings" (v1, "GetGuestSettingsRequest") (v1, "GuestSettings");
           unaryMethod Catalog.GuestSettingsServiceName "UpdateGuestSettings" (v1, "UpdateGuestSettingsRequest") (v1, "GuestSettings");
           unaryMethod Catalog.GuestSettingsServiceName "ListIssuedUrls" (v1, "ListIssuedUrlsRequest") (v1, "ListIssuedUrlsResponse")] |}] |}.

Definition tolo_observation_v1_observation_proto : File :=
  let v1 := "github.com/pj-hoakari/tolo-observation/gen/tolo/observation/v1" in
  {| Path := "tolo/observation/v1/observation.proto"; Generate_ := true; file_GoImportPath := v1; file_GoPackageName := "observationv1";
     Services :=
       [{| FullName := Catalog.MeasurementIngestServiceName; service_GoName := "MeasurementIngestService";
          Methods :=
          [unaryMethod Catalog.MeasurementIngestServiceName "ReportMeasurements" (v1, "ReportMeasurementsRequest") (v1, "ReportMeasurementsResponse")] |};
        {| FullName := Catalog.EdgeDeviceServiceName; service_GoName := "EdgeDeviceService";
          Methods :=
          [unaryMethod Catalog.EdgeDeviceServiceName "RegisterEdgeDevice" (v1, "RegisterEdgeDeviceRequest") (v1, "RegisterEdgeDeviceResponse");
           unaryMethod Catalog.EdgeDeviceServiceName "UnregisterEdgeDevice" (v1, "UnregisterEdgeDeviceRequest") (v1, "UnregisterEdgeDeviceResponse");
           unaryMethod Catalog.EdgeDeviceServiceName "ListEdgeDevices" (v1, "ListEdgeDevicesRequest") (v1, "ListEdgeDevicesResponse");
           unaryMethod Catalog.EdgeDeviceServiceName "ListEdgeDeviceObservationPoints" (v1, "ListEdgeDeviceObservationPointsRequest") (v1, "ListEdgeDeviceObservationPointsResponse");
           unaryMethod Catalog.EdgeDeviceServiceName "Heartbeat" (v1, "HeartbeatRequest") (v1, "HeartbeatResponse");
           unaryMethod Catalog.EdgeDeviceServiceName "UpdateObservationPointConfig" (v1, "UpdateObservationPointConfigRequest") (v1, "UpdateObservationPointConfigResponse")] |};
        {| FullName := Catalog.StatusQueryServiceName; service_GoName := "StatusQueryService";
          Methods :=
          [unaryMethod Catalog.StatusQueryServiceName "GetGuestSnapshot" (v1, "GetGuestSnapshotRequest") (v1, "GetGuestSnapshotResponse");
           unaryMethod Catalog.StatusQueryServiceName "GetEventOverview" (v1, "GetEventOverviewRequest") (v1, "GetEventOverviewResponse")] |};
        {| FullName := Catalog.ObservationSettingsServiceName; service_GoName := "ObservationSettingsService";
          Methods :=
          [unaryMethod Catalog.ObservationSettingsServiceName "GetObservationSettings" (v1, "GetObservationSettingsRequest") (v1, "GetObservationSettingsResponse");
           unaryMethod Catalog.ObservationSettingsServiceName "UpdateObservationSettings" (v1, "UpdateObservationSettingsRequest") (v1, "UpdateObservationSettingsResponse")] |}] |}.

Definition tolo_operation_v1_operation_proto : File :=
  let v1 := "github.com/pj-hoakari/tolo-operation/gen/tolo/operation/v1" in
  {| Path := "tolo/operation/v1/operation.proto"; Generate_ := true; file_GoImportPath := v1; file_GoPackageName := "operationv1";
     Services :=
       [{| FullName := Catalog.StaffCommunicationServiceName; service_GoName := "StaffCommunicationService";
          Methods :=
          [unaryMethod Catalog.StaffCommunicationServiceName "SendStaffMessage" (v1, "SendStaffMessageRequest") (v1, "StaffMessage");
           unaryMethod Catalog.StaffCommunicationServiceName "RevokeStaffMessage" (v1, "RevokeStaffMessageRequest") (v1, "RevokeStaffMessageResponse");
           unaryMethod Catalog.StaffCommunicationServiceName "ShareGuidanceInfo" (v1, "ShareGuidanceInfoRequest") (v1, "StaffMessage");
           unaryMethod Catalog.StaffCommunicationServiceName "ListStaffMessages" (v1, "ListStaffMessagesRequest") (v1, "ListStaffMessagesResponse")] |};
        {| FullName := Catalog.OperationControlServiceName; service_GoName := "OperationControlService";
          Methods :=
          [unaryMethod Catalog.OperationControlServiceName "DirectReassignment" (v1, "DirectReassignmentRequest") (v1, "Reassignment");
           unaryMethod Catalog.OperationControlServiceName "ApplyReassignment" (v1, "ApplyReassignmentRequest") (v1, "Reassignment");
           unaryMethod Catalog.OperationControlServiceName "ListReassignments" (v1, "ListReassignmentsRequest") (v1, "ListReassignmentsResponse")] |};
        {| FullName := Catalog.DeliveryCoordinationServiceName; service_GoName := "DeliveryCoordinationService";
          Methods :=
          [unaryMethod Catalog.DeliveryCoordinationServiceName "RequestProposalDelivery" (v1, "RequestProposalDeliveryRequest") (v1, "RequestProposalDeliveryResponse");
           unaryMethod Catalog.DeliveryCoordinationServiceName "RecordFeedbackValues" (v1, "RecordFeedbackValuesRequest") (v1, "RecordFeedbackValuesResponse");
           unaryMethod Catalog.DeliveryCoordinationServiceName "UpdateConnectionState" (v1, "UpdateConnectionStateRequest") (v1, "UpdateConnectionStateResponse")] |};
        {| FullName := Catalog.DigestServiceName; service_GoName := "DigestService";
          Methods :=
          [unaryMethod Catalog.DigestServiceName "GetHistoryDigest" (v1, "GetHistoryDigestRequest") (v1, "HistoryDigest")] |}] |}.

Definition tolo_realtime_v1_realtime_proto : File :=
  let v1 := "github.com/pj-hoakari/tolo-realtime/gen/tolo/realtime/v1" in
  {| Path := "tolo/realtime/v1/realtime.proto"; Generate_ := true; file_GoImportPath := v1; file_GoPackageName := "realtimev1";
     Services :=
       [{| FullName := Catalog.RealtimeFetchServiceName; service_GoName := "RealtimeFetchService";
          Methods :=
          [unaryMethod Catalog.RealtimeFetchServiceName "FetchDeliveries" (v1, "FetchDeliveriesRequest") (v1, "FetchDeliveriesResponse");
           unaryMethod Catalog.RealtimeFetchServiceName "IssueFirestoreToken" (v1, "IssueFirestoreTokenRequest") (v1, "IssueFirestoreTokenResponse")] |}] |}.

Definition tolo_relation_v1_relation_proto : File :=
  let v1 := "github.com/pj-hoakari/tolo-tenant-management/gen/tolo/relation/v1" in
  {| Path := "tolo/relation/v1/relation.proto"; Generate_ := true; file_GoImportPath := v1; file_GoPackageName := "relationv1";
     Services :=
       [{| FullName := Catalog.RelationAdminServiceName; service_GoName := "RelationAdminService";
          Methods :=
          [unaryMethod Catalog.RelationAdminServiceName "CreateTenantInvitation" (v1, "CreateTenantInvitationRequest") (v1, "CreateTenantInvitationResponse");
           unaryMethod Catalog.RelationAdminServiceName "ListTenantInvitations" (v1, "ListTenantInvitationsRequest") (v1, "ListTenantInvitationsResponse");
           unaryMethod Catalog.RelationAdminServiceName "RevokeTenantInvitation" (v1, "RevokeTenantInvitationRequest") (v1, "RevokeTenantInvitationResponse");
           unaryMethod Catalog.RelationAdminServiceName "AcceptTenantInvitation" (v1, "AcceptTenantInvitationRequest") (v1, "AcceptTenantInvitationResponse");
           unaryMethod Catalog.RelationAdminServiceName "AddTenantMember" (v1, "AddTenantMemberRequest") (v1, "AddTenantMemberResponse");
           unaryMethod Catalog.RelationAdminServiceName "ChangeTenantRole" (v1, "ChangeTenantRoleRequest") (v1, "ChangeTenantRoleResponse");
           unaryMethod Catalog.RelationAdminServiceName "GrantEventRole" (v1, "GrantEventRoleRequest") (v1, "GrantEventRoleResponse");
           unaryMethod Catalog.RelationAdminServiceName "RevokeRole" (v1, "RevokeRoleRequest") (v1, "RevokeRoleResponse");
           unaryMethod Catalog.RelationAdminServiceName "ListMemberships" (v1, "ListMembershipsRequest") (v1, "ListMembershipsResponse")] |}] |}.

Definition tolo_tenant_v1_tenant_proto : File :=
  let v1 := "github.com/pj-hoakari/tolo-tenant-management/gen/tolo/tenant/v1" in
  {| Path := "tolo/tenant/v1/tenant.proto"; Generate_ := true; file_GoImportPath := v1; file_GoPackageName := "tenantv1";
     Services :=
       [{| FullName := Catalog.TenantServiceName; service_GoName := "TenantService";
          Methods :=
          [unaryMethod Catalog.TenantServiceName "StartTenantRegistration" (v1, "StartTenantRegistrationRequest") (v1, "StartTenantRegistrationResponse");
           unaryMethod Catalog.TenantServiceName "ClaimTenantOwnership" (v1, "ClaimTenantOwnershipRequest") (v1, "ClaimTenantOwnershipResponse");
           unaryMethod Catalog.TenantServiceName "ResolveTenantSubdomain" (v1, "ResolveTenantSubdomainRequest") (v1, "ResolveTenantSubdomainResponse");
           unaryMethod Catalog.TenantServiceName "ChangeTenantContract" (v1, "ChangeTenantContractRequest") (v1, "ChangeTenantContractResponse");
           unaryMethod Catalog.TenantServiceName "ArchiveTenant" (v1, "ArchiveTenantRequest") (v1, "ArchiveTenantResponse");
           unaryMethod Catalog.TenantServiceName "CreateEvent" (v1, "CreateEventRequest") (v1, "CreateEventResponse");
           unaryMethod Catalog.TenantServiceName "TransitionEventStatus" (v1, "TransitionEventStatusRequest") (v1, "TransitionEventStatusResponse");
           unaryMethod Catalog.TenantServiceName "GetEvent" (v1, "GetEventRequest") (v1, "GetEventResponse");
           unaryMethod Catalog.TenantServiceName "ListEvents" (v1, "ListEventsRequest") (v1, "ListEventsResponse")] |}] |}.

Definition example_files : list File :=
  [greet_v1_greet_proto; tolo_graph_v1_graph_proto; tolo_guest_v1_guest_proto;
   tolo_observation_v1_observation_proto; tolo_operation_v1_operation_proto;
   tolo_realtime_v1_realtime_proto; tolo_relation_v1_relation_proto; tolo_tenant_v1_tenant_proto].

Definition generated_catalog : list GeneratedFile :=
  match Generate example_files (boundServiceNames (λ _, ∅)) with Ok files => files | Err _ => [] end.

Lemma boundServiceNames_eq policiesOf :
  boundServiceNames policiesOf = boundServiceNames (λ _, ∅).
Proof. reflexivity. Qed.

Lemma generated_catalog_ok policiesOf :
  Generate example_files (boundServiceNames policiesOf) = Ok generated_catalog.
Proof. rewrite boundServiceNames_eq. vm_compute. reflexivity. Qed.

Definition formats_b (generated : GeneratedFile) (file : GoFile) : bool :=
  bool_decide (Name generated = go_Name file)
  && bool_decide (sorted_set (imports generated) = (go_Imports file).*2)
  && bool_decide (normalize (render_line (local_name file) <$> Lines generated)
                    = normalize (go_Body file)).

Lemma formats_b_true generated file : formats_b generated file = true → formats generated file.
Proof.
  unfold formats_b. rewrite !andb_true_iff, !bool_decide_eq_true. intros ((? & ?) & ?). by split.
Qed.

(** ** Properties *)

(** The two committed files of which the repository has what they are made from:
    for the greeting service its descriptor, for the table of mounts the catalog. *)
Lemma greet_formats :
  formats (generateForwarders greet_v1_greet_proto
             (boundForwarders greet_v1_greet_proto (boundServiceNames (λ _, ∅))))
    greet_v1_greet_forward_go.
Proof. apply formats_b_true. vm_compute. reflexivity. Qed.

Lemma Mounts_sorted : StronglySorted String.le (Forward.mount_Service <$> Forwardgen.Mounts).
Proof. apply (bool_decide_unpack _). vm_compute. exact I. Qed.

Lemma mounts_generated files services mounted :
  Permutation mounted (declared files services) → StronglySorted String.le (fullName <$> mounted) →
  NoDup (fullName <$> declared files services) →
  (∀ s, s ∈ fullName <$> mounted ↔ s ∈ services) →
  (∀ s, s ∈ services ↔ s ∈ Forward.mount_Service <$> Forwardgen.Mounts) →
  fullName <$> mounted = Forward.mount_Service <$> Forwardgen.Mounts.
Proof.
  intros Hperm Hsorted Hnd Hall Hbound. rewrite <-Hperm in Hnd.
  apply (StronglySorted_unique String.le); [done|apply Mounts_sorted|].
  apply NoDup_Permutation; [done|apply Forwardgen.Mounts_distinct|]. intros s. by rewrite Hall.
Qed.

(** The committed forwarder of the greeting service and the committed table of
    mounts are what the generator makes: whatever the files of the other services
    declare, a run that succeeds on files that declare the greeting service as
    [greet.proto] does generates [greet_v1_greet.forward.go] with its name, its
    imports and its lines (up to white space and the commas gofmt drops), and
    mounts exactly the services of the committed [Mounts], in their order.  (No
    two files declare the same full name.) *)
Theorem committed_files_generated policiesOf files generated :
  Generate files (boundServiceNames policiesOf) = Ok generated →
  NoDup (fullName <$> declared files (boundServiceNames policiesOf)) →
  (greet_v1_greet_proto ∈ files → ∃ g, g ∈ generated ∧ formats g greet_v1_greet_forward_go) ∧
  ∃ mounted, generateMounts mounted ∈ generated ∧
    fullName <$> mounted = Forward.mount_Service <$> Forwardgen.Mounts.
Proof.
  intros (mounted & Hperm & Hsorted & _ & Hall & _ & ->)%Generate_ok Hnd. split.
  - intros Hin. eexists. split; [|exact greet_formats]. apply elem_of_app. left.
    unfold forwarder_files. apply list_elem_of_fmap. exists greet_v1_greet_proto.
    rewrite (boundServiceNames_eq policiesOf). split; [done|]. apply list_elem_of_filter. split; [|done].
    split; [done|]. intros Hnil. apply (f_equal length) in Hnil. vm_compute in Hnil. done.
  - exists mounted. split; [apply elem_of_app; right; by left|].
    eapply mounts_generated; [done..|]. intros s. rewrite <-(Forwardgen.Mounts_cover policiesOf).
    unfold boundServiceNames. apply elem_of_list_to_set.
Qed.

(** All nine committed files are what the generator makes of the example's
    descriptors. *)
Theorem committed_files_reproduced (policiesOf : string → gmap string Registry.Policy) :
  ∃ files generated,
    Generate files (boundServiceNames policiesOf) = Ok generated ∧ Forall2 formats generated committed.
Proof.
  exists example_files, generated_catalog. split; [apply generated_catalog_ok|].
  apply (Forall2_impl (λ g f, formats_b g f = true)); [|exact formats_b_true].
  apply (bool_decide_unpack (Forall2 (λ g f, formats_b g f = true) generated_catalog committed)).
  vm_compute. exact I.
Qed.

(** C35. A run that succeeds has regenerated the directory: every service the
    catalog binds, and no other, has a mount, all of them are unary, and the
    directory holds the generated files with their contents, no other generated
    file, and every other file as it was. *)
Theorem run_regenerates `{!Protogen} policiesOf find disk directory directory' :
  run policiesOf find disk directory = (None, directory') →
  ∃ request files mounted response,
    codeGeneratorRequest find (boundServiceNames policiesOf) = Ok request ∧ New request = Ok files ∧
    (∀ s, s ∈ fullName <$> mounted ↔ s ∈ Registry.Service <$> Catalog.Bindings policiesOf) ∧
    Forall unary mounted ∧
    Response (forwarder_files files (boundServiceNames policiesOf) ++ [generateMounts mounted])
      = Ok response ∧
    ∀ name, directory' !! name = regenerated response directory name.
Proof.
  unfold run. destruct (codeGeneratorRequest _ _) as [request|]; [|done].
  destruct (New request) as [files|] eqn:Hnew; [|done].
  destruct (Generate files _) as [generated|] eqn:Hg; [|done].
  apply Generate_ok in Hg as (mounted & _ & _ & Hun & Hall & _ & ->).
  intros (response & Hr & Hd)%writeResponse_ok.
  exists request, files, mounted, response. split_and!; try done.
  intros s. rewrite Hall. unfold boundServiceNames. apply elem_of_list_to_set.
Qed.

(** ** An example run *)

Definition example_file (service : string) : FileDescriptor := FileDesc (service +:+ ".proto") [].

#[local] Instance example_protogen : Protogen :=
  {| New := λ _, Ok example_files;
     Response := λ generated,
       Ok ((λ g, {| GetName := Name g; GetContent := "generated" |}) <$> generated) |}.

Lemma committed_files_generated_witness :
  ∃ mounted, generateMounts mounted ∈ generated_catalog ∧
    fullName <$> mounted = Forward.mount_Service <$> Forwardgen.Mounts.
Proof.
  apply (committed_files_generated (λ _, ∅) example_files generated_catalog (generated_catalog_ok _)).
  apply (bool_decide_unpack _). vm_compute. exact I.
Defined.

Definition example_disk : Disk :=
  {| WriteFails := λ _, None; RemoveFails := λ _, None; GlobFails := None |}.

Definition example_directory : Directory :=
  list_to_map [("generate.go", "package forwardgen"); ("old.forward.go", "stale");
               ("mounts.forward.go", "old mounts")].

Definition example_find (service : string) : result error Descriptor :=
  Ok (ServiceDescriptor (example_file service)).

Definition example_result : Directory :=
  (run (λ _, ∅) example_find example_disk example_directory).2.

Lemma example_run :
  run (λ _, ∅) example_find example_disk example_directory = (None, example_result).
Proof.
  assert ((run (λ _, ∅) example_find example_disk example_directory).1 = None) as H.
  { vm_compute. reflexivity. }
  unfold example_result. by destruct (run _ _ _ _) as [err directory]; simpl in H; subst err.
Qed.

Example example_names :
  sorted_keys example_result = merge_sort String.le ("generate.go" :: (go_Name <$> committed)).
Proof. vm_compute. reflexivity. Qed.

Lemma run_regenerates_witness :
  ∃ request files mounted response,
    codeGeneratorRequest example_find
      (boundServiceNames (λ _, ∅)) = Ok request ∧ New request = Ok files ∧
    (∀ s, s ∈ fullName <$> mounted ↔ s ∈ Registry.Service <$> Catalog.Bindings (λ _, ∅)) ∧
    Forall unary mounted ∧
    Response (forwarder_files files (boundServiceNames (λ _, ∅)) ++ [generateMounts mounted])
      = Ok response ∧
    ∀ name, example_result !! name = regenerated response example_directory name.
Proof. exact (run_regenerates _ _ _ _ _ example_run). Defined.
