(* ===== verification/Server.v ===== *)
(** * The server ([cmd/server/main.go])

    [run] builds the gateway out of its parts, in one order: the process logger,
    the configuration, tracing, the registry with its destinations, the
    forwarding handlers, the internal issuer, the reissuer, the provider of
    external tokens, and then a listener per configured address.  Here the parts
    of the other files meet: the theorems say that what [run] starts is wired
    the way the parts need it.

    The world of a running gateway is the provider's world together with the
    pointer [Run] stores its resolution in.  The libraries [run] calls are
    parameters; process log lines are not modelled. *)

From S2P Require Import Prelude GoStd GoNet GoErrors Mux.
From S2P Require Config Registry Destinations EdgePolicy Catalog Reissue Authn AuditLog Gateway.
From S2P Require Forward Forwardgen KeySet Introspection Verifier Idp Logging Telemetry Token Httpapi.

Definition defaultLogLevel : string := "info".
Definition signingKeyReadinessCheck : string := "internal-jwt-signing-key".
Definition idpReadinessCheck : string := "idp-discovery".
Definition errSigningKeyNotLoaded : string := "the internal JWT signing key is not loaded".
Definition errUnexpectedTransport : string := "the default HTTP transport is not an *http.Transport".

Definition getenv (Getenv : string → string) (key fallback : string) : string :=
  let v := Getenv key in if decide (v ≠ "") then v else fallback.

Definition newLogger (Getenv : string → string) : result error Logging.traceHandler :=
  match Logging.ParseLevel (getenv Getenv "LOG_LEVEL" defaultLogLevel) with
  | Err err => Err (Errorf "read LOG_LEVEL: %w" [err] [])
  | Ok level =>
      Ok (Logging.NewHandler
            {| Logging.opt_Level := level; Logging.opt_AddSource := false;
               Logging.opt_ProjectID := Getenv "GOOGLE_CLOUD_PROJECT" |})
  end.

(** ** What is logged of the configuration *)

Inductive LogValue : Type :=
| LogString (s : string)
| LogStrings (l : list string)
| LogInt (n : Z)
| LogBool (b : bool).

Definition configLogAttrs (cfg : Config.Config) : list (string * LogValue) :=
  [("listener_mode", LogString (Config.ListenerMode cfg));
   ("listeners", LogStrings
      ((λ l, Config.listener_Inbound l +:+ "=" +:+ Config.Addr l) <$> Config.Listeners cfg));
   ("issuer", LogString (Config.IssuerID cfg));
   ("signing_key_file", LogString (Config.KeyFile_Path (Config.SigningKey cfg)));
   ("signing_kid", LogString (Config.KeyFile_ID (Config.SigningKey cfg)));
   ("published_kids", LogStrings (Config.KeyFile_ID <$> Config.PublishedKeys cfg));
   ("destinations_file", LogString (Config.DestinationsFile cfg));
   ("trusted_proxy_hops", LogInt (Config.TrustedProxyHops cfg))]
  ++ (if decide (Config.IDPIssuer cfg ≠ "") then
        [("idp_issuer", LogString (Config.IDPIssuer cfg));
         ("idp_audience", LogString (Config.IDPAudience cfg));
         ("idp_algorithms", LogStrings (Config.IDPAlgorithms cfg));
         ("idp_introspection",
          LogString (if Config.IDPIntrospectionDisabled cfg then "disabled" else "required"));
         ("idp_legacy_events_write_scope", LogBool (Config.IDPLegacyEventsWriteScope cfg))]
      else [])
  ++ (if decide (Config.IDPIntrospectionClientID cfg ≠ "") then
        [("idp_introspection_client_id", LogString (Config.IDPIntrospectionClientID cfg));
         ("idp_introspection_client_secret_file",
          LogString (Config.IDPIntrospectionSecretFile cfg))]
      else []).

Definition internalJWTKeyFiles (cfg : Config.Config) : Token.FileKeys :=
  {| Token.Signing :=
       {| Token.Path := Config.KeyFile_Path (Config.SigningKey cfg);
          Token.KeyID := Config.KeyFile_ID (Config.SigningKey cfg) |};
     Token.Published :=
       (λ key, {| Token.Path := Config.KeyFile_Path key; Token.KeyID := Config.KeyFile_ID key |})
         <$> Config.PublishedKeys cfg |}.

Definition signingKeyCheck {W Key} (keys : Token.KeyProvider W Key) : Httpapi.ReadinessCheck W :=
  let! current := Token.Current keys in
  mret_ (match current with
         | Err err => Some (Errorf "read the internal JWT key files: %w" [err] [])
         | Ok keySet =>
             match Token.signing_Key (Token.set_Signing keySet) with
             | None => Some (ErrorNew errSigningKeyNotLoaded)
             | Some _ => None
             end
         end).

Definition newAuditEmitter : AuditLog.Emitter := {| AuditLog.logging := true |}.

(** The configuration of the provider. *)
Definition idpConfig (cfg : Config.Config) : Idp.Config :=
  {| Idp.config_Issuer := Config.IDPIssuer cfg; Idp.config_Audience := Config.IDPAudience cfg;
     Idp.config_Algorithms := Config.IDPAlgorithms cfg;
     Idp.config_IntrospectionClientID := Config.IDPIntrospectionClientID cfg;
     Idp.config_IntrospectionClientSecret := Config.IDPIntrospectionSecret cfg;
     Idp.config_LegacyEventsWriteScope := Config.IDPLegacyEventsWriteScope cfg;
     Idp.config_RetryDelay := 0 |}.

(** ** The world of a running gateway *)

Record Live {W : Type} : Type := {
  resolved : option (Idp.resolution W);
  world : Idp.World W;
}.
Arguments Live : clear implicits.

(** An operation of the provider: it reads the pointer and runs in its world. *)
Definition live {W A} (m : option (Idp.resolution W) → M (Idp.World W) A) : M (Live W) A := λ w,
  let '(a, world') := m (resolved w) (world w) in
  (a, {| resolved := resolved w; world := world' |}).

(** ** What the server is built on

    The libraries [run] calls and the machine it runs on. *)
Class Libraries (W Key Issuer ContextVerifier : Type) : Type := {
  (** files, URLs, the destinations document, the descriptors and policies of
      the external services *)
  ReadFile : string → result error string;
  url_Parse : string → result error URL;
  url_String : URL → string;
  Decode : string → result error (Destinations.destinationsDocument * bool);
  policiesOf : string → gmap string Registry.Policy;
  resolver : Registry.DescriptorResolver;
  (** tracing: [resource.Merge] and [otlptracehttp.New] *)
  Merge : string → option error;
  otlptracehttp_New : option error;
  (** [http.DefaultTransport] is an [*http.Transport];
      [otelconnect.NewClientInterceptor] *)
  isHTTPTransport : bool;
  NewClientInterceptor : option error;
  (** what the Connect server of a service does with its calls *)
  serveCalls : Forward.MountedHandler → Gateway.Handler (Live W);
  (** internal-jwt-handling, and its issuer and verifier as the gateway uses
      them *)
  NewFileKeyProvider :
    Token.FileKeyProviderConfig → result error (Token.KeyProvider (Live W) Key);
  issuer_New : string → Token.KeyProvider (Live W) Key → result error Issuer;
  verifier_NewContextVerifier :
    string → (string → M (Live W) (result error Key)) → result error ContextVerifier;
  as_contexts : ContextVerifier → Reissue.ContextVerifier (Live W) Gateway.Claims;
  as_entry_issuer : Issuer → Gateway.EntryIssuer (Live W);
  as_service_issuer : Issuer → Reissue.ServiceIssuer (Live W) Gateway.Claims Gateway.Issued;
  (** the confirmation check of the verifier, and the order a map is iterated in *)
  ValidateBinding : Verifier.BindingValidator;
  iterate : Introspection.Results → list string;
  (** the Connect error writer, the tracer and the unverified JWT parser *)
  IsSupported : Gateway.Request → bool;
  ErrorWriter_Write : Gateway.Request → error → list Gateway.ResponseEvent;
  Start : string → M (Live W) (option (string * string));
  ParseUnverified : string → option (list string);
  (** [server.Shutdown] of the server of a listener *)
  server_Shutdown : Config.Listener → option error;
}.

Section server.
Context {W Key Issuer ContextVerifier : Type} `{!Libraries W Key Issuer ContextVerifier}.
Context `{!Introspection.IntrospectionWorld W} `{!Verifier.JWT (Idp.World W)} `{!Token.KeyErrors}.

(** ** Building the parts *)

Definition buildRegistry (cfg : Config.Config) :
    result error (Registry.Registry * Destinations.DestinationsT) :=
  match Registry.Build (Catalog.Bindings policiesOf) Catalog.Overrides resolver with
  | Err err => Err (Errorf "build the RPC registry: %w" [err] [])
  | Ok rpcRegistry =>
      match Destinations.LoadDestinations ReadFile Decode url_Parse (Config.DestinationsFile cfg) with
      | Err err => Err (Errorf "load the destinations: %w" [err] [])
      | Ok destinations =>
          match Destinations.CheckDestinations rpcRegistry destinations with
          | Some err => Err (Errorf "check the destinations: %w" [err] [])
          | None => Ok (rpcRegistry, destinations)
          end
      end
  end.

Definition buildRPCHandlers (destinations : Destinations.DestinationsT) :
    result error (gmap string Forward.MountedHandler) :=
  if negb isHTTPTransport then Err (ErrorNew errUnexpectedTransport)
  else
    match NewClientInterceptor with
    | Some err => Err (Errorf "build the tracing interceptor: %w" [err] [])
    | None =>
        match Forward.Handlers url_String (Catalog.Bindings policiesOf) destinations
                Forwardgen.Mounts with
        | Err err => Err (Errorf "build the RPC handlers: %w" [err] [])
        | Ok handlers => Ok handlers
        end
    end.

Definition buildReissuer (cfg : Config.Config) (rpcRegistry : Registry.Registry)
    (internalIssuer : Issuer) (signingKeys : Token.KeyProvider (Live W) Key) :
    result error (Reissue.Reissuer * ContextVerifier * Issuer) :=
  match EdgePolicy.Build Catalog.Edges (Some rpcRegistry) with
  | Err err => Err (Errorf "build the edge policy: %w" [err] [])
  | Ok policy =>
      match Token.NewContextVerifier verifier_NewContextVerifier (Config.IssuerID cfg)
              (Some signingKeys) with
      | Err err => Err (Errorf "build the context token verifier: %w" [err] [])
      | Ok contexts =>
          match Reissue.New (Some rpcRegistry) (Some policy) (Some contexts) (Some internalIssuer) with
          | Err err => Err (Errorf "build the reissuer: %w" [err] [])
          | Ok reissuer => Ok reissuer
          end
      end
  end.

(** ** The process *)

(** What is built before anything is started. *)
Record Process : Type := {
  proc_Config : Config.Config;
  proc_Registry : Registry.Registry;
  proc_Handlers : gmap string Forward.MountedHandler;
  proc_Issuer : Issuer;
  proc_Keys : Token.KeyProvider (Live W) Key;
  proc_Contexts : ContextVerifier;
  proc_Reissuer : Reissue.Reissuer;
  proc_Provider : option Idp.Provider;
}.

Definition prepare (cfg : Config.Config) : result error Process :=
  let? '(rpcRegistry, destinations) := buildRegistry cfg in
  let? rpcHandlers := buildRPCHandlers destinations in
  match Token.NewIssuerFromFiles NewFileKeyProvider issuer_New (Config.IssuerID cfg)
          (internalJWTKeyFiles cfg) with
  | Err err => Err (Errorf "build internal JWT issuer: %w" [err] [])
  | Ok (internalIssuer, signingKeys) =>
      let? '(reissuer, contexts, tokens) := buildReissuer cfg rpcRegistry internalIssuer signingKeys in
      let process provider :=
        {| proc_Config := cfg; proc_Registry := rpcRegistry; proc_Handlers := rpcHandlers;
           proc_Issuer := tokens; proc_Keys := signingKeys; proc_Contexts := contexts;
           proc_Reissuer := reissuer; proc_Provider := provider |} in
      if decide (Config.IDPIssuer cfg = "") then Ok (process None)
      else
        match Idp.New (idpConfig cfg) with
        | Err err => Err (Errorf "build the external token verifier: %w" [err] [])
        | Ok provider => Ok (process (Some provider))
        end
  end.

(** [authn.NewAuthenticator(provider, introspector)] *)
Definition authenticator (proc : Process) : Authn.Authenticator (Live W) :=
  match proc_Provider proc with
  | None => Authn.NewAuthenticator None None
  | Some provider =>
      Authn.NewAuthenticator
        (Some {| Authn.Verify := λ token, live (λ r, Idp.Verify ValidateBinding provider r token) |})
        (if Config.IDPIntrospectionDisabled (proc_Config proc) then None
         else Some {| Authn.Active := λ token verified,
                        live (λ r, Idp.Active iterate r token verified) |})
  end.

Definition readiness (proc : Process) : Httpapi.Readiness (Live W) :=
  let checks :=
    Httpapi.Register Httpapi.NewReadiness signingKeyReadinessCheck
      (signingKeyCheck (proc_Keys proc)) in
  match proc_Provider proc with
  | None => checks
  | Some _ => Httpapi.Register checks idpReadinessCheck (λ w, (Idp.Ready (resolved w), w))
  end.

(** [rpcConfig] with the inbound of a listener. *)
Definition rpcConfig (proc : Process) (inbound : string) : Gateway.Config (Live W) :=
  {| Gateway.Inbound := inbound; Gateway.cfg_Registry := proc_Registry proc;
     Gateway.Handlers := serveCalls <$> proc_Handlers proc;
     Gateway.cfg_Audit := newAuditEmitter; Gateway.Authenticator := Some (authenticator proc);
     Gateway.Issuer := Some (as_entry_issuer (proc_Issuer proc));
     Gateway.Reissuer := proc_Reissuer proc;
     Gateway.TrustedProxyHops := Config.TrustedProxyHops (proc_Config proc) |}.

Definition rpcRoutes (proc : Process) (inbound : string) :
    option (list (string * Gateway.HTTPHandler (Live W))) :=
  Gateway.Routes IsSupported ErrorWriter_Write Start ParseUnverified
    (H := as_contexts (proc_Contexts proc)) (H0 := as_service_issuer (proc_Issuer proc))
    (rpcConfig proc inbound).

(** The handler of a listener; [None] is a panic while it is built. *)
Definition listenerHandler (proc : Process) (listener : Config.Listener) :
    option (ServeMux (Httpapi.Endpoint (Live W))) :=
  let inbound := Config.listener_Inbound listener in
  match rpcRoutes proc inbound with
  | None => None
  | Some routes =>
      Httpapi.NewHandler
        ([Httpapi.HealthRoutes]
         ++ (if decide (inbound = Config.InboundPublic) then [Httpapi.PublicRoutes] else [])
         ++ [(λ r, (r.1, Httpapi.RPCEndpoint r.2)) <$> routes])
  end.

(** ** Running *)

(** What ends the process: the case of the select that fires. *)
Inductive Event : Type :=
| ServeFailed (listener : Config.Listener) (err : error)
| ProviderFailed (err : error)
| Interrupted.

Inductive Effect : Type :=
| SetupTracing (pipeline : Telemetry.Pipeline)
| RunProvider (provider : Idp.Provider)
| ListenAndServe (listener : Config.Listener)
| Shutdown (listener : Config.Listener)
| FlushTracing.

Inductive Exit : Type :=
| Returned (err : option error)
| Panicked.

Definition shutdown (servers : list Config.Listener) : option error :=
  errors_Join (omap server_Shutdown servers).

(** The loop over the listeners: each server is built and started in turn. *)
Fixpoint startListeners (proc : Process) (listeners : list Config.Listener) : list Effect * bool :=
  match listeners with
  | [] => ([], false)
  | listener :: rest =>
      match listenerHandler proc listener with
      | None => ([], true)
      | Some _ =>
          let '(effects, panicked) := startListeners proc rest in
          (ListenAndServe listener :: effects, panicked)
      end
  end.

Definition outcome (event : Event) (servers : list Config.Listener) : option error :=
  match event with
  | ServeFailed listener err =>
      errors_Join (Errorf "serve the %s listener on %s: %w" [err]
                     [Config.listener_Inbound listener; Config.Addr listener]
                   :: option_list (shutdown servers))
  | ProviderFailed err =>
      errors_Join (Errorf "resolve the IdP metadata: %w" [err] [] :: option_list (shutdown servers))
  | Interrupted => shutdown servers
  end.

Definition serve (cfg : Config.Config) (event : Event) : list Effect * Exit :=
  match prepare cfg with
  | Err err => ([], Returned (Some err))
  | Ok proc =>
      let provider := match proc_Provider proc with None => [] | Some p => [RunProvider p] end in
      let '(started, panicked) := startListeners proc (Config.Listeners cfg) in
      if (panicked : bool) then (provider ++ started, Panicked)
      else (provider ++ started ++ (Shutdown <$> Config.Listeners cfg),
            Returned (outcome event (Config.Listeners cfg)))
  end.

(** The deferred flush of the spans runs on every path after [Setup]. *)
Definition run (Getenv : string → string) (event : Event) : list Effect * Exit :=
  match newLogger Getenv with
  | Err err => ([], Returned (Some err))
  | Ok _ =>
      match Config.Load ReadFile url_Parse Getenv with
      | Err err => ([], Returned (Some (Errorf "load config: %w" [err] [])))
      | Ok cfg =>
          match Telemetry.Setup Getenv Merge otlptracehttp_New with
          | Err err => ([], Returned (Some (Errorf "setup tracing: %w" [err] [])))
          | Ok pipeline =>
              let '(effects, exit) := serve cfg event in
              (SetupTracing pipeline :: effects ++ [FlushTracing], exit)
          end
      end
  end.

(** [main]: the exit status of the process. *)
Definition exit_status (e : Exit) : Z :=
  match e with Returned None => 0 | Returned (Some _) => 1 | Panicked => 2 end.
End server.

(** ** The services behind a listener *)

(** Keys that are service paths, with what they map to. *)
Lemma service_keys {A B} (m : gmap string A) (f : A → B) (keys : list string) :
  NoDup keys → (∀ k, k ∈ keys → ∃ s, k = Forward.path_of s) →
  ∃ services : list (string * B),
    omap (λ k, (λ a, (k, f a)) <$> m !! k) keys = (λ s, (Forward.path_of s.1, s.2)) <$> services ∧
    NoDup services.*1 ∧
    ∀ s b, (s, b) ∈ services ↔
      Forward.path_of s ∈ keys ∧ ∃ a, m !! Forward.path_of s = Some a ∧ b = f a.
Proof.
  induction 1 as [|k keys Hk _ IH]; intros Hpaths.
  { exists []. split_and!; [done|constructor|]. intros s b. split; [by intros ?%not_elem_of_nil|].
    by intros [?%not_elem_of_nil _]. }
  destruct IH as (services & Heq & Hnd & Hin); [intros k' Hk'; apply Hpaths; by right|].
  destruct (Hpaths k) as [s ->]; [by left|]. cbn [omap list_omap].
  destruct (m !! Forward.path_of s) as [a|] eqn:Ha; cbn.
  - exists ((s, f a) :: services). split_and!.
    + rewrite fmap_cons. f_equal. exact Heq.
    + rewrite fmap_cons. apply NoDup_cons. split; [|done].
      intros ([s' b] & Hs & Hb)%list_elem_of_fmap. cbn in Hs. subst s'. by apply Hin in Hb as [? _].
    + intros s' b. rewrite !elem_of_cons, Hin. split.
      * intros [[= -> ->]|[? ?]]; [|by split; [right|]]. split; [by left|by exists a].
      * intros [[Hs%Forward.string_path_inj|Hs] (a' & Ha' & ->)]; [left; subst; congruence|right; eauto].
  - exists services. split_and!; [exact Heq|done|]. intros s' b. rewrite Hin, elem_of_cons. split.
    + intros [? ?]. by split; [right|].
    + intros [[Hs%Forward.string_path_inj|Hs] (a' & Ha' & ->)]; [congruence|eauto].
Qed.

Lemma fmap_keyed {A B C} (m : gmap string A) (f : A → B) (g : B → C) (keys : list string) :
  (λ r, (r.1, g r.2)) <$> omap (λ k, (λ a, (k, f a)) <$> m !! k) keys
    = omap (λ k, (λ a, (k, g (f a))) <$> m !! k) keys.
Proof.
  induction keys as [|k keys IH]; [done|]. cbn [omap list_omap].
  destruct (m !! k); cbn; [f_equal|]; exact IH.
Qed.

Lemma catalog_names policiesOf :
  Forall (λ s, plain_segment s = true) (Registry.Service <$> Catalog.Bindings policiesOf).
Proof.
  change (Registry.Service <$> Catalog.Bindings policiesOf)
    with (Registry.Service <$> Catalog.Bindings (λ _, ∅)).
  apply Forall_forall. intros s Hs. revert s Hs. apply Forall_forall.
  by_computation.
Qed.

#[local] Opaque Catalog.Bindings Catalog.Edges Catalog.Overrides.

Section correct.
Context {W Key Issuer ContextVerifier : Type} `{!Libraries W Key Issuer ContextVerifier}.
Context `{!Introspection.IntrospectionWorld W} `{!Verifier.JWT (Idp.World W)} `{!Token.KeyErrors}.
Implicit Types (cfg : Config.Config) (l : Config.Listener).

Local Abbreviation process := (Process (W := W) (Key := Key) (Issuer := Issuer)
  (ContextVerifier := ContextVerifier)).

Lemma buildRegistry_ok cfg r ds :
  buildRegistry cfg = Ok (r, ds) ↔
  Registry.Build (Catalog.Bindings policiesOf) Catalog.Overrides resolver = Ok r ∧
  Destinations.LoadDestinations ReadFile Decode url_Parse (Config.DestinationsFile cfg) = Ok ds ∧
  Destinations.CheckDestinations r ds = None.
Proof.
  unfold buildRegistry. destruct (Registry.Build _ _ _) as [r'|]; [|split; [done|by intros [? _]]].
  destruct (Destinations.LoadDestinations _ _ _ _) as [ds'|]; [|split; [done|by intros (_ & ? & _)]].
  destruct (Destinations.CheckDestinations r' ds') eqn:Hc.
  - split; [done|]. intros ([= <-] & [= <-] & ?). congruence.
  - split; [by intros [= <- <-]|]. by intros ([= <-] & [= <-] & _).
Qed.

(** Every service of the catalog has its destination configured. *)
Lemma bindings_configured cfg r ds b :
  buildRegistry cfg = Ok (r, ds) → b ∈ Catalog.Bindings policiesOf →
  is_Some (ds !! Registry.Destination b).
Proof.
  intros (Hb & _ & Hc)%buildRegistry_ok Hin.
  pose proof (proj1 (Registry.Build_ok _ _ _ _) Hb) as ((Hvalid & _ & _) & _ & [Hden _]).
  rewrite Forall_forall in Hvalid. destruct (Hvalid b Hin) as [_ _ Hne _ Hpol].
  apply map_choose in Hne as (p & policy & Hp). destruct (Hpol p policy Hp) as [s Hs].
  destruct (Destinations.CheckDestinations_routes _ _ _ _ _ p
    {| Registry.entry_Procedure := p; Registry.entry_Destination := Registry.Destination b;
       Registry.entry_Anonymous := Registry.anonymous s;
       Registry.entry_ExternalTokenUses := Registry.externalTokenUses s;
       Registry.entry_Service := Registry.service s;
       Registry.entry_RequiredScopes := Registry.policy_RequiredScopes policy;
       Registry.entry_Introspection :=
         bool_decide (p ∈ Registry.Introspection Catalog.Overrides) |} Hb Hc) as [d Hd].
  - rewrite Registry.Lookup_entries. apply Hden. exists b, policy, s. split; [exact Hin|]. split; [exact Hp|]. split; [exact Hs|reflexivity].
  - by exists d.
Qed.

(** The generated forwarders fit the catalog, so building the handlers cannot
    fail over them. *)
Lemma handlers_built cfg r ds :
  buildRegistry cfg = Ok (r, ds) → isHTTPTransport = true → NewClientInterceptor = None →
  ∃ hs, buildRPCHandlers ds = Ok hs.
Proof.
  intros Hr Ht Hi. unfold buildRPCHandlers. rewrite Ht, Hi. cbn [negb].
  destruct (Forward.Handlers_total url_String (Catalog.Bindings policiesOf) ds Forwardgen.Mounts)
    as [hs ->]; [apply Forwardgen.Mounts_distinct|apply Forwardgen.Mounts_cover| |by exists hs].
  intros b Hb. by eapply bindings_configured.
Qed.

Lemma buildRPCHandlers_served ds hs s :
  buildRPCHandlers ds = Ok hs → s ∈ Registry.Service <$> Catalog.Bindings policiesOf →
  is_Some (hs !! Forward.path_of s).
Proof.
  unfold buildRPCHandlers. destruct isHTTPTransport; [|done]. destruct NewClientInterceptor; [done|].
  destruct (Forward.Handlers _ _ _ _) as [hs'|] eqn:Hh; [|done]. intros [= <-] Hs.
  eapply Forward.Handlers_served; [exact Hh|]. by apply (Forwardgen.Mounts_cover policiesOf).
Qed.

Lemma buildRPCHandlers_ok ds hs :
  buildRPCHandlers ds = Ok hs →
  ∀ key h, hs !! key = Some h ↔
    ∃ service, service ∈ Registry.Service <$> Catalog.Bindings policiesOf ∧
      key = Forward.path_of service ∧
      Forward.handler_of url_String (foldl Forward.bind ∅ (Catalog.Bindings policiesOf)) ds service h.
Proof.
  unfold buildRPCHandlers. destruct isHTTPTransport; [|done]. destruct NewClientInterceptor; [done|].
  destruct (Forward.Handlers _ _ _ _) as [hs'|] eqn:Hh; [|done]. intros [= <-].
  apply Forward.Handlers_ok in Hh as (_ & Hin & Hhs). intros key h. rewrite Hhs.
  by setoid_rewrite Hin.
Qed.

(** What a prepared process is made of. *)
Record process_wf (cfg : Config.Config) (proc : process) : Prop := {
  process_Config : proc_Config proc = cfg;
  process_Registry : ∃ ds, buildRegistry cfg = Ok (proc_Registry proc, ds) ∧
    buildRPCHandlers ds = Ok (proc_Handlers proc);
  process_Issuer : Token.NewIssuerFromFiles NewFileKeyProvider issuer_New (Config.IssuerID cfg)
    (internalJWTKeyFiles cfg) = Ok (proc_Issuer proc, proc_Keys proc);
  process_Contexts : Token.NewContextVerifier verifier_NewContextVerifier (Config.IssuerID cfg)
    (Some (proc_Keys proc)) = Ok (proc_Contexts proc);
  process_Reissuer : Reissue.registry (proc_Reissuer proc) = proc_Registry proc ∧
    EdgePolicy.Build Catalog.Edges (Some (proc_Registry proc)) = Ok (Reissue.policy (proc_Reissuer proc));
  process_Provider :
    match proc_Provider proc with
    | None => Config.IDPIssuer cfg = ""
    | Some p => Config.IDPIssuer cfg ≠ "" ∧ Idp.New (idpConfig cfg) = Ok p
    end;
}.

Lemma buildReissuer_ok cfg r i keys reissuer contexts tokens :
  buildReissuer cfg r i keys = Ok (reissuer, contexts, tokens) →
  tokens = i ∧ Reissue.registry reissuer = r ∧
  EdgePolicy.Build Catalog.Edges (Some r) = Ok (Reissue.policy reissuer) ∧
  Token.NewContextVerifier verifier_NewContextVerifier (Config.IssuerID cfg) (Some keys) = Ok contexts.
Proof.
  unfold buildReissuer. destruct (EdgePolicy.Build _ _) as [policy|]; [|done].
  destruct (Token.NewContextVerifier _ _ _) as [cs|]; [|done]. cbn [Reissue.New].
  by intros [= <- <- <-].
Qed.

Lemma prepare_ok cfg proc : prepare cfg = Ok proc → process_wf cfg proc.
Proof.
  unfold prepare. destruct (buildRegistry cfg) as [[r ds]|] eqn:Hr; [|done]. cbn [result_bind].
  destruct (buildRPCHandlers ds) as [hs|] eqn:Hh; [|done]. cbn [result_bind].
  destruct (Token.NewIssuerFromFiles _ _ _ _) as [[i keys]|] eqn:Hi; [|done].
  destruct (buildReissuer cfg r i keys) as [[[reissuer contexts] tokens]|] eqn:Hre; [|done].
  cbn [result_bind]. apply buildReissuer_ok in Hre as (-> & Hreg & Hpol & Hctx).
  destruct (decide (Config.IDPIssuer cfg = "")) as [E|E].
  - intros [= <-]. split; [done|exists ds; by split|exact Hi|exact Hctx|by split|exact E].
  - destruct (Idp.New (idpConfig cfg)) as [p|] eqn:Hp; [|done]. intros [= <-].
    split; [done|exists ds; by split|exact Hi|exact Hctx|by split|by split].
Qed.

(** A configuration that was loaded is one the provider accepts. *)
Lemma idp_New_total Getenv cfg :
  Config.Load ReadFile url_Parse Getenv = Ok cfg → Config.IDPIssuer cfg ≠ "" →
  ∃ p, Idp.New (idpConfig cfg) = Ok p.
Proof.
  intros Hd%Config.Load_ok Hne. unfold Idp.New, idpConfig. cbn.
  rewrite decide_False by done.
  destruct (Config.describes_idp _ _ _ _ Hd) as (_ & _ & [[? _]|(_ & _ & Ha & _)]); [done|].
  rewrite decide_False by done.
  destruct (Config.describes_client _ _ _ _ Hd) as (_ & _ & [(Hc & _ & Hs)|(Hc & _ & _ & raw & _ & _ & Hs)]).
  - rewrite Hc, Hs. cbn. eauto.
  - rewrite !bool_decide_eq_false_2 by done. cbn. eauto.
Qed.

Lemma listener_inbound Getenv cfg l :
  Config.Load ReadFile url_Parse Getenv = Ok cfg → l ∈ Config.Listeners cfg →
  Config.listener_Inbound l = Config.InboundPublic ∨ Config.listener_Inbound l = Config.InboundInternal.
Proof.
  intros Hd%Config.Load_ok Hl. apply Config.describes_listeners in Hd.
  destruct Hd as [p q _ _ _ _ _|mode port Hin _ _ _ _]; cbn in Hl.
  - apply elem_of_cons in Hl as [->|Hl]; [by left|].
    apply list_elem_of_singleton in Hl as ->. by right.
  - apply list_elem_of_singleton in Hl as ->. cbn.
    apply elem_of_cons in Hin as [->|Hin]; [by left|].
    apply list_elem_of_singleton in Hin as ->. by right.
Qed.

(** The pipeline of a service behind a listener. *)
Definition service_pipeline (proc : process) (inbound : string) admitWith (mounted : Forward.MountedHandler) :
    Gateway.HTTPHandler (Live W) :=
  Gateway.ServeHTTP IsSupported ErrorWriter_Write Start
    (Gateway.pipelineOf (rpcConfig proc inbound) admitWith (serveCalls mounted)).

Definition admission_of (proc : process) (inbound : string) :=
  Gateway.admission ParseUnverified
    (H := as_contexts (proc_Contexts proc)) (H0 := as_service_issuer (proc_Issuer proc))
    (rpcConfig proc inbound).

(** What serves the requests of a listener: a pipeline per service of the
    catalog, the answer for unknown procedures, and the routes between them. *)
Record listens_for (proc : process) (l : Config.Listener) (mux : ServeMux (Httpapi.Endpoint (Live W)))
    (services : list (string * Httpapi.Endpoint (Live W))) : Prop := {
  listens_distinct : NoDup services.*1;
  listens_services : ∀ s, s ∈ services.*1 ↔ s ∈ Registry.Service <$> Catalog.Bindings policiesOf;
  listens_pipelines : ∃ admitWith, admission_of proc (Config.listener_Inbound l) = Some admitWith ∧
    ∀ s e, (s, e) ∈ services → ∃ mounted, proc_Handlers proc !! Forward.path_of s = Some mounted ∧
      e = Httpapi.RPCEndpoint
            (service_pipeline proc (Config.listener_Inbound l) admitWith mounted);
  listens_routes : ∀ unescape method path,
    unescape "" = "" → method ≠ "" → method ≠ "CONNECT" → cleanPath path = path →
    findHandler unescape mux method path
      = Httpapi.served (bool_decide (Config.listener_Inbound l = Config.InboundPublic)) services
          (Httpapi.RPCEndpoint (Gateway.newUnimplementedHandler IsSupported ErrorWriter_Write))
          method (cleanPath (unescape path)) (unescape <$> segments path);
}.

Lemma listener_served Getenv cfg proc l :
  Config.Load ReadFile url_Parse Getenv = Ok cfg → prepare cfg = Ok proc →
  l ∈ Config.Listeners cfg →
  ∃ mux services, listenerHandler proc l = Some mux ∧ listens_for proc l mux services.
Proof.
  intros Hload Hproc Hl. destruct (prepare_ok _ _ Hproc) as [_ (ds & _ & Hhs) _ _ _ _].
  pose proof (buildRPCHandlers_ok _ _ Hhs) as Hkeys.
  destruct (admission_of proc (Config.listener_Inbound l)) as [admitWith|] eqn:Hadmit.
  2: { exfalso. unfold admission_of, Gateway.admission in Hadmit. cbn [Gateway.Inbound rpcConfig] in Hadmit.
       by destruct (listener_inbound _ _ _ Hload Hl) as [Hin|Hin]; rewrite Hin in Hadmit. }
  destruct (service_keys (serveCalls <$> proc_Handlers proc)
    (λ next, Httpapi.RPCEndpoint (Gateway.ServeHTTP IsSupported ErrorWriter_Write Start
      (Gateway.pipelineOf (rpcConfig proc (Config.listener_Inbound l)) admitWith next)))
    (sorted_keys (serveCalls <$> proc_Handlers proc))) as (services & Heq & Hnd & Hin).
  { auto with go. }
  { intros k Hk%elem_of_sorted_keys. rewrite lookup_fmap, fmap_is_Some in Hk. destruct Hk as [h Hh].
    apply Hkeys in Hh as (s & _ & -> & _). by exists s. }
  assert (∀ s, s ∈ services.*1 ↔ s ∈ Registry.Service <$> Catalog.Bindings policiesOf) as Hnames.
  { intros s. split.
    - intros ([s' e] & -> & (_ & next & Hn & _)%Hin)%list_elem_of_fmap. cbn.
      rewrite lookup_fmap in Hn. apply fmap_Some in Hn as (h & Hh & _).
      by apply Hkeys in Hh as (s & Hs & ->%Forward.string_path_inj & _).
    - intros Hs. destruct (buildRPCHandlers_served _ _ s Hhs Hs) as [h Hh].
      apply list_elem_of_fmap. eexists (s, _). split; [done|]. apply Hin. split.
      + apply elem_of_sorted_keys. rewrite lookup_fmap, Hh. by eexists.
      + eexists. split; [|done]. by rewrite lookup_fmap, Hh. }
  assert (Forall (λ s, plain_segment s = true) services.*1) as Hplain.
  { apply Forall_forall. intros s Hs%Hnames. pose proof (catalog_names policiesOf) as Hall.
    rewrite Forall_forall in Hall. by apply Hall. }
  set (public := bool_decide (Config.listener_Inbound l = Config.InboundPublic)).
  set (fallback := Httpapi.RPCEndpoint
    (Gateway.newUnimplementedHandler (W := Live W) IsSupported ErrorWriter_Write)).
  exists (service_mux (Httpapi.literals public) services fallback), services. split.
  - unfold listenerHandler, rpcRoutes, Gateway.Routes.
    fold (admission_of proc (Config.listener_Inbound l)). rewrite Hadmit.
    rewrite <-(Httpapi.NewHandler_services public services fallback Hplain Hnd).
    unfold Httpapi.listenerRoutes, public. f_equal. f_equal. f_equal.
    { destruct (decide (Config.listener_Inbound l = Config.InboundPublic)) as [E|E];
        [rewrite (bool_decide_eq_true_2 _ E)|rewrite (bool_decide_eq_false_2 _ E)]; reflexivity. }
    f_equal. rewrite fmap_app. apply f_equal2; [|reflexivity].
    etrans; [|exact Heq]. apply (fmap_keyed (serveCalls <$> proc_Handlers proc)).
  - split; [exact Hnd|exact Hnames| |].
    + exists admitWith. split; [done|]. intros s e (_ & next & Hn & ->)%Hin.
      rewrite lookup_fmap in Hn. apply fmap_Some in Hn as (mounted & Hm & ->).
      exists mounted. split; [exact Hm|reflexivity].
    + intros unescape method path Hun Hm Hc Hclean. by apply Httpapi.findHandler_served.
Qed.

Lemma startListeners_ok proc ls :
  (∀ l, l ∈ ls → ∃ mux, listenerHandler proc l = Some mux) →
  startListeners proc ls = (ListenAndServe <$> ls, false).
Proof.
  induction ls as [|l ls IH]; intros Hall; [done|]. cbn [startListeners].
  destruct (Hall l) as [mux Hmux]; [by left|]. rewrite Hmux. rewrite IH; [reflexivity|]. intros l' Hl'. apply Hall. by right.
Qed.

(** What a process that got past its preparation does. *)
Definition serving_effects (proc : process) : list Effect :=
  (RunProvider <$> option_list (proc_Provider proc))
  ++ (ListenAndServe <$> Config.Listeners (proc_Config proc))
  ++ (Shutdown <$> Config.Listeners (proc_Config proc)).

Lemma serve_ok Getenv cfg event :
  Config.Load ReadFile url_Parse Getenv = Ok cfg →
  serve cfg event =
    match prepare cfg with
    | Err err => ([], Returned (Some err))
    | Ok proc =>
        (serving_effects proc, Returned (outcome event (Config.Listeners cfg)))
    end.
Proof.
  intros Hload. unfold serve. destruct (prepare cfg) as [proc|err] eqn:Hp; [|reflexivity].
  rewrite startListeners_ok.
  - unfold serving_effects. rewrite (process_Config _ _ (prepare_ok _ _ Hp)).
    by destruct (proc_Provider proc).
  - intros l Hl. destruct (listener_served _ _ _ _ Hload Hp Hl) as (mux & ? & Hmux & _).
    by exists mux.
Qed.

(** Preparing succeeds exactly when the registry, the destinations, the key
    files and the edges do: the forwarders and the provider follow. *)
Lemma prepare_total Getenv cfg :
  Config.Load ReadFile url_Parse Getenv = Ok cfg →
  (∃ proc, prepare cfg = Ok proc) ↔
  isHTTPTransport = true ∧ NewClientInterceptor = None ∧
  ∃ r ds issuer keys reissuer, buildRegistry cfg = Ok (r, ds) ∧
    Token.NewIssuerFromFiles NewFileKeyProvider issuer_New (Config.IssuerID cfg)
      (internalJWTKeyFiles cfg) = Ok (issuer, keys) ∧
    buildReissuer cfg r issuer keys = Ok reissuer.
Proof.
  intros Hload. unfold prepare. split.
  - destruct (buildRegistry cfg) as [[r ds]|] eqn:Hr; [|by intros [? ?]]. cbn [result_bind].
    destruct (buildRPCHandlers ds) as [hs|] eqn:Hh; [|by intros [? ?]]. cbn [result_bind].
    destruct (Token.NewIssuerFromFiles _ _ _ _) as [[i keys]|] eqn:Hi; [|by intros [? ?]].
    destruct (buildReissuer cfg r i keys) as [reissuer|] eqn:Hre; [|by intros [? ?]].
    intros _. unfold buildRPCHandlers in Hh.
    destruct isHTTPTransport; [|done]. destruct NewClientInterceptor; [done|].
    split; [done|]. split; [done|]. exists r, ds, i, keys, reissuer.
    split; [reflexivity|]. split; [reflexivity|exact Hre].
  - intros (Ht & Hn & r & ds & i & keys & [[reissuer contexts] tokens] & Hr & Hi & Hre).
    destruct (handlers_built _ _ _ Hr Ht Hn) as [hs Hh].
    rewrite Hr. cbn [result_bind]. rewrite Hh. cbn [result_bind]. rewrite Hi, Hre. cbn [result_bind].
    destruct (decide (Config.IDPIssuer cfg = "")) as [|Hne]; [by eexists|].
    destruct (idp_New_total _ _ Hload Hne) as [p ->]. by eexists.
Qed.

Lemma errors_Join_cons err errs : errors_Join (err :: errs) ≠ None.
Proof. done. Qed.

Lemma shutdown_None ls :
  shutdown ls = None ↔ Forall (λ l, server_Shutdown l = None) ls.
Proof.
  unfold shutdown. induction ls as [|l ls IH]; [done|]. rewrite Forall_cons, <-IH. cbn [omap list_omap].
  destruct (server_Shutdown l) as [err|] eqn:Hl; cbn.
  - split; [done|]. by intros [[=] _].
  - split; [by split|by intros [_ ?]].
Qed.

Lemma outcome_None event ls :
  outcome event ls = None ↔
  event = Interrupted ∧ Forall (λ l, server_Shutdown l = None) ls.
Proof.
  destruct event as [l err|err|]; cbn [outcome]; try (split; [done|by intros [[=] _]]).
  rewrite shutdown_None. naive_solver.
Qed.

#[local] Opaque prepare Config.Load newLogger.

(** The servers a process shuts down are those it started. *)
Lemma elem_of_serving_effects proc l :
  (ListenAndServe l ∈ serving_effects proc ↔ l ∈ Config.Listeners (proc_Config proc)) ∧
  (Shutdown l ∈ serving_effects proc ↔ l ∈ Config.Listeners (proc_Config proc)).
Proof.
  assert (∀ e, e ∈ RunProvider <$> option_list (proc_Provider proc) → ∃ p, e = RunProvider p) as Hrun.
  { intros e (p & -> & _)%list_elem_of_fmap. by exists p. }
  unfold serving_effects. split; rewrite !elem_of_app; (split; [|intros Hl]).
  - intros [[p [=]]%Hrun|[(l' & [= ->] & Hl)%list_elem_of_fmap|(l' & [=] & _)%list_elem_of_fmap]]. done.
  - right. left. by apply list_elem_of_fmap_2.
  - intros [[p [=]]%Hrun|[(l' & [=] & _)%list_elem_of_fmap|(l' & [= ->] & Hl)%list_elem_of_fmap]]. done.
  - right. right. by apply list_elem_of_fmap_2.
Qed.

Lemma elem_of_effects proc pipeline l :
  let effects := SetupTracing pipeline :: serving_effects proc ++ [FlushTracing] in
  (ListenAndServe l ∈ effects ↔ l ∈ Config.Listeners (proc_Config proc)) ∧
  (Shutdown l ∈ effects ↔ l ∈ Config.Listeners (proc_Config proc)).
Proof.
  intros effects. unfold effects. rewrite !elem_of_cons, !elem_of_app, !list_elem_of_singleton.
  destruct (elem_of_serving_effects proc l) as [Hl Hs]. rewrite Hl, Hs.
  split; intuition discriminate.
Qed.

(** A loaded configuration has a listener. *)
Lemma listeners_nonempty Getenv cfg :
  Config.Load ReadFile url_Parse Getenv = Ok cfg → ∃ l, l ∈ Config.Listeners cfg.
Proof.
  intros Hd%Config.Load_ok. apply Config.describes_listeners in Hd.
  destruct Hd; eexists; left.
Qed.

Lemma serving_shutdowns Getenv cfg proc pipeline :
  Config.Load ReadFile url_Parse Getenv = Ok cfg → prepare cfg = Ok proc →
  let effects := SetupTracing pipeline :: serving_effects proc ++ [FlushTracing] in
  Forall (λ l, server_Shutdown l = None) (Config.Listeners cfg) ↔
  ∃ l, ListenAndServe l ∈ effects ∧ ∀ l, Shutdown l ∈ effects → server_Shutdown l = None.
Proof.
  intros Hload Hproc effects.
  pose proof (process_Config _ _ (prepare_ok _ _ Hproc)) as Hcfg.
  pose proof (λ l, proj1 (elem_of_effects proc pipeline l)) as Hlisten.
  pose proof (λ l, proj2 (elem_of_effects proc pipeline l)) as Hshut.
  rewrite Hcfg in Hlisten, Hshut. fold effects in Hlisten, Hshut.
  rewrite Forall_forall. setoid_rewrite Hlisten. setoid_rewrite Hshut. split.
  - intros Hall. destruct (listeners_nonempty _ _ Hload) as [l Hl].
    exists l. split; [exact Hl|exact Hall].
  - intros (_ & _ & Hall). exact Hall.
Qed.
End correct.

Lemma exit_status_zero o : exit_status (Returned o) = 0 ↔ o = None.
Proof. by destruct o. Qed.

(** ** Properties *)

(** C23. Every listener of a started gateway serves the catalog.  Its handler is
    built without a panic, it has one pipeline per service of the catalog, and
    every request for a clean path is answered by the health endpoints, by the
    JWKS document (on the public listener alone), by the pipeline of the service
    the path starts with, by a redirect to it, or by the answer for unknown
    procedures. *)
Theorem listeners_serve_catalog {W Key Issuer ContextVerifier : Type}
    `{!Libraries W Key Issuer ContextVerifier} `{!Introspection.IntrospectionWorld W}
    `{!Verifier.JWT (Idp.World W)} `{!Token.KeyErrors} Getenv cfg
    (proc : Process (W := W) (Key := Key) (Issuer := Issuer) (ContextVerifier := ContextVerifier)) l :
  Config.Load ReadFile url_Parse Getenv = Ok cfg → prepare cfg = Ok proc →
  l ∈ Config.Listeners cfg →
  ∃ mux services, listenerHandler proc l = Some mux ∧ listens_for proc l mux services.
Proof. apply listener_served. Qed.

(** C26. Start-up cannot fail for reasons of the gateway's own: with a loaded
    configuration, preparing the process succeeds exactly when the registry, the
    destinations, the key files, the edge policy and the libraries do.  The
    generated forwarders fit the catalog and its destinations, and the provider
    takes every configuration that [config.Load] lets through. *)
Theorem prepare_spec {W Key Issuer ContextVerifier : Type}
    `{!Libraries W Key Issuer ContextVerifier} `{!Introspection.IntrospectionWorld W}
    `{!Verifier.JWT (Idp.World W)} `{!Token.KeyErrors} Getenv cfg :
  Config.Load ReadFile url_Parse Getenv = Ok cfg →
  (∃ proc, prepare cfg = Ok proc) ↔
  isHTTPTransport = true ∧ NewClientInterceptor = None ∧
  ∃ r ds issuer keys reissuer, buildRegistry cfg = Ok (r, ds) ∧
    Token.NewIssuerFromFiles NewFileKeyProvider issuer_New (Config.IssuerID cfg)
      (internalJWTKeyFiles cfg) = Ok (issuer, keys) ∧
    buildReissuer cfg r issuer keys = Ok reissuer.
Proof. apply prepare_total. Qed.

(** What [run] may do: stop before it listens, or listen on every address. *)
Inductive run_outcome {W Key Issuer ContextVerifier : Type}
    `{!Libraries W Key Issuer ContextVerifier} `{!Introspection.IntrospectionWorld W}
    `{!Verifier.JWT (Idp.World W)} `{!Token.KeyErrors} (Getenv : string → string) (event : Event) :
    list Effect → Exit → Prop :=
| outcome_refused err : run_outcome Getenv event [] (Returned (Some err))
| outcome_unprepared pipeline err :
    Telemetry.Setup Getenv Merge otlptracehttp_New = Ok pipeline →
    run_outcome Getenv event [SetupTracing pipeline; FlushTracing] (Returned (Some err))
| outcome_served pipeline cfg
    (proc : Process (W := W) (Key := Key) (Issuer := Issuer) (ContextVerifier := ContextVerifier)) :
    is_ok (newLogger Getenv) = true → Config.describes ReadFile url_Parse Getenv cfg →
    Telemetry.Setup Getenv Merge otlptracehttp_New = Ok pipeline → prepare cfg = Ok proc →
    run_outcome Getenv event (SetupTracing pipeline :: serving_effects proc ++ [FlushTracing])
      (Returned (outcome event (Config.Listeners cfg))).

(** C25. The life of the process.  It listens only with a readable log level, an
    environment that describes a configuration, tracing set up and every part
    prepared; then it starts a server per configured address, whatever ends it
    shuts every one of them down, and the spans are flushed last.  Otherwise no
    server is started and it returns an error.  It never panics, and it exits
    with status 0 exactly when it was interrupted and every server shut down
    cleanly. *)
Theorem run_spec {W Key Issuer ContextVerifier : Type}
    `{!Libraries W Key Issuer ContextVerifier} `{!Introspection.IntrospectionWorld W}
    `{!Verifier.JWT (Idp.World W)} `{!Token.KeyErrors} Getenv event :
  let '(effects, exit) := run Getenv event in
  run_outcome Getenv event effects exit ∧
  (exit_status exit = 0 ↔
   event = Interrupted ∧ ∃ l, ListenAndServe l ∈ effects ∧
     ∀ l, Shutdown l ∈ effects → server_Shutdown l = None).
Proof.
  assert (∀ (effects : list Effect) err, (∀ l, ListenAndServe l ∉ effects) →
    exit_status (Returned (Some err)) = 0 ↔
    event = Interrupted ∧ ∃ l, ListenAndServe l ∈ effects ∧
      ∀ l, Shutdown l ∈ effects → server_Shutdown l = None) as Hstopped.
  { intros effects err Hno. split; [done|]. intros (_ & l & Hl & _). by apply Hno in Hl. }
  unfold run. destruct (newLogger Getenv) as [logger|err] eqn:Hlogger.
  2: { split; [constructor|]. apply Hstopped. intros l. apply not_elem_of_nil. }
  destruct (Config.Load ReadFile url_Parse Getenv) as [cfg|err] eqn:Hload.
  2: { split; [constructor|]. apply Hstopped. intros l. apply not_elem_of_nil. }
  destruct (Telemetry.Setup Getenv Merge otlptracehttp_New) as [pipeline|err] eqn:Hsetup.
  2: { split; [constructor|]. apply Hstopped. intros l. apply not_elem_of_nil. }
  rewrite (serve_ok _ _ _ Hload). destruct (prepare cfg) as [proc|err] eqn:Hprepare.
  2: { split; [by constructor|]. apply Hstopped. intros l. cbn [app]. clear. set_solver. }
  split.
  - apply outcome_served; [by rewrite Hlogger|by apply Config.Load_ok|assumption..].
  - rewrite exit_status_zero, outcome_None. apply (and_iff_compat_l (event = Interrupted)).
    apply serving_shutdowns with (Getenv := Getenv); assumption.
Qed.

(** ** A gateway that starts *)

Definition example_W : Type := Z.

Definition example_url : URL :=
  {| URL_Scheme := "http"; URL_Opaque := ""; URL_User := None; URL_Host := "svc"; URL_Path := "";
     URL_ForceQuery := false; URL_RawQuery := ""; URL_Fragment := "" |}.

Definition example_documents : gmap string Destinations.destinationDocument :=
  list_to_map ((λ b, (Registry.Destination b, {| Destinations.document_URL := "http://svc" |}))
    <$> Catalog.Bindings Catalog.golden_policies).

Definition example_provider : Token.KeyProvider (Live example_W) Z :=
  {| Token.Current := λ w, (Ok Token.example_keySet, w) |}.

#[local] Instance example_libraries : Libraries example_W Z unit unit := {|
  ReadFile := λ _, Ok "{}";
  url_Parse := λ _, Ok example_url;
  url_String := λ u, URL_Scheme u +:+ "://" +:+ URL_Host u +:+ "/";
  Decode := λ _, Ok ({| Destinations.document_Destinations := example_documents |}, false);
  policiesOf := Catalog.golden_policies;
  resolver := Catalog.golden_resolver;
  Merge := λ _, None;
  otlptracehttp_New := None;
  isHTTPTransport := true;
  NewClientInterceptor := None;
  serveCalls := λ mounted r token record w,
    ({| Gateway.served_events := [Gateway.Write (Forward.handler_BaseURL mounted)];
        Gateway.served_record := record; Gateway.served_panicked := false |}, w);
  NewFileKeyProvider := λ _, Ok example_provider;
  issuer_New := λ _ _, Ok tt;
  verifier_NewContextVerifier := λ _ _, Ok tt;
  as_contexts := λ _, {| Reissue.Verify := λ _ _ w, (Err (ErrorNew "context"), w) |};
  as_entry_issuer := λ _, {| Gateway.IssueFromExternal := λ _ w, (Err (ErrorNew "issue"), w) |};
  as_service_issuer := λ _,
    {| Reissue.ErrContextExpired := "expired";
       Reissue.IssueUserOriginService := λ _ w, (Err (ErrorNew "issue"), w);
       Reissue.IssueMachineOriginService := λ _ w, (Err (ErrorNew "issue"), w) |};
  ValidateBinding := λ _ _ _, None;
  iterate := λ results, (map_to_list results).*1;
  IsSupported := λ _, true;
  ErrorWriter_Write := λ _ _, [Gateway.WriteHeader 500];
  Start := λ _ w, (None, w);
  ParseUnverified := λ _, None;
  server_Shutdown := λ _, None;
|}.

#[local] Existing Instance Idp.example_introspection.
#[local] Existing Instance Idp.example_jwt.
#[local] Existing Instance Token.example_errors.

Definition example_config : Config.Config :=
  match Config.Load ReadFile url_Parse Config.example_getenv with
  | Ok cfg => cfg
  | Err _ =>
      {| Config.ListenerMode := ""; Config.Listeners := []; Config.IssuerID := "";
         Config.SigningKey := {| Config.KeyFile_ID := ""; Config.KeyFile_Path := "" |};
         Config.PublishedKeys := []; Config.IDPIssuer := ""; Config.IDPAudience := "";
         Config.IDPAlgorithms := []; Config.IDPIntrospectionClientID := "";
         Config.IDPIntrospectionSecretFile := ""; Config.IDPIntrospectionSecret := "";
         Config.IDPIntrospectionDisabled := false; Config.IDPLegacyEventsWriteScope := false;
         Config.DestinationsFile := ""; Config.TrustedProxyHops := 0 |}
  end.

Lemma example_loaded_config :
  Config.Load ReadFile url_Parse Config.example_getenv = Ok example_config.
Proof. vm_compute. reflexivity. Qed.

Lemma example_prepared : ∃ proc, prepare example_config = Ok proc.
Proof.
  destruct (prepare example_config) as [proc|err] eqn:Hp; [by exists proc|].
  assert (is_ok (prepare example_config) = true) as Hok by (vm_compute; reflexivity).
  rewrite Hp in Hok. discriminate Hok.
Qed.

Lemma example_listens :
  {| Config.listener_Inbound := "internal"; Config.Addr := ":8081" |}
    ∈ Config.Listeners example_config.
Proof. apply list_elem_of_In. vm_compute. by right; left. Qed.

Lemma listeners_serve_catalog_witness :
  ∃ proc mux services,
    prepare example_config = Ok proc ∧
    listenerHandler proc {| Config.listener_Inbound := "internal"; Config.Addr := ":8081" |} = Some mux ∧
    listens_for proc {| Config.listener_Inbound := "internal"; Config.Addr := ":8081" |} mux services.
Proof.
  destruct example_prepared as [proc Hp].
  destruct (listeners_serve_catalog Config.example_getenv example_config proc
    {| Config.listener_Inbound := "internal"; Config.Addr := ":8081" |}
    example_loaded_config Hp example_listens) as (mux & services & Hmux & Hserves).
  exists proc, mux, services. exact (conj Hp (conj Hmux Hserves)).
Defined.

Lemma prepare_spec_witness :
  (∃ proc, prepare example_config = Ok proc) ∧
  ∃ r ds, buildRegistry example_config = Ok (r, ds).
Proof.
  split; [exact example_prepared|].
  destruct (proj1 (prepare_spec Config.example_getenv example_config example_loaded_config)
    example_prepared) as (_ & _ & r & ds & _ & _ & _ & Hr & _).
  exists r, ds. exact Hr.
Defined.

(** ** From a procedure to its pipeline *)

Lemma catalog_segments policies :
  Forall (λ s, clean_segment s = true ∧ s ≠ ".well-known") (Registry.Service <$> Catalog.Bindings policies).
Proof.
  change (Registry.Service <$> Catalog.Bindings policies)
    with (Registry.Service <$> Catalog.Bindings (λ _, ∅)).
  by_computation.
Qed.

Lemma served_procedure {A} public (services : list (string * Httpapi.Endpoint A)) fallback
    method path service m e :
  NoDup services.*1 → (service, e) ∈ services → service ≠ ".well-known" →
  Httpapi.served public services fallback method path [service; m] = Handled e.
Proof.
  intros Hnd Hin Hne. unfold Httpapi.served.
  rewrite !(bool_decide_eq_false_2 ([service; m] = _)) by congruence.
  rewrite !andb_false_r. cbn [andb]. f_equal.
  by rewrite (proj1 (elem_of_list_to_map services service e Hnd) Hin).
Qed.

(** C24. Every registered procedure reaches its pipeline.  On every listener of a
    started gateway, the path of a procedure of the registry is answered by the
    pipeline of its service, in front of the one handler of that service, and
    that pipeline classifies a POST of it as the procedure's own entry. *)
Theorem procedures_reach_their_pipeline {W Key Issuer ContextVerifier : Type}
    `{!Libraries W Key Issuer ContextVerifier} `{!Introspection.IntrospectionWorld W}
    `{!Verifier.JWT (Idp.World W)} `{!Token.KeyErrors} Getenv cfg
    (proc : Process (W := W) (Key := Key) (Issuer := Issuer) (ContextVerifier := ContextVerifier))
    l service m entry unescape :
  Config.Load ReadFile url_Parse Getenv = Ok cfg → prepare cfg = Ok proc →
  l ∈ Config.Listeners cfg →
  service ∈ Registry.Service <$> Catalog.Bindings policiesOf → clean_segment m = true →
  Registry.Lookup (proc_Registry proc) (Registry.procedureOf service m) = Some entry →
  unescape "" = "" → unescape service = service → unescape m = m →
  ∃ mux admitWith mounted,
    listenerHandler proc l = Some mux ∧
    proc_Handlers proc !! Forward.path_of service = Some mounted ∧
    findHandler unescape mux Gateway.MethodPost (Registry.procedureOf service m)
      = Handled (Httpapi.RPCEndpoint
          (service_pipeline proc (Config.listener_Inbound l) admitWith mounted)) ∧
    ∀ r, Gateway.Method r = Gateway.MethodPost →
      Gateway.URL_Path r = Registry.procedureOf service m → IsSupported r = true →
      Gateway.classify IsSupported
        (Gateway.pipelineOf (rpcConfig proc (Config.listener_Inbound l)) admitWith (serveCalls mounted)) r
        = Some entry.
Proof.
  intros Hload Hproc Hl Hs Hm Hlookup Hun Hus Hum.
  destruct (listener_served _ _ _ _ Hload Hproc Hl) as (mux & services & Hmux & Hserves).
  destruct (listens_pipelines _ _ _ _ Hserves) as (admitWith & _ & Hpipelines).
  assert (∃ e, (service, e) ∈ services) as [e He].
  { apply (listens_services _ _ _ _ Hserves) in Hs.
    apply list_elem_of_fmap in Hs as ([s' e] & -> & He). by exists e. }
  destruct (Hpipelines _ _ He) as (mounted & Hmounted & ->).
  pose proof (catalog_segments policiesOf) as Hall. rewrite Forall_forall in Hall.
  destruct (Hall service Hs) as [Hclean Hne].
  destruct (procedure_path service m Hclean Hm) as [Hpath Hsegs].
  exists mux, admitWith, mounted. split; [exact Hmux|]. split; [exact Hmounted|]. split.
  - unfold Registry.procedureOf in *. rewrite (listens_routes _ _ _ _ Hserves unescape Gateway.MethodPost _ Hun);
      [|intros [=]|intros [=]|exact Hpath].
    rewrite Hsegs. cbn [fmap list_fmap]. rewrite Hus, Hum.
    apply served_procedure; [apply (listens_distinct _ _ _ _ Hserves)|exact He|exact Hne].
  - intros r Hpost Hurl Hsup. unfold Gateway.classify. rewrite Hpost, Hsup, Hurl.
    exact Hlookup.
Qed.

Lemma example_registered proc :
  prepare example_config = Ok proc →
  ∃ entry, Registry.Lookup (proc_Registry proc)
             (Registry.procedureOf Catalog.GreetServiceName "Greet") = Some entry.
Proof.
  intros Hp. destruct (process_Registry _ _ (prepare_ok _ _ Hp)) as (ds & Hr & _).
  apply buildRegistry_ok in Hr as (Hb & _ & _).
  assert (proc_Registry proc = Catalog.golden_registry) as ->.
  { pose proof Catalog.golden_build as Hg. cbn [policiesOf resolver example_libraries] in Hb.
    rewrite Hg in Hb. by injection Hb as <-. }
  destruct (Registry.Lookup Catalog.golden_registry
    (Registry.procedureOf Catalog.GreetServiceName "Greet")) as [entry|] eqn:Hl; [by exists entry|].
  assert (bool_decide (is_Some (Registry.Lookup Catalog.golden_registry
    (Registry.procedureOf Catalog.GreetServiceName "Greet"))) = true) as Hs by (vm_compute; reflexivity).
  rewrite Hl in Hs. discriminate Hs.
Qed.

Lemma procedures_reach_their_pipeline_witness :
  ∃ proc mux admitWith mounted,
    prepare example_config = Ok proc ∧
    findHandler (λ s, s) mux "POST" "/greet.v1.GreetService/Greet"
      = Handled (Httpapi.RPCEndpoint (service_pipeline proc "internal" admitWith mounted)).
Proof.
  destruct example_prepared as [proc Hp]. destruct (example_registered proc Hp) as [entry Hentry].
  destruct (procedures_reach_their_pipeline Config.example_getenv example_config proc
    {| Config.listener_Inbound := "internal"; Config.Addr := ":8081" |}
    Catalog.GreetServiceName "Greet" entry (λ s, s) example_loaded_config Hp example_listens
    ltac:(left) eq_refl Hentry eq_refl eq_refl eq_refl)
    as (mux & admitWith & mounted & _ & _ & Hfound & _).
  exists proc, mux, admitWith, mounted. exact (conj Hp Hfound).
Defined.
